(* ===== verification/_CoqProject ===== *)
-Q . S2P
Prelude.v
Enums.v
State.v
GoSort.v
SafeConv.v
GoStrings.v
Utf8.v
Strconv.v
JsonText.v
JsonTextFacts.v
GoTime.v
JsonContract.v
External.v
Validation.v
Overrides.v
Model.v
Types.v
RolloutTypes.v
Placement.v
PlacementFacts.v
PlacementInvariance.v
Cohorts.v
CohortsFacts.v
Planner.v
PlannerFacts.v
Scheduler.v
SchedulerFacts.v
SchedulerCorrect.v
Base64.v
Rbac.v
RoleTemplates.v
RoleTemplatesFacts.v
RbacGate.v
RbacCache.v
Maintenance.v
NsFilter.v
ConnectLimiter.v
Pagination.v
PaginationFacts.v
AsyncOp.v
DeliveryProtocol.v
DeliveryProtocolFacts.v
Compatibility.v
Redaction.v
DeliveryStore.v
Control.v
ControlFacts.v
Reconciler.v
ReconcilerFacts.v
StatusIngest.v
StatusIngestFacts.v
StatusRecords.v
StatusExamples.v
DeploymentControl.v
DeploymentControlFacts.v
DeliveryLoop.v
DeploymentExamples.v
ConfigMerge.v
ConfigMergeFacts.v
