(* ===== verification/Prelude.v ===== *)
(** * Astronomer: a verification development of the management plane's core logic

    Astronomer manages a fleet of Kubernetes clusters from one server.  This
    development models the parts of the server that decide something: who may do
    what (access control), which clusters a delivery reaches, in which order and
    when (placement, cohorts, planner, scheduler, user control, maintenance), which
    configuration they get, what the reports of their agents change (status
    ingestion), what a caller sees of a cluster through the tunnel, and how lists
    are cut into pages.  HTTP, SQL drivers, Kubernetes clients and generated code are around
    these parts; they appear as parameters, or as the tables a request acts on.

    ** Parts, files and sources (paths under src/)

    Shared ground.
    - Prelude (this file): identifiers, time, machine integers, the error monad
      [res] of Go's (value, error) results, its notations, tactics ([res_inv],
      [bool_props], [eval_tests]) and hints, lemmas on lists and options.
    - GoSort, GoStrings, Utf8, Strconv, Base64: the functions of Go's sort, strings,
      path, unicode/utf8, strconv and encoding/base64 the source calls, on bytes.
    - GoTime: the calendar of package time, and RFC 3339 texts in both directions.
    - JsonText (JsonTextFacts): encoding/json on bytes, as the scanner, parser and
      printer of values and the reading of struct fields.
    - JsonContract: internal/jsoncontract/decode.go over JsonText.
    - External: the third-party and cryptographic functions, as the operations of
      a class, what is relied on of them as the laws of another ([ExternalLaws]),
      and an instance that satisfies the laws.  JSON values are trees there; where
      the code handles JSON as bytes, JsonText relates the two.
    - SafeConv: pkg/safeconv, every conversion at its width.

    Delivery.
    - Enums, State: internal/delivery/model/enums.gen.go and
      internal/delivery/state/state.go: states, transition tables, fenced checks,
      counters.
    - Validation, Overrides, Model, Types: internal/delivery/model: violations,
      digests, target overrides, placements, strategies, sources and bundle
      versions, one record per document and one function per validator.
    - RolloutTypes: internal/delivery/rollout/types.go.
    - Placement (facts: PlacementFacts, PlacementInvariance):
      internal/delivery/placement/placement.go; [Evaluate] as one fold over the
      candidates.
    - Cohorts (CohortsFacts): internal/delivery/rollout/cohorts.go.
    - Planner (PlannerFacts): internal/delivery/rollout/planner.go; [Create] over
      the class [PlanningTransaction], the interface of the same name, and
      [PlanningLaws], what its implementation promises.
    - Scheduler (SchedulerFacts, SchedulerCorrect):
      internal/delivery/rollout/scheduler.go; [Evaluate] maps a snapshot to a
      decision.
    - AsyncOp: internal/delivery/asyncop/receipt.go; the table of idempotency keys
      is a finite map.
    - DeliveryStore: the tables of a rollout as a record of finite maps, the
      statements of internal/db/queries/delivery.sql on them and the triggers of
      migration 00036 that count runtime changes; [keeps] is what every writer of
      the tables preserves.
    - Control (ControlFacts): internal/delivery/rollout/control.go; a request is a
      transaction on the tables, a fault one of three outcomes.
    - Reconciler (ReconcilerFacts): internal/delivery/rollout/postgres_reconciler.go;
      a [Turn] holds what happens around a turn: the other writers between its
      claim, its reads and its transaction, its clocks and faults.
    - DeliveryProtocol (DeliveryProtocolFacts): the status report of
      pkg/protocol/delivery.go and delivery_observation.go, its validation and its
      semantic digest.
    - Compatibility: internal/delivery/compatibility and the digest of the controller
      set in deploy/flux/embed.go.
    - Redaction: internal/redaction/redaction.go; the six expressions as terms of a
      small language of regular expressions with leftmost-first matching.
    - StatusIngest (StatusIngestFacts, StatusRecords, StatusExamples):
      internal/delivery/status; [Ingest] is a transaction on the tables, extended by
      those of inventories, receipts, targets and system releases, with the
      statements of delivery.sql and delivery_system.sql it runs and the widths of
      the columns it writes.  StatusIngestFacts says what a report cannot do,
      StatusRecords what it does, StatusExamples runs it.
    - DeploymentControl (DeploymentControlFacts, DeploymentExamples):
      internal/delivery/deployment, user control of one deployment and the deletion of
      a target, with the transaction of internal/handler/delivery/target.go around it;
      [others] is what other transactions commit between its statements.
    - DeliveryLoop: reconcilers, users of rollouts and deployments, deletions, agents
      and writers of runtime state interleaved on one set of tables, and examples of
      whole turns.
    - ConfigMerge (ConfigMergeFacts): internal/delivery/configuration/merge.go.
    - Maintenance: internal/maintenance/window.go; cron schedules and time zones are
      the class [Cron] with [CronLaws].

    Access control.
    - Rbac: internal/rbac/types.go, engine.go, native.go, kubernetes.go.
    - RoleTemplates (RoleTemplatesFacts): internal/rbac/templates.go and the
      inheritance of engine.go.
    - RbacGate: internal/server/middleware/rbac.go, rbac_queries.go and
      internal/reqctx/scope.go; the queries are the class [BindingStore].
    - RbacCache: internal/server/middleware/rbac_cache.go; one step per critical
      section, a system of loads, commits and invalidations around it.

    Tunnel.
    - NsFilter: internal/tunnel/nsfilter.go and the watch loop of proxy.go.
    - ConnectLimiter: internal/tunnel/connect_limiter.go; handlers interleave.

    Lists.
    - Pagination (PaginationFacts): internal/pagination; pages and offsets, plain
      cursors, and signed cursors from their bytes on.

    ** How they interact

    A target's placement selects clusters (Placement); the planner freezes the
    selection, the cohorts (Cohorts) and the approval gates under digests
    (Planner); users approve, pause, retry or roll back the frozen rollout
    (Control, over AsyncOp); reconcilers claim rollouts, read or recall their rows,
    ask the scheduler, which turns the frozen plan and the reported states into
    transitions and releases (Scheduler, over State), and commit its decision
    (Reconciler, over DeliveryStore).  Users reconcile, suspend or resume what is
    deployed, or delete its target (DeploymentControl).  Agents report what they see (DeliveryProtocol);
    an accepted report is redacted (Redaction), judged (Compatibility), stored and
    moves the clusters of rollouts (StatusIngest), which the reconcilers read in
    their next turn.  A route's gate
    loads the caller's bindings, through the cache, and asks the engine
    (RbacGate, RbacCache, Rbac); role templates say which rules a role starts with
    (RoleTemplates); the tunnel filters what the caller may not see (NsFilter).

    ** What the theorems show

    - Scheduler: releases stay within the concurrency and availability budgets,
      reach only connected pending clusters of the active cohort behind passed
      gates, follow the tables under fences; rollback and success happen exactly
      when they should; a decision without effect is never a silent stall;
      [Evaluate] does not panic on a valid plan and does not depend on row order.
    - Planner and Placement: a plan passes its own validation and freezes the
      previewed selection; a retried creation returns the committed plan;
      placement selects exactly the eligible clusters, explains every candidate,
      reveals nothing of other projects and ignores the order of its inputs.
    - Cohorts: they partition the selection and keep each strategy's promise.
    - Control: an action or approval takes effect at most once whatever faults and
      requests follow, and only at the fence the caller saw; an approval carries the
      digest of the gate it names.
    - Reconciler and DeliveryLoop: a decision commits only on the rows it was made
      from and under the last claim of its rollout, moves rows along the tables
      and within the concurrency of the strategy, and excludes user actions.  An
      example shows the one writer the runtime generation misses.  With the reports
      of agents among the steps, cluster rows still only follow the tables.
    - DeploymentControl: an action on a deployment takes effect once, at the generation
      its caller saw, and outdates older actions and reports; a deletion marks exactly
      the live deployments of its target, once.  Examples show deletions that
      a reconcile, a running rollout or an aborted one keeps from ending.
    - Status: an accepted report is well formed and its digest stands for what it
      says; it changes rows of its own cluster only, entirely or not at all, counts
      once, is quiet without news, and with news is recorded completely.  Examples
      show the reports that are lost or refused.
    - Compatibility and Redaction: a cluster is compatible exactly when it meets the
      conditions; nothing below a sensitive key survives redaction, at any depth.
    - Pagination: a signed cursor comes back as it was under every ring that holds
      its key, and nothing else is accepted; bindings stand for their values; the
      offered offsets visit every item once.
    - JSON and time texts: printing and parsing, quoting and unquoting, formatting
      and reading times are inverse.
    - ConfigMerge: under every path the last layer decides; conflicts are real.
    - Access control: the gates answer exactly what the stored rows grant; list
      filters agree with the per-object check; inherited template grants are
      those of the ancestors, and inheritance resolves exactly without cycles;
      the cache never serves bindings read before an invalidation.
    - Maintenance: an operation is blocked exactly when its windows say so, and a
      closing time is that of the last opening.
    - Tunnel: a filtered list holds only allowed items and all of them; a filtered
      watch stream does not depend on how it is cut into reads; failed connects
      are bounded per window.
    - Documents: validators accept exactly their specification, digests do not
      depend on the order of sets, the override merge is right-biased and deep.

    ** Bounds and fuel

    Loops over slices are folds; a few loops are not structural.  Template
    inheritance recurses with the number of templates plus one as fuel, which
    [RoleTemplatesFacts] proves enough: a longer path repeats a template and is
    reported as a cycle.  The search for a window's last opening stops at the
    first opening after the present; [close_fuel] allows a step per second of the
    duration and two more, and openings lie on whole seconds by the laws of [Cron].  The eviction loop
    of the cache and the line loop of the watch filter shorten their list or
    buffer in every round and run on its length.  The JSON parser recurses with twice the length
    of the text and one more as fuel; more fuel changes no answer, and every printed
    value is parsed within it (JsonTextFacts).  A page walk takes one request per
    item and one more at most.  Fuel that ran out is the error
    [EFuel], and the theorems show it does not occur.  Integers are [Z] with the
    wrap-around written out where the code can reach it (fences, generations,
    conversions); the generation counter of the cache is 64 bits wide and the
    theorem on it takes fewer than 2^64 steps.

    ** Not modelled

    The rest of the repository is transport, storage or generated code: the
    handlers and composition of the server, sqlc and OpenAPI output, the agent,
    worker and command line, artifact transfer, source providers and resolvers,
    authentication and cryptography, and integrations with scanners, monitoring and
    notification.  Of the rollout package, the PostgreSQL store behind the planner is
    the interface the planner sees.  Of the wire protocol, the assignments the server
    sends to agents are data.  System rollouts are statements beside the rollout
    loop; the writers of the loop stand for them.  Metrics, logs and
    audit sinks are left out where they do not change a result.  Stored JSON documents,
    YAML, semantic versions, URLs, cron expressions and hashes are parameters with the
    laws named in their classes; the JSON text of cursors is not. *)

From Stdlib Require Import ZArith Lia.
From stdpp Require Import base gmap strings list sorting numbers.

#[global] Set Default Proof Using "Type".

(** ** Identifiers, time and machine integers

    A [uuid.UUID] is Go's [[16]byte]: the record keeps the raw bytes, so that
    [bytes.Compare] on identifiers is the byte order of [uuid_bytes].  A
    [time.Time] is the number of nanoseconds since Go's zero time, so that
    [Time.IsZero] is [t = 0]; a [time.Duration] is a number of nanoseconds. *)

Record uuid := UUID { uuid_bytes : string }.

#[global] Instance uuid_eq_dec : EqDecision uuid.
Proof. solve_decision. Defined.

#[global] Instance uuid_countable : Countable uuid.
Proof. apply (inj_countable' uuid_bytes UUID). by intros []. Defined.

Definition zero_byte : Ascii.ascii := Ascii.ascii_of_nat 0.

Fixpoint repeat_ascii (n : nat) (c : Ascii.ascii) : string :=
  match n with O => EmptyString | S n' => String c (repeat_ascii n' c) end.

(** [uuid.Nil] *)
Definition uuid_Nil : uuid := UUID (repeat_ascii 16 zero_byte).

Abbreviation time := Z (only parsing).
Abbreviation duration := Z (only parsing).

Definition MaxInt64 : Z := (2 ^ 63 - 1)%Z.
Definition MinInt64 : Z := (- 2 ^ 63)%Z.
Definition MaxInt32 : Z := (2 ^ 31 - 1)%Z.
Definition MinInt32 : Z := (- 2 ^ 31)%Z.
Definition MaxUint64 : Z := (2 ^ 64 - 1)%Z.
Definition MaxUint32 : Z := (2 ^ 32 - 1)%Z.

(** Wrap-around of the unsigned and signed 64-bit operations of Go. *)
Definition wrapU64 (x : Z) : Z := (x mod 2 ^ 64)%Z.
Definition wrapS64 (x : Z) : Z := ((x + 2 ^ 63) mod 2 ^ 64 - 2 ^ 63)%Z.

Lemma wrapU64_small x : (0 <= x <= MaxUint64)%Z -> wrapU64 x = x.
Proof. unfold wrapU64, MaxUint64. intros. apply Z.mod_small. lia. Qed.

Lemma wrapS64_small x : (MinInt64 <= x <= MaxInt64)%Z -> wrapS64 x = x.
Proof.
  unfold wrapS64, MinInt64, MaxInt64. intros. rewrite Z.mod_small; lia.
Qed.

(** ** Go's boolean tests

    [a == b] of the source is the boolean of a decidable equality. *)

Declare Scope go_scope.
Delimit Scope go_scope with go.
Notation "a == b" := (bool_decide (a = b)) (at level 70, no associativity) : go_scope.
Notation "a != b" := (negb (bool_decide (a = b))) (at level 70, no associativity) : go_scope.
#[global] Open Scope go_scope.

(** ** Errors

    A Go [error] value.  Error texts are kept as the format string of the
    source; nothing in the modelled code branches on the rendered text.
    [EPanic] is a run-time panic: an index out of range or a nil dereference.
    [EFuel] is no value of the program: a recursion the model bounds by fuel
    returns it when the bound is reached, and the theorems show it never is. *)

Inductive ValidationCode :=
  | VRequired | VInvalid | VUnsupported | VConflict | VLimitExceeded
  | VNotImmutable | VSecretNotAllowed.

Record Violation := {
  violation_Field : string;
  violation_Code : ValidationCode;
  violation_Message : string;
}.

(** [state.ErrorCode] *)
Inductive StateErrorCode := CodeInvalidState | CodeInvalidTransition | CodeStaleFenceState.

(** [rollout.ErrorCode] *)
Inductive RolloutErrorCode :=
  | CodeInvalidInput | CodeIdempotencyConflict | CodePreviewStale
  | CodeTargetChanged | CodeNoClusters | CodeInvalidCohorts | CodeLeaseLost
  | CodeStaleFence | CodeInvariant.

(** [placement.ErrorCode] *)
Inductive PlacementErrorCode :=
  | PCodeInvalidInput | PCodeDuplicateClusterConflict | PCodePreviewStale
  | PCodeAllConfirmationRequired.

Inductive error :=
  | EText (format : string)
  | EValidation (violations : list Violation)
  | ETransition (code : StateErrorCode) (machine from to : string)
      (expectedFence actualFence : Z)
  | ERollout (code : RolloutErrorCode) (field : string) (cause : error)
  | EPlacement (code : PlacementErrorCode) (cluster : uuid) (cause : error)
  | EPanic
  | EFuel.

#[global] Instance ValidationCode_eq_dec : EqDecision ValidationCode.
Proof. solve_decision. Defined.
#[global] Instance Violation_eq_dec : EqDecision Violation.
Proof. solve_decision. Defined.
#[global] Instance StateErrorCode_eq_dec : EqDecision StateErrorCode.
Proof. solve_decision. Defined.
#[global] Instance RolloutErrorCode_eq_dec : EqDecision RolloutErrorCode.
Proof. solve_decision. Defined.
#[global] Instance PlacementErrorCode_eq_dec : EqDecision PlacementErrorCode.
Proof. solve_decision. Defined.

(** A Go function returning [(A, error)]: the value, or the error of an early
    return. *)
Inductive res (A : Type) := Ok (a : A) | Err (e : error).
Arguments Ok {A} a.
Arguments Err {A} e.

#[global] Instance res_ret : MRet res := λ A a, Ok a.
#[global] Instance res_bind : MBind res :=
  λ A B f m, match m with Ok a => f a | Err e => Err e end.
#[global] Instance res_fmap : FMap res :=
  λ A B f m, match m with Ok a => Ok (f a) | Err e => Err e end.

Definition is_ok {A} (r : res A) : bool :=
  match r with Ok _ => true | Err _ => false end.

Lemma is_ok_Ok {A} (r : res A) : is_ok r = true -> exists a, r = Ok a.
Proof. destruct r as [a|]; [by exists a | done]. Qed.

(** [if cond { return err }] *)
Definition fail_if (cond : bool) (e : error) : res unit :=
  if cond then Err e else Ok tt.

(** [if err := r; err != nil { return wrap(err) }] *)
Definition wrap_err {A} (w : error -> error) (r : res A) : res A :=
  match r with Ok a => Ok a | Err e => Err (w e) end.

Fixpoint res_iter {A} (f : A -> res unit) (l : list A) : res unit :=
  match l with
  | [] => Ok tt
  | x :: l' => f x;; res_iter f l'
  end.

Fixpoint res_foldl {A S} (f : S -> A -> res S) (s : S) (l : list A) : res S :=
  match l with
  | [] => Ok s
  | x :: l' => s' ← f s x; res_foldl f s' l'
  end.

Lemma res_bind_Ok {A B} (m : res A) (f : A -> res B) b :
  m ≫= f = Ok b <-> exists a, m = Ok a /\ f a = Ok b.
Proof. destruct m; cbn; naive_solver. Qed.

Lemma fail_if_Ok c e u : fail_if c e = Ok u <-> c = false.
Proof. destruct c, u; cbn; split; congruence. Qed.

Lemma wrap_err_Ok {A} w (r : res A) a : wrap_err w r = Ok a <-> r = Ok a.
Proof. destruct r; cbn; split; congruence. Qed.

Lemma res_iter_Ok {A} (f : A -> res unit) l u :
  res_iter f l = Ok u <-> Forall (fun x => f x = Ok tt) l.
Proof.
  destruct u. induction l as [|x l IH]; cbn [res_iter].
  - split; [constructor | done].
  - rewrite Forall_cons_iff, <- IH, res_bind_Ok.
    split; [intros ([] & ? & ?) | intros []]; eauto.
Qed.

Lemma res_iter_Err {A} (f : A -> res unit) l e :
  res_iter f l = Err e -> exists x, x ∈ l /\ f x = Err e.
Proof.
  induction l as [|x l IH]; cbn [res_iter]; [done|]. destruct (f x) as [u|e'] eqn:E; cbn.
  - intros (y & Hy & Hf)%IH. exists y. split; [by right | done].
  - intros [= <-]. exists x. split; [by left | done].
Qed.

Section res_foldl.
Context {A S : Type} (f : S -> A -> res S).

Lemma res_foldl_app s l1 l2 :
  res_foldl f s (l1 ++ l2) = s' ← res_foldl f s l1; res_foldl f s' l2.
Proof.
  revert s. induction l1 as [|x l1 IH]; intros s; [done|].
  cbn. destruct (f s x); cbn; [apply IH | done].
Qed.

(** An invariant of every successful step is an invariant of the loop. *)
Lemma res_foldl_inv (P : S -> Prop) s l s' :
  (forall s x s', x ∈ l -> P s -> f s x = Ok s' -> P s') ->
  P s -> res_foldl f s l = Ok s' -> P s'.
Proof.
  revert s. induction l as [|x l IH]; intros s Hstep Hs; cbn [res_foldl].
  - by intros [= <-].
  - rewrite res_bind_Ok. intros (s1 & Hf & Hl).
    eapply (IH s1); [|eapply Hstep; [|done|done]; left|done].
    intros ????; eapply Hstep. by right.
Qed.

(** Every element of the list of a successful loop had a successful step. *)
Lemma res_foldl_steps s l s' :
  res_foldl f s l = Ok s' -> Forall (fun x => exists a b, f a x = Ok b) l.
Proof.
  revert s. induction l as [|x l IH]; intros s; cbn [res_foldl]; [constructor|].
  rewrite res_bind_Ok. intros (s1 & Hf & Hl). constructor; eauto.
Qed.
End res_foldl.

(** A loop that writes one entry of a table in every step, each at its own key:
    an entry is written by the step that names it, or left as it was. *)
Lemma res_foldl_table {A S K V} `{Countable K} (f : S -> A -> res S) (table : S -> gmap K V)
    (key : A -> option K) (W : A -> option V -> V -> Prop) l s s' :
  (forall s a s', a ∈ l -> f s a = Ok s' ->
     exists k v, key a = Some k /\ W a (table s !! k) v /\ table s' = <[k := v]> (table s)) ->
  NoDup (map key l) -> res_foldl f s l = Ok s' ->
  forall k, (exists a v, a ∈ l /\ key a = Some k /\ W a (table s !! k) v /\ table s' !! k = Some v) \/
            ((forall a, a ∈ l -> key a <> Some k) /\ table s' !! k = table s !! k).
Proof.
  revert s. induction l as [|x l IH]; intros s Hstep Hnd; cbn [res_foldl map] in *.
  - intros [= <-] k. right. split; [by intros a ?%elem_of_nil | done].
  - rewrite res_bind_Ok. intros (s1 & Hx & Hl) k. inversion Hnd as [|? ? Hnx Hnd']; subst; clear Hnd.
    destruct (Hstep s x s1 ltac:(by left) Hx) as (kx & v & Hk & HW & Hs1).
    assert (Hkx : forall a, a ∈ l -> key a <> Some kx).
    { intros a Ha E. apply Hnx, list_elem_of_fmap. exists a. split; congruence. }
    destruct (IH s1 ltac:(intros; eapply Hstep; [by right | done]) Hnd' Hl k)
      as [(a & w & Ha & Hka & HWa & Hw)|[Hno Hsame]].
    + left. exists a, w. rewrite Hs1, lookup_insert_ne in HWa by (intros ->; by eapply Hkx).
      split_and!; [by right | done..].
    + destruct (decide (kx = k)) as [<-|Hne].
      * left. exists x, v. rewrite Hsame, Hs1, lookup_insert_eq. split_and!; [by left | done..].
      * right. rewrite Hsame, Hs1, lookup_insert_ne by done. split; [|done].
        intros a [->|Ha]%elem_of_cons; [congruence | by apply Hno].
Qed.

(** A loop whose steps commute (as far as they succeed) does not depend on the
    order of its input; the state may be restricted to an invariant. *)
Lemma res_foldl_perm {A S} (f : S -> A -> res S) (I : S -> Prop) l k :
  (forall s x s', I s -> f s x = Ok s' -> I s') ->
  (forall s x y r, I s -> f s x ≫= (fun s' => f s' y) = Ok r ->
     f s y ≫= (fun s' => f s' x) = Ok r) ->
  l ≡ₚ k -> forall s r, I s -> res_foldl f s l = Ok r -> res_foldl f s k = Ok r.
Proof.
  intros Hinv Hcomm Hp. induction Hp as [|x l k _ IH|x y l|l k j _ IH1 _ IH2]; intros s r Hs.
  - done.
  - cbn [res_foldl]. rewrite !res_bind_Ok. intros (s' & Hx & Hl). eauto.
  - cbn [res_foldl]. rewrite !res_bind_Ok. intros (s1 & Hy & Hl). rewrite res_bind_Ok in Hl.
    destruct Hl as (s2 & Hx & Hl).
    assert (Hc : f s x ≫= (fun s' => f s' y) = Ok s2).
    { apply Hcomm; [done|]. by rewrite Hy. }
    apply res_bind_Ok in Hc as (s1' & Hx' & Hy'). exists s1'. by rewrite Hx', Hy'.
  - eauto.
Qed.

(** [res_inv] takes a hypothesis [r = Ok x] about a chain of guards and early
    returns apart into one equation per step. *)
Ltac res_inv_one :=
  match goal with
  | H : (_ ≫= _) = Ok _ |- _ =>
      apply res_bind_Ok in H; destruct H as (? & ? & H)
  | H : fail_if _ _ = Ok ?u |- _ =>
      apply fail_if_Ok in H; try clear u
  | H : wrap_err _ _ = Ok _ |- _ => apply wrap_err_Ok in H
  | H : Ok _ = Ok _ |- _ => injection H as H; subst
  | H : Err _ = Ok _ |- _ => discriminate H
  | H : mret _ = Ok _ |- _ => cbv [mret res_ret] in H
  end.
Ltac res_inv := repeat (res_inv_one; cbn beta in *).

(** A decidable goal on closed terms, evaluated. *)
Ltac decide_now := apply (bool_decide_unpack _); vm_compute; exact I.

(** Boolean guards as propositions. *)
Ltac bool_props :=
  repeat match goal with
  | H : (_ && _)%bool = true |- _ => apply andb_true_iff in H as [? ?]
  | H : (_ || _)%bool = false |- _ => apply orb_false_iff in H as [? ?]
  | H : negb _ = true |- _ => apply negb_true_iff in H
  | H : negb _ = false |- _ => apply negb_false_iff in H
  | H : bool_decide _ = true |- _ => apply bool_decide_eq_true in H
  | H : bool_decide _ = false |- _ => apply bool_decide_eq_false in H
  | H : (_ <? _)%Z = true |- _ => apply Z.ltb_lt in H
  | H : (_ <? _)%Z = false |- _ => apply Z.ltb_ge in H
  | H : (_ <=? _)%Z = true |- _ => apply Z.leb_le in H
  | H : (_ <=? _)%Z = false |- _ => apply Z.leb_gt in H
  | H : (_ =? _)%Z = true |- _ => apply Z.eqb_eq in H
  | H : (_ =? _)%Z = false |- _ => apply Z.eqb_neq in H
  end.

Lemma exists_elem_nil {A} (P : A -> Prop) : (exists y, y ∈ [] /\ P y) <-> False.
Proof. split; [|done]. by intros (y & ?%elem_of_nil & _). Qed.

Lemma exists_elem_cons {A} (P : A -> Prop) x l :
  (exists y, y ∈ x :: l /\ P y) <-> P x \/ exists y, y ∈ l /\ P y.
Proof.
  setoid_rewrite elem_of_cons. split.
  - intros (y & [->|Hy] & HP); eauto.
  - intros [HP|(y & Hy & HP)]; eauto.
Qed.

Lemma set_nonempty_size {A} `{Countable A} (X : gset A) :
  (0 <? Z.of_nat (size X))%Z = true <-> exists x, x ∈ X.
Proof.
  rewrite Z.ltb_lt. split.
  - intros Hsz. destruct (set_choose_or_empty X) as [?|He]; [done|].
    apply leibniz_equiv in He. subst. rewrite size_empty in Hsz. lia.
  - intros [x Hx]. destruct (size X) eqn:E; [|lia]. apply size_empty_inv in E. set_solver.
Qed.

Lemma and_iff_compat (A B C D : Prop) : (A <-> B) -> (C <-> D) -> (A /\ C <-> B /\ D).
Proof. tauto. Qed.

Create HintDb go.
#[export] Hint Rewrite @res_bind_Ok @fail_if_Ok @wrap_err_Ok @res_iter_Ok : go.

(** Evaluate the equality tests on constants of an enumeration. *)
Ltac eval_tests :=
  repeat match goal with
  | |- context [bool_decide ?P] =>
      let b := eval vm_compute in (bool_decide P) in
      lazymatch b with
      | true => change (bool_decide P) with true
      | false => change (bool_decide P) with false
      end
  | H : context [bool_decide ?P] |- _ =>
      let b := eval vm_compute in (bool_decide P) in
      lazymatch b with
      | true => change (bool_decide P) with true in H
      | false => change (bool_decide P) with false in H
      end
  end; cbv iota in *.
