(* ===== verification/Enums.v ===== *)
(** * Delivery state enumerations

    The closed string enumerations of
    [internal/delivery/model/enums.gen.go].  A Go value of such a type is a
    string: the constants of the source are constructors, and a string that is
    none of them is the [Other] constructor, so that [Valid] has something to
    reject. *)

From S2P Require Import Prelude.
From stdpp Require Import base strings list.

(** [contains] of [model/rollout.go] *)
Fixpoint contains {A} `{EqDecision A} (values : list A) (wanted : A) : bool :=
  match values with
  | [] => false
  | value :: rest => if value == wanted then true else contains rest wanted
  end.

Lemma contains_elem_of {A} `{EqDecision A} (values : list A) wanted :
  contains values wanted = true <-> wanted ∈ values.
Proof.
  induction values as [|v values IH]; cbn.
  - split; [done | by intros ?%not_elem_of_nil].
  - rewrite elem_of_cons, <- IH. case_bool_decide; naive_solver.
Qed.

Inductive RolloutState :=
  | RolloutDraft | RolloutResolving | RolloutAwaitingApproval | RolloutQueued
  | RolloutProgressing | RolloutPaused | RolloutRejected | RolloutAborted
  | RolloutSucceeded | RolloutFailed | RolloutRollingBack | RolloutRolledBack
  | RolloutRollbackFailed
  | RolloutStateOther (raw : string).

Definition AllRolloutStates : list RolloutState :=
  [RolloutDraft; RolloutResolving; RolloutAwaitingApproval; RolloutQueued;
   RolloutProgressing; RolloutPaused; RolloutRejected; RolloutAborted;
   RolloutSucceeded; RolloutFailed; RolloutRollingBack; RolloutRolledBack;
   RolloutRollbackFailed].

#[global] Instance RolloutState_eq_dec : EqDecision RolloutState.
Proof. solve_decision. Defined.

Definition RolloutState_Valid (s : RolloutState) : bool :=
  contains AllRolloutStates s.

Definition RolloutState_string (s : RolloutState) : string :=
  match s with
  | RolloutDraft => "draft"
  | RolloutResolving => "resolving"
  | RolloutAwaitingApproval => "awaiting_approval"
  | RolloutQueued => "queued"
  | RolloutProgressing => "progressing"
  | RolloutPaused => "paused"
  | RolloutRejected => "rejected"
  | RolloutAborted => "aborted"
  | RolloutSucceeded => "succeeded"
  | RolloutFailed => "failed"
  | RolloutRollingBack => "rolling_back"
  | RolloutRolledBack => "rolled_back"
  | RolloutRollbackFailed => "rollback_failed"
  | RolloutStateOther raw => raw
  end.

Inductive RolloutClusterState :=
  | RolloutClusterPending | RolloutClusterReleased | RolloutClusterAcknowledged
  | RolloutClusterReconciling | RolloutClusterReady | RolloutClusterBlocked
  | RolloutClusterTimedOut | RolloutClusterFailed | RolloutClusterSkipped
  | RolloutClusterRollingBack | RolloutClusterReadyPrevious
  | RolloutClusterRollbackFailed | RolloutClusterAborted
  | RolloutClusterStateOther (raw : string).

Definition AllRolloutClusterStates : list RolloutClusterState :=
  [RolloutClusterPending; RolloutClusterReleased; RolloutClusterAcknowledged;
   RolloutClusterReconciling; RolloutClusterReady; RolloutClusterBlocked;
   RolloutClusterTimedOut; RolloutClusterFailed; RolloutClusterSkipped;
   RolloutClusterRollingBack; RolloutClusterReadyPrevious;
   RolloutClusterRollbackFailed; RolloutClusterAborted].

#[global] Instance RolloutClusterState_eq_dec : EqDecision RolloutClusterState.
Proof. solve_decision. Defined.

Definition RolloutClusterState_Valid (s : RolloutClusterState) : bool :=
  contains AllRolloutClusterStates s.

Definition RolloutClusterState_string (s : RolloutClusterState) : string :=
  match s with
  | RolloutClusterPending => "pending"
  | RolloutClusterReleased => "released"
  | RolloutClusterAcknowledged => "acknowledged"
  | RolloutClusterReconciling => "reconciling"
  | RolloutClusterReady => "ready"
  | RolloutClusterBlocked => "blocked"
  | RolloutClusterTimedOut => "timed_out"
  | RolloutClusterFailed => "failed"
  | RolloutClusterSkipped => "skipped"
  | RolloutClusterRollingBack => "rolling_back"
  | RolloutClusterReadyPrevious => "ready_previous"
  | RolloutClusterRollbackFailed => "rollback_failed"
  | RolloutClusterAborted => "aborted"
  | RolloutClusterStateOther raw => raw
  end.

Inductive DeploymentPhase :=
  | DeploymentPending | DeploymentBlocked | DeploymentApplying
  | DeploymentReady | DeploymentDegraded | DeploymentFailed
  | DeploymentSuspended | DeploymentDeleting | DeploymentRemoved
  | DeploymentUnknown
  | DeploymentPhaseOther (raw : string).

Definition AllDeploymentPhases : list DeploymentPhase :=
  [DeploymentPending; DeploymentBlocked; DeploymentApplying; DeploymentReady;
   DeploymentDegraded; DeploymentFailed; DeploymentSuspended;
   DeploymentDeleting; DeploymentRemoved; DeploymentUnknown].

#[global] Instance DeploymentPhase_eq_dec : EqDecision DeploymentPhase.
Proof. solve_decision. Defined.

Definition DeploymentPhase_Valid (s : DeploymentPhase) : bool :=
  contains AllDeploymentPhases s.

Definition DeploymentPhase_string (s : DeploymentPhase) : string :=
  match s with
  | DeploymentPending => "pending"
  | DeploymentBlocked => "blocked"
  | DeploymentApplying => "applying"
  | DeploymentReady => "ready"
  | DeploymentDegraded => "degraded"
  | DeploymentFailed => "failed"
  | DeploymentSuspended => "suspended"
  | DeploymentDeleting => "deleting"
  | DeploymentRemoved => "removed"
  | DeploymentUnknown => "unknown"
  | DeploymentPhaseOther raw => raw
  end.

(** An enumeration of the source: the list of its constants and the rendering
    [string(x)] of a value.  The generic transition machine of
    [internal/delivery/state] is written against this interface. *)
Class GoEnum (T : Type) := {
  enum_eq_dec :: EqDecision T;
  enum_all : list T;
  enum_string : T -> string;
}.

#[global] Instance RolloutState_enum : GoEnum RolloutState :=
  {| enum_all := AllRolloutStates; enum_string := RolloutState_string |}.
#[global] Instance RolloutClusterState_enum : GoEnum RolloutClusterState :=
  {| enum_all := AllRolloutClusterStates; enum_string := RolloutClusterState_string |}.
#[global] Instance DeploymentPhase_enum : GoEnum DeploymentPhase :=
  {| enum_all := AllDeploymentPhases; enum_string := DeploymentPhase_string |}.

(** The conversions of a stored string, [model.RolloutState(text)] and
    [model.RolloutClusterState(text)]. *)
Definition RolloutState_of (text : string) : RolloutState :=
  default (RolloutStateOther text) (List.find (fun s => RolloutState_string s == text) AllRolloutStates).

Definition RolloutClusterState_of (text : string) : RolloutClusterState :=
  default (RolloutClusterStateOther text)
    (List.find (fun s => RolloutClusterState_string s == text) AllRolloutClusterStates).

Lemma RolloutState_of_string text : RolloutState_string (RolloutState_of text) = text.
Proof.
  unfold RolloutState_of. destruct (List.find _ _) as [s|] eqn:E; [|done].
  apply List.find_some in E as [_ E]. by apply bool_decide_eq_true in E.
Qed.

Lemma RolloutClusterState_of_string text : RolloutClusterState_string (RolloutClusterState_of text) = text.
Proof.
  unfold RolloutClusterState_of. destruct (List.find _ _) as [s|] eqn:E; [|done].
  apply List.find_some in E as [_ E]. by apply bool_decide_eq_true in E.
Qed.

Lemma RolloutState_of_valid s : RolloutState_Valid s = true -> RolloutState_of (RolloutState_string s) = s.
Proof. by destruct s. Qed.

Lemma RolloutClusterState_of_valid s :
  RolloutClusterState_Valid s = true -> RolloutClusterState_of (RolloutClusterState_string s) = s.
Proof. by destruct s. Qed.
