(* ===== verification/State.v ===== *)
(** * Delivery state machines

    [internal/delivery/state/state.go]: the transition tables of rollouts,
    rollout clusters and deployments, the fenced compare-and-swap checks over
    them, fence claims, and the counters derived from cluster states. *)

From Stdlib Require Import ZArith Lia.
From S2P Require Import Prelude Enums.
From stdpp Require Import base strings list relations numbers.

Open Scope Z_scope.
#[local] Arguments Z.add : simpl never.
#[local] Arguments Z.of_nat : simpl never.

Module State.

(** [transitionTable[T]] maps a state to the set of states it may move to;
    [set(...)] is the list of its members. *)
Definition allows {T} `{EqDecision T} (table : T -> list T) (from to : T) : bool :=
  contains (table from) to.

Record Rollout := { Rollout_State : RolloutState; Rollout_Fence : Z }.
Record RolloutCluster := { RolloutCluster_State : RolloutClusterState; RolloutCluster_Fence : Z }.
Record Deployment := { Deployment_Phase : DeploymentPhase; Deployment_Fence : Z }.

Definition rolloutTransitions (from : RolloutState) : list RolloutState :=
  match from with
  | RolloutDraft => [RolloutResolving; RolloutAborted]
  | RolloutResolving => [RolloutAwaitingApproval; RolloutQueued; RolloutFailed; RolloutAborted]
  | RolloutAwaitingApproval => [RolloutQueued; RolloutRejected; RolloutAborted]
  | RolloutQueued => [RolloutProgressing; RolloutPaused; RolloutSucceeded; RolloutFailed; RolloutAborted]
  | RolloutProgressing => [RolloutPaused; RolloutSucceeded; RolloutFailed; RolloutAborted]
  | RolloutPaused => [RolloutQueued; RolloutProgressing; RolloutFailed; RolloutAborted; RolloutRollingBack]
  | RolloutSucceeded => [RolloutRollingBack]
  | RolloutFailed => [RolloutRollingBack]
  | RolloutRollingBack => [RolloutRolledBack; RolloutRollbackFailed]
  | RolloutRejected => []
  | RolloutAborted => []
  | RolloutRolledBack => []
  | RolloutRollbackFailed => []
  | RolloutStateOther _ => []
  end.

Definition rolloutClusterTransitions (from : RolloutClusterState) : list RolloutClusterState :=
  match from with
  | RolloutClusterPending => [RolloutClusterReleased; RolloutClusterBlocked; RolloutClusterSkipped]
  | RolloutClusterBlocked => [RolloutClusterPending; RolloutClusterSkipped]
  | RolloutClusterReleased =>
      [RolloutClusterAcknowledged; RolloutClusterReconciling; RolloutClusterReady;
       RolloutClusterTimedOut; RolloutClusterFailed; RolloutClusterRollingBack]
  | RolloutClusterAcknowledged =>
      [RolloutClusterReconciling; RolloutClusterReady; RolloutClusterTimedOut;
       RolloutClusterFailed; RolloutClusterRollingBack]
  | RolloutClusterReconciling =>
      [RolloutClusterReady; RolloutClusterTimedOut; RolloutClusterFailed; RolloutClusterRollingBack]
  | RolloutClusterReady => [RolloutClusterReconciling; RolloutClusterFailed; RolloutClusterRollingBack]
  | RolloutClusterTimedOut => [RolloutClusterPending; RolloutClusterRollingBack]
  | RolloutClusterFailed => [RolloutClusterPending; RolloutClusterRollingBack]
  | RolloutClusterRollingBack => [RolloutClusterReadyPrevious; RolloutClusterFailed]
  | RolloutClusterSkipped => []
  | RolloutClusterAborted => []
  | RolloutClusterRollbackFailed => []
  | RolloutClusterReadyPrevious => [RolloutClusterRollingBack; RolloutClusterFailed]
  | RolloutClusterStateOther _ => []
  end.

Definition deploymentTransitions (from : DeploymentPhase) : list DeploymentPhase :=
  match from with
  | DeploymentUnknown =>
      [DeploymentPending; DeploymentBlocked; DeploymentApplying; DeploymentReady; DeploymentDegraded;
       DeploymentFailed; DeploymentSuspended; DeploymentDeleting; DeploymentRemoved]
  | DeploymentPending =>
      [DeploymentBlocked; DeploymentApplying; DeploymentFailed; DeploymentSuspended; DeploymentDeleting; DeploymentUnknown]
  | DeploymentBlocked =>
      [DeploymentPending; DeploymentApplying; DeploymentFailed; DeploymentSuspended; DeploymentDeleting; DeploymentUnknown]
  | DeploymentApplying =>
      [DeploymentReady; DeploymentDegraded; DeploymentFailed; DeploymentSuspended; DeploymentDeleting; DeploymentUnknown]
  | DeploymentReady =>
      [DeploymentApplying; DeploymentDegraded; DeploymentFailed; DeploymentSuspended; DeploymentDeleting; DeploymentUnknown]
  | DeploymentDegraded =>
      [DeploymentApplying; DeploymentReady; DeploymentFailed; DeploymentSuspended; DeploymentDeleting; DeploymentUnknown]
  | DeploymentFailed =>
      [DeploymentPending; DeploymentApplying; DeploymentSuspended; DeploymentDeleting; DeploymentUnknown]
  | DeploymentSuspended => [DeploymentPending; DeploymentApplying; DeploymentDeleting; DeploymentUnknown]
  | DeploymentDeleting => [DeploymentRemoved; DeploymentFailed; DeploymentUnknown]
  | DeploymentRemoved => [DeploymentPending]
  | DeploymentPhaseOther _ => []
  end.

Definition invalidState (machine from to : string) : error :=
  ETransition CodeInvalidState machine from to 0 0.
Definition invalidTransition (machine from to : string) : error :=
  ETransition CodeInvalidTransition machine from to 0 0.
Definition staleFence (machine from to : string) (expected actual : Z) : error :=
  ETransition CodeStaleFenceState machine from to expected actual.

Definition TransitionRollout (current : Rollout) (desired : RolloutState) (expectedFence : Z) : res Rollout :=
  let from := RolloutState_string (Rollout_State current) in
  let to := RolloutState_string desired in
  if negb (RolloutState_Valid (Rollout_State current)) || negb (RolloutState_Valid desired)
  then Err (invalidState "rollout" from to)
  else if Rollout_State current == desired then Ok current
  else if Rollout_Fence current != expectedFence
  then Err (staleFence "rollout" from to expectedFence (Rollout_Fence current))
  else if negb (allows rolloutTransitions (Rollout_State current) desired)
  then Err (invalidTransition "rollout" from to)
  else Ok {| Rollout_State := desired; Rollout_Fence := Rollout_Fence current |}.

Definition TransitionRolloutCluster (current : RolloutCluster) (desired : RolloutClusterState) (expectedFence : Z) : res RolloutCluster :=
  let from := RolloutClusterState_string (RolloutCluster_State current) in
  let to := RolloutClusterState_string desired in
  if negb (RolloutClusterState_Valid (RolloutCluster_State current)) || negb (RolloutClusterState_Valid desired)
  then Err (invalidState "rollout_cluster" from to)
  else if RolloutCluster_State current == desired then Ok current
  else if RolloutCluster_Fence current != expectedFence
  then Err (staleFence "rollout_cluster" from to expectedFence (RolloutCluster_Fence current))
  else if negb (allows rolloutClusterTransitions (RolloutCluster_State current) desired)
  then Err (invalidTransition "rollout_cluster" from to)
  else Ok {| RolloutCluster_State := desired; RolloutCluster_Fence := RolloutCluster_Fence current |}.

Definition TransitionDeployment (current : Deployment) (desired : DeploymentPhase) (expectedFence : Z) : res Deployment :=
  let from := DeploymentPhase_string (Deployment_Phase current) in
  let to := DeploymentPhase_string desired in
  if negb (DeploymentPhase_Valid (Deployment_Phase current)) || negb (DeploymentPhase_Valid desired)
  then Err (invalidState "deployment" from to)
  else if Deployment_Phase current == desired then Ok current
  else if Deployment_Fence current != expectedFence
  then Err (staleFence "deployment" from to expectedFence (Deployment_Fence current))
  else if negb (allows deploymentTransitions (Deployment_Phase current) desired)
  then Err (invalidTransition "deployment" from to)
  else Ok {| Deployment_Phase := desired; Deployment_Fence := Deployment_Fence current |}.

(** [ClaimFence] on [int64] fences. The decimal renderings of the numbers in
    the error are not modelled. *)
Definition ClaimFence (current expected : Z) : res Z :=
  if (current <? 0) || (expected <? 0) || (current =? MaxInt64)
  then Err (invalidState "fence" "" "")
  else if negb (current =? expected)
  then Err (staleFence "fence" "" "" expected current)
  else Ok (wrapS64 (current + 1)).

Record RolloutCounters := {
  Total : Z; Pending : Z; Active : Z; Ready : Z; Failed : Z; Blocked : Z;
  Skipped : Z; RollbackReady : Z; Terminal : Z; Unavailable : Z;
}.

Definition zeroCounters : RolloutCounters :=
  {| Total := 0; Pending := 0; Active := 0; Ready := 0; Failed := 0;
     Blocked := 0; Skipped := 0; RollbackReady := 0; Terminal := 0;
     Unavailable := 0 |}.

(** One iteration of the loop of [DeriveRolloutCounters]. *)
Definition countState (c : RolloutCounters) (s : RolloutClusterState) : res RolloutCounters :=
  if negb (RolloutClusterState_Valid s)
  then Err (invalidState "rollout_cluster" (RolloutClusterState_string s) "")
  else
    let bump pending active ready failed blocked skipped rollback :=
      Ok {| Total := Total c + 1; Pending := Pending c + pending;
            Active := Active c + active; Ready := Ready c + ready;
            Failed := Failed c + failed; Blocked := Blocked c + blocked;
            Skipped := Skipped c + skipped;
            RollbackReady := RollbackReady c + rollback;
            Terminal := Terminal c; Unavailable := Unavailable c |} in
    match s with
    | RolloutClusterPending => bump 1 0 0 0 0 0 0
    | RolloutClusterReleased | RolloutClusterAcknowledged
    | RolloutClusterReconciling | RolloutClusterRollingBack => bump 0 1 0 0 0 0 0
    | RolloutClusterReady => bump 0 0 1 0 0 0 0
    | RolloutClusterFailed | RolloutClusterTimedOut
    | RolloutClusterRollbackFailed => bump 0 0 0 1 0 0 0
    | RolloutClusterBlocked => bump 0 0 0 0 1 0 0
    | RolloutClusterSkipped | RolloutClusterAborted => bump 0 0 0 0 0 1 0
    | RolloutClusterReadyPrevious => bump 0 0 0 0 0 0 1
    | RolloutClusterStateOther _ => bump 0 0 0 0 0 0 0
    end.

Definition DeriveRolloutCounters (states : list RolloutClusterState) : res RolloutCounters :=
  c ← res_foldl countState zeroCounters states;
  Ok {| Total := Total c; Pending := Pending c; Active := Active c;
        Ready := Ready c; Failed := Failed c; Blocked := Blocked c;
        Skipped := Skipped c; RollbackReady := RollbackReady c;
        Terminal := Ready c + Failed c + Skipped c + RollbackReady c;
        Unavailable := Total c - Ready c - RollbackReady c |}.

(** ** The shared check

    The three transition functions are copies of one fenced check; the lemmas
    are proved once over it. *)

Section machine.
Context {T : Type} `{GoEnum T} (table : T -> list T) (machine : string).

Definition fenced (state : T) (fence : Z) (desired : T) (expected : Z) : res T :=
  let from := enum_string state in
  let to := enum_string desired in
  if negb (contains enum_all state) || negb (contains enum_all desired)
  then Err (invalidState machine from to)
  else if state == desired then Ok state
  else if fence != expected then Err (staleFence machine from to expected fence)
  else if negb (allows table state desired) then Err (invalidTransition machine from to)
  else Ok desired.

(** What a fenced compare-and-swap promises: the transition happens exactly
    when both states are known and either nothing changes or the fence is
    current and the table has the edge. *)
Definition edge_allowed (state : T) (fence : Z) (desired : T) (expected : Z) : Prop :=
  state ∈ enum_all /\ desired ∈ enum_all /\
  (state = desired \/ (fence = expected /\ desired ∈ table state)).

Lemma fenced_Ok state fence desired expected s :
  fenced state fence desired expected = Ok s <->
  s = desired /\ edge_allowed state fence desired expected.
Proof.
  unfold fenced, edge_allowed, allows. rewrite <- !contains_elem_of.
  destruct (contains enum_all state), (contains enum_all desired); cbn;
    try naive_solver.
  case_bool_decide; [naive_solver|].
  case_bool_decide; cbn; [|naive_solver].
  destruct (contains (table state) desired); cbn; naive_solver.
Qed.

(** The error tells which of the three conditions failed, in the order of
    the code: unknown state, then stale fence, then missing edge. *)
Lemma fenced_Err state fence desired expected e :
  fenced state fence desired expected = Err e <->
  (~ (state ∈ enum_all /\ desired ∈ enum_all) /\
     e = invalidState machine (enum_string state) (enum_string desired)) \/
  (state ∈ enum_all /\ desired ∈ enum_all /\ state <> desired /\ fence <> expected /\
     e = staleFence machine (enum_string state) (enum_string desired) expected fence) \/
  (state ∈ enum_all /\ desired ∈ enum_all /\ state <> desired /\ fence = expected /\
     (desired ∉ table state) /\
     e = invalidTransition machine (enum_string state) (enum_string desired)).
Proof.
  unfold fenced, allows. rewrite <- !contains_elem_of.
  destruct (contains enum_all state), (contains enum_all desired); cbn;
    try naive_solver.
  case_bool_decide; [naive_solver|].
  case_bool_decide; cbn; [|naive_solver].
  destruct (contains (table state) desired); cbn; naive_solver.
Qed.
End machine.

Lemma TransitionRollout_fenced c d f :
  TransitionRollout c d f =
  s ← fenced rolloutTransitions "rollout" (Rollout_State c) (Rollout_Fence c) d f;
  Ok {| Rollout_State := s; Rollout_Fence := Rollout_Fence c |}.
Proof.
  destruct c as [s fence]. unfold TransitionRollout, fenced, RolloutState_Valid.
  cbn [Rollout_State Rollout_Fence]. cbn [enum_all enum_string enum_eq_dec RolloutState_enum].
  repeat case_match; done.
Qed.

Lemma TransitionRolloutCluster_fenced c d f :
  TransitionRolloutCluster c d f =
  s ← fenced rolloutClusterTransitions "rollout_cluster" (RolloutCluster_State c) (RolloutCluster_Fence c) d f;
  Ok {| RolloutCluster_State := s; RolloutCluster_Fence := RolloutCluster_Fence c |}.
Proof.
  destruct c as [s fence]. unfold TransitionRolloutCluster, fenced, RolloutClusterState_Valid.
  cbn [RolloutCluster_State RolloutCluster_Fence]. cbn [enum_all enum_string enum_eq_dec RolloutClusterState_enum].
  repeat case_match; done.
Qed.

Lemma TransitionDeployment_fenced c d f :
  TransitionDeployment c d f =
  s ← fenced deploymentTransitions "deployment" (Deployment_Phase c) (Deployment_Fence c) d f;
  Ok {| Deployment_Phase := s; Deployment_Fence := Deployment_Fence c |}.
Proof.
  destruct c as [s fence]. unfold TransitionDeployment, fenced, DeploymentPhase_Valid.
  cbn [Deployment_Phase Deployment_Fence]. cbn [enum_all enum_string enum_eq_dec DeploymentPhase_enum].
  repeat case_match; done.
Qed.

(** ** Reachability

    One successful transition of a rollout, whatever fence the caller passes. *)
Definition rollout_step (a b : Rollout) : Prop :=
  exists desired fence, TransitionRollout a desired fence = Ok b.
Definition cluster_step (a b : RolloutCluster) : Prop :=
  exists desired fence, TransitionRolloutCluster a desired fence = Ok b.

Lemma rollout_step_inv a b :
  rollout_step a b ->
  Rollout_Fence b = Rollout_Fence a /\
  (a = b \/ Rollout_State b ∈ rolloutTransitions (Rollout_State a)).
Proof.
  intros (d & f & Ht). rewrite TransitionRollout_fenced in Ht. res_inv.
  apply fenced_Ok in H as [-> (_ & _ & [<- | [_ ?]])]; cbn; [|by auto].
  split; [done | left]. by destruct a.
Qed.

Lemma cluster_step_inv a b :
  cluster_step a b ->
  RolloutCluster_Fence b = RolloutCluster_Fence a /\
  (a = b \/ RolloutCluster_State b ∈ rolloutClusterTransitions (RolloutCluster_State a)).
Proof.
  intros (d & f & Ht). rewrite TransitionRolloutCluster_fenced in Ht. res_inv.
  apply fenced_Ok in H as [-> (_ & _ & [<- | [_ ?]])]; cbn; [|by auto].
  split; [done | left]. by destruct a.
Qed.

(** The stage of a rollout: draft, resolved, approved and running, decided,
    rolling back, over. *)
Definition stage (s : RolloutState) : Z :=
  match s with
  | RolloutDraft => 0
  | RolloutResolving => 1
  | RolloutAwaitingApproval => 2
  | RolloutQueued | RolloutProgressing | RolloutPaused => 3
  | RolloutSucceeded | RolloutFailed => 4
  | RolloutRollingBack => 5
  | RolloutRejected | RolloutAborted | RolloutRolledBack | RolloutRollbackFailed => 6
  | RolloutStateOther _ => 7
  end.

Ltac solve_edges :=
  repeat match goal with
  | H : _ ∈ _ :: _ |- _ => apply elem_of_cons in H as [H|H]
  | H : _ ∈ [] |- _ => by apply not_elem_of_nil in H
  end.

Lemma rolloutTransitions_stage s t :
  t ∈ rolloutTransitions s -> stage s <= stage t.
Proof. destruct s; cbn; intros; solve_edges; subst; cbn; lia. Qed.

(** A state of the table that no edge leads into. *)
Definition cluster_never_entered (s : RolloutClusterState) : bool :=
  bool_decide (s = RolloutClusterAborted) || bool_decide (s = RolloutClusterRollbackFailed).

Lemma rolloutClusterTransitions_entered s t :
  t ∈ rolloutClusterTransitions s -> cluster_never_entered t = false.
Proof. destruct s; cbn; intros; solve_edges; subst; done. Qed.

(** ** Properties *)

(** [TransitionRollout] succeeds exactly when both states are known and
    either the rollout already is in the desired state (a no-op, whatever the
    fence) or the fence is current and the table has the edge; the fence is
    never changed.  Otherwise the error names the first failed condition: an
    unknown state, a stale fence, a missing edge. *)
Theorem TransitionRollout_correct (current : Rollout) (desired : RolloutState) (expected : Z) :
  let s := Rollout_State current in
  let known := s ∈ AllRolloutStates /\ desired ∈ AllRolloutStates in
  match TransitionRollout current desired expected with
  | Ok next =>
      known /\ Rollout_State next = desired /\ Rollout_Fence next = Rollout_Fence current /\
      (s = desired \/ (Rollout_Fence current = expected /\ desired ∈ rolloutTransitions s))
  | Err (ETransition CodeInvalidState _ _ _ _ _) => ~ known
  | Err (ETransition CodeStaleFenceState _ _ _ e a) =>
      known /\ s <> desired /\ e = expected /\ a = Rollout_Fence current /\ e <> a
  | Err (ETransition CodeInvalidTransition _ _ _ _ _) =>
      known /\ s <> desired /\ Rollout_Fence current = expected /\ (desired ∉ rolloutTransitions s)
  | Err _ => False
  end.
Proof.
  cbn zeta. rewrite TransitionRollout_fenced.
  destruct (fenced _ _ _ _ _ _) as [t|e] eqn:E; cbn.
  - apply fenced_Ok in E as [-> (? & ? & ?)]. naive_solver.
  - apply fenced_Err in E as [[? ->]|[(? & ? & ? & ? & ->)|(? & ? & ? & ? & ? & ->)]]; cbn;
      naive_solver.
Qed.

(** Along any sequence of successful transitions a rollout only moves
    forward through its stages (draft, resolving, awaiting approval, running,
    decided, rolling back, over): no approved rollout waits for approval
    again, no decided rollout runs again, and nothing leaves a final state;
    the fence stays the one of the first state. *)
Theorem rollout_stages_monotone (a b : Rollout) (Hrun : rtc rollout_step a b) :
  stage (Rollout_State a) <= stage (Rollout_State b) /\
  Rollout_Fence b = Rollout_Fence a /\
  (stage (Rollout_State a) = 6 -> b = a) /\
  (Rollout_State a = RolloutRollingBack ->
   Rollout_State b ∈ [RolloutRollingBack; RolloutRolledBack; RolloutRollbackFailed]).
Proof.
  induction Hrun as [a|a b c Hab Hbc IH]; [cbn; set_solver by lia|].
  apply rollout_step_inv in Hab as [Hf [<-|Hedge]]; [done|].
  destruct IH as (IH1 & IH2 & IH3 & IH4).
  pose proof (rolloutTransitions_stage _ _ Hedge) as Hle.
  repeat split; [lia|congruence|..]; intros Ha.
  - destruct a as [[] ?]; cbn in *; try done; solve_edges.
  - rewrite Ha in Hedge. cbn in Hedge. solve_edges;
      (destruct b as [sb fb]; cbn in *; subst sb);
      rewrite (IH3 eq_refl); cbn; set_solver.
Qed.

Lemma rollout_stages_monotone_witness :
  let a := {| Rollout_State := RolloutPaused; Rollout_Fence := 3 |} in
  let b := {| Rollout_State := RolloutRolledBack; Rollout_Fence := 3 |} in
  rtc rollout_step a b /\ stage (Rollout_State a) <= stage (Rollout_State b).
Proof.
  cbn zeta.
  assert (H : rtc rollout_step {| Rollout_State := RolloutPaused; Rollout_Fence := 3 |}
                               {| Rollout_State := RolloutRolledBack; Rollout_Fence := 3 |}).
  { apply (rtc_l _ _ {| Rollout_State := RolloutRollingBack; Rollout_Fence := 3 |}).
    - exists RolloutRollingBack, 3. reflexivity.
    - apply rtc_once. exists RolloutRolledBack, 3. reflexivity. }
  split; [exact H | exact (proj1 (rollout_stages_monotone _ _ H))].
Defined.

(** Of the thirteen cluster states the scheduler persists, [aborted] and
    [rollback_failed] are never entered: no sequence of transitions of the
    table leads a cluster from another state into one of them. *)
Theorem cluster_dead_states (a b : RolloutCluster) (Hrun : rtc cluster_step a b) :
  cluster_never_entered (RolloutCluster_State a) = false ->
  cluster_never_entered (RolloutCluster_State b) = false.
Proof.
  intros Ha. induction Hrun as [a|a b c Hab Hbc IH]; [done|]. apply IH.
  apply cluster_step_inv in Hab as [_ [<-|Hedge]]; [done|].
  by eapply rolloutClusterTransitions_entered.
Qed.

Lemma cluster_dead_states_witness :
  let a := {| RolloutCluster_State := RolloutClusterPending; RolloutCluster_Fence := 1 |} in
  let b := {| RolloutCluster_State := RolloutClusterReleased; RolloutCluster_Fence := 1 |} in
  rtc cluster_step a b /\ cluster_never_entered (RolloutCluster_State b) = false.
Proof.
  cbn zeta.
  assert (H : rtc cluster_step {| RolloutCluster_State := RolloutClusterPending; RolloutCluster_Fence := 1 |}
                               {| RolloutCluster_State := RolloutClusterReleased; RolloutCluster_Fence := 1 |}).
  { apply rtc_once. exists RolloutClusterReleased, 1. reflexivity. }
  split; [exact H | exact (cluster_dead_states _ _ H eq_refl)].
Defined.

(** A fence claim is exclusive and never wraps: on [int64] values it
    succeeds only for the current non-negative fence, returns its successor
    within the [int64] range, and after it no worker that still expects the
    old fence can claim. *)
Theorem ClaimFence_exclusive (current expected next : Z)
  (Hrange : MinInt64 <= current <= MaxInt64)
  (Hclaim : ClaimFence current expected = Ok next) :
  expected = current /\ next = current + 1 /\ 0 < next <= MaxInt64 /\
  (forall stale, stale <= current -> is_ok (ClaimFence next stale) = false).
Proof.
  unfold ClaimFence in Hclaim.
  repeat case_match; try discriminate. bool_props. injection Hclaim as Hnext.
  rewrite wrapS64_small in Hnext by (unfold MinInt64, MaxInt64 in *; lia).
  repeat split; try (unfold MaxInt64, MinInt64 in *; lia).
  intros stale Hstale. unfold ClaimFence.
  destruct (_ || _)%bool; [done|].
  destruct (Z.eqb_spec next stale); [lia | done].
Qed.

Lemma ClaimFence_exclusive_witness :
  ClaimFence 41 41 = Ok 42 /\ is_ok (ClaimFence 42 41) = false.
Proof.
  split; [reflexivity|].
  apply (ClaimFence_exclusive 41 41 42); [unfold MinInt64, MaxInt64; lia | reflexivity | lia].
Defined.

(** The cluster states a counter counts. *)
Definition counted (p : RolloutClusterState -> bool) (states : list RolloutClusterState) : Z :=
  Z.of_nat (length (List.filter p states)).

Definition is_active (s : RolloutClusterState) : bool :=
  contains [RolloutClusterReleased; RolloutClusterAcknowledged;
            RolloutClusterReconciling; RolloutClusterRollingBack] s.
Definition is_failed (s : RolloutClusterState) : bool :=
  contains [RolloutClusterFailed; RolloutClusterTimedOut; RolloutClusterRollbackFailed] s.
Definition is_skipped (s : RolloutClusterState) : bool :=
  contains [RolloutClusterSkipped; RolloutClusterAborted] s.

Lemma counted_cons p s l : counted p (s :: l) = (if p s then 1 else 0) + counted p l.
Proof. unfold counted. cbn. destruct (p s); cbn [length]; lia. Qed.

Lemma countState_loop states c :
  (Forall (fun s => s ∈ AllRolloutClusterStates) states ->
   res_foldl countState c states =
   Ok {| Total := Total c + Z.of_nat (length states);
         Pending := Pending c + counted (fun s => s == RolloutClusterPending) states;
         Active := Active c + counted is_active states;
         Ready := Ready c + counted (fun s => s == RolloutClusterReady) states;
         Failed := Failed c + counted is_failed states;
         Blocked := Blocked c + counted (fun s => s == RolloutClusterBlocked) states;
         Skipped := Skipped c + counted is_skipped states;
         RollbackReady := RollbackReady c + counted (fun s => s == RolloutClusterReadyPrevious) states;
         Terminal := Terminal c; Unavailable := Unavailable c |}).
Proof.
  revert c. induction states as [|s states IH]; intros c Hall.
  { cbn. unfold counted. cbn. destruct c; cbn. do 2 f_equal; lia. }
  apply Forall_cons_iff in Hall as [Hs Hall].
  rewrite !counted_cons. cbn [length].
  assert (E : exists c', countState c s = Ok c').
  { unfold countState, RolloutClusterState_Valid.
    apply contains_elem_of in Hs. rewrite Hs. cbn. destruct s; eauto. }
  destruct E as [c' E]. cbn [res_foldl]. rewrite E. cbn. rewrite (IH c' Hall).
  clear IH. unfold countState, RolloutClusterState_Valid in E.
  apply contains_elem_of in Hs. rewrite Hs in E. cbn in E.
  destruct s; injection E as <-; cbn; eval_tests; do 2 f_equal; lia.
Qed.

Lemma countState_valid states c :
  is_ok (res_foldl countState c states) = true ->
  Forall (fun s => s ∈ AllRolloutClusterStates) states.
Proof.
  revert c. induction states as [|s states IH]; intros c; [constructor|].
  cbn [res_foldl]. destruct (countState c s) as [c'|e] eqn:E; cbn; [|done].
  intros Hok. constructor; [|by eapply IH].
  unfold countState, RolloutClusterState_Valid in E. apply contains_elem_of.
  by destruct (contains AllRolloutClusterStates s).
Qed.

(** The persisted counters partition the rollout: deriving them fails
    exactly when a state is unknown; otherwise every counter is the number of
    clusters in its states, the seven classes add up to the total, the
    terminal counter is the clusters that need no more work, and the
    unavailable counter is the clusters that run neither the desired nor the
    previous version. *)
Theorem DeriveRolloutCounters_partition (states : list RolloutClusterState) :
  match DeriveRolloutCounters states with
  | Err _ => ~ Forall (fun s => s ∈ AllRolloutClusterStates) states
  | Ok c =>
      Forall (fun s => s ∈ AllRolloutClusterStates) states /\
      Total c = Z.of_nat (length states) /\
      Pending c = counted (fun s => s == RolloutClusterPending) states /\
      Active c = counted is_active states /\
      Ready c = counted (fun s => s == RolloutClusterReady) states /\
      Failed c = counted is_failed states /\
      Blocked c = counted (fun s => s == RolloutClusterBlocked) states /\
      Skipped c = counted is_skipped states /\
      RollbackReady c = counted (fun s => s == RolloutClusterReadyPrevious) states /\
      Total c = Pending c + Active c + Ready c + Failed c + Blocked c + Skipped c + RollbackReady c /\
      Terminal c = Total c - Pending c - Active c - Blocked c /\
      Unavailable c = Pending c + Active c + Failed c + Blocked c + Skipped c
  end.
Proof.
  unfold DeriveRolloutCounters.
  destruct (res_foldl countState zeroCounters states) as [c|e] eqn:E; cbn.
  - pose proof (countState_valid states zeroCounters) as Hv. rewrite E in Hv.
    specialize (Hv eq_refl).
    rewrite (countState_loop states zeroCounters Hv) in E. injection E as <-. cbn.
    assert (Hsum : Z.of_nat (length states) =
      counted (fun s => s == RolloutClusterPending) states + counted is_active states +
      counted (fun s => s == RolloutClusterReady) states + counted is_failed states +
      counted (fun s => s == RolloutClusterBlocked) states + counted is_skipped states +
      counted (fun s => s == RolloutClusterReadyPrevious) states).
    { clear -Hv. induction Hv as [|s states Hs _ IH]; [done|].
      rewrite !counted_cons. cbn [length].
      destruct s; cbn; eval_tests; try lia.
      unfold AllRolloutClusterStates in Hs. solve_edges; discriminate. }
    repeat split; try lia; try done.
  - intros Hv. by rewrite (countState_loop states zeroCounters Hv) in E.
Qed.

End State.
