(* ===== verification/GoSort.v ===== *)
(** * Sorting and string order

    [sort.Slice], [sort.SliceStable] and [sort.Strings] of the Go standard
    library over a boolean [less], and the byte order of strings.  The model is
    the stable insertion sort; where the source uses the unstable [sort.Slice]
    its [less] orders the elements by a key no two of them share, and
    [sort_slice_unique] shows that the sorted slice is then the only one. *)

From Stdlib Require Import ZArith Lia.
From Stdlib Require Ascii.
From S2P Require Import Prelude.
From stdpp Require Import base strings list sorting.

(** ** Byte order of strings: Go's [<] on strings and [bytes.Compare] < 0 *)

Definition str_lt (a b : string) : bool := String.ltb a b.

(** A strict total order as a boolean test. *)
Class StrictTotal {K} (lt : K -> K -> bool) := {
  st_irrefl : forall a, lt a a = false;
  st_trans : forall a b c, lt a b = true -> lt b c = true -> lt a c = true;
  st_total : forall a b, lt a b = false -> lt b a = false -> a = b;
}.

Lemma ascii_compare_spec a b :
  Ascii.compare a b = N.compare (Ascii.N_of_ascii a) (Ascii.N_of_ascii b).
Proof. reflexivity. Qed.

Lemma str_compare_trans a : forall b c,
  String.compare a b = Lt -> String.compare b c = Lt -> String.compare a c = Lt.
Proof.
  induction a as [|x a IH]; intros [|y b] [|z c]; cbn; try done.
  rewrite !ascii_compare_spec.
  destruct (N.compare_spec (Ascii.N_of_ascii x) (Ascii.N_of_ascii y)) as [Hxy|Hxy|Hxy];
    destruct (N.compare_spec (Ascii.N_of_ascii y) (Ascii.N_of_ascii z)) as [Hyz|Hyz|Hyz]; try done.
  all: intros H1 H2.
  - rewrite Hxy, Hyz, N.compare_refl. by eapply IH.
  - rewrite Hxy. by rewrite (proj2 (N.compare_lt_iff _ _) Hyz).
  - rewrite <- Hyz. by rewrite (proj2 (N.compare_lt_iff _ _) Hxy).
  - assert (Hlt : (Ascii.N_of_ascii x < Ascii.N_of_ascii z)%N) by lia.
    by rewrite (proj2 (N.compare_lt_iff _ _) Hlt).
Qed.

#[global] Instance str_lt_strict : StrictTotal str_lt.
Proof.
  unfold str_lt, String.ltb. split.
  - intros a. induction a as [|x a IH]; cbn; [done|].
    by rewrite ascii_compare_spec, N.compare_refl.
  - intros a b c.
    destruct (String.compare a b) eqn:E1; try done.
    destruct (String.compare b c) eqn:E2; try done.
    by rewrite (str_compare_trans _ _ _ E1 E2).
  - intros a b. destruct (String.compare a b) eqn:E1; try done.
    + by apply String.compare_eq_iff in E1.
    + rewrite String.compare_antisym, E1. done.
Qed.

(** Identifiers are compared by their bytes. *)
#[global] Instance Z_lt_strict : StrictTotal Z.ltb.
Proof. split; intros *; rewrite ?Z.ltb_lt, ?Z.ltb_ge; lia. Qed.

Definition uuid_lt (a b : uuid) : bool := str_lt (uuid_bytes a) (uuid_bytes b).

#[global] Instance uuid_lt_strict : StrictTotal uuid_lt.
Proof.
  unfold uuid_lt. split.
  - intros []; apply st_irrefl.
  - intros [] [] []; apply st_trans.
  - intros [a] [b] H1 H2. f_equal. by apply (st_total a b).
Qed.

(** First component, then second: the comparison written
    [if a.x != b.x { return a.x < b.x }; return a.y < b.y]. *)
Definition lex_lt {K1 K2} `{EqDecision K1} (lt1 : K1 -> K1 -> bool) (lt2 : K2 -> K2 -> bool)
    (a b : K1 * K2) : bool :=
  if a.1 != b.1 then lt1 a.1 b.1 else lt2 a.2 b.2.

#[global] Instance lex_lt_strict {K1 K2} `{EqDecision K1} lt1 lt2 :
  @StrictTotal K1 lt1 -> @StrictTotal K2 lt2 -> StrictTotal (lex_lt lt1 lt2).
Proof.
  intros H1 H2. unfold lex_lt. split.
  - intros [a b]. cbn. rewrite bool_decide_true by done. apply st_irrefl.
  - intros [a b] [c d] [e f]. cbn.
    repeat case_bool_decide; cbn; subst; try done; try apply st_trans.
    intros Hac Hca. pose proof (st_trans _ _ _ Hac Hca) as Hcc.
    rewrite st_irrefl in Hcc. done.
  - intros [a b] [c d]. cbn. repeat case_bool_decide; cbn; try congruence.
    + intros. subst. f_equal. by apply st_total.
    + intros Hac Hca. by pose proof (st_total _ _ Hac Hca).
Qed.

Lemma StronglySorted_filter {A} (R : A -> A -> Prop) (P : A -> Prop) `{forall x, Decision (P x)} l :
  StronglySorted R l -> StronglySorted R (filter P l).
Proof.
  induction 1 as [|x l Hs IH Hall]; [constructor|]. rewrite filter_cons.
  case_decide; [|done]. constructor; [done|]. rewrite Forall_forall in Hall |- *.
  intros y [_ Hy]%list_elem_of_filter. by apply Hall.
Qed.

(** ** Sorting *)

Section sort.
Context {A : Type} (less : A -> A -> bool).

Fixpoint insert_by (x : A) (l : list A) : list A :=
  match l with
  | [] => [x]
  | y :: ys => if less y x then y :: insert_by x ys else x :: y :: ys
  end.

(** [sort.Slice(l, less)] *)
Definition sort_slice (l : list A) : list A := foldr insert_by [] l.

Lemma insert_by_Permutation x l : insert_by x l ≡ₚ x :: l.
Proof.
  induction l as [|y l IH]; cbn; [done|].
  destruct (less y x); [|done]. rewrite IH. apply Permutation_swap.
Qed.

Lemma sort_slice_Permutation l : sort_slice l ≡ₚ l.
Proof.
  induction l as [|x l IH]; cbn; [done|].
  by rewrite insert_by_Permutation, IH.
Qed.

Lemma sort_slice_length l : length (sort_slice l) = length l.
Proof. by rewrite sort_slice_Permutation. Qed.

Lemma sort_slice_elem_of x l : x ∈ sort_slice l <-> x ∈ l.
Proof. by rewrite sort_slice_Permutation. Qed.
End sort.

(** Two orders that agree on the elements sort alike. *)
Lemma sort_slice_ext_on {A} (f g : A -> A -> bool) l :
  (forall x y, x ∈ l -> y ∈ l -> f x y = g x y) -> sort_slice f l = sort_slice g l.
Proof.
  assert (Hi : forall x k, (forall y, y ∈ k -> f y x = g y x) -> insert_by f x k = insert_by g x k).
  { intros x k. induction k as [|y k IH]; intros Hk; cbn; [done|].
    rewrite (Hk y) by (by left). destruct (g y x); [|done]. f_equal. apply IH.
    intros z Hz. apply Hk. by right. }
  intros Hfg. induction l as [|x l IH]; [done|]. cbn. fold (sort_slice f l) (sort_slice g l).
  rewrite IH by (intros y z Hy Hz; apply Hfg; by right).
  apply Hi. intros y Hy%sort_slice_elem_of. apply Hfg; [by right | by left].
Qed.

Lemma sort_slice_ext {A} (f g : A -> A -> bool) l :
  (forall a b, f a b = g a b) -> sort_slice f l = sort_slice g l.
Proof. intros Hfg. apply sort_slice_ext_on. auto. Qed.

(** Sorting by a function of the elements, then mapping it. *)
Lemma sort_slice_fmap {A B} (f : A -> B) (less : B -> B -> bool) l :
  f <$> sort_slice (fun a b => less (f a) (f b)) l = sort_slice less (f <$> l).
Proof.
  assert (Hi : forall x k, f <$> insert_by (fun a b => less (f a) (f b)) x k =
    insert_by less (f x) (f <$> k)).
  { intros x k. induction k as [|y k IH]; cbn; [done|].
    destruct (less (f y) (f x)); [|done]. rewrite fmap_cons. by rewrite IH. }
  induction l as [|x l IH]; [done|]. cbn [sort_slice foldr]. rewrite Hi.
  fold (sort_slice (fun a b => less (f a) (f b)) l). rewrite IH. done.
Qed.

(** ** Sorting by a key *)

Section sort_key.
Set Default Proof Using "Type*".
Context {A K : Type} (key : A -> K) (lt : K -> K -> bool) `{!StrictTotal lt}.

Definition by_key (a b : A) : bool := lt (key a) (key b).

Definition key_le (a b : A) : Prop := lt (key b) (key a) = false.

Lemma key_le_trans a b c : key_le a b -> key_le b c -> key_le a c.
Proof.
  unfold key_le. intros Hab Hbc.
  destruct (lt (key c) (key a)) eqn:Hca; [|done].
  destruct (lt (key a) (key b)) eqn:E.
  - by rewrite (st_trans _ _ _ Hca E) in Hbc.
  - rewrite (st_total _ _ E Hab) in Hca. congruence.
Qed.

Lemma insert_by_sorted x l :
  StronglySorted key_le l -> StronglySorted key_le (insert_by by_key x l).
Proof.
  induction 1 as [|y l Hs IH Hall]; cbn.
  { repeat constructor. }
  unfold by_key at 1. destruct (lt (key y) (key x)) eqn:E.
  - constructor; [done|]. rewrite insert_by_Permutation. constructor; [|done].
    unfold key_le. destruct (lt (key x) (key y)) eqn:E2; [|done].
    rewrite <- (st_irrefl (key y)). symmetry. by eapply st_trans.
  - constructor; [by constructor|]. constructor; [done|].
    eapply Forall_impl; [done|]. intros z. by apply key_le_trans.
Qed.

Lemma sort_slice_sorted l : StronglySorted key_le (sort_slice by_key l).
Proof. induction l; cbn; [constructor | by apply insert_by_sorted]. Qed.

(** Distinct elements of the slice have distinct keys. *)
Definition key_inj_on (l : list A) : Prop :=
  forall x y, x ∈ l -> y ∈ l -> key x = key y -> x = y.

Lemma NoDup_key_inj_on l : NoDup (key <$> l) -> key_inj_on l.
Proof using Type.
  intros Hnd x y Hx Hy Hk.
  apply list_elem_of_lookup in Hx as [i Hi]. apply list_elem_of_lookup in Hy as [j Hj].
  assert (i = j) as ->; [|congruence].
  apply (NoDup_lookup _ i j (key x) Hnd); rewrite list_lookup_fmap.
  - by rewrite Hi.
  - rewrite Hj. cbn. by f_equal.
Qed.

(** The sorted rearrangement is then unique: neither the order of the input
    nor the sorting algorithm matters. *)
Lemma sort_slice_any l s :
  key_inj_on l -> s ≡ₚ l -> StronglySorted key_le s -> s = sort_slice by_key l.
Proof.
  intros Hinj Hp Hs. apply (StronglySorted_unique_strong key_le); [|exact Hs|..].
  - intros x y. rewrite sort_slice_elem_of, Hp. intros Hx Hy H1 H2.
    apply Hinj; auto. by apply st_total.
  - apply sort_slice_sorted.
  - by rewrite sort_slice_Permutation.
Qed.

Lemma sort_slice_unique l1 l2 :
  key_inj_on l1 -> l1 ≡ₚ l2 -> sort_slice by_key l1 = sort_slice by_key l2.
Proof.
  intros Hinj Hp. symmetry. apply sort_slice_any; [done| |apply sort_slice_sorted].
  by rewrite sort_slice_Permutation.
Qed.

Lemma sort_slice_idemp l :
  key_inj_on l -> sort_slice by_key (sort_slice by_key l) = sort_slice by_key l.
Proof.
  intros Hinj. symmetry. apply sort_slice_any; [|done|apply sort_slice_sorted].
  intros x y. rewrite !sort_slice_elem_of. apply Hinj.
Qed.

(** Sorting and filtering commute. *)
Lemma insert_by_filter (P : A -> Prop) `{forall x, Decision (P x)} x l :
  StronglySorted key_le l ->
  filter P (insert_by by_key x l) =
  if decide (P x) then insert_by by_key x (filter P l) else filter P l.
Proof.
  induction 1 as [|y l Hs IH Hall]; [done|]. cbn [insert_by].
  destruct (by_key y x) eqn:E.
  - rewrite !filter_cons, IH. destruct (decide (P y)), (decide (P x)); try done.
    cbn [insert_by]. by rewrite E.
  - rewrite filter_cons. destruct (decide (P x)) as [Hx|]; [|done].
    destruct (filter P (y :: l)) as [|z k] eqn:Ef; [done|]. cbn [insert_by].
    assert (Hz : z ∈ filter P (y :: l)) by (rewrite Ef; left).
    apply list_elem_of_filter in Hz as [_ Hz]. unfold by_key in *.
    assert (Hyz : key_le y z).
    { apply elem_of_cons in Hz as [->|Hz]; [apply st_irrefl|].
      rewrite Forall_forall in Hall. by apply Hall. }
    pose proof (key_le_trans x y z E Hyz) as Hxz. unfold key_le in Hxz. by rewrite Hxz.
Qed.

Lemma sort_slice_filter (P : A -> Prop) `{forall x, Decision (P x)} l :
  sort_slice by_key (filter P l) = filter P (sort_slice by_key l).
Proof.
  induction l as [|x l IH]; [done|]. cbn [sort_slice foldr]. fold (sort_slice by_key l).
  rewrite insert_by_filter by apply sort_slice_sorted.
  rewrite filter_cons. case_decide; [|done]. cbn [sort_slice foldr]. by rewrite <- IH.
Qed.

Lemma sort_slice_strict l :
  NoDup (key <$> l) ->
  StronglySorted (fun a b => lt (key a) (key b) = true) (sort_slice by_key l).
Proof.
  intros Hnd. pose proof (sort_slice_sorted l) as Hs.
  assert (Hnd' : NoDup (key <$> sort_slice by_key l)).
  { by rewrite sort_slice_Permutation. }
  revert Hnd'. generalize (sort_slice by_key l) Hs. clear -StrictTotal0.
  intros s Hs. induction Hs as [|x s Hs IH Hall]; cbn; intros Hnd'; constructor.
  - apply IH. by apply NoDup_cons in Hnd' as [_ ?].
  - apply NoDup_cons in Hnd' as [Hx _].
    rewrite Forall_forall in Hall |- *. intros y Hy.
    destruct (lt (key x) (key y)) eqn:E; [done|].
    exfalso. apply Hx. rewrite (st_total _ _ E (Hall y Hy)).
    apply list_elem_of_fmap. eauto.
Qed.
End sort_key.

Arguments by_key {A K} key lt a b /.
