(* ===== verification/SafeConv.v ===== *)
(** * Saturating integer conversions (pkg/safeconv/safeconv.go)

    Integers of every Go width are [Z]; the conversions [int64(v)], [uint64(v)],
    [int32(v)], ... of the source wrap around at the width of the target, and
    the helpers are built so that the wrap never happens. *)

From Stdlib Require Import ZArith Lia.
From S2P Require Import Prelude.
From stdpp Require Import base tactics.

Module SafeConv.
#[local] Open Scope Z_scope.

(** Conversion to a [w]-bit integer. *)
Definition wrapU (w : Z) (x : Z) : Z := x mod 2 ^ w.
Definition wrapS (w : Z) (x : Z) : Z := (x + 2 ^ (w - 1)) mod 2 ^ w - 2 ^ (w - 1).

(** The values of the type set [Integer]: everything from int64 to uint64. *)
Definition go_integer (v : Z) : Prop := MinInt64 <= v <= MaxUint64.

Definition clampSigned (v lo hi : Z) : Z :=
  if v <? 0 then
    let n := wrapS 64 v in
    if n <? lo then lo else n
  else
    let u := wrapU 64 v in
    if (hi <? 0) || (wrapU 64 hi <? u) then hi else wrapS 64 u.

Definition clampUnsigned (v hi : Z) : Z :=
  if v <? 0 then 0
  else
    let u := wrapU 64 v in
    if hi <? u then hi else u.

Definition Int32 (v : Z) : Z := wrapS 32 (clampSigned v MinInt32 MaxInt32).
Definition Int64 (v : Z) : Z := clampSigned v MinInt64 MaxInt64.
(** [math.MinInt] and [math.MaxInt] of a 64-bit platform. *)
Definition Int (v : Z) : Z := wrapS 64 (clampSigned v MinInt64 MaxInt64).
Definition Uint32 (v : Z) : Z := wrapU 32 (clampUnsigned v MaxUint32).
Definition Uint64 (v : Z) : Z := clampUnsigned v MaxUint64.
Definition Byte (v : Z) : Z := wrapU 8 (clampUnsigned v 255).

(** Saturation: the nearest value of the interval. *)
Definition saturate (lo hi v : Z) : Z := Z.max lo (Z.min hi v).

Lemma wrapS_small w x : 0 < w -> - 2 ^ (w - 1) <= x < 2 ^ (w - 1) -> wrapS w x = x.
Proof.
  intros Hw Hx. unfold wrapS.
  assert (E : 2 ^ w = 2 * 2 ^ (w - 1)) by (rewrite <- Z.pow_succ_r by lia; f_equal; lia).
  rewrite Z.mod_small; lia.
Qed.

Lemma wrapU_small w x : 0 <= x < 2 ^ w -> wrapU w x = x.
Proof. apply Z.mod_small. Qed.

Lemma clampSigned_saturates v lo hi :
  go_integer v -> MinInt64 <= lo <= 0 -> 0 <= hi <= MaxInt64 ->
  clampSigned v lo hi = saturate lo hi v.
Proof.
  unfold go_integer, clampSigned, saturate, MinInt64, MaxInt64, MaxUint64. intros Hv Hlo Hhi.
  destruct (Z.ltb_spec v 0).
  - rewrite wrapS_small by lia. destruct (Z.ltb_spec v lo); lia.
  - rewrite !wrapU_small by lia. destruct (Z.ltb_spec hi 0); [lia|]. cbn.
    destruct (Z.ltb_spec hi v); [lia|]. rewrite wrapS_small; lia.
Qed.

Lemma clampUnsigned_saturates v hi :
  go_integer v -> 0 <= hi <= MaxUint64 -> clampUnsigned v hi = saturate 0 hi v.
Proof.
  unfold go_integer, clampUnsigned, saturate, MinInt64, MaxUint64. intros Hv Hhi.
  destruct (Z.ltb_spec v 0); [lia|]. rewrite wrapU_small by lia.
  destruct (Z.ltb_spec hi v); lia.
Qed.

Lemma Int_small v : MinInt64 <= v <= MaxInt64 -> Int v = v.
Proof.
  unfold Int. intros Hv. rewrite clampSigned_saturates.
  - unfold saturate, MinInt64, MaxInt64 in *. rewrite wrapS_small; lia.
  - unfold go_integer, MinInt64, MaxInt64, MaxUint64 in *. lia.
  - unfold MinInt64. lia.
  - unfold MaxInt64. lia.
Qed.

Lemma Uint64_small v : 0 <= v <= MaxUint64 -> Uint64 v = v.
Proof.
  unfold Uint64. intros Hv. rewrite clampUnsigned_saturates.
  - unfold saturate. lia.
  - unfold go_integer, MinInt64, MaxUint64 in *. lia.
  - unfold MaxUint64 in *. lia.
Qed.

(** Every conversion of the package saturates: for any value of any Go
    integer type the result is the nearest value of the target's range, and no
    conversion inside wraps around. *)
Theorem safeconv_saturates v :
  go_integer v ->
  Int32 v = saturate MinInt32 MaxInt32 v /\ Int64 v = saturate MinInt64 MaxInt64 v /\
  Int v = saturate MinInt64 MaxInt64 v /\ Uint32 v = saturate 0 MaxUint32 v /\
  Uint64 v = saturate 0 MaxUint64 v /\ Byte v = saturate 0 255 v.
Proof.
  intros Hv. unfold Int32, Int64, Int, Uint32, Uint64, Byte.
  rewrite !clampSigned_saturates, !clampUnsigned_saturates
    by (unfold MinInt32, MaxInt32, MinInt64, MaxInt64, MaxUint32, MaxUint64; lia || exact Hv).
  unfold saturate, MinInt32, MaxInt32, MinInt64, MaxInt64, MaxUint32, MaxUint64.
  rewrite !wrapS_small, !wrapU_small by lia. done.
Qed.

Lemma safeconv_saturates_witness :
  go_integer (-5) /\ Uint32 (-5) = 0 /\ Int32 5000000000 = 2147483647 /\ Byte 300 = 255.
Proof.
  assert (H5 : go_integer (-5)) by (unfold go_integer, MinInt64, MaxUint64; lia).
  assert (Hb : go_integer 5000000000) by (unfold go_integer, MinInt64, MaxUint64; lia).
  assert (Hc : go_integer 300) by (unfold go_integer, MinInt64, MaxUint64; lia).
  destruct (safeconv_saturates (-5) H5) as (_ & _ & _ & E1 & _).
  destruct (safeconv_saturates 5000000000 Hb) as (E2 & _).
  destruct (safeconv_saturates 300 Hc) as (_ & _ & _ & _ & _ & E3).
  rewrite E1, E2, E3. split; [exact H5 | repeat split].
Defined.
End SafeConv.
