(* ===== verification/GoStrings.v ===== *)
(** * Strings of the Go standard library

    The functions of [strings], [path], [regexp] (the three literal patterns of
    the source), [encoding/hex] and [strconv] that the modelled code calls.  A
    Go string is its sequence of bytes.  Functions that range over runes are
    written over bytes where the two agree: a byte below 0x80 of a Go string is
    a rune of its own, and no byte of a multi-byte rune is below 0x80. *)

From Stdlib Require Import ZArith Lia.
From Stdlib Require Import Ascii.
From S2P Require Import Prelude.
From stdpp Require Import base strings list pretty numbers.

#[global] Open Scope string_scope.

(** ** Lengths and bytes *)

(** [len(s)] of a string and of a slice, as a Go [int]. *)
Definition slen (s : string) : Z := Z.of_nat (String.length s).
Definition len {A} (l : list A) : Z := Z.of_nat (length l).

Lemma len_nonneg {A} (l : list A) : (0 <= len l)%Z.
Proof. unfold len. lia. Qed.

Lemma len_nil_iff {A} (l : list A) : len l = 0%Z <-> l = [].
Proof. unfold len. destruct l; cbn; split; try done; lia. Qed.

Definition byte_val (c : Ascii.ascii) : N := Ascii.N_of_ascii c.
Definition in_range (lo hi c : Ascii.ascii) : bool :=
  ((byte_val lo <=? byte_val c) && (byte_val c <=? byte_val hi))%N.
Definition byte (n : nat) : Ascii.ascii := Ascii.ascii_of_nat n.
Definition quote_byte : Ascii.ascii := byte 34.

Fixpoint string_forallb (f : Ascii.ascii -> bool) (s : string) : bool :=
  match s with
  | EmptyString => true
  | String c s' => f c && string_forallb f s'
  end.

Fixpoint string_existsb (f : Ascii.ascii -> bool) (s : string) : bool :=
  match s with
  | EmptyString => false
  | String c s' => f c || string_existsb f s'
  end.

Lemma app_cons_str c a b : String c a +:+ b = String c (a +:+ b).
Proof. reflexivity. Qed.

Lemma app_assoc_str a b c : (a +:+ b) +:+ c = a +:+ (b +:+ c).
Proof. induction a as [|x a IH]; [done|]. by rewrite !app_cons_str, IH. Qed.

Lemma app_nil_str a : a +:+ "" = a.
Proof. induction a as [|x a IH]; [done|]. by rewrite app_cons_str, IH. Qed.

Lemma string_forallb_app f a b :
  string_forallb f (a +:+ b) = string_forallb f a && string_forallb f b.
Proof. induction a as [|c a IH]; [done|]. simpl. rewrite IH. apply andb_assoc. Qed.

(** ** Prefixes, suffixes and substrings *)

Definition HasPrefix (s prefix : string) : bool := String.prefix prefix s.

Lemma HasPrefix_app prefix s : HasPrefix (prefix +:+ s) prefix = true.
Proof.
  unfold HasPrefix. induction prefix as [|c p IH]; [by destruct s|]. simpl.
  by destruct (ascii_dec c c).
Qed.

Lemma HasPrefix_spec s prefix :
  HasPrefix s prefix = true <-> exists rest, s = prefix +:+ rest.
Proof.
  split; [|intros [rest ->]; apply HasPrefix_app].
  unfold HasPrefix. revert s. induction prefix as [|c p IH]; intros s; [by exists s|].
  destruct s as [|d s]; [done|]. simpl. destruct (ascii_dec c d) as [->|]; [|done].
  intros [rest ->]%IH. by exists rest.
Qed.

(** The bytes of [s] from index [n], as [s[n:]]. *)
Fixpoint string_drop (n : nat) (s : string) : string :=
  match n, s with
  | O, _ => s
  | S n', String _ s' => string_drop n' s'
  | S _, EmptyString => EmptyString
  end.

Fixpoint string_take (n : nat) (s : string) : string :=
  match n, s with
  | S n', String c s' => String c (string_take n' s')
  | _, _ => EmptyString
  end.

Definition TrimPrefix (s prefix : string) : string :=
  if HasPrefix s prefix then string_drop (String.length prefix) s else s.

Definition HasSuffix (s suffix : string) : bool :=
  (String.length suffix <=? String.length s)%nat &&
  (string_drop (String.length s - String.length suffix) s == suffix).

Definition TrimSuffix (s suffix : string) : string :=
  if HasSuffix s suffix
  then string_take (String.length s - String.length suffix) s else s.

Fixpoint Contains (s sub : string) : bool :=
  String.prefix sub s ||
  match s with EmptyString => false | String _ s' => Contains s' sub end.

Definition ContainsByte (s : string) (c : Ascii.ascii) : bool :=
  string_existsb (fun d => d == c) s.

(** [strings.ContainsAny(s, chars)] for ASCII [chars]. *)
Definition ContainsAny (s chars : string) : bool :=
  string_existsb (fun d => ContainsByte chars d) s.

(** ** [strings.TrimSpace]

    [unicode.IsSpace]: the six ASCII blanks, and the two- and three-byte UTF-8
    encodings of U+0085, U+00A0, U+1680, U+2000..U+200A, U+2028, U+2029,
    U+202F, U+205F and U+3000. *)

Definition ascii_space (c : Ascii.ascii) : bool :=
  in_range (byte 9) (byte 13) c || (c == byte 32).

Definition space2 (a b : Ascii.ascii) : bool :=
  (a == byte 194) && ((b == byte 133) || (b == byte 160)).

Definition space3 (a b c : Ascii.ascii) : bool :=
  ((a == byte 225) && (b == byte 154) && (c == byte 128)) ||
  ((a == byte 226) && (b == byte 128) &&
     (in_range (byte 128) (byte 138) c || (c == byte 168) || (c == byte 169) || (c == byte 175))) ||
  ((a == byte 226) && (b == byte 129) && (c == byte 159)) ||
  ((a == byte 227) && (b == byte 128) && (c == byte 128)).

Section trim.
Context (s1 : Ascii.ascii -> bool) (s2 : Ascii.ascii -> Ascii.ascii -> bool)
  (s3 : Ascii.ascii -> Ascii.ascii -> Ascii.ascii -> bool).

Fixpoint trim_front (s : string) : string :=
  match s with
  | EmptyString => EmptyString
  | String a r1 =>
      if s1 a then trim_front r1 else
      match r1 with
      | EmptyString => s
      | String b r2 =>
          if s2 a b then trim_front r2 else
          match r2 with
          | EmptyString => s
          | String c r3 => if s3 a b c then trim_front r3 else s
          end
      end
  end.
End trim.

Definition TrimSpace (s : string) : string :=
  let left := trim_front ascii_space space2 space3 s in
  String.rev (trim_front ascii_space (fun b a => space2 a b)
                (fun c b a => space3 a b c) (String.rev left)).

(** ** Case mapping of ASCII texts *)

Definition ascii_byte (c : Ascii.ascii) : bool := (byte_val c <? 128)%N.

Definition lower_byte (c : Ascii.ascii) : Ascii.ascii :=
  if in_range (byte 65) (byte 90) c then Ascii.ascii_of_N (byte_val c + 32) else c.

Fixpoint string_map (f : Ascii.ascii -> Ascii.ascii) (s : string) : string :=
  match s with
  | EmptyString => EmptyString
  | String c s' => String (f c) (string_map f s')
  end.

(** ** Literal patterns *)

Definition lower_hex (c : Ascii.ascii) : bool :=
  in_range "0"%char "9"%char c || in_range "a"%char "f"%char c.
Definition lower_alnum (c : Ascii.ascii) : bool :=
  in_range "0"%char "9"%char c || in_range "a"%char "z"%char c.

(** [range value] with a test for control characters. *)
Definition control_byte (c : Ascii.ascii) : bool :=
  ((byte_val c <? 32) || (byte_val c =? 127))%N.

(** ** [path.Clean] *)

Fixpoint split_byte (sep : Ascii.ascii) (s : string) : list string :=
  match s with
  | EmptyString => [""]
  | String c s' =>
      if c == sep then "" :: split_byte sep s'
      else match split_byte sep s' with
           | [] => [String c ""]
           | w :: ws => String c w :: ws
           end
  end.

(** [strings.Join] *)
Fixpoint strings_Join (sep : string) (l : list string) : string :=
  match l with
  | [] => ""
  | [w] => w
  | w :: ws => w +:+ sep +:+ strings_Join sep ws
  end.

(** One path element on the stack of kept elements, last one first. *)
Definition clean_step (rooted : bool) (out : list string) (elem : string) : list string :=
  if (elem == "") || (elem == ".") then out
  else if elem == ".." then
    match out with
    | [] => if rooted then [] else [".."]
    | top :: rest => if top == ".." then ".." :: out else rest
    end
  else elem :: out.

Definition path_Clean (p : string) : string :=
  if p == "" then "."
  else
    let rooted := HasPrefix p "/" in
    let out := reverse (foldl (clean_step rooted) [] (split_byte "/"%char p)) in
    if rooted then "/" +:+ strings_Join "/" out
    else match out with [] => "." | _ => strings_Join "/" out end.

(** ** [encoding/hex] and decimal integers *)

Definition hex_digit (n : N) : Ascii.ascii :=
  Ascii.ascii_of_N (if (n <? 10)%N then 48 + n else 87 + n)%N.

(** [hex.EncodeToString] *)
Fixpoint hex_EncodeToString (s : string) : string :=
  match s with
  | EmptyString => EmptyString
  | String c s' =>
      String (hex_digit (byte_val c / 16)) (String (hex_digit (byte_val c mod 16))
        (hex_EncodeToString s'))
  end.

(** [%d] of a Go integer *)
Definition itoa (n : Z) : string := pretty n.

(** [fmt.Sprintf("%s[%d]", field, i)] *)
Definition indexed (field : string) (i : nat) : string :=
  field +:+ "[" +:+ itoa (Z.of_nat i) +:+ "]".

Lemma hex_length s : String.length (hex_EncodeToString s) = (2 * String.length s)%nat.
Proof. induction s as [|c s IH]; cbn; [done|]. lia. Qed.

Lemma hex_digit_lower n : (n < 16)%N -> lower_hex (hex_digit n) = true.
Proof.
  intros H. destruct n as [|p]; [reflexivity|].
  assert (Hp : (N.pos p < 16)%N) by exact H. clear H.
  do 4 (destruct p as [p|p|]; try reflexivity); exfalso; lia.
Qed.

Lemma byte_val_bound c : (byte_val c < 256)%N.
Proof. apply Ascii.N_ascii_bounded. Qed.

Lemma hex_lower s : string_forallb lower_hex (hex_EncodeToString s) = true.
Proof.
  induction s as [|c s IH]; cbn; [done|]. pose proof (byte_val_bound c).
  rewrite !hex_digit_lower, IH; [done| |].
  - apply N.mod_lt. lia.
  - apply N.Div0.div_lt_upper_bound. lia.
Qed.

(** Hexadecimal texts are read in one way. *)
Lemma hex_digit_inj n m : (n < 16)%N -> (m < 16)%N -> hex_digit n = hex_digit m -> n = m.
Proof.
  intros Hn Hm E. apply (f_equal Ascii.N_of_ascii) in E. unfold hex_digit in E.
  assert (B : forall k, (k < 16 -> (if k <? 10 then 48 + k else 87 + k) < 256)%N) by (intros k Hk; destruct (k <? 10)%N; lia).
  rewrite !Ascii.N_ascii_embedding in E by (by apply B).
  destruct (n <? 10)%N eqn:En, (m <? 10)%N eqn:Em; rewrite ?N.ltb_lt, ?N.ltb_ge in *; lia.
Qed.

Lemma hex_inj s s' : hex_EncodeToString s = hex_EncodeToString s' -> s = s'.
Proof.
  revert s'. induction s as [|c s IH]; intros [|c' s'] E; try done. injection E as E1 E2 E3.
  pose proof (byte_val_bound c). pose proof (byte_val_bound c').
  apply hex_digit_inj in E1; [|apply N.Div0.div_lt_upper_bound; lia..].
  apply hex_digit_inj in E2; [|apply N.mod_lt; lia..].
  f_equal; [|by apply IH]. rewrite <- (Ascii.ascii_N_embedding c), <- (Ascii.ascii_N_embedding c'). f_equal.
  fold (byte_val c) (byte_val c').
  rewrite (N.Div0.div_mod (byte_val c) 16), (N.Div0.div_mod (byte_val c') 16). lia.
Qed.
