(* ===== verification/Utf8.v ===== *)
(** * UTF-8 (unicode/utf8)

    A Go string is cut into the runes that [range] and [utf8.DecodeRuneInString]
    see.  A rune is kept as its bytes; a byte that starts no valid encoding is a
    rune of its own, the one the package reads as U+FFFD of width one. *)

From Stdlib Require Import ZArith Lia Ascii.
From S2P Require Import Prelude GoStrings.
From stdpp Require Import base strings list.

Module Utf8.

Definition continuation (c : Ascii.ascii) : bool := in_range (byte 128) (byte 191) c.

Definition lead3 (a b : Ascii.ascii) : bool :=
  ((a == byte 224) && in_range (byte 160) (byte 191) b) ||
  (in_range (byte 225) (byte 236) a && continuation b) ||
  ((a == byte 237) && in_range (byte 128) (byte 159) b) ||
  (in_range (byte 238) (byte 239) a && continuation b).

Definition lead4 (a b : Ascii.ascii) : bool :=
  ((a == byte 240) && in_range (byte 144) (byte 191) b) ||
  (in_range (byte 241) (byte 243) a && continuation b) ||
  ((a == byte 244) && in_range (byte 128) (byte 143) b).

(** [utf8.ValidString] *)
Fixpoint ValidString (s : string) : bool :=
  match s with
  | EmptyString => true
  | String a r1 =>
      if ascii_byte a then ValidString r1 else
      match r1 with
      | EmptyString => false
      | String b r2 =>
          if in_range (byte 194) (byte 223) a && continuation b then ValidString r2 else
          match r2 with
          | EmptyString => false
          | String c r3 =>
              if lead3 a b && continuation c then ValidString r3 else
              match r3 with
              | EmptyString => false
              | String d r4 => if lead4 a b && continuation c && continuation d then ValidString r4 else false
              end
          end
      end
  end.

Fixpoint runes (s : string) : list string :=
  match s with
  | EmptyString => []
  | String a r1 =>
      if ascii_byte a then String a "" :: runes r1 else
      match r1 with
      | String b r2 =>
          if in_range (byte 194) (byte 223) a && continuation b then String a (String b "") :: runes r2 else
          match r2 with
          | String c r3 =>
              if lead3 a b && continuation c then String a (String b (String c "")) :: runes r3 else
              match r3 with
              | String d r4 =>
                  if lead4 a b && continuation c && continuation d
                  then String a (String b (String c (String d ""))) :: runes r4
                  else String a "" :: runes r1
              | EmptyString => String a "" :: runes r1
              end
          | EmptyString => String a "" :: runes r1
          end
      | EmptyString => [String a ""]
      end
  end.

Fixpoint text (l : list string) : string := match l with [] => "" | r :: l => r +:+ text l end.

(** [utf8.RuneCountInString] *)
Definition RuneCount (s : string) : Z := len (runes s).

(** A rune that is not a stray byte. *)
Definition whole (r : string) : bool :=
  match r with String a "" => ascii_byte a | _ => true end.

(** ** Facts *)

Lemma text_app a b : text (a ++ b) = text a +:+ text b.
Proof. induction a as [|r a IH]; [done|]. cbn. by rewrite IH, app_assoc_str. Qed.

(** Induction over the runes of a text: the recursion of [runes]. *)
Lemma runes_ind (P : string -> Prop) :
  P "" ->
  (forall a s, ascii_byte a = true -> P s -> P (String a s)) ->
  (forall a b s, ascii_byte a = false -> in_range (byte 194) (byte 223) a && continuation b = true ->
    P s -> P (String a (String b s))) ->
  (forall a b c s, ascii_byte a = false -> in_range (byte 194) (byte 223) a && continuation b = false ->
    lead3 a b && continuation c = true -> P s -> P (String a (String b (String c s)))) ->
  (forall a b c d s, ascii_byte a = false -> in_range (byte 194) (byte 223) a && continuation b = false ->
    lead3 a b && continuation c = false -> lead4 a b && continuation c && continuation d = true ->
    P s -> P (String a (String b (String c (String d s))))) ->
  (forall a s, runes (String a s) = String a "" :: runes s -> ValidString (String a s) = false ->
    ascii_byte a = false -> P s -> P (String a s)) ->
  forall s, P s.
Proof.
  intros H0 H1 H2 H3 H4 Hbad s.
  enough (Hn : forall n s, (String.length s <= n)%nat -> P s) by (by eapply Hn).
  clear s. intros n. induction n as [|n IH]; intros [|a r1] Hn; try done; cbn in Hn; [lia|].
  destruct (ascii_byte a) eqn:Ea; [apply H1; [done|]; apply IH; lia|].
  destruct r1 as [|b r2]; [by apply Hbad; [cbn; rewrite Ea| cbn; rewrite Ea | |]|]. cbn in Hn.
  destruct (in_range (byte 194) (byte 223) a && continuation b) eqn:E2; [apply H2; [done..|]; apply IH; lia|].
  destruct r2 as [|c r3].
  { apply Hbad; [cbn; by rewrite Ea, E2|cbn; by rewrite Ea, E2|done|]. apply IH. cbn. lia. }
  cbn in Hn. destruct (lead3 a b && continuation c) eqn:E3; [apply H3; [done..|]; apply IH; lia|].
  destruct r3 as [|d r4].
  { apply Hbad; [cbn; by rewrite Ea, E2, E3|cbn; by rewrite Ea, E2, E3|done|]. apply IH. cbn. lia. }
  cbn in Hn. destruct (lead4 a b && continuation c && continuation d) eqn:E4.
  - apply H4; [done..|]. apply IH. lia.
  - apply Hbad; [cbn [runes]; by rewrite Ea, E2, E3, E4|cbn; by rewrite Ea, E2, E3, E4|done|].
    apply IH. cbn. lia.
Qed.

(** The runes of a text that starts with a rune. *)
Definition starts (r : string) : Prop := forall s, runes (r +:+ s) = r :: runes s.

Lemma starts_ascii a : ascii_byte a = true -> starts (String a "").
Proof. intros Ha s. rewrite app_cons_str. cbn [runes]. by rewrite Ha. Qed.

Lemma starts_two a b :
  ascii_byte a = false -> in_range (byte 194) (byte 223) a && continuation b = true ->
  starts (String a (String b "")).
Proof. intros Ha H2 s. rewrite !app_cons_str. cbn [runes]. by rewrite Ha, H2. Qed.

Lemma starts_three a b c :
  ascii_byte a = false -> in_range (byte 194) (byte 223) a && continuation b = false ->
  lead3 a b && continuation c = true -> starts (String a (String b (String c ""))).
Proof. intros Ha H2 H3 s. rewrite !app_cons_str. cbn [runes]. by rewrite Ha, H2, H3. Qed.

Lemma starts_four a b c d :
  ascii_byte a = false -> in_range (byte 194) (byte 223) a && continuation b = false ->
  lead3 a b && continuation c = false -> lead4 a b && continuation c && continuation d = true ->
  starts (String a (String b (String c (String d "")))).
Proof. intros Ha H2 H3 H4 s. rewrite !app_cons_str. cbn [runes]. by rewrite Ha, H2, H3, H4. Qed.

(** Cutting a text into runes loses no byte. *)
Lemma text_runes s : text (runes s) = s.
Proof.
  induction s as [|a s Ha IH|a b s Ha H2 IH|a b c s Ha H2 H3 IH|a b c d s Ha H2 H3 H4 IH|a s Hr _ Ha IH]
    using runes_ind; [done|..].
  - change (String a s) with (String a "" +:+ s). rewrite (starts_ascii a Ha). cbn [text]. by rewrite IH.
  - change (String a (String b s)) with (String a (String b "") +:+ s).
    rewrite (starts_two a b Ha H2). cbn [text]. by rewrite IH.
  - change (String a (String b (String c s))) with (String a (String b (String c "")) +:+ s).
    rewrite (starts_three a b c Ha H2 H3). cbn [text]. by rewrite IH.
  - change (String a (String b (String c (String d s)))) with (String a (String b (String c (String d ""))) +:+ s).
    rewrite (starts_four a b c d Ha H2 H3 H4). cbn [text]. by rewrite IH.
  - rewrite Hr. cbn [text]. by rewrite IH.
Qed.

(** The encodings of the runes. *)
Inductive encoding : string -> Prop :=
  | encoding1 a : ascii_byte a = true -> encoding (String a "")
  | encoding2 a b : ascii_byte a = false -> in_range (byte 194) (byte 223) a && continuation b = true ->
      encoding (String a (String b ""))
  | encoding3 a b c : ascii_byte a = false -> in_range (byte 194) (byte 223) a && continuation b = false ->
      lead3 a b && continuation c = true -> encoding (String a (String b (String c "")))
  | encoding4 a b c d : ascii_byte a = false -> in_range (byte 194) (byte 223) a && continuation b = false ->
      lead3 a b && continuation c = false -> lead4 a b && continuation c && continuation d = true ->
      encoding (String a (String b (String c (String d "")))).

#[export] Hint Constructors encoding : core.
#[export] Hint Resolve starts_ascii starts_two starts_three starts_four : core.

Lemma encoding_starts r : encoding r -> starts r.
Proof. destruct 1; auto. Qed.

(** A valid text is made of encodings, each of which starts whatever follows. *)
Lemma valid_encodings s : ValidString s = true -> Forall encoding (runes s).
Proof.
  induction s as [|a s Ha IH|a b s Ha H2 IH|a b c s Ha H2 H3 IH|a b c d s Ha H2 H3 H4 IH|a s Hr Hbad Ha IH]
    using runes_ind; [constructor| | | | |by rewrite Hbad];
    cbn [ValidString runes]; rewrite ?Ha, ?H2, ?H3, ?H4; auto.
Qed.

Lemma continuation_high c : continuation c = true -> ascii_byte c = false.
Proof.
  unfold continuation, in_range, ascii_byte. rewrite andb_true_iff, !N.leb_le, N.ltb_ge.
  by intros [H _].
Qed.

Lemma lead3_high a b : lead3 a b = true -> ascii_byte b = false.
Proof.
  unfold lead3, continuation, in_range, ascii_byte.
  rewrite !orb_true_iff, !andb_true_iff, !N.leb_le, N.ltb_ge. change (byte_val (byte 160)) with 160%N.
  change (byte_val (byte 128)) with 128%N. lia.
Qed.

Lemma lead4_high a b : lead4 a b = true -> ascii_byte b = false.
Proof.
  unfold lead4, continuation, in_range, ascii_byte.
  rewrite !orb_true_iff, !andb_true_iff, !N.leb_le, N.ltb_ge. change (byte_val (byte 144)) with 144%N.
  change (byte_val (byte 128)) with 128%N. lia.
Qed.

(** An encoding is one ASCII byte, or bytes of which none is one. *)
Lemma encoding_cases r :
  encoding r ->
  (exists a, r = String a "" /\ ascii_byte a = true) \/
  ((2 <= String.length r <= 4)%nat /\ string_forallb (fun c => negb (ascii_byte c)) r = true).
Proof.
  destruct 1 as [a Ha|a b Ha H2|a b c Ha _ H3|a b c d Ha _ _ H4]; [left; eauto|right..];
    rewrite ?andb_true_iff in *; (split; [cbn; lia|]); cbn [string_forallb]; rewrite Ha.
  - by rewrite (continuation_high b) by tauto.
  - by rewrite (lead3_high a b), (continuation_high c) by tauto.
  - by rewrite (lead4_high a b), (continuation_high c), (continuation_high d) by tauto.
Qed.

Lemma ascii_valid s : string_forallb ascii_byte s = true -> ValidString s = true.
Proof.
  induction s as [|a s IH]; [done|]. cbn [string_forallb ValidString].
  intros [-> Hs]%andb_true_iff. by apply IH.
Qed.
End Utf8.
