(* ===== verification/Strconv.v ===== *)
(** * Decimal integers (strconv)

    [ParseUint] and [ParseInt] in base ten at 64 bits, with the two errors kept
    apart, and that they read back what [itoa] prints. *)

From Stdlib Require Import ZArith NArith Lia Ascii.
From S2P Require Import Prelude GoStrings.
From stdpp Require Import base strings list pretty numbers.

Open Scope Z_scope.

Module Strconv.

(** A result, [ErrSyntax] or [ErrRange]. *)
Inductive num := NumOk (n : Z) | NumSyntax | NumRange.

Definition digit (c : ascii) : bool := in_range "0"%char "9"%char c.

Definition digit_value (c : ascii) : Z := Z.of_N (byte_val c) - 48.

(** Digit by digit: the first character that is none, or the first step out of
    range, decides. *)
Fixpoint uint_loop (n : Z) (s : string) : num :=
  match s with
  | EmptyString => NumOk n
  | String c r =>
      if negb (digit c) then NumSyntax
      else if MaxUint64 / 10 + 1 <=? n then NumRange
      else
        let n1 := n * 10 + digit_value c in
        if MaxUint64 <? n1 then NumRange else uint_loop n1 r
  end.

(** [strconv.ParseUint(s, 10, 64)] *)
Definition ParseUint (s : string) : num := if s == "" then NumSyntax else uint_loop 0 s.

(** [strconv.ParseInt(s, 10, 64)] *)
Definition ParseInt (s : string) : num :=
  let '(neg, u) :=
    match s with
    | String c r => if c == "+"%char then (false, r) else if c == "-"%char then (true, r) else (false, s)
    | EmptyString => (false, s)
    end in
  match ParseUint u with
  | NumSyntax => NumSyntax
  | NumRange => NumRange
  | NumOk n =>
      if negb neg && (2 ^ 63 <=? n) then NumRange
      else if neg && (2 ^ 63 <? n) then NumRange
      else NumOk (if neg then - n else n)
  end.

(** ** Reading what was printed *)

Lemma digit_char d : (d < 10)%N ->
  digit (pretty_N_char d) = true /\ digit_value (pretty_N_char d) = Z.of_N d.
Proof.
  intros Hd. destruct d as [|p]; [done|].
  assert (Hp : (N.pos p < 10)%N) by exact Hd. clear Hd.
  do 4 (destruct p as [p|p|]; try done); exfalso; lia.
Qed.

Lemma uint_loop_step n d s :
  (d < 10)%N -> 0 <= n -> n * 10 + Z.of_N d <= MaxUint64 ->
  uint_loop n (String (pretty_N_char d) s) = uint_loop (n * 10 + Z.of_N d) s.
Proof.
  intros Hd Hn Hm. destruct (digit_char d Hd) as [H1 H2]. cbn [uint_loop]. rewrite H1, H2. cbn [negb].
  change (MaxUint64 / 10 + 1) with 1844674407370955162. change MaxUint64 with 18446744073709551615 in *.
  destruct (_ <=? n) eqn:E; [lia|]. destruct (_ <? _) eqn:E2; [lia|]. done.
Qed.

Lemma uint_loop_pretty x s :
  Z.of_N x <= MaxUint64 -> uint_loop 0 (pretty_N_go x s) = uint_loop (Z.of_N x) s.
Proof.
  revert s. induction (N.lt_wf_0 x) as [x _ IH]. intros s Hx.
  destruct (decide (x = 0)%N) as [->|Hnz]; [by rewrite pretty_N_go_0|].
  rewrite pretty_N_go_step by lia.
  pose proof (N.div_mod x 10 ltac:(done)) as Hdm. pose proof (N.mod_lt x 10 ltac:(done)) as Hm.
  assert (Hq : (x `div` 10 < x)%N) by (apply N.div_lt; lia).
  revert Hdm Hm Hq. generalize (x `div` 10)%N (x `mod` 10)%N. intros q d Hdm Hm Hq.
  rewrite IH by lia. rewrite uint_loop_step by lia. f_equal. lia.
Qed.

(** A positive number is printed as digits of which the first is not zero. *)
Lemma pretty_go_digits x s :
  (0 < x)%N -> exists c ds, pretty_N_go x s = String c (ds +:+ s) /\
    digit c = true /\ c <> "0"%char /\ string_forallb digit ds = true.
Proof.
  revert s. induction (N.lt_wf_0 x) as [x _ IH]. intros s Hx.
  rewrite pretty_N_go_step by lia. pose proof (N.mod_lt x 10 ltac:(done)) as Hm.
  destruct (digit_char _ Hm) as [Hd Hv].
  destruct (decide (x < 10)%N) as [Hlt|Hge].
  - rewrite N.div_small, pretty_N_go_0 by lia. rewrite N.mod_small in * by lia.
    eexists _, "". split; [reflexivity|]. split_and!; [done| |done]. intros He. rewrite He in Hv.
    change (0 = Z.of_N x) in Hv. lia.
  - destruct (IH (x `div` 10)%N ltac:(apply N.div_lt; lia) (String (pretty_N_char (x `mod` 10)) s))
      as (c & ds & -> & Hc & Hz & Hds). { apply N.div_str_pos. lia. }
    exists c, (ds +:+ String (pretty_N_char (x `mod` 10)) ""). split_and!; try done.
    + f_equal. by rewrite app_assoc_str.
    + rewrite string_forallb_app, Hds. cbn [string_forallb]. by rewrite Hd.
Qed.

Definition natural (s : string) : Prop :=
  s = "0" \/ exists c ds, s = String c ds /\ digit c = true /\ c <> "0"%char /\ string_forallb digit ds = true.

Lemma pretty_N_natural (x : N) : natural (pretty x).
Proof.
  unfold pretty, pretty_N. destruct (decide (x = 0)%N) as [->|Hx]; [by left|]. right.
  destruct (pretty_go_digits x "" ltac:(lia)) as (c & ds & -> & Hc & Hz & Hds).
  exists c, ds. by rewrite app_nil_str.
Qed.

Lemma ParseUint_pretty (x : N) : Z.of_N x <= MaxUint64 -> ParseUint (pretty x) = NumOk (Z.of_N x).
Proof.
  intros Hx. unfold ParseUint. pose proof (pretty_N_natural x) as Hn.
  rewrite bool_decide_false by (by destruct Hn as [->|(c & ds & -> & _)]).
  unfold pretty, pretty_N. destruct (decide (x = 0)%N) as [->|]; [done|]. by rewrite uint_loop_pretty.
Qed.

Lemma natural_unsigned s : natural s -> exists c r, s = String c r /\ c <> "+"%char /\ c <> "-"%char.
Proof.
  intros [->|(c & ds & -> & Hc & _)]; [by exists "0"%char, ""|]. exists c, ds. split; [done|].
  by split; intros ->.
Qed.

(** An integer in range is read back. *)
Lemma ParseInt_itoa z : MinInt64 <= z <= MaxInt64 -> ParseInt (itoa z) = NumOk z.
Proof.
  unfold MinInt64, MaxInt64. intros Hz. unfold itoa, ParseInt.
  assert (Hpos : forall x : N, Z.of_N x <= 2 ^ 63 -> Z.of_N x <= MaxUint64) by (unfold MaxUint64; lia).
  destruct z as [|p|p]; [done|..].
  - destruct (natural_unsigned _ (pretty_N_natural (N.pos p))) as (c & r & Hp & H1 & H2).
    change (pretty (Z.pos p)) with (pretty (N.pos p)). rewrite Hp, !bool_decide_false by done. rewrite <- Hp.
    rewrite ParseUint_pretty by (apply Hpos; lia). cbn [negb andb Z.of_N].
    destruct (2 ^ 63 <=? Z.pos p) eqn:E; [lia|done].
  - change (pretty (Z.neg p)) with (String "-"%char (pretty (N.pos p))).
    cbv beta iota. rewrite bool_decide_false by done. rewrite bool_decide_true by done.
    rewrite ParseUint_pretty by (apply Hpos; lia). cbn [negb andb Z.of_N].
    destruct (2 ^ 63 <? Z.pos p) eqn:E; [lia|done].
Qed.
End Strconv.
