(* ===== verification/JsonText.v ===== *)
(** * JSON texts (encoding/json)

    What the modelled code uses of encoding/json on bytes: the scanner as a parser
    to a tree that keeps numbers and strings as they are written, the escaping of
    strings by the encoder and its inverse, and the reading of an object into a
    struct.  Reading a printed tree gives the tree back. *)

From Stdlib Require Import ZArith NArith Lia Ascii.
From S2P Require Import Prelude GoStrings Utf8 Strconv.
From stdpp Require Import base strings list pretty numbers.
Import Utf8.
Import Strconv.

Module JsonText.

(** ** Trees

    A number is its text, a string is what stands between its quotes. *)
Inductive value :=
  | VNull
  | VBool (b : bool)
  | VNumber (raw : string)
  | VString (raw : string)
  | VArray (items : list value)
  | VObject (members : list (string * value)).

(** ** The scanner *)

Definition json_space (c : ascii) : bool :=
  (c == byte 32) || (c == byte 9) || (c == byte 10) || (c == byte 13).

Fixpoint skip_space (s : string) : string :=
  match s with
  | String c r => if json_space c then skip_space r else s
  | EmptyString => EmptyString
  end.

Definition backslash : ascii := byte 92.

Definition hex_value (c : ascii) : option N :=
  let n := byte_val c in
  if digit c then Some (n - 48)%N
  else if in_range "a"%char "f"%char c then Some (n - 87)%N
  else if in_range "A"%char "F"%char c then Some (n - 55)%N
  else None.

Definition is_hex (c : ascii) : bool := match hex_value c with Some _ => true | None => false end.

Definition short_escape (c : ascii) : bool :=
  ContainsByte "bfnrt/" c || (c == backslash) || (c == quote_byte).

(** The rest of a string after its opening quote: what it holds, and what
    follows its closing quote. *)
Fixpoint scan_string (s : string) : option (string * string) :=
  match s with
  | EmptyString => None
  | String c r =>
      if c == quote_byte then Some ("", r)
      else if c == backslash then
        match r with
        | String e r2 =>
            if short_escape e then
              '(raw, rest) ← scan_string r2; Some (String c (String e raw), rest)
            else if e == "u"%char then
              match r2 with
              | String h1 (String h2 (String h3 (String h4 r6))) =>
                  if is_hex h1 && is_hex h2 && is_hex h3 && is_hex h4 then
                    '(raw, rest) ← scan_string r6;
                    Some (String c (String e (String h1 (String h2 (String h3 (String h4 raw))))), rest)
                  else None
              | _ => None
              end
            else None
        | EmptyString => None
        end
      else if (byte_val c <? 32)%N then None
      else '(raw, rest) ← scan_string r; Some (String c raw, rest)
  end.

Fixpoint span (f : ascii -> bool) (s : string) : string * string :=
  match s with
  | String c r => if f c then let '(a, b) := span f r in (String c a, b) else ("", s)
  | EmptyString => ("", "")
  end.

(** One digit or more. *)
Definition digits1 (s : string) : option (string * string) :=
  let '(ds, r) := span digit s in if ds == "" then None else Some (ds, r).

(** The integer part: no leading zero. *)
Definition scan_int (s : string) : option (string * string) :=
  match s with
  | String c r => if c == "0"%char then Some ("0", r) else digits1 s
  | EmptyString => None
  end.

Definition scan_frac (s : string) : option (string * string) :=
  match s with
  | String c r => if c == "."%char then '(ds, r') ← digits1 r; Some (String c ds, r') else Some ("", s)
  | EmptyString => Some ("", s)
  end.

Definition scan_sign (s : string) : string * string :=
  match s with
  | String c r => if (c == "+"%char) || (c == "-"%char) then (String c "", r) else ("", s)
  | EmptyString => ("", s)
  end.

Definition scan_exp (s : string) : option (string * string) :=
  match s with
  | String c r =>
      if (c == "e"%char) || (c == "E"%char) then
        let '(sign, r1) := scan_sign r in
        '(ds, r2) ← digits1 r1; Some (String c (sign +:+ ds), r2)
      else Some ("", s)
  | EmptyString => Some ("", s)
  end.

Definition scan_number (s : string) : option (string * string) :=
  let '(minus, r0) :=
    match s with
    | String c r => if c == "-"%char then ("-", r) else ("", s)
    | EmptyString => ("", s)
    end in
  '(i, r1) ← scan_int r0; '(f, r2) ← scan_frac r1; '(e, r3) ← scan_exp r2;
  Some (minus +:+ i +:+ f +:+ e, r3).

(** One value and what follows it.  Two calls take at least one byte, so that
    fuel of twice the bytes is enough. *)
Fixpoint parse_value (fuel : nat) (s : string) : option (value * string) :=
  match fuel with
  | O => None
  | S n =>
      match skip_space s with
      | EmptyString => None
      | String c r =>
          if c == quote_byte then '(raw, rest) ← scan_string r; Some (VString raw, rest)
          else if c == "{"%char then
            match skip_space r with
            | String d rest =>
                if d == "}"%char then Some (VObject [], rest)
                else '(ms, rest) ← parse_members n r; Some (VObject ms, rest)
            | EmptyString => None
            end
          else if c == "["%char then
            match skip_space r with
            | String d rest =>
                if d == "]"%char then Some (VArray [], rest)
                else '(vs, rest) ← parse_items n r; Some (VArray vs, rest)
            | EmptyString => None
            end
          else if HasPrefix (String c r) "null" then Some (VNull, string_drop 4 (String c r))
          else if HasPrefix (String c r) "true" then Some (VBool true, string_drop 4 (String c r))
          else if HasPrefix (String c r) "false" then Some (VBool false, string_drop 5 (String c r))
          else '(raw, rest) ← scan_number (String c r); Some (VNumber raw, rest)
      end
  end
with parse_members (fuel : nat) (s : string) : option (list (string * value) * string) :=
  match fuel with
  | O => None
  | S n =>
      match skip_space s with
      | String q r =>
          if q == quote_byte then
            '(key, r1) ← scan_string r;
            match skip_space r1 with
            | String colon r2 =>
                if colon == ":"%char then
                  '(v, r3) ← parse_value n r2;
                  match skip_space r3 with
                  | String d r4 =>
                      if d == "}"%char then Some ([(key, v)], r4)
                      else if d == ","%char then
                        '(ms, rest) ← parse_members n r4; Some ((key, v) :: ms, rest)
                      else None
                  | EmptyString => None
                  end
                else None
            | EmptyString => None
            end
          else None
      | EmptyString => None
      end
  end
with parse_items (fuel : nat) (s : string) : option (list value * string) :=
  match fuel with
  | O => None
  | S n =>
      '(v, r1) ← parse_value n s;
      match skip_space r1 with
      | String d r2 =>
          if d == "]"%char then Some ([v], r2)
          else if d == ","%char then '(vs, rest) ← parse_items n r2; Some (v :: vs, rest)
          else None
      | EmptyString => None
      end
  end.

(** A document: one value between blanks. *)
Definition parse_json (s : string) : option value :=
  '(v, rest) ← parse_value (S (2 * String.length s)) s;
  if skip_space rest == "" then Some v else None.

(** ** Strings: the encoder's escapes and their reading *)

Definition hex2 (c : ascii) : string :=
  String (hex_digit (byte_val c / 16)) (String (hex_digit (byte_val c mod 16)) "").

Definition line_separator : string := String (byte 226) (String (byte 128) (String (byte 168) "")).
Definition paragraph_separator : string := String (byte 226) (String (byte 128) (String (byte 169) "")).
Definition replacement : string := String (byte 239) (String (byte 191) (String (byte 189) "")).

Definition escape (c : ascii) : string := String backslash (String c "").

(** One rune as [json.Marshal] writes it, with HTML escaping. *)
Definition quote_rune (r : string) : string :=
  match r with
  | String c "" =>
      if negb (ascii_byte c) then String backslash "ufffd"
      else if (c == backslash) || (c == quote_byte) then escape c
      else if c == byte 8 then escape "b"%char
      else if c == byte 12 then escape "f"%char
      else if c == byte 10 then escape "n"%char
      else if c == byte 13 then escape "r"%char
      else if c == byte 9 then escape "t"%char
      else if (byte_val c <? 32)%N || ContainsByte "<>&" c then String backslash ("u00" +:+ hex2 c)
      else r
  | _ =>
      if r == line_separator then String backslash "u2028"
      else if r == paragraph_separator then String backslash "u2029"
      else r
  end.

Definition quote (s : string) : string := text (map quote_rune (runes s)).

(** [utf8.AppendRune] of a code point that is no surrogate. *)
Definition encode_rune (x : N) : string :=
  (if x <? 128 then String (ascii_of_N x) ""
   else if x <? 2048 then String (ascii_of_N (192 + x / 64)) (String (ascii_of_N (128 + x mod 64)) "")
   else if x <? 65536 then
     String (ascii_of_N (224 + x / 4096)) (String (ascii_of_N (128 + x / 64 mod 64))
       (String (ascii_of_N (128 + x mod 64)) ""))
   else
     String (ascii_of_N (240 + x / 262144)) (String (ascii_of_N (128 + x / 4096 mod 64))
       (String (ascii_of_N (128 + x / 64 mod 64)) (String (ascii_of_N (128 + x mod 64)) ""))))%N.

Definition hex_rune (r : string) : option N :=
  match r with String c "" => hex_value c | _ => None end.

Definition hex4 (a b c d : string) : option N :=
  w ← hex_rune a; x ← hex_rune b; y ← hex_rune c; z ← hex_rune d;
  Some (w * 4096 + x * 256 + y * 16 + z)%N.

Definition high_surrogate (x : N) : bool := ((55296 <=? x) && (x <? 56320))%N.
Definition low_surrogate (x : N) : bool := ((56320 <=? x) && (x <? 57344))%N.

Definition unescaped (e : ascii) : option ascii :=
  if ContainsByte "/" e || (e == backslash) || (e == quote_byte) then Some e
  else if e == "b"%char then Some (byte 8)
  else if e == "f"%char then Some (byte 12)
  else if e == "n"%char then Some (byte 10)
  else if e == "r"%char then Some (byte 13)
  else if e == "t"%char then Some (byte 9)
  else None.

(** A stray byte is read as U+FFFD. *)
Definition sound_rune (r : string) : string := if whole r then r else replacement.

(** The text of a scanned string, over its runes.  A surrogate that does not
    begin a pair is read as U+FFFD. *)
Fixpoint unquote_runes (l : list string) : option string :=
  match l with
  | [] => Some ""
  | r :: l1 =>
      if r == String backslash "" then
        match l1 with
        | String e "" :: l2 =>
            if e == "u"%char then
              match l2 with
              | h1 :: h2 :: h3 :: h4 :: l6 =>
                  x ← hex4 h1 h2 h3 h4;
                  if high_surrogate x || low_surrogate x then
                    match l6 with
                    | b :: u :: k1 :: k2 :: k3 :: k4 :: l12 =>
                        match hex4 k1 k2 k3 k4 with
                        | Some y =>
                            if (b == String backslash "") && (u == "u") && high_surrogate x && low_surrogate y then
                              out ← unquote_runes l12;
                              Some (encode_rune (65536 + (x - 55296) * 1024 + (y - 56320)) +:+ out)
                            else out ← unquote_runes l6; Some (replacement +:+ out)
                        | None => out ← unquote_runes l6; Some (replacement +:+ out)
                        end
                    | _ => out ← unquote_runes l6; Some (replacement +:+ out)
                    end
                  else out ← unquote_runes l6; Some (encode_rune x +:+ out)
              | _ => None
              end
            else c ← unescaped e; out ← unquote_runes l2; Some (String c out)
        | _ => None
        end
      else out ← unquote_runes l1; Some (sound_rune r +:+ out)
  end.

Definition unquote (raw : string) : option string := unquote_runes (runes raw).

(** ** Printing: [json.Marshal] of a tree, without blanks *)

Definition quoted (raw : string) : string := String quote_byte (raw +:+ String quote_byte "").

Fixpoint print (v : value) : string :=
  match v with
  | VNull => "null"
  | VBool b => if b then "true" else "false"
  | VNumber raw => raw
  | VString raw => quoted raw
  | VArray items => "[" +:+ strings_Join "," (map print items) +:+ "]"
  | VObject ms =>
      "{" +:+ strings_Join "," (map (fun m => match m with (k, x) => quoted k +:+ ":" +:+ print x end) ms) +:+ "}"
  end.

(** ** Reading an object into a struct

    A member goes to the field of its name, or else to the one whose name it
    folds to; a member no field takes is an error under [DisallowUnknownFields].
    [null] leaves a struct as it is. *)

(** Letters fold to capitals; U+017F and U+212A to S and K. *)
Definition fold_rune (r : string) : string :=
  match r with
  | String c "" => if in_range "a"%char "z"%char c then String (ascii_of_N (byte_val c - 32)) "" else r
  | _ =>
      if r == String (byte 197) (String (byte 191) "") then "S"
      else if r == String (byte 226) (String (byte 132) (String (byte 170) "")) then "K"
      else r
  end.

Definition fold_name (s : string) : string := text (map fold_rune (runes s)).

Definition setter (A : Type) : Type := A -> value -> option A.

Definition field_for {A} (fields : list (string * setter A)) (key : string) : option (setter A) :=
  match find (fun f => f.1 == key) fields with
  | Some f => Some f.2
  | None => snd <$> find (fun f => fold_name f.1 == fold_name key) fields
  end.

Definition set_member {A} (fields : list (string * setter A)) (a : A) (m : string * value) : option A :=
  key ← unquote m.1; set ← field_for fields key; set a m.2.

Fixpoint set_members {A} (fields : list (string * setter A)) (a : A) (ms : list (string * value)) : option A :=
  match ms with
  | [] => Some a
  | m :: ms => a' ← set_member fields a m; set_members fields a' ms
  end.

Definition decode_struct {A} (fields : list (string * setter A)) (a : A) (v : value) : option A :=
  match v with
  | VNull => Some a
  | VObject ms => set_members fields a ms
  | _ => None
  end.

(** The fields of the types the source reads: an [int], a [string], a pointer to
    a string or to a type read from its text.  [null] sets a pointer to nil and
    leaves anything else. *)
Definition set_int {A} (set : A -> Z -> A) : setter A := fun a v =>
  match v with
  | VNull => Some a
  | VNumber raw => match ParseInt raw with NumOk n => Some (set a n) | _ => None end
  | _ => None
  end.

Definition set_text {A T} (parse : string -> option T) (set : A -> T -> A) : setter A := fun a v =>
  match v with
  | VNull => Some a
  | VString raw => s ← unquote raw; x ← parse s; Some (set a x)
  | _ => None
  end.

Definition set_pointer {A T} (parse : string -> option T) (set : A -> option T -> A) : setter A := fun a v =>
  match v with
  | VNull => Some (set a None)
  | VString raw => s ← unquote raw; x ← parse s; Some (set a (Some x))
  | _ => None
  end.

(** A type that reads the bytes of the value itself ([json.Unmarshaler]). *)
Definition set_raw {A T} (parse : string -> option T) (set : A -> T -> A) : setter A := fun a v =>
  match v with
  | VNull => Some a
  | VString raw => x ← parse raw; Some (set a x)
  | _ => None
  end.
End JsonText.
