(* ===== verification/JsonTextFacts.v ===== *)
(** * JSON texts read back

    A string that is valid UTF-8 is read back from its escaped form, a printed
    tree is parsed to the tree, and more fuel than bytes never changes a parse. *)

From Stdlib Require Import ZArith NArith Lia Ascii.
From S2P Require Import Prelude GoStrings Utf8 Strconv JsonText.
From stdpp Require Import base strings list pretty numbers.
Import Utf8.
Import Strconv.
Import JsonText.

Module JsonTextFacts.

(** ** Strings *)

Definition passes (q : string) : Prop := forall s,
  scan_string (q +:+ s) = '(raw, rest) ← scan_string s; Some (q +:+ raw, rest).

Lemma ascii_cases (P : ascii -> Prop) :
  Forall P (map ascii_of_nat (seq 0 128)) -> forall c, ascii_byte c = true -> P c.
Proof.
  intros H c Hc. rewrite Forall_forall in H. rewrite <- (ascii_nat_embedding c). apply H.
  apply in_map, in_seq. unfold ascii_byte, byte_val in Hc. apply N.ltb_lt in Hc.
  unfold nat_of_ascii. lia.
Qed.

Lemma quote_ascii_passes a : ascii_byte a = true -> passes (quote_rune (String a "")).
Proof.
  revert a. apply (ascii_cases (fun a => passes (quote_rune (String a "")))).
  repeat apply List.Forall_cons; [intros s; reflexivity..|]. apply List.Forall_nil.
Qed.

(** A byte the scanner keeps as it is. *)
Definition verbatim (c : ascii) : bool := (32 <=? byte_val c)%N && (c != quote_byte) && (c != backslash).

Lemma verbatim_passes r : string_forallb verbatim r = true -> passes r.
Proof.
  induction r as [|c r IH]; intros Hr s.
  { change ("" +:+ s) with s. by destruct (scan_string s) as [[raw rest]|]. }
  cbn [string_forallb] in Hr. unfold verbatim in Hr at 1. rewrite !andb_true_iff in Hr.
  destruct Hr as [[[Hc Hq] Hb] Hr]. rewrite app_cons_str. cbn [scan_string].
  apply negb_true_iff in Hq as ->. apply negb_true_iff in Hb as ->. apply N.leb_le in Hc.
  destruct (_ <? 32)%N eqn:E; [apply N.ltb_lt in E; lia|]. rewrite (IH Hr).
  by destruct (scan_string s) as [[raw rest]|].
Qed.

(** A byte outside ASCII is one. *)
Lemma high_verbatim r :
  string_forallb (fun c => negb (ascii_byte c)) r = true -> string_forallb verbatim r = true.
Proof.
  induction r as [|c r IH]; [done|]. cbn [string_forallb]. intros [Hc Hr]%andb_true_iff. rewrite IH by done.
  apply negb_true_iff in Hc. unfold ascii_byte in Hc. apply N.ltb_ge in Hc. unfold verbatim.
  rewrite (bool_decide_false (c = quote_byte)), (bool_decide_false (c = backslash))
    by (intros ->; revert Hc; by compute).
  destruct (_ <=? _)%N eqn:E; [done|]. apply N.leb_gt in E. lia.
Qed.

Lemma quote_high r :
  (2 <= String.length r)%nat ->
  quote_rune r = String backslash "u2028" /\ r = line_separator \/
  quote_rune r = String backslash "u2029" /\ r = paragraph_separator \/ quote_rune r = r.
Proof.
  intros Hl. destruct r as [|a [|b r]]; [cbn in Hl; lia..|]. cbn [quote_rune].
  case_bool_decide as H1; [by left|]. right. case_bool_decide as H2; [by left|]. by right.
Qed.

Lemma quote_passes r : encoding r -> passes (quote_rune r).
Proof.
  intros He. destruct (encoding_cases r He) as [(a & -> & Ha)|[Hl Hh]]; [by apply quote_ascii_passes|].
  destruct (quote_high r) as [[-> _]|[[-> _]| -> ]]; [lia|by intros s..|by apply verbatim_passes, high_verbatim].
Qed.

(** [q] is read as [r]. *)
Definition reads (q r : string) : Prop := forall s,
  unquote_runes (runes (q +:+ s)) = out ← unquote_runes (runes s); Some (r +:+ out).

Lemma quote_ascii_reads a : ascii_byte a = true -> reads (quote_rune (String a "")) (String a "").
Proof.
  revert a. apply (ascii_cases (fun a => reads (quote_rune (String a "")) (String a ""))).
  repeat apply List.Forall_cons; [intros s; reflexivity..|]. apply List.Forall_nil.
Qed.

Lemma quote_reads r : encoding r -> reads (quote_rune r) r.
Proof.
  intros He. destruct (encoding_cases r He) as [(a & -> & Ha)|[Hl Hh]]; [by apply quote_ascii_reads|].
  destruct (quote_high r) as [[-> ->]|[[-> ->]| -> ]]; [lia|by intros s..|].
  intros s. rewrite (encoding_starts r He). cbn [unquote_runes].
  destruct r as [|a [|b r]]; [cbn in Hl; lia..|]. by rewrite bool_decide_false.
Qed.

Definition raw_string (raw : string) : Prop := forall rest,
  scan_string (raw +:+ String quote_byte rest) = Some (raw, rest).

Lemma passes_raw l : Forall passes l -> raw_string (text l).
Proof.
  intros Hl rest. induction Hl as [|q l Hq _ IH]; [done|]. cbn [text]. by rewrite app_assoc_str, Hq, IH.
Qed.

Lemma verbatim_raw s : string_forallb verbatim s = true -> raw_string s.
Proof.
  intros Hs. rewrite <- (app_nil_str s). apply (passes_raw [s]). constructor; [by apply verbatim_passes|done].
Qed.

(** A valid string, escaped, is scanned to its end and read back. *)
Lemma quote_raw s : ValidString s = true -> raw_string (quote s).
Proof.
  intros Hv. apply passes_raw, Forall_fmap. eapply List.Forall_impl; [|by apply valid_encodings].
  intros r. apply quote_passes.
Qed.

Lemma unquote_quote s : ValidString s = true -> unquote (quote s) = Some s.
Proof.
  intros Hv. unfold unquote, quote. rewrite <- (text_runes s) at 2.
  pose proof (valid_encodings s Hv) as He. revert He. generalize (runes s). intros l Hl.
  induction Hl as [|r l Hr _ IH]; [done|]. cbn [map text]. by rewrite (quote_reads r Hr), IH.
Qed.

(** No rune is written with more than six bytes. *)
Lemma quote_rune_length r : encoding r -> (String.length (quote_rune r) <= 6)%nat.
Proof.
  intros He. destruct (encoding_cases r He) as [(a & -> & Ha)|[Hl Hh]].
  - apply (ascii_cases (fun a => (String.length (quote_rune (String a "")) <= 6)%nat)); [|done].
    repeat apply List.Forall_cons; [by apply Nat.leb_le..|]. apply List.Forall_nil.
  - destruct (quote_high r) as [[-> _]|[[-> _]| -> ]]; cbn; lia.
Qed.

Lemma length_app a b : String.length (a +:+ b) = (String.length a + String.length b)%nat.
Proof. induction a as [|c a IH]; [done|]. rewrite app_cons_str. cbn. by rewrite IH. Qed.

Lemma quote_length s : ValidString s = true -> (String.length (quote s) <= 6 * length (runes s))%nat.
Proof.
  intros Hv. unfold quote. pose proof (valid_encodings s Hv) as He. revert He. generalize (runes s). intros l Hl.
  induction Hl as [|r l Hr _ IH]; [done|]. cbn [map text length]. rewrite length_app.
  pose proof (quote_rune_length r Hr). lia.
Qed.

(** ** Numbers *)

(** What can follow a value in a text without blanks. *)
Definition ends (rest : string) : Prop :=
  match rest with
  | EmptyString => True
  | String c _ => c = ","%char \/ c = "}"%char \/ c = "]"%char
  end.

Lemma span_digits ds rest :
  string_forallb digit ds = true -> ends rest -> span digit (ds +:+ rest) = (ds, rest).
Proof.
  induction ds as [|c ds IH]; cbn [string_forallb].
  - intros _ Hr. change ("" +:+ rest) with rest. destruct rest as [|c rest]; [done|].
    by destruct Hr as [->|[->| ->]].
  - intros [Hc Hds]%andb_true_iff Hr. rewrite app_cons_str. cbn [span]. by rewrite Hc, IH.
Qed.

Lemma scan_int_natural s rest : natural s -> ends rest -> scan_int (s +:+ rest) = Some (s, rest).
Proof.
  intros [->|(c & ds & -> & Hc & Hz & Hds)] Hr; [done|].
  rewrite app_cons_str. cbn [scan_int]. rewrite bool_decide_false by done. unfold digits1.
  rewrite <- app_cons_str, span_digits; [done| |done]. cbn [string_forallb]. by rewrite Hc.
Qed.

Lemma scan_tail rest : ends rest -> scan_frac rest = Some ("", rest) /\ scan_exp rest = Some ("", rest).
Proof. destruct rest as [|c rest]; [done|]. by intros [->|[->| ->]]. Qed.

Lemma itoa_cases z : natural (itoa z) \/ exists s, natural s /\ itoa z = "-" +:+ s.
Proof.
  destruct z as [|p|p]; [by left; left|left; apply (pretty_N_natural (N.pos p))|right].
  exists (pretty (N.pos p)). split; [apply pretty_N_natural|done].
Qed.

Lemma scan_number_itoa z rest : ends rest -> scan_number (itoa z +:+ rest) = Some (itoa z, rest).
Proof.
  intros Hr. destruct (scan_tail rest Hr) as [Hf He].
  destruct (itoa_cases z) as [Hn|(s & Hn & ->)]; unfold scan_number.
  - destruct (natural_unsigned _ Hn) as (c & r & Hc & _ & Hm). rewrite Hc in *.
    rewrite app_cons_str. cbv beta iota. rewrite bool_decide_false by done. rewrite <- app_cons_str.
    rewrite (scan_int_natural _ _ Hn Hr). cbn [mbind option_bind]. rewrite Hf. cbn [mbind option_bind].
    rewrite He. cbn [mbind option_bind]. change ("" +:+ ?x) with x. by rewrite !app_nil_str.
  - rewrite app_assoc_str. change ("-" +:+ s +:+ rest) with (String "-"%char (s +:+ rest)).
    cbv beta iota. rewrite bool_decide_true by done.
    rewrite (scan_int_natural _ _ Hn Hr). cbn [mbind option_bind]. rewrite Hf. cbn [mbind option_bind].
    rewrite He. cbn [mbind option_bind]. by rewrite !app_nil_str.
Qed.

(** A number starts with a digit or a sign. *)
Lemma itoa_head z : exists c r, itoa z = String c r /\ (digit c = true \/ c = "-"%char).
Proof.
  destruct (itoa_cases z) as [[->|(c & ds & -> & Hc & _)]|(s & _ & ->)];
    [by eexists _, _; split; [|left]|by eexists _, _; split; [|left]|].
  exists "-"%char, s. by split; [|right].
Qed.

(** ** Trees *)

Inductive written : value -> Prop :=
  | written_null : written VNull
  | written_bool b : written (VBool b)
  | written_number z : written (VNumber (itoa z))
  | written_string raw : raw_string raw -> written (VString raw)
  | written_array items : Forall written items -> written (VArray items)
  | written_object ms : Forall (fun m => raw_string m.1 /\ written m.2) ms -> written (VObject ms).

Lemma written_nested (P : value -> Prop) :
  P VNull -> (forall b, P (VBool b)) -> (forall z, P (VNumber (itoa z))) ->
  (forall raw, raw_string raw -> P (VString raw)) ->
  (forall items, Forall P items -> P (VArray items)) ->
  (forall ms, Forall (fun m => raw_string m.1 /\ P m.2) ms -> P (VObject ms)) ->
  forall v, written v -> P v.
Proof.
  intros H1 H2 H3 H4 H5 H6. fix IH 2. intros v [| | | |items Hi|ms Hm]; auto.
  - apply H5. induction Hi as [|v' l Hv _ IHl]; constructor; auto.
  - apply H6. induction Hm as [|m l [Hk Hv] _ IHl]; constructor; auto.
Qed.

(** [v] is read from its printed form, whatever follows. *)
Definition parses (v : value) : Prop := forall n rest,
  ends rest -> (String.length (print v) < n)%nat -> parse_value n (print v +:+ rest) = Some (v, rest).

Lemma skip_start c s : json_space c = false -> skip_space (String c s) = String c s.
Proof. intros Hc. cbn [skip_space]. by rewrite Hc. Qed.

Lemma scan_quoted raw rest :
  raw_string raw -> quoted raw +:+ rest = String quote_byte (raw +:+ String quote_byte rest) /\
  scan_string (raw +:+ String quote_byte rest) = Some (raw, rest).
Proof. intros Hr. split; [|apply Hr]. unfold quoted. by rewrite app_cons_str, app_assoc_str. Qed.

Lemma number_start c :
  digit c = true \/ c = "-"%char ->
  json_space c = false /\ c <> quote_byte /\ c <> "{"%char /\ c <> "["%char /\
  c <> "n"%char /\ c <> "t"%char /\ c <> "f"%char /\ c <> "]"%char.
Proof.
  intros H. split_and!; [|by destruct H as [H| ->]; [intros ->|]..]. unfold json_space.
  rewrite !orb_false_iff, !bool_decide_eq_false. destruct H as [H| ->]; split_and!; try done; by intros ->.
Qed.

Lemma parses_number z : parses (VNumber (itoa z)).
Proof.
  intros n rest Hr Hn. cbn [print] in *. destruct n as [|n]; [lia|]. cbn [parse_value].
  destruct (itoa_head z) as (c & r & Hc & Hd). pose proof (scan_number_itoa z rest Hr) as Hs.
  rewrite Hc in *. rewrite app_cons_str in *.
  destruct (number_start c Hd) as (Hsp & H1 & H2 & H3 & H4 & H5 & H6 & _). rewrite skip_start by done.
  rewrite !bool_decide_false by done. unfold HasPrefix. cbn [String.prefix].
  do 3 (destruct (ascii_dec _ c) as [<-|_]; [done|]). by rewrite Hs.
Qed.

Lemma parses_string raw : raw_string raw -> parses (VString raw).
Proof.
  intros Hraw n rest Hr Hn. destruct n as [|n]; [lia|]. cbn [print parse_value].
  destruct (scan_quoted raw rest Hraw) as [-> Hs]. rewrite skip_start by done.
  rewrite bool_decide_true by done. by rewrite Hs.
Qed.

(** How a printed tree starts. *)
Definition heads (v : value) : Prop :=
  exists c r, print v = String c r /\ json_space c = false /\ c <> "]"%char.

Lemma heads_number z : heads (VNumber (itoa z)).
Proof. destruct (itoa_head z) as (c & r & Hc & Hd). exists c, r. apply number_start in Hd. tauto. Qed.

Definition join (l : list string) : string := strings_Join "," l.

Lemma join_cons w ws : ws <> [] -> join (w :: ws) = w +:+ String ","%char (join ws).
Proof. by destruct ws. Qed.

Lemma parse_items_join items n rest :
  Forall parses items -> items <> [] -> (S (String.length (join (map print items))) < n)%nat ->
  parse_items n (join (map print items) +:+ String "]"%char rest) = Some (items, rest).
Proof.
  intros Hi. revert n. induction Hi as [|v items Hv _ IH]; intros n Hne Hn; [done|]. clear Hne.
  destruct n as [|n]; [lia|]. destruct items as [|w items].
  - cbn [map join strings_Join] in *. cbn [parse_items]. rewrite Hv; [|right; by right|lia].
    cbn [mbind option_bind]. rewrite skip_start, bool_decide_true by done. done.
  - cbn [map] in *. rewrite join_cons in * by done. rewrite length_app in Hn. cbn [String.length] in Hn.
    rewrite app_assoc_str, app_cons_str. cbn [parse_items]. rewrite Hv; [|by left|lia].
    cbn [mbind option_bind]. rewrite skip_start by done. rewrite bool_decide_false, bool_decide_true by done.
    by rewrite IH by (done || lia).
Qed.

Definition print_member (m : string * value) : string := quoted m.1 +:+ ":" +:+ print m.2.

Lemma parse_member_step k v n s :
  raw_string k -> parses v -> ends s -> (String.length (print v) < n)%nat ->
  parse_members (S n) (print_member (k, v) +:+ s) =
  match skip_space s with
  | String d r4 =>
      if d == "}"%char then Some ([(k, v)], r4)
      else if d == ","%char then '(ms, rest) ← parse_members n r4; Some ((k, v) :: ms, rest) else None
  | EmptyString => None
  end.
Proof.
  intros Hk Hv Hs Hn. unfold print_member. cbn [fst snd].
  rewrite !app_assoc_str. destruct (scan_quoted k (":" +:+ print v +:+ s) Hk) as [-> Hq].
  cbn [parse_members]. rewrite skip_start, bool_decide_true by done. rewrite Hq. cbn [mbind option_bind].
  change (":" +:+ print v +:+ s) with (String ":"%char (print v +:+ s)).
  rewrite skip_start, bool_decide_true by done. by rewrite Hv.
Qed.

Lemma parse_members_join ms n rest :
  Forall (fun m => raw_string m.1 /\ parses m.2) ms -> ms <> [] ->
  (S (String.length (join (map print_member ms))) < n)%nat ->
  parse_members n (join (map print_member ms) +:+ String "}"%char rest) = Some (ms, rest).
Proof.
  intros Hi. revert n. induction Hi as [|[k v] ms [Hk Hv] _ IH]; intros n Hne Hn; [done|]. clear Hne. cbn in Hk, Hv.
  assert (Hl : (String.length (print v) <= String.length (print_member (k, v)))%nat).
  { unfold print_member. cbn [fst snd]. rewrite !length_app. lia. }
  destruct n as [|n]; [lia|]. destruct ms as [|m ms].
  - cbn [map join strings_Join] in *. rewrite parse_member_step; [|done|done|right; by left|lia].
    rewrite skip_start, bool_decide_true by done. done.
  - cbn [map] in *. rewrite join_cons in * by done. rewrite length_app in Hn. cbn [String.length] in Hn.
    rewrite app_assoc_str, app_cons_str. rewrite parse_member_step; [|done|done|by left|lia].
    rewrite skip_start by done. rewrite bool_decide_false, bool_decide_true by done.
    by rewrite IH by (done || lia).
Qed.

Lemma parses_array items : Forall (fun v => parses v /\ heads v) items -> parses (VArray items).
Proof.
  intros Hi n rest _ Hn. destruct n as [|n]; [lia|]. cbn [print] in *. fold (join (map print items)) in *.
  destruct items as [|v items]; [done|].
  assert (Hp : Forall parses (v :: items)) by (eapply List.Forall_impl; [|exact Hi]; by intros ? []).
  apply Forall_cons_1 in Hi as [[_ (c & r & Hc & Hsp & Hb)] _].
  rewrite !length_app in Hn. cbn [String.length] in Hn.
  pose proof (parse_items_join (v :: items) n rest Hp ltac:(done) ltac:(lia)) as Hj.
  rewrite !app_assoc_str. change ("]" +:+ rest) with (String "]"%char rest).
  change ("[" +:+ ?x) with (String "["%char x). cbn [parse_value]. rewrite skip_start by done.
  rewrite bool_decide_false, bool_decide_false, bool_decide_true by done.
  assert (Hh : exists t, join (map print (v :: items)) +:+ String "]"%char rest = String c t).
  { cbn [map]. destruct items; [|rewrite join_cons by done]; unfold join; cbn [map strings_Join];
      rewrite Hc, ?app_cons_str; eauto. }
  destruct Hh as [t Ht]. rewrite Ht in *. rewrite skip_start, bool_decide_false by done. by rewrite Hj.
Qed.

Lemma parses_object ms : Forall (fun m => raw_string m.1 /\ parses m.2) ms -> parses (VObject ms).
Proof.
  intros Hm n rest _ Hn. destruct n as [|n]; [lia|].
  assert (Hp : print (VObject ms) = "{" +:+ join (map print_member ms) +:+ "}").
  { cbn [print]. do 3 f_equal. apply map_ext. by intros []. }
  rewrite Hp in *. destruct ms as [|[k v] ms]; [done|].
  rewrite !length_app in Hn. cbn [String.length] in Hn.
  pose proof (parse_members_join ((k, v) :: ms) n rest Hm ltac:(done) ltac:(lia)) as Hj.
  rewrite !app_assoc_str. change ("}" +:+ rest) with (String "}"%char rest).
  change ("{" +:+ ?x) with (String "{"%char x). cbn [parse_value]. rewrite skip_start by done.
  rewrite bool_decide_false, bool_decide_true by done.
  assert (Hh : exists t, join (map print_member ((k, v) :: ms)) +:+ String "}"%char rest = String quote_byte t).
  { cbn [map]. destruct ms; [|rewrite join_cons by done]; unfold join; cbn [map strings_Join];
      unfold print_member, quoted; rewrite ?app_cons_str; eauto. }
  destruct Hh as [t Ht]. rewrite Ht in *. rewrite skip_start, bool_decide_false by done. by rewrite Hj.
Qed.

(** The tree of a printed tree is the tree. *)
Lemma parse_print v : written v -> parses v.
Proof.
  intros Hw. enough (parses v /\ heads v) by tauto. induction Hw as [|b|z|raw Hraw|items Hi|ms Hm] using written_nested.
  - split; [|by eexists _, _]. intros [|n] rest _ Hn; [cbn in Hn; lia|by destruct rest].
  - split; [|by destruct b; eexists _, _]. intros [|n] rest _ Hn; [lia|]. by destruct b, rest.
  - split; [apply parses_number|apply heads_number].
  - split; [by apply parses_string|by eexists _, _].
  - split; [by apply parses_array|by eexists _, _].
  - split; [|by eexists _, _]. apply parses_object. eapply List.Forall_impl; [|exact Hm]. by intros m (Hk & Hv & _).
Qed.

Lemma parse_json_print v : written v -> parse_json (print v) = Some v.
Proof.
  intros Hw. unfold parse_json. rewrite <- (app_nil_str (print v)) at 2.
  rewrite (parse_print v Hw); [done|done|lia].
Qed.

(** ** Fuel

    What follows a value is shorter than what starts with it, so that more fuel
    than bytes never runs out. *)

Abbreviation size := String.length.

Lemma skip_shorter s : (size (skip_space s) <= size s)%nat.
Proof. induction s as [|c s IH]; [done|]. cbn [skip_space]. destruct (json_space c); cbn; lia. Qed.

Lemma skip_head s c r : skip_space s = String c r -> (size r < size s)%nat.
Proof. intros H. pose proof (skip_shorter s) as Hs. rewrite H in Hs. cbn in Hs. lia. Qed.

Lemma scan_string_shorter s raw rest : scan_string s = Some (raw, rest) -> (size rest < size s)%nat.
Proof.
  enough (Hn : forall n s raw rest, (size s <= n)%nat -> scan_string s = Some (raw, rest) -> (size rest < size s)%nat)
    by (by eapply Hn).
  clear. induction n as [|n IH]; intros [|c r] raw rest Hn; cbn [scan_string]; try done; cbn in Hn; [lia|].
  destruct (_ == quote_byte); [intros [= <- <-]; cbn; lia|]. destruct (_ == backslash).
  - destruct r as [|e r2]; [done|]. cbn in Hn. intros H. destruct (short_escape e).
    + apply bind_Some in H as ([raw' r'] & H%IH & [= <- <-]); cbn; lia.
    + destruct (_ == _); [|done]. destruct r2 as [|h1 [|h2 [|h3 [|h4 r6]]]]; try done. cbn in Hn.
      destruct (_ && _); [|done]. apply bind_Some in H as ([raw' r'] & H%IH & [= <- <-]); cbn; lia.
  - destruct (_ <? 32)%N; [done|]. intros ([raw' r'] & H%IH & [= <- <-])%bind_Some; cbn; lia.
Qed.

Lemma span_shorter f s a b : span f s = (a, b) -> size s = (size a + size b)%nat.
Proof.
  revert a b. induction s as [|c s IH]; intros a b; cbn [span]; [by intros [= <- <-]|].
  destruct (f c); [|by intros [= <- <-]]. destruct (span f s) as [a' b'] eqn:E. intros [= <- <-].
  cbn. by rewrite (IH a' b').
Qed.

Lemma digits1_shorter s ds r : digits1 s = Some (ds, r) -> (size r < size s)%nat.
Proof.
  unfold digits1. destruct (span digit s) as [a b] eqn:E. apply span_shorter in E.
  case_bool_decide as Ha; [done|]. intros [= <- <-]. destruct a; [done|]. cbn in E. lia.
Qed.

Lemma scan_int_shorter s i r : scan_int s = Some (i, r) -> (size r < size s)%nat.
Proof.
  destruct s as [|c s]; [done|]. cbn [scan_int]. destruct (_ == _); [intros [= <- <-]; cbn; lia|].
  apply digits1_shorter.
Qed.

Lemma scan_frac_shorter s f r : scan_frac s = Some (f, r) -> (size r <= size s)%nat.
Proof.
  destruct s as [|c s]; cbn [scan_frac]; [by intros [= <- <-]|]. destruct (_ == _); [|by intros [= <- <-]].
  intros ([ds r'] & Hd%digits1_shorter & [= <- <-])%bind_Some. cbn. lia.
Qed.

Lemma scan_sign_shorter s sign r : scan_sign s = (sign, r) -> (size r <= size s)%nat.
Proof.
  destruct s as [|c s]; cbn [scan_sign]; [by intros [= <- <-]|].
  destruct (_ || _); intros [= <- <-]; cbn; lia.
Qed.

Lemma scan_exp_shorter s e r : scan_exp s = Some (e, r) -> (size r <= size s)%nat.
Proof.
  destruct s as [|c s]; cbn [scan_exp]; [by intros [= <- <-]|]. destruct (_ || _); [|by intros [= <- <-]].
  destruct (scan_sign s) as [sign r1] eqn:Es. apply scan_sign_shorter in Es.
  intros ([ds r'] & Hd%digits1_shorter & [= <- <-])%bind_Some. cbn. lia.
Qed.

Lemma scan_number_shorter s raw rest : scan_number s = Some (raw, rest) -> (size rest < size s)%nat.
Proof.
  unfold scan_number.
  destruct (match s with String c r => if c == "-"%char then ("-", r) else ("", s) | "" => ("", s) end) as [m r0] eqn:E0.
  assert (H0 : (size r0 <= size s)%nat).
  { destruct s as [|c s]; [by injection E0 as <- <-|]. destruct (_ == _); injection E0 as <- <-; cbn; lia. }
  intros ([i r1] & Hi%scan_int_shorter & ([f r2] & Hf%scan_frac_shorter &
    ([e r3] & He%scan_exp_shorter & [= <- <-])%bind_Some)%bind_Some)%bind_Some. lia.
Qed.

(** What is left after a value, a list of members or a list of items. *)
Definition shorter {A} (f : string -> option (A * string)) : Prop :=
  forall s a r, f s = Some (a, r) -> (size r < size s)%nat.

Lemma drop_shorter k s : (size (string_drop k s) <= size s)%nat.
Proof. revert s. induction k as [|k IH]; intros [|c s]; cbn [string_drop]; [done..|]. cbn. pose proof (IH s). lia. Qed.

Lemma parse_value_shorter n :
  shorter (parse_members n) -> shorter (parse_items n) -> shorter (parse_value (S n)).
Proof.
  intros IHm IHi s a r H. cbn [parse_value] in H. destruct (skip_space s) as [|c t] eqn:Es; [done|].
  pose proof (skip_head _ _ _ Es) as Ht. destruct (_ == quote_byte).
  { apply bind_Some in H as ([raw rest] & H%scan_string_shorter & [= <- <-]). lia. }
  destruct (_ == "{"%char).
  { destruct (skip_space t) as [|d rest] eqn:Et; [done|]. pose proof (skip_head _ _ _ Et).
    destruct (_ == _); [injection H as <- <-; lia|].
    apply bind_Some in H as ([ms r'] & H%IHm & [= <- <-]). lia. }
  destruct (_ == "["%char).
  { destruct (skip_space t) as [|d rest] eqn:Et; [done|]. pose proof (skip_head _ _ _ Et).
    destruct (_ == _); [injection H as <- <-; lia|].
    apply bind_Some in H as ([ms r'] & H%IHi & [= <- <-]). lia. }
  assert (Hd : forall k, (size (string_drop (S k) (String c t)) <= size t)%nat) by (intros k; apply (drop_shorter k t)).
  destruct (HasPrefix _ "null"); [specialize (Hd 3%nat); replace r with (string_drop 4 (String c t)) by congruence; lia|].
  destruct (HasPrefix _ "true"); [specialize (Hd 3%nat); replace r with (string_drop 4 (String c t)) by congruence; lia|].
  destruct (HasPrefix _ "false"); [specialize (Hd 4%nat); replace r with (string_drop 5 (String c t)) by congruence; lia|].
  apply bind_Some in H as ([raw r'] & H%scan_number_shorter & [= <- <-]). cbn in H. lia.
Qed.

Lemma parse_shorter n : shorter (parse_value n) /\ shorter (parse_members n) /\ shorter (parse_items n).
Proof.
  induction n as [|n (IHv & IHm & IHi)]; [by split_and!|].
  split_and!; [by apply parse_value_shorter|..]; intros s a r H.
  - cbn [parse_members] in H. destruct (skip_space s) as [|q t] eqn:Es; [done|]. pose proof (skip_head _ _ _ Es).
    destruct (_ == _); [|done]. apply bind_Some in H as ([key r1] & Hk%scan_string_shorter & H).
    destruct (skip_space r1) as [|colon r2] eqn:Ec; [done|]. pose proof (skip_head _ _ _ Ec).
    destruct (_ == _); [|done]. apply bind_Some in H as ([v r3] & Hv%IHv & H).
    destruct (skip_space r3) as [|d r4] eqn:Ed; [done|]. pose proof (skip_head _ _ _ Ed).
    destruct (_ == _); [injection H as <- <-; lia|]. destruct (_ == _); [|done].
    apply bind_Some in H as ([ms rest] & Hm%IHm & [= <- <-]). lia.
  - cbn [parse_items] in H. apply bind_Some in H as ([v r1] & Hv%IHv & H).
    destruct (skip_space r1) as [|d r2] eqn:Ed; [done|]. pose proof (skip_head _ _ _ Ed).
    destruct (_ == _); [injection H as <- <-; lia|]. destruct (_ == _); [|done].
    apply bind_Some in H as ([vs rest] & Hm%IHi & [= <- <-]). lia.
Qed.

(** Two amounts of fuel above the bound give the same result. *)
Definition steady {A} (f : nat -> string -> option (A * string)) (extra n : nat) : Prop :=
  forall m s, (2 * size s + extra < n)%nat -> (2 * size s + extra < m)%nat -> f n s = f m s.

Lemma bind_ext {A B} (m : option A) (f g : A -> option B) :
  (forall a, m = Some a -> f a = g a) -> m ≫= f = m ≫= g.
Proof. destruct m as [a|]; [intros H; by apply H|done]. Qed.

Lemma parse_fuel n : steady parse_value 0 n /\ steady parse_members 0 n /\ steady parse_items 1 n.
Proof.
  induction n as [|n (IHv & IHm & IHi)]; [split_and!; intros m s Hs; lia|].
  split_and!; intros [|m] s Hn Hm; try lia.
  - cbn [parse_value]. destruct (skip_space s) as [|c t] eqn:Es; [done|]. pose proof (skip_head _ _ _ Es).
    by rewrite (IHm m t), (IHi m t) by lia.
  - cbn [parse_members]. destruct (skip_space s) as [|q t] eqn:Es; [done|]. pose proof (skip_head _ _ _ Es).
    destruct (_ == _); [|done]. apply bind_ext. intros [key r1] Hk%scan_string_shorter.
    destruct (skip_space r1) as [|colon r2] eqn:Ec; [done|]. pose proof (skip_head _ _ _ Ec).
    destruct (_ == _); [|done]. rewrite (IHv m r2) by lia. apply bind_ext. intros [v r3] Hv.
    apply (proj1 (parse_shorter m)) in Hv.
    destruct (skip_space r3) as [|d r4] eqn:Ed; [done|]. pose proof (skip_head _ _ _ Ed).
    by rewrite (IHm m r4) by lia.
  - cbn [parse_items]. rewrite (IHv m s) by lia. apply bind_ext. intros [v r1] Hv.
    apply (proj1 (parse_shorter m)) in Hv.
    destruct (skip_space r1) as [|d r2] eqn:Ed; [done|]. pose proof (skip_head _ _ _ Ed).
    by rewrite (IHi m r2) by lia.
Qed.

Lemma parse_value_fuel n s : (2 * size s < n)%nat -> parse_value n s = parse_value (S (2 * size s)) s.
Proof. intros Hn. apply (parse_fuel n); lia. Qed.
End JsonTextFacts.
