(* ===== verification/GoTime.v ===== *)
(** * Instants as RFC 3339 texts (package time)

    The calendar of package time, what [Time.MarshalJSON] writes for a time in
    UTC and what [Time.UnmarshalJSON] reads between the quotes.  An instant whose
    year has four digits is read back from its text. *)

From Stdlib Require Import ZArith NArith Lia Ascii.
From S2P Require Import Prelude GoStrings Utf8 Strconv JsonText JsonTextFacts.
From stdpp Require Import base strings list numbers.
Import Strconv.

Open Scope Z_scope.

Module GoTime.

Definition Second : duration := 1000000000.
Definition Minute : duration := 60 * Second.
Definition Hour : duration := 60 * Minute.

(** Seconds from the first of January of the year 1 to the epoch of Unix. *)
Definition unixToInternal : Z := 62135596800.

(** [t.Unix()] and [time.Unix(sec, 0)] *)
Definition Unix (t : time) : Z := t / Second - unixToInternal.
Definition OfUnix (sec : Z) : time := wrapS64 (sec + unixToInternal) * Second.

(** ** The calendar *)

Definition leap (y : Z) : bool := (y mod 4 =? 0) && (negb (y mod 100 =? 0) || (y mod 400 =? 0)).

(** The days of a year before one of its months. *)
Definition days_before (y m : Z) : Z :=
  match nth_error [0; 31; 59; 90; 120; 151; 181; 212; 243; 273; 304; 334; 365] (Z.to_nat (m - 1)) with
  | Some d => if leap y && (2 <? m) then d + 1 else d
  | None => 0
  end.

Definition daysIn (y m : Z) : Z := days_before y (m + 1) - days_before y m.

(** The days from the first of January of the year 1 to that of [y]. *)
Definition days_to_year (y : Z) : Z :=
  let p := y - 1 in 365 * p + p / 4 - p / 100 + p / 400.

Definition days_of_date (y m d : Z) : Z := days_to_year y + days_before y m + (d - 1).

(** The year of a day and the day of the year, by cycles of 400, 100, 4 and one. *)
Definition year_of (n : Z) : Z * Z :=
  let n400 := n / 146097 in
  let r400 := n mod 146097 in
  let n100 := Z.min 3 (r400 / 36524) in
  let r100 := r400 - 36524 * n100 in
  let n4 := r100 / 1461 in
  let r4 := r100 mod 1461 in
  let n1 := Z.min 3 (r4 / 365) in
  (400 * n400 + 100 * n100 + 4 * n4 + n1 + 1, r4 - 365 * n1).

(** The month of a day of a year: the last one that does not start after it. *)
Definition month_of (y yday : Z) : Z :=
  match find (fun m => days_before y m <=? yday) [12; 11; 10; 9; 8; 7; 6; 5; 4; 3; 2] with
  | Some m => m
  | None => 1
  end.

Definition date_of_days (n : Z) : Z * Z * Z :=
  let '(y, yday) := year_of n in
  let m := month_of y yday in (y, m, yday - days_before y m + 1).

(** ** Texts *)

Definition digit_of (d : Z) : ascii := ascii_of_N (Z.to_N (48 + d)).
Definition pad2 (n : Z) : string := String (digit_of (n / 10)) (String (digit_of (n mod 10)) "").
Definition pad4 (n : Z) : string := pad2 (n / 100) +:+ pad2 (n mod 100).

(** The first [k] decimals of a fraction, without the zeros at the end. *)
Fixpoint frac_digits (k : nat) (x : Z) : string :=
  if x =? 0 then "" else
  match k with
  | O => ""
  | S k' => String (digit_of (x / 10 ^ Z.of_nat k')) (frac_digits k' (x mod 10 ^ Z.of_nat k'))
  end.

(** What stands between the quotes of [Time.MarshalJSON] of a time in UTC; a year
    without four digits is an error. *)
Definition format (t : time) : option string :=
  let '(y, m, d) := date_of_days (t / (86400 * Second)) in
  let s := t / Second mod 86400 in
  let ns := t mod Second in
  if (0 <=? y) && (y <=? 9999) then
    Some (pad4 y +:+ "-" +:+ pad2 m +:+ "-" +:+ pad2 d +:+ "T" +:+
      pad2 (s / 3600) +:+ ":" +:+ pad2 (s / 60 mod 60) +:+ ":" +:+ pad2 (s mod 60) +:+
      (if ns =? 0 then "" else "." +:+ frac_digits 9 ns) +:+ "Z")
  else None.

Fixpoint frac_value (k : nat) (s : string) : Z :=
  match k, s with
  | S k', String c r => digit_value c * 10 ^ Z.of_nat k' + frac_value k' r
  | _, _ => 0
  end.

(** Two digits between bounds. *)
Definition two (lo hi : Z) (s : string) : option (Z * string) :=
  match s with
  | String a (String b r) =>
      if digit a && digit b then
        let n := digit_value a * 10 + digit_value b in
        if (lo <=? n) && (n <=? hi) then Some (n, r) else None
      else None
  | _ => None
  end.

Definition literal (c : ascii) (s : string) : option string :=
  match s with String d r => if d == c then Some r else None | EmptyString => None end.

(** The fraction of a second; digits after the ninth are dropped. *)
Definition fraction (s : string) : Z * string :=
  match s with
  | String c r =>
      let '(ds, rest) := JsonText.span digit r in
      if (c == "."%char) && (ds != "") then (frac_value 9 ds, rest) else (0, s)
  | EmptyString => (0, s)
  end.

(** Seconds east of UTC; nothing may follow. *)
Definition zone (s : string) : option Z :=
  if s == "Z" then Some 0 else
  match s with
  | String c r =>
      if (c == "+"%char) || (c == "-"%char) then
        '(h, r1) ← two 0 23 r; r2 ← literal ":"%char r1; '(m, r3) ← two 0 59 r2;
        if r3 == "" then Some ((if c == "-"%char then -1 else 1) * (h * 3600 + m * 60)) else None
      else None
  | EmptyString => None
  end.

(** [parseStrictRFC3339] *)
Definition parse (s : string) : option time :=
  '(y1, s) ← two 0 99 s; '(y2, s) ← two 0 99 s; let y := y1 * 100 + y2 in
  s ← literal "-"%char s; '(m, s) ← two 1 12 s;
  s ← literal "-"%char s; '(d, s) ← two 1 (daysIn y m) s;
  s ← literal "T"%char s; '(hr, s) ← two 0 23 s;
  s ← literal ":"%char s; '(mi, s) ← two 0 59 s;
  s ← literal ":"%char s; '(se, s) ← two 0 59 s;
  let '(ns, s) := fraction s in
  z ← zone s;
  Some ((days_of_date y m d * 86400 + hr * 3600 + mi * 60 + se - z) * Second + ns).

(** ** Dates read back *)

Ltac div_lia := Z.to_euclidean_division_equations; lia.

Definition year_length (y : Z) : Z := if leap y then 366 else 365.

(** The parts of a year number. *)
Lemma year_parts a b c e :
  0 <= b <= 3 -> 0 <= c <= 24 -> 0 <= e <= 3 ->
  let p := 400 * a + 100 * b + 4 * c + e in
  days_to_year (p + 1) = 146097 * a + 36524 * b + 1461 * c + 365 * e /\
  leap (p + 1) = (e =? 3) && (negb (c =? 24) || (b =? 3)).
Proof.
  intros Hb Hc He p. split.
  - unfold days_to_year. replace (p + 1 - 1) with p by lia.
    assert (p / 4 = 100 * a + 25 * b + c) as -> by (subst p; div_lia).
    assert (p / 100 = 4 * a + b) as -> by (subst p; div_lia).
    assert (p / 400 = a) as -> by (subst p; div_lia). subst p. lia.
  - unfold leap.
    assert ((p + 1) mod 4 = (e + 1) mod 4) as -> by (subst p; div_lia).
    assert ((p + 1) mod 100 = (4 * c + e + 1) mod 100) as -> by (subst p; div_lia).
    assert ((p + 1) mod 400 = (100 * b + 4 * c + e + 1) mod 400) as -> by (subst p; div_lia).
    clear p. assert (e = 0 \/ e = 1 \/ e = 2 \/ e = 3) as [->|[->|[->| ->]]] by lia; [done..|].
    assert (b = 0 \/ b = 1 \/ b = 2 \/ b = 3) as [->|[->|[->| ->]]] by lia; div_lia.
Qed.

Lemma year_of_spec n :
  let '(y, yday) := year_of n in days_to_year y + yday = n /\ 0 <= yday < year_length y.
Proof.
  unfold year_of. set (a := n / 146097). set (r := n mod 146097).
  assert (Hr : n = 146097 * a + r /\ 0 <= r < 146097) by (subst a r; div_lia).
  clearbody a r. set (b := Z.min 3 (r / 36524)). set (r1 := r - 36524 * b).
  assert (Hb : 0 <= b <= 3 /\ 0 <= r1 /\ (r1 < 36524 \/ b = 3 /\ r1 <= 36524)) by (subst b r1; div_lia).
  assert (H1 : r = 36524 * b + r1) by (subst r1; lia). clearbody b r1.
  set (c := r1 / 1461). set (r2 := r1 mod 1461).
  assert (Hc : r1 = 1461 * c + r2 /\ 0 <= c <= 24 /\ 0 <= r2 < 1461) by (subst c r2; div_lia). clearbody c r2.
  set (e := Z.min 3 (r2 / 365)). set (yd := r2 - 365 * e).
  assert (He : 0 <= e <= 3 /\ 0 <= yd /\ (yd < 365 \/ e = 3 /\ yd <= 365)) by (subst e yd; div_lia).
  assert (H2 : r2 = 365 * e + yd) by (subst yd; lia). clearbody e yd.
  destruct (year_parts a b c e) as [Hd Hl]; [lia..|]. rewrite Hd. unfold year_length. rewrite Hl.
  split; [lia|]. destruct (e =? 3) eqn:E1, (c =? 24) eqn:E2, (b =? 3) eqn:E3; cbn [andb orb negb]; lia.
Qed.

(** The table of the months. *)
Lemma days_before_table y :
  let l := if leap y then 1 else 0 in
  days_before y 1 = 0 /\ days_before y 2 = 31 /\ days_before y 3 = 59 + l /\ days_before y 4 = 90 + l /\
  days_before y 5 = 120 + l /\ days_before y 6 = 151 + l /\ days_before y 7 = 181 + l /\
  days_before y 8 = 212 + l /\ days_before y 9 = 243 + l /\ days_before y 10 = 273 + l /\
  days_before y 11 = 304 + l /\ days_before y 12 = 334 + l /\ days_before y 13 = 365 + l.
Proof. unfold days_before. destruct (leap y); repeat split. Qed.

Ltac months y :=
  unfold daysIn;
  repeat match goal with
  | |- context [days_before y (?m + 1)] => let n := eval compute in (m + 1) in change (m + 1) with n
  end;
  pose proof (days_before_table y) as Htable; cbn zeta in Htable; destruct (leap y); lia.

Lemma month_of_spec y yday :
  0 <= yday < year_length y ->
  let m := month_of y yday in
  1 <= m <= 12 /\ 0 <= yday - days_before y m < daysIn y m.
Proof.
  unfold year_length, month_of. intros Hy. cbn [find].
  repeat match goal with
  | |- context [if days_before y ?m <=? yday then _ else _] =>
      let E := fresh in destruct (days_before y m <=? yday) eqn:E;
        [apply Z.leb_le in E | apply Z.leb_gt in E]
  end; cbn zeta; months y.
Qed.

(** The date of a day is a date of the calendar, and its day is that day. *)
Lemma date_of_days_spec n :
  let '(y, m, d) := date_of_days n in
  days_of_date y m d = n /\ 1 <= m <= 12 /\ 1 <= d <= daysIn y m.
Proof.
  unfold date_of_days, days_of_date. pose proof (year_of_spec n) as Hy. destruct (year_of n) as [y yday].
  destruct Hy as [Hn Hd]. pose proof (month_of_spec y yday Hd) as Hm. cbn zeta in Hm. lia.
Qed.

Lemma daysIn_bound y m : 1 <= m <= 12 -> daysIn y m <= 31.
Proof.
  intros Hm.
  assert (H : m = 1 \/ m = 2 \/ m = 3 \/ m = 4 \/ m = 5 \/ m = 6 \/ m = 7 \/ m = 8 \/ m = 9 \/ m = 10 \/
    m = 11 \/ m = 12) by lia.
  repeat (destruct H as [->|H]; [months y|]). subst m. months y.
Qed.

(** ** Texts read back *)

Lemma digit_of_facts d :
  0 <= d < 10 -> digit (digit_of d) = true /\ digit_value (digit_of d) = d.
Proof.
  intros Hd. assert (H : d = 0 \/ d = 1 \/ d = 2 \/ d = 3 \/ d = 4 \/ d = 5 \/ d = 6 \/ d = 7 \/ d = 8 \/ d = 9)
    by lia.
  repeat (destruct H as [->|H]; [done|]). by subst d.
Qed.

Lemma two_pad2 lo hi n s : 0 <= lo <= n -> n <= hi -> n <= 99 -> two lo hi (pad2 n +:+ s) = Some (n, s).
Proof.
  intros Hlo Hhi Hn. unfold pad2. rewrite !app_cons_str. change ("" +:+ s) with s. unfold two.
  destruct (digit_of_facts (n / 10)) as [H1 H2]; [div_lia|].
  destruct (digit_of_facts (n mod 10)) as [H3 H4]; [div_lia|].
  rewrite H1, H2, H3, H4. cbn [andb]. replace (n / 10 * 10 + n mod 10) with n by div_lia.
  destruct (lo <=? n) eqn:E1; [|lia]. by destruct (n <=? hi) eqn:E2; [|lia].
Qed.

Lemma literal_cons c s : literal c (String c s) = Some s.
Proof. unfold literal. by rewrite bool_decide_true. Qed.

Lemma frac_digits_spec k x :
  0 <= x < 10 ^ Z.of_nat k ->
  string_forallb digit (frac_digits k x) = true /\ frac_value k (frac_digits k x) = x.
Proof.
  revert x. induction k as [|k IH]; intros x Hx; cbn [frac_digits].
  - by assert (x = 0) as -> by (cbn in Hx; lia).
  - destruct (x =? 0) eqn:E; [split; [done|cbn; lia]|].
    rewrite Nat2Z.inj_succ, Z.pow_succ_r in Hx by lia. set (q := 10 ^ Z.of_nat k) in *.
    assert (Hq : 0 < q) by (subst q; apply Z.pow_pos_nonneg; lia).
    assert (Hd : 0 <= x / q < 10).
    { split; [apply Z.div_pos; lia|apply Z.div_lt_upper_bound; lia]. }
    pose proof (Z.mod_pos_bound x q Hq) as Hm. destruct (IH (x mod q) Hm) as [IH1 IH2].
    destruct (digit_of_facts _ Hd) as [H1 H2]. cbn [string_forallb frac_value]. rewrite H1, IH1, H2, IH2.
    split; [done|]. pose proof (Z.div_mod x q ltac:(lia)). lia.
Qed.

Lemma fraction_spec ns :
  0 <= ns < Second ->
  fraction ((if ns =? 0 then "" else "." +:+ frac_digits 9 ns) +:+ "Z") = (ns, "Z").
Proof.
  intros Hns. destruct (ns =? 0) eqn:E; [apply Z.eqb_eq in E as ->; done|].
  rewrite app_assoc_str. change ("." +:+ ?x) with (String "."%char x). unfold fraction.
  destruct (frac_digits_spec 9 ns Hns) as [Hd Hv].
  assert (Hs : JsonText.span digit (frac_digits 9 ns +:+ "Z") = (frac_digits 9 ns, "Z")).
  { clear Hv. revert Hd. generalize (frac_digits 9 ns). intros s. induction s as [|c s IH]; [done|].
    cbn [string_forallb]. intros [Hc Hs]%andb_true_iff. rewrite app_cons_str. cbn [JsonText.span].
    by rewrite Hc, IH. }
  rewrite Hs, bool_decide_true by done. rewrite bool_decide_false; [cbn [negb andb]; by rewrite Hv|].
  intros He. rewrite He in Hv. cbn in Hv. lia.
Qed.

Lemma two_pad4 y s : 0 <= y <= 9999 ->
  two 0 99 (pad4 y +:+ s) = Some (y / 100, pad2 (y mod 100) +:+ s) /\
  two 0 99 (pad2 (y mod 100) +:+ s) = Some (y mod 100, s).
Proof.
  intros Hy. unfold pad4. rewrite app_assoc_str. split; apply two_pad2; div_lia.
Qed.

Lemma clock_parts s : 0 <= s < 86400 ->
  0 <= s / 3600 <= 23 /\ 0 <= s / 60 mod 60 <= 59 /\ 0 <= s mod 60 <= 59 /\
  s / 3600 * 3600 + s / 60 mod 60 * 60 + s mod 60 = s.
Proof. intros Hs. split_and!; div_lia. Qed.

Lemma instant_parts t :
  (t / (86400 * Second) * 86400 + t / Second mod 86400) * Second + t mod Second = t.
Proof.
  rewrite (Z.mul_comm 86400), <- Z.div_div by done.
  pose proof (Z.div_mod (t / Second) 86400 ltac:(done)). pose proof (Z.div_mod t Second ltac:(done)). lia.
Qed.

(** An instant of a year of four digits is read back from its text. *)
Lemma parse_format t s : format t = Some s -> parse s = Some t.
Proof.
  unfold format. pose proof (date_of_days_spec (t / (86400 * Second))) as Hd.
  destruct (date_of_days _) as [[y m] d]. destruct Hd as (Hn & Hm & Hday).
  destruct ((0 <=? y) && (y <=? 9999)) eqn:Hy; [|done]. intros Hs%(inj Some). subst s.
  pose proof (daysIn_bound y m Hm). pose proof (instant_parts t) as Ht. rewrite <- Hn in Ht. clear Hn.
  revert Ht. set (sod := t / Second mod 86400). set (ns := t mod Second).
  assert (Hy' : 0 <= y <= 9999) by lia. assert (Hsod : 0 <= sod < 86400) by (apply Z.mod_pos_bound; lia).
  assert (Hns : 0 <= ns < Second) by (by apply Z.mod_pos_bound). clearbody sod ns. intros Ht.
  destruct (clock_parts sod Hsod) as (H1 & H2 & H3 & H4).
  unfold parse. rewrite (proj1 (two_pad4 y _ Hy')). cbn [mbind option_bind].
  rewrite (proj2 (two_pad4 y _ Hy')). cbn [mbind option_bind]. replace (y / 100 * 100 + y mod 100) with y by div_lia.
  do 2 (change ("-" +:+ ?x) with (String "-"%char x); rewrite literal_cons; cbn [mbind option_bind];
    rewrite two_pad2 by lia; cbn [mbind option_bind]).
  change ("T" +:+ ?x) with (String "T"%char x). rewrite literal_cons. cbn [mbind option_bind].
  rewrite two_pad2 by lia. cbn [mbind option_bind].
  do 2 (change (":" +:+ ?x) with (String ":"%char x); rewrite literal_cons; cbn [mbind option_bind];
    rewrite two_pad2 by lia; cbn [mbind option_bind]).
  rewrite fraction_spec by done. unfold zone. rewrite bool_decide_true by done.
  cbn [mbind option_bind]. f_equal. rewrite <- Ht. do 2 f_equal. lia.
Qed.

(** The bytes of a text. *)
Definition clock_byte (c : ascii) : bool := digit c || ContainsByte "-:.TZ" c.

Lemma digit_clock_byte d : 0 <= d < 10 -> clock_byte (digit_of d) = true.
Proof. intros Hd. unfold clock_byte. by rewrite (proj1 (digit_of_facts d Hd)). Qed.

Lemma pad2_bytes n : 0 <= n <= 99 -> string_forallb clock_byte (pad2 n) = true.
Proof. intros Hn. unfold pad2. cbn [string_forallb]. by rewrite !digit_clock_byte by div_lia. Qed.

Lemma frac_bytes ns : 0 <= ns < Second -> string_forallb clock_byte (frac_digits 9 ns) = true.
Proof.
  intros Hns. destruct (frac_digits_spec 9 ns Hns) as [Hd _]. revert Hd. generalize (frac_digits 9 ns).
  intros s. induction s as [|c s IH]; [done|]. cbn [string_forallb]. intros [Hc Hs]%andb_true_iff.
  rewrite IH by done. unfold clock_byte. by rewrite Hc.
Qed.

Lemma format_bytes t s : format t = Some s -> string_forallb clock_byte s = true.
Proof.
  unfold format. pose proof (date_of_days_spec (t / (86400 * Second))) as Hd.
  destruct (date_of_days _) as [[y m] d]. destruct Hd as (_ & Hm & Hday).
  destruct ((0 <=? y) && (y <=? 9999)) eqn:Hy; [|done]. intros Hs%(inj Some). subst s.
  pose proof (daysIn_bound y m Hm). assert (Hy' : 0 <= y <= 9999) by lia.
  destruct (clock_parts (t / Second mod 86400)) as (H1 & H2 & H3 & _); [by apply Z.mod_pos_bound|].
  pose proof (Z.mod_pos_bound t Second ltac:(done)) as Hns.
  unfold pad4. rewrite !string_forallb_app, !pad2_bytes by (lia || div_lia).
  destruct (_ =? 0); [done|]. rewrite string_forallb_app, frac_bytes by done. done.
Qed.

Lemma frac_digits_length k x : (String.length (frac_digits k x) <= k)%nat.
Proof.
  revert x. induction k as [|k IH]; intros x; cbn [frac_digits]; destruct (x =? 0); cbn; [lia..|].
  specialize (IH (x mod 10 ^ Z.of_nat k)). lia.
Qed.

Lemma format_length t s : format t = Some s -> (String.length s <= 30)%nat.
Proof.
  unfold format. destruct (date_of_days _) as [[y m] d]. destruct (_ && _); [|done]. intros Hs%(inj Some). subst s.
  unfold pad4, pad2. rewrite !JsonTextFacts.length_app. cbn [String.length].
  pose proof (frac_digits_length 9 (t mod Second)). destruct (_ =? 0); rewrite ?JsonTextFacts.length_app; cbn [String.length]; lia.
Qed.
End GoTime.
