(* ===== verification/JsonContract.v ===== *)
(** * One interpretation of a JSON document (internal/jsoncontract/decode.go)

    [Decode] walks the tokens of a document before it reads it: no object has a
    key twice, nesting is bounded, nothing follows the document, and no member is
    without a field. *)

From Stdlib Require Import ZArith Lia Ascii.
From S2P Require Import Prelude GoStrings Utf8 Strconv JsonText JsonTextFacts.
From stdpp Require Import base strings list pretty numbers.
Import Strconv.
Import JsonText.
Import JsonTextFacts.

Open Scope Z_scope.

Module JsonContract.

(** ** Numbers as the scanner's tokens

    [Token] reads a number as a float64; one that rounds to infinity is an error. *)

Fixpoint decimal (n : Z) (s : string) : Z :=
  match s with
  | EmptyString => n
  | String c r => decimal (n * 10 + digit_value c) r
  end.

(** The digits of a number as an integer and the power of ten it is scaled by. *)
Definition number_parts (raw : string) : Z * Z :=
  let s := match raw with String c r => if c == "-"%char then r else raw | EmptyString => raw end in
  let '(i, r1) := span digit s in
  let '(f, r2) :=
    match r1 with
    | String c r => if c == "."%char then span digit r else ("", r1)
    | EmptyString => ("", r1)
    end in
  let e :=
    match r2 with
    | String _ r => let '(sign, ds) := scan_sign r in (if sign == "-" then -1 else 1) * decimal 0 ds
    | EmptyString => 0
    end in
  (decimal 0 (i +:+ f), e - slen f).

(** The magnitude reaches the middle between the largest float64 and 2^1024.
    Scales beyond a hundred thousand, which texts of that length do not make up
    for, are cut off there. *)
Definition float_overflows (raw : string) : bool :=
  let '(m, e) := number_parts raw in
  let e := Z.max (-100000) (Z.min 100000 e) in
  (2 ^ 1024 - 2 ^ 970) * 10 ^ Z.max 0 (- e) <=? m * 10 ^ Z.max 0 e.

(** ** The walk *)

Definition maxDepth : nat := 64.

Fixpoint consume (depth : nat) (v : value) : bool :=
  (depth <=? maxDepth)%nat &&
  match v with
  | VNumber raw => negb (float_overflows raw)
  | VArray items => forallb (consume (S depth)) items
  | VObject ms =>
      bool_decide (NoDup (map (fun m => unquote m.1) ms)) &&
      forallb (fun m => match m with (_, x) => consume (S depth) x end) ms
  | _ => true
  end.

(** [Decode(data, target)]: [read] is the reading of a tree into the target. *)
Definition Decode {A} (read : value -> option A) (data : string) : option A :=
  v ← parse_json data; if consume 0 v then read v else None.

(** ** Facts *)

Lemma uint_loop_decimal n s k : uint_loop n s = NumOk k -> decimal n s = k.
Proof.
  revert n. induction s as [|c s IH]; intros n; cbn [uint_loop decimal]; [by intros [= <-]|].
  destruct (negb _); [done|]. destruct (_ <=? _); [done|]. destruct (_ <? _); [done|]. apply IH.
Qed.

Lemma natural_parts s : natural s -> number_parts s = (decimal 0 s, 0) /\ number_parts ("-" +:+ s) = (decimal 0 s, 0).
Proof.
  intros Hn. assert (Hs : span digit s = (s, "")).
  { rewrite <- (app_nil_str s) at 1. apply span_digits; [|done].
    destruct Hn as [->|(c & ds & -> & Hc & _ & Hds)]; [done|]. cbn [string_forallb]. by rewrite Hc. }
  destruct (natural_unsigned s Hn) as (c & r & -> & _ & Hm). unfold number_parts.
  change ("-" +:+ ?x) with (String "-"%char x). cbv beta iota.
  rewrite bool_decide_false by done. rewrite bool_decide_true by done. rewrite Hs.
  cbv beta iota zeta. by rewrite app_nil_str.
Qed.

(** An integer of the machine is no infinity. *)
Lemma itoa_fits z : MinInt64 <= z <= MaxInt64 -> float_overflows (itoa z) = false.
Proof.
  intros Hz. assert (Hp : exists m, number_parts (itoa z) = (m, 0) /\ m <= 2 ^ 63).
  { assert (Hx : forall x : N, Z.of_N x <= 2 ^ 63 -> decimal 0 (pretty x) = Z.of_N x).
    { intros x Hx. pose proof (ParseUint_pretty x ltac:(unfold MaxUint64; lia)) as H. unfold ParseUint in H.
      destruct (_ == _); [done|]. by apply uint_loop_decimal. }
    unfold MinInt64, MaxInt64 in Hz. destruct z as [|p|p]; [by exists 0|..].
    - exists (Z.pos p). split; [|lia].
      rewrite (proj1 (natural_parts (itoa (Z.pos p)) (pretty_N_natural (N.pos p)))).
      f_equal. apply (Hx (N.pos p)). lia.
    - exists (Z.pos p). split; [|lia]. change (itoa (Z.neg p)) with ("-" +:+ pretty (N.pos p)).
      rewrite (proj2 (natural_parts _ (pretty_N_natural (N.pos p)))). f_equal. apply (Hx (N.pos p)). lia. }
  destruct Hp as (m & Hp & Hm). unfold float_overflows. rewrite Hp.
  change (10 ^ Z.max 0 (- Z.max (-100000) (Z.min 100000 0))) with 1.
  change (10 ^ Z.max 0 (Z.max (-100000) (Z.min 100000 0))) with 1.
  assert (2 ^ 63 < 2 ^ 1024 - 2 ^ 970) by (by vm_compute). apply Z.leb_gt. lia.
Qed.

(** What [Decode] reads from a document the encoder wrote. *)
Lemma Decode_print {A} (read : value -> option A) v :
  written v -> consume 0 v = true -> Decode read (print v) = read v.
Proof. intros Hw Hc. unfold Decode. rewrite parse_json_print by done. cbn [mbind option_bind]. by rewrite Hc. Qed.
End JsonContract.
