(* ===== verification/External.v ===== *)
(** * Code outside the repository

    The third-party and cryptographic functions the modelled code calls, as the
    operations of one class, and the documented behaviour the theorems rely on,
    as the laws of a second one.  [Concrete] instantiates both: the laws have a
    model.  JSON values are kept as trees: [to_json] of a struct lists its
    fields under the names and [omitempty] rules of its tags, and
    [CanonicalJSON] is the byte string that [json.Marshal] followed by
    [jcs.Transform] (RFC 8785) makes of the tree. *)

From Stdlib Require Import ZArith Lia.
From S2P Require Import Prelude GoStrings.
From stdpp Require Import base gmap strings list pretty.

(** ** JSON documents *)

Inductive json :=
  | JNull
  | JBool (b : bool)
  | JNumber (z : Z)
  | JString (s : string)
  | JTime (t : time)
  | JDuration (d : duration)
  | JRaw (raw : string)
  | JArray (l : list json)
  | JObject (fields : list (string * json)).

Class ToJSON (A : Type) := to_json : A -> json.

#[export] Instance bool_json : ToJSON bool := JBool.
#[export] Instance Z_json : ToJSON Z := JNumber.
#[export] Instance string_json : ToJSON string := JString.
#[export] Instance list_json `{ToJSON A} : ToJSON (list A) := fun l => JArray (map to_json l).
#[export] Instance labels_json : ToJSON (gmap string string) :=
  fun m => JObject (prod_map id JString <$> map_to_list m).

(** A struct field, always present or with [omitempty]. *)
Definition field `{ToJSON A} (name : string) (v : A) : list (string * json) :=
  [(name, to_json v)].
Definition field_omit `{ToJSON A} (name : string) (empty : bool) (v : A) :
  list (string * json) := if empty then [] else [(name, to_json v)].

(** ** The parameters *)

(** [url.URL], as far as the source reads it; [url_User] is the user name and
    whether a password is present. *)
Record URL := {
  url_Scheme : string;
  url_Host : string;
  url_Fragment : string;
  url_RawQuery : string;
  url_User : option (string * bool);
}.

Class External := {
  (** github.com/google/uuid *)
  uuid_String : uuid -> string;
  uuid_Parse : string -> option uuid;
  (** crypto/sha256: the 32 bytes of [sha256.Sum256] *)
  sha256_Sum256 : string -> string;
  (** encoding/json and github.com/gowebpki/jcs; [None] is an encoding error *)
  jcs_Marshal : json -> option string;
  (** k8s.io/apimachinery/pkg/util/validation: the list of errors is empty *)
  IsQualifiedName : string -> bool;
  IsValidLabelValue : string -> bool;
  IsDNS1123Subdomain : string -> bool;
  (** net/url *)
  url_Parse : string -> option URL;
  (** github.com/Masterminds/semver: the text parses *)
  semver_NewVersion : string -> bool;
  semver_NewConstraint : string -> bool;
  (** [constraint.Check(version)] on the two texts *)
  semver_Check : string -> string -> bool;
  (** encoding/json: the text is one JSON value; the encoding of a tree; the
      first value of a text, numbers kept as they are written *)
  json_Valid : string -> bool;
  json_Marshal : json -> option string;
  json_Decode : string -> option json;
  (** sigs.k8s.io/yaml *)
  yaml_Unmarshal : string -> option json;
  (** the case tables of package unicode: [strings.ToLower] of a text with a
      byte outside ASCII *)
  unicode_ToLower : string -> string;
}.

(** [strings.ToLower] *)
Definition ToLower `{External} (s : string) : string :=
  if string_forallb ascii_byte s then string_map lower_byte s else unicode_ToLower s.

Class ExternalLaws `{External} := {
  uuid_String_inj : forall u v, uuid_String u = uuid_String v -> u = v;
  uuid_Parse_String : forall u, uuid_Parse (uuid_String u) = Some u;
  uuid_String_nonempty : forall u, uuid_String u <> "";
  sha256_length : forall s, String.length (sha256_Sum256 s) = 32%nat;
}.

(** ** A concrete instance

    Identifiers print as their raw bytes after a letter, the hash is a checksum,
    documents print as a nested list and every text is accepted. *)

Module Concrete.
Fixpoint print_json (j : json) : string :=
  match j with
  | JNull => "null"
  | JBool b => if b then "true" else "false"
  | JNumber z => pretty z
  | JString s => "'" +:+ s +:+ "'"
  | JTime t => "t" +:+ pretty t
  | JDuration d => "d" +:+ pretty d
  | JRaw s => s
  | JArray l => "[" +:+ strings_Join "," (map print_json l) +:+ "]"
  | JObject l => "{" +:+ strings_Join "," (map (fun p => match p with (k, v) => k +:+ ":" +:+ print_json v end) l) +:+ "}"
  end.

(** A 32-byte digest that depends on the whole text: a polynomial checksum. *)
Definition checksum (s : string) : N :=
  foldl (fun h c => ((h * 257 + byte_val c + 1) mod 2 ^ 61)%N) 7%N (String.list_ascii_of_string s).

Fixpoint digits (n : nat) (v : N) : string :=
  match n with
  | O => EmptyString
  | S n' => String (Ascii.ascii_of_N (v mod 256)%N) (digits n' (v / 256)%N)
  end.

#[export] Instance external : External := {|
  uuid_String u := "u" +:+ uuid_bytes u;
  uuid_Parse s := match s with String _ r => Some (UUID r) | EmptyString => None end;
  sha256_Sum256 s := digits 32 (checksum s);
  jcs_Marshal j := Some (print_json j);
  IsQualifiedName s := negb (s == "");
  IsValidLabelValue _ := true;
  IsDNS1123Subdomain _ := true;
  url_Parse s := Some {| url_Scheme := "https"; url_Host := s; url_Fragment := "";
                         url_RawQuery := ""; url_User := None |};
  semver_NewVersion s := negb (s == "");
  semver_NewConstraint s := negb (s == "");
  semver_Check c v := c == v;
  json_Valid _ := true;
  json_Marshal j := Some (print_json j);
  json_Decode s := Some (JObject [("raw", JString s)]);
  yaml_Unmarshal s := Some (JObject [("raw", JString s)]);
  unicode_ToLower s := string_map lower_byte s;
|}.

Lemma digits_length n v : String.length (digits n v) = n.
Proof. revert v. induction n as [|n IH]; intros v; cbn; [done|]. by rewrite IH. Qed.

#[export] Instance external_laws : ExternalLaws.
Proof.
  split.
  - intros [u] [v] [= E]. f_equal. exact E.
  - by intros [u].
  - done.
  - intros s. apply digits_length.
Qed.
End Concrete.
