(* ===== verification/Validation.v ===== *)
(** * Validation and content digests (internal/delivery/model: errors.go, digest.go)

    A validator of the source appends violations to a collector and returns
    them as one error.  Here a check is the list of violations it appends, a
    validator is the concatenation of its checks in source order, and
    [collector_err] makes the error of it. *)

From Stdlib Require Import ZArith Lia.
From S2P Require Import Prelude GoStrings External.
From stdpp Require Import base gmap strings list.

Module Validation.

(** [HasCode] *)
Definition HasCode (e : error) (code : ValidationCode) : bool :=
  match e with
  | EValidation vs => existsb (fun v => violation_Code v == code) vs
  | _ => false
  end.

(** [validationCollector.add] *)
Definition add (field : string) (code : ValidationCode) (message : string) : list Violation :=
  [{| violation_Field := field; violation_Code := code; violation_Message := message |}].

(** [if cond { collector.add(...) }] *)
Definition when (cond : bool) (vs : list Violation) : list Violation :=
  if cond then vs else [].

Definition prefixed (prefix : string) (v : Violation) : Violation :=
  {| violation_Field :=
       if prefix == "" then violation_Field v
       else if violation_Field v == "" then prefix
       else prefix +:+ "." +:+ violation_Field v;
     violation_Code := violation_Code v;
     violation_Message := violation_Message v |}.

(** [validationCollector.append] *)
Definition append {A} (prefix : string) (r : res A) : list Violation :=
  match r with
  | Ok _ => []
  | Err (EValidation vs) => map (prefixed prefix) vs
  | Err _ => add prefix VInvalid "is invalid"
  end.

(** [validationCollector.err] *)
Definition collector_err (vs : list Violation) : res unit :=
  match vs with [] => Ok tt | _ => Err (EValidation vs) end.

(** [for i, value := range values] with a [seen] map of the keys so far. *)
Fixpoint seen_loop {A K} `{Countable K} (key : A -> K)
    (body : nat -> A -> bool -> list Violation)
    (i : nat) (seen : gset K) (l : list A) : list Violation :=
  match l with
  | [] => []
  | x :: l' =>
      body i x (bool_decide (key x ∈ seen)) ++ seen_loop key body (S i) ({[key x]} ∪ seen) l'
  end.

(** [for i, value := range values] without one. *)
Fixpoint index_loop {A} (body : nat -> A -> list Violation) (i : nat) (l : list A) :
  list Violation :=
  match l with
  | [] => []
  | x :: l' => body i x ++ index_loop body (S i) l'
  end.

(** ** Digests *)

Definition Digest := string.

(** [digestPattern.MatchString] *)
Definition digestPattern (s : string) : bool :=
  HasPrefix s "sha256:" &&
  let rest := string_drop 7 s in
  (String.length rest =? 64)%nat && string_forallb lower_hex rest.

(** [Digest.Validate] *)
Definition Digest_Validate (d : Digest) : res unit :=
  if digestPattern d then Ok tt
  else Err (EValidation (add "digest" VInvalid
         "must use sha256 followed by 64 lowercase hexadecimal characters")).

Definition ParseDigest (value : string) : res Digest :=
  Digest_Validate value;; Ok value.

Section digest.
Context `{External}.

Definition DigestBytes (value : string) : Digest :=
  "sha256:" +:+ hex_EncodeToString (sha256_Sum256 value).

Definition CanonicalJSON `{ToJSON A} (value : A) : res string :=
  match jcs_Marshal (to_json value) with
  | Some raw => Ok raw
  | None => Err (EText "marshal canonical delivery value: %w")
  end.

Definition CanonicalDigest `{ToJSON A} (value : A) : res Digest :=
  canonical ← CanonicalJSON value; Ok (DigestBytes canonical).
End digest.

(** ** Lemmas *)

Lemma add_nil field code msg : add field code msg = [] <-> False.
Proof. split; [discriminate | done]. Qed.

Lemma when_nil c vs : when c vs = [] <-> (c = true -> vs = []).
Proof. destruct c; cbn; naive_solver. Qed.

Lemma when_add_nil c field code msg : when c (add field code msg) = [] <-> c = false.
Proof. destruct c; cbn; naive_solver. Qed.

Lemma collector_err_Ok vs u : collector_err vs = Ok u <-> vs = [].
Proof. destruct vs, u; cbn; naive_solver. Qed.

Lemma append_err_nil prefix vs : append prefix (collector_err vs) = [] <-> vs = [].
Proof. destruct vs; cbn; naive_solver. Qed.

Lemma app_nil_iff {A} (a b : list A) : a ++ b = [] <-> a = [] /\ b = [].
Proof. destruct a; cbn; naive_solver. Qed.

Lemma if_nil {A} (c : bool) (a b : list A) :
  (if c then a else b) = [] <-> (c = true -> a = []) /\ (c = false -> b = []).
Proof. destruct c; naive_solver. Qed.

Lemma index_loop_nil {A} (body : nat -> A -> list Violation) (P : A -> Prop) i l :
  (forall i x, body i x = [] <-> P x) ->
  index_loop body i l = [] <-> Forall P l.
Proof.
  intros Hb. revert i. induction l as [|x l IH]; intros i; cbn.
  - split; [constructor | done].
  - rewrite app_nil_iff, Hb, IH, Forall_cons_iff. done.
Qed.

Lemma index_loop_elem {A} (body : nat -> A -> list Violation) i l :
  index_loop body i l = [] -> Forall (fun x => exists j, body j x = []) l.
Proof.
  revert i. induction l as [|x l IH]; intros i; cbn; [constructor|].
  rewrite app_nil_iff. intros [? ?]. constructor; eauto.
Qed.

Lemma seen_loop_nil {A K} `{Countable K} (key : A -> K) body (P : A -> Prop) l :
  (forall i x, body i x false = [] <-> P x) ->
  (forall i x, body i x true <> []) ->
  forall i seen, seen_loop key body i seen l = [] <->
  Forall P l /\ NoDup (key <$> l) /\ Forall (fun x => key x ∉ seen) l.
Proof.
  intros Hf Ht. induction l as [|x l IH]; intros i seen; cbn [seen_loop fmap list_fmap].
  - split; [repeat constructor | done].
  - rewrite app_nil_iff, IH, !Forall_cons_iff, NoDup_cons.
    case_bool_decide as Hx; [split; [intros [E _]; by apply Ht in E | naive_solver]|].
    rewrite Hf, list_elem_of_fmap. split.
    + intros (Hp & Hps & Hnd & Hs). split_and!; auto.
      * intros (y & Hy & Hin). rewrite Forall_forall in Hs. apply (Hs y Hin). set_solver.
      * eapply Forall_impl; [exact Hs|]. cbn. set_solver.
    + intros ([Hp Hps] & [Hn Hnd] & _ & Hs). split_and!; auto.
      rewrite Forall_forall in Hs |- *. intros y Hy. specialize (Hs y Hy).
      assert (key y <> key x) by (intros E; apply Hn; exists y; auto). set_solver.
Qed.

Lemma seen_loop_start {A K} `{Countable K} (key : A -> K) body (P : A -> Prop) l :
  (forall i x, body i x false = [] <-> P x) ->
  (forall i x, body i x true <> []) ->
  seen_loop key body 0 ∅ l = [] <-> Forall P l /\ NoDup (key <$> l).
Proof.
  intros Hf Ht. rewrite (seen_loop_nil key body P l Hf Ht).
  split; [naive_solver|]. intros []. split_and!; auto.
  apply Forall_true. set_solver.
Qed.

Lemma Digest_Validate_Ok d u : Digest_Validate d = Ok u <-> digestPattern d = true.
Proof.
  unfold Digest_Validate. destruct u, (digestPattern d); split; congruence.
Qed.

Lemma DigestBytes_valid `{ExternalLaws} s : digestPattern (DigestBytes s) = true.
Proof.
  unfold digestPattern, DigestBytes.
  change (string_drop 7 _) with (hex_EncodeToString (sha256_Sum256 s)).
  by rewrite HasPrefix_app, hex_length, sha256_length, hex_lower.
Qed.

Lemma CanonicalDigest_valid `{ExternalLaws} `{ToJSON A} (v : A) d :
  CanonicalDigest v = Ok d -> digestPattern d = true.
Proof. unfold CanonicalDigest. intros. res_inv. apply DigestBytes_valid. Qed.

End Validation.
Export Validation.

#[export] Hint Rewrite add_nil when_add_nil collector_err_Ok @append_err_nil
  @app_nil_iff @if_nil Digest_Validate_Ok : validation.

(** The digest of any document has the pattern of a digest. *)
Ltac digest_valid :=
  match goal with
  | Hd : CanonicalDigest _ = Ok ?d |- digestPattern ?d = true => exact (CanonicalDigest_valid _ _ Hd)
  end.
