(* ===== verification/Overrides.v ===== *)
(** * Target overrides (internal/delivery/model/target_overrides.go)

    The values and patches a target adds to an immutable bundle version.  A
    decoded JSON or YAML document is a [json] tree whose objects list every key
    once; Go iterates over such an object in an unspecified order, which only
    affects which of several errors is reported. *)

From Stdlib Require Import ZArith Lia Ascii.
From S2P Require Import Prelude GoStrings External Validation.
From stdpp Require Import base strings list.

Module Overrides.

Definition MaxTargetOverridesBytes : Z := 64 * 2 ^ 10.
Definition MaxTargetPatches : Z := 16.
Definition MaxTargetPatchBytes : Z := 16 * 2 ^ 10.
Definition MaxTargetValuesDepth : Z := 12.

Record TargetOverrides := {
  HelmValues : string;
  Patches : list string;
}.

#[export] Instance TargetOverrides_eq_dec : EqDecision TargetOverrides.
Proof. solve_decision. Defined.

#[export] Instance TargetOverrides_json : ToJSON TargetOverrides := fun o =>
  JObject ((if HelmValues o == "" then [] else [("helm_values", JRaw (HelmValues o))]) ++
           field_omit "patches" (len (Patches o) =? 0)%Z (Patches o)).

Definition crlfnul : string := String (byte 13) (String (byte 10) (String (byte 0) "")).

(** [validateTargetValue] *)
Fixpoint validateTargetValue (value : json) (depth : Z) : res unit :=
  fail_if (MaxTargetValuesDepth <? depth)%Z (EText "nesting exceeds %d levels");;
  match value with
  | JObject typed =>
      fail_if (256 <? len typed)%Z (EText "an object exceeds 256 keys");;
      (fix each (l : list (string * json)) : res unit :=
         match l with
         | [] => Ok tt
         | (key, child) :: l' =>
             fail_if ((key == "") || (253 <? slen key)%Z || ContainsAny key crlfnul)
               (EText "contains an invalid key");;
             validateTargetValue child (depth + 1);;
             each l'
         end) typed
  | JArray typed =>
      fail_if (256 <? len typed)%Z (EText "an array exceeds 256 items");;
      (fix each (l : list json) : res unit :=
         match l with
         | [] => Ok tt
         | child :: l' => validateTargetValue child (depth + 1);; each l'
         end) typed
  | JString typed =>
      fail_if ((8192 <? slen typed)%Z || ContainsByte typed (byte 0))
        (EText "contains an oversized or invalid string")
  | JNumber _ | JBool _ | JNull => Ok tt
  | JTime _ | JDuration _ | JRaw _ => Err (EText "contains unsupported value type %T")
  end.

(** ** Merging Helm values *)

Fixpoint obj_get (k : string) (fields : list (string * json)) : option json :=
  match fields with
  | [] => None
  | (k', v) :: l => if k == k' then Some v else obj_get k l
  end.

(** [destination[key] = value] *)
Fixpoint obj_set (k : string) (v : json) (fields : list (string * json)) : list (string * json) :=
  match fields with
  | [] => [(k, v)]
  | (k', v') :: l => if k == k' then (k', v) :: l else (k', v') :: obj_set k v l
  end.

(** [destination[key].(map[string]any)], or a fresh map when there is none. *)
Definition nested_object (k : string) (fields : list (string * json)) : list (string * json) :=
  match obj_get k fields with Some (JObject current) => current | _ => [] end.

(** [mergeTargetMaps(destination, override)], on the value of one key: an
    object is merged into the destination's object, anything else replaces. *)
Fixpoint merge_value (destination : list (string * json)) (key : string) (value : json) :
  list (string * json) :=
  match value with
  | JObject nested =>
      obj_set key (JObject
        ((fix each (current : list (string * json)) (l : list (string * json)) :=
            match l with
            | [] => current
            | (k, v) :: l' => each (merge_value current k v) l'
            end) (nested_object key destination) nested)) destination
  | _ => obj_set key value destination
  end.

Definition mergeTargetMaps (destination override : list (string * json)) : list (string * json) :=
  foldl (fun d kv => merge_value d kv.1 kv.2) destination override.

Section validate.
Context `{External}.

(** One iteration of the loop over the patches. *)
Definition validate_patch (patch : string) : res unit :=
  fail_if ((TrimSpace patch == "") || (MaxTargetPatchBytes <? slen patch)%Z ||
           ContainsByte patch (byte 0)) (EText "overrides.patches[%d] is empty or exceeds %d bytes");;
  match yaml_Unmarshal patch with
  | None => Err (EText "overrides.patches[%d] is invalid YAML: %w")
  | Some (JObject (_ :: _)) => Ok tt
  | Some _ => Err (EText "overrides.patches[%d] must be a Kubernetes object or patch")
  end.

Definition validate_helm_values (raw : string) : res unit :=
  if raw == "" then Ok tt
  else
    match json_Decode raw with
    | None => Err (EText "overrides.helm_values must be JSON: %w")
    | Some (JObject fields) =>
        wrap_err (fun _ => EText "overrides.helm_values: %w") (validateTargetValue (JObject fields) 0)
    | Some _ => Err (EText "overrides.helm_values must be an object")
    end.

(** [TargetOverrides.Validate] *)
Definition TargetOverrides_Validate (o : TargetOverrides) : res unit :=
  fail_if (match json_Marshal (to_json o) with
           | Some encoded => (MaxTargetOverridesBytes <? slen encoded)%Z
           | None => true
           end) (EText "overrides must be at most %d bytes");;
  fail_if (MaxTargetPatches <? len (Patches o))%Z
    (EText "overrides.patches supports at most %d entries");;
  res_iter validate_patch (Patches o);;
  validate_helm_values (HelmValues o).

(** [TargetOverrides.Canonical] *)
Definition TargetOverrides_Canonical (o : TargetOverrides) : res TargetOverrides :=
  TargetOverrides_Validate o;;
  Ok {| HelmValues :=
          if HelmValues o == "" then ""
          else match json_Decode (HelmValues o) with
               | Some values => default "" (json_Marshal values)
               | None => ""
               end;
        Patches := Patches o |}.

Definition TargetOverrides_CanonicalDigest (o : TargetOverrides) : res Digest :=
  canonical ← TargetOverrides_Canonical o; CanonicalDigest canonical.

(** [MergeHelmValues]: an empty text and a JSON null are the empty object. *)
Definition decode_object (raw : string) : res (list (string * json)) :=
  if raw == "" then Ok []
  else if negb (json_Valid raw) then Err (EText "invalid JSON")
  else
    match json_Decode raw with
    | Some (JObject fields) => Ok fields
    | Some JNull => Ok []
    | _ => Err (EText "cannot unmarshal into a map")
    end.

Definition MergeHelmValues (base override : string) : res string :=
  left ← decode_object base;
  right ← decode_object override;
  match json_Marshal (JObject (mergeTargetMaps left right)) with
  | Some merged => Ok merged
  | None => Err (EText "marshal")
  end.
End validate.

(** ** Merging: what ends up under a path *)

(** Objects list every key once, at every level. *)
Fixpoint wf_json (j : json) : Prop :=
  match j with
  | JObject fields =>
      NoDup fields.*1 /\
      (fix each (l : list (string * json)) : Prop :=
         match l with [] => True | (_, v) :: l' => wf_json v /\ each l' end) fields
  | _ => True
  end.

Fixpoint get_path (path : list string) (fields : list (string * json)) : option json :=
  match path with
  | [] => Some (JObject fields)
  | k :: rest =>
      match obj_get k fields with
      | Some (JObject n) => get_path rest n
      | Some v => match rest with [] => Some v | _ => None end
      | None => None
      end
  end.

(** The override says nothing at or above the path. *)
Fixpoint untouched (path : list string) (fields : list (string * json)) : Prop :=
  match path with
  | [] => False
  | k :: rest =>
      match obj_get k fields with
      | None => True
      | Some (JObject n) => untouched rest n
      | Some _ => False
      end
  end.

Definition is_leaf (j : json) : Prop := match j with JObject _ => False | _ => True end.

Lemma obj_get_set k v k' fields :
  obj_get k' (obj_set k v fields) = if k' == k then Some v else obj_get k' fields.
Proof.
  induction fields as [|[k0 v0] l IH]; cbn; [done|].
  destruct (decide (k = k0)) as [->|Hne].
  - rewrite bool_decide_true by done. cbn. by destruct (k' == k0).
  - rewrite (bool_decide_false (k = k0)) by done. cbn. rewrite IH.
    destruct (decide (k' = k0)) as [->|].
    + rewrite bool_decide_true by done. by rewrite bool_decide_false by done.
    + by rewrite (bool_decide_false (k' = k0)) by done.
Qed.

Lemma obj_get_None k fields : obj_get k fields = None <-> k ∉ fields.*1.
Proof.
  induction fields as [|[k0 v0] l IH]; cbn.
  - split; [intros _; apply not_elem_of_nil | done].
  - rewrite not_elem_of_cons, <- IH. case_bool_decide; naive_solver.
Qed.

(** What the merge leaves under one key. *)
Definition merged_at (k : string) (destination : list (string * json)) (value : json) : json :=
  match value with
  | JObject nested => JObject (mergeTargetMaps (nested_object k destination) nested)
  | _ => value
  end.

Lemma merge_value_spec destination k value :
  merge_value destination k value = obj_set k (merged_at k destination value) destination.
Proof.
  destruct value; try done. unfold merged_at, mergeTargetMaps. cbn [merge_value].
  do 2 f_equal. generalize (nested_object k destination).
  induction fields as [|[k0 v0] l IH]; intros current; cbn; [done|]. apply IH.
Qed.

Lemma nested_object_set k v k' fields :
  k' <> k -> nested_object k' (obj_set k v fields) = nested_object k' fields.
Proof. intros Hne. unfold nested_object. by rewrite obj_get_set, bool_decide_false. Qed.

Lemma merge_get k destination override :
  NoDup override.*1 ->
  obj_get k (mergeTargetMaps destination override) =
  match obj_get k override with
  | Some value => Some (merged_at k destination value)
  | None => obj_get k destination
  end.
Proof.
  unfold mergeTargetMaps. revert destination.
  induction override as [|[k0 v0] l IH]; intros destination Hnd; cbn; [done|].
  apply NoDup_cons in Hnd as [Hk0 Hnd]. cbn [fst] in Hk0. rewrite IH, merge_value_spec by done.
  destruct (decide (k = k0)) as [->|Hne].
  - rewrite bool_decide_true by done. apply obj_get_None in Hk0 as ->.
    by rewrite obj_get_set, bool_decide_true.
  - rewrite bool_decide_false, obj_get_set, bool_decide_false by done.
    destruct (obj_get k l) as [value|]; [|done]. f_equal. unfold merged_at.
    destruct value; try done. by rewrite nested_object_set.
Qed.

Lemma wf_get k fields value :
  wf_json (JObject fields) -> obj_get k fields = Some value -> wf_json value.
Proof.
  intros [_ Hall]. induction fields as [|[k0 v0] l IH]; cbn; [done|].
  destruct Hall as [Hv Hl]. case_bool_decide; [by intros [= <-] | by apply IH].
Qed.

Lemma get_path_nil path : path <> [] -> get_path path [] = None.
Proof. by destruct path. Qed.

(** Helm values are merged right-biased and deep: a leaf the override sets
    at some path is exactly what the result has there, and every path the
    override does not mention keeps the value of the base. *)
Theorem mergeTargetMaps_spec path destination override :
  wf_json (JObject override) ->
  (forall v, get_path path override = Some v -> is_leaf v ->
     get_path path (mergeTargetMaps destination override) = Some v) /\
  (untouched path override ->
     get_path path (mergeTargetMaps destination override) = get_path path destination).
Proof.
  revert destination override. induction path as [|k rest IH]; intros destination override Hwf.
  { cbn. split; [|done]. by intros v [= <-]. }
  pose proof Hwf as [Hnd _]. cbn [get_path untouched]. rewrite (merge_get k _ _ Hnd).
  destruct (obj_get k override) as [value|] eqn:Ek; [|done].
  pose proof (wf_get k override value Hwf Ek) as Hv.
  destruct value as [| | | | | | | |nested]; try (split; [by destruct rest|done]).
  cbn [merged_at]. destruct (IH (nested_object k destination) nested Hv) as [Hleaf Hun].
  split; [done|]. intros Hu. rewrite Hun by done. unfold nested_object.
  destruct rest as [|k2 rest]; [done|].
  destruct (obj_get k destination) as [[]|]; done.
Qed.

Lemma mergeTargetMaps_spec_witness :
  get_path ["image"; "tag"] (mergeTargetMaps
    [("image", JObject [("repo", JString "app"); ("tag", JString "v1")]); ("replicas", JNumber 2)]
    [("image", JObject [("tag", JString "v2")])]) = Some (JString "v2").
Proof.
  apply (mergeTargetMaps_spec ["image"; "tag"]).
  - cbn. split_and!; try done; apply NoDup_singleton.
  - reflexivity.
  - exact I.
Defined.
End Overrides.
