(* ===== verification/Model.v ===== *)
(** * Placement and rollout strategy documents
      (internal/delivery/model: placement.go, rollout.go)

    The frozen documents a rollout is built from, their validators and their
    canonical forms.  Unsigned integers of the source are [N], so that their
    sign is the type's; enumerations keep every other text in an [Other]
    constructor. *)

From Stdlib Require Import ZArith Lia.
From S2P Require Import Prelude GoSort GoStrings External Validation.
From stdpp Require Import base gmap strings list sorting.

Module Model.

(** ** Data *)

Definition MaxPlacementIDs : Z := 10000.
Definition MaxMatchLabels : Z := 256.
Definition MaxMatchExpressions : Z := 256.
Definition MaxExpressionValues : Z := 256.
Definition MaxNameLength : Z := 253.

Inductive LabelOperator :=
  | OperatorIn | OperatorNotIn | OperatorExists | OperatorDoesNotExist
  | OperatorOther (raw : string).

Definition LabelOperator_string (o : LabelOperator) : string :=
  match o with
  | OperatorIn => "In" | OperatorNotIn => "NotIn" | OperatorExists => "Exists"
  | OperatorDoesNotExist => "DoesNotExist" | OperatorOther raw => raw
  end.

Record LabelExpression := {
  expr_Key : string;
  expr_Operator : LabelOperator;
  expr_Values : list string;
}.

Record Placement := {
  ProjectIDs : list uuid;
  ClusterIDs : list uuid;
  ClusterGroupIDs : list uuid;
  MatchLabels : gmap string string;
  MatchExpressions : list LabelExpression;
  ExcludeClusterIDs : list uuid;
  AllClusters : bool;
}.

Definition emptyPlacement : Placement := {|
  ProjectIDs := []; ClusterIDs := []; ClusterGroupIDs := []; MatchLabels := ∅;
  MatchExpressions := []; ExcludeClusterIDs := []; AllClusters := false |}.

Inductive AmountType := AmountCount | AmountPercent | AmountOther (raw : string).

Record Amount := { amount_Type : AmountType; amount_Value : N }.

Inductive StrategyType :=
  | StrategyAllAtOnce | StrategyRolling | StrategyCanary | StrategyPartitioned
  | StrategyOther (raw : string).

Inductive FailureAction :=
  | FailurePause | FailureAbort | FailureRollback | FailureOther (raw : string).

Record CanarySpec := {
  canary_Size : Amount;
  canary_ClusterIDs : list uuid;
  canary_ApprovalAfterCanary : bool;
  canary_Soak : duration;
}.

Record Partition := {
  partition_Name : string;
  partition_Selector : Placement;
  partition_ApprovalRequired : bool;
  partition_Soak : duration;
}.

Record RolloutStrategy := {
  strategy_Type : StrategyType;
  MaxConcurrent : N;
  MaxUnavailable : Amount;
  MinReady : duration;
  ProgressDeadline : duration;
  FailureThreshold : Amount;
  OnFailure : FailureAction;
  RespectMaintenanceWindows : bool;
  ShuffleSeed : string;
  Canary : option CanarySpec;
  Partitions : list Partition;
}.

#[export] Instance LabelOperator_eq_dec : EqDecision LabelOperator.
Proof. solve_decision. Defined.
#[export] Instance LabelExpression_eq_dec : EqDecision LabelExpression.
Proof. solve_decision. Defined.
#[export] Instance Placement_eq_dec : EqDecision Placement.
Proof. solve_decision. Defined.
#[export] Instance AmountType_eq_dec : EqDecision AmountType.
Proof. solve_decision. Defined.
#[export] Instance Amount_eq_dec : EqDecision Amount.
Proof. solve_decision. Defined.
#[export] Instance StrategyType_eq_dec : EqDecision StrategyType.
Proof. solve_decision. Defined.
#[export] Instance FailureAction_eq_dec : EqDecision FailureAction.
Proof. solve_decision. Defined.
#[export] Instance CanarySpec_eq_dec : EqDecision CanarySpec.
Proof. solve_decision. Defined.
#[export] Instance Partition_eq_dec : EqDecision Partition.
Proof. solve_decision. Defined.
#[export] Instance RolloutStrategy_eq_dec : EqDecision RolloutStrategy.
Proof. solve_decision. Defined.

(** ** Small checks *)

Definition containsControl (value : string) : bool := string_existsb control_byte value.

Definition validateUUID (field : string) (value : uuid) : list Violation :=
  when (value == uuid_Nil) (add field VRequired "must be a non-zero UUID").

Definition validateName (field value : string) : list Violation :=
  if value == "" then add field VRequired "is required"
  else if (value != TrimSpace value) || containsControl value then
    add field VInvalid "must not contain surrounding whitespace or control characters"
  else when (MaxNameLength <? slen value)%Z
    (add field VLimitExceeded "must be at most 253 bytes").

Definition validatePositiveDuration (field : string) (value : duration) : list Violation :=
  when (value <=? 0)%Z (add field VInvalid "must be greater than zero").

Definition validateUUIDSet (field : string) (values : list uuid) : list Violation :=
  when (MaxPlacementIDs <? len values)%Z
    (add field VLimitExceeded "must contain at most 10000 entries") ++
  seen_loop id (fun i value exists_ =>
    when (value == uuid_Nil) (add (indexed field i) VRequired "must be a non-zero UUID") ++
    when exists_ (add (indexed field i) VConflict "must not contain duplicates"))
    0 ∅ values.

(** [Amount.validate] *)
Definition Amount_validate (a : Amount) (field : string) (requirePositive : bool) : res unit :=
  collector_err (
    match amount_Type a with
    | AmountCount => []
    | AmountPercent => when (100 <? amount_Value a)%N
        (add (field +:+ ".value") VInvalid "percentage must not exceed 100")
    | AmountOther _ => add (field +:+ ".type") VUnsupported "must be count or percent"
    end ++
    when (requirePositive && (amount_Value a =? 0)%N)
      (add (field +:+ ".value") VInvalid "must be greater than zero")).

Section validate.
Context `{External}.

(** [LabelExpression.Validate] *)
Definition LabelExpression_Validate (e : LabelExpression) : res unit :=
  collector_err (
    when (negb (IsQualifiedName (expr_Key e)))
      (add "key" VInvalid "must be a Kubernetes qualified label key") ++
    match expr_Operator e with
    | OperatorIn | OperatorNotIn =>
        when (len (expr_Values e) =? 0)%Z
          (add "values" VRequired "must not be empty for In or NotIn")
    | OperatorExists | OperatorDoesNotExist =>
        when (negb (len (expr_Values e) =? 0)%Z)
          (add "values" VConflict "must be empty for Exists or DoesNotExist")
    | OperatorOther _ =>
        add "operator" VUnsupported "must be In, NotIn, Exists, or DoesNotExist"
    end ++
    when (MaxExpressionValues <? len (expr_Values e))%Z
      (add "values" VLimitExceeded "must contain at most 256 entries") ++
    seen_loop id (fun i value exists_ =>
      when (negb (IsValidLabelValue value))
        (add (indexed "values" i) VInvalid "must be a Kubernetes label value") ++
      when exists_ (add (indexed "values" i) VConflict "must not contain duplicates"))
      0 ∅ (expr_Values e)).

(** [Placement.IsEmpty] *)
Definition Placement_IsEmpty (p : Placement) : bool :=
  negb (AllClusters p) && (len (ClusterIDs p) =? 0)%Z && (len (ClusterGroupIDs p) =? 0)%Z &&
  (size (MatchLabels p) =? 0)%nat && (len (MatchExpressions p) =? 0)%Z.

Definition sortedStringMapKeys (m : gmap string string) : list string :=
  sort_slice str_lt (map_to_list m).*1.

(** The key of the [seenExpressions] map. *)
Definition expression_key (e : LabelExpression) : string :=
  LabelOperator_string (expr_Operator e) +:+ String zero_byte (expr_Key e).

(** [Placement.Validate] *)
Definition Placement_Validate (p : Placement) : res unit :=
  collector_err (
    validateUUIDSet "project_ids" (ProjectIDs p) ++
    validateUUIDSet "cluster_ids" (ClusterIDs p) ++
    validateUUIDSet "cluster_group_ids" (ClusterGroupIDs p) ++
    validateUUIDSet "exclude_cluster_ids" (ExcludeClusterIDs p) ++
    when (AllClusters p && (negb (len (ClusterIDs p) =? 0)%Z ||
            negb (len (ClusterGroupIDs p) =? 0)%Z || negb (size (MatchLabels p) =? 0)%nat ||
            negb (len (MatchExpressions p) =? 0)%Z))
      (add "all_clusters" VConflict "cannot be combined with cluster, group, or label selectors") ++
    when (MaxMatchLabels <? Z.of_nat (size (MatchLabels p)))%Z
      (add "match_labels" VLimitExceeded "must contain at most 256 entries") ++
    index_loop (fun _ key =>
      when (negb (IsQualifiedName key))
        (add "match_labels" VInvalid "contains an invalid Kubernetes label key") ++
      when (negb (IsValidLabelValue (default "" (MatchLabels p !! key))))
        (add "match_labels" VInvalid "contains an invalid Kubernetes label value"))
      0 (sortedStringMapKeys (MatchLabels p)) ++
    when (MaxMatchExpressions <? len (MatchExpressions p))%Z
      (add "match_expressions" VLimitExceeded "must contain at most 256 entries") ++
    seen_loop expression_key (fun i expression exists_ =>
      append (indexed "match_expressions" i) (LabelExpression_Validate expression) ++
      when exists_ (add (indexed "match_expressions" i) VConflict
        "duplicates an operator/key expression"))
      0 ∅ (MatchExpressions p) ++
    index_loop (fun i id =>
      when (bool_decide (id ∈ ExcludeClusterIDs p))
        (add (indexed "cluster_ids" i) VConflict "cannot also be explicitly excluded"))
      0 (ClusterIDs p)).

(** [sortedUUIDs]: ordered by the printed identifier. *)
Definition sortedUUIDs (values : list uuid) : list uuid :=
  sort_slice (by_key uuid_String str_lt) values.

(** The order of [Placement.Canonical] on expressions. *)
Definition expression_less (left right : LabelExpression) : bool :=
  if expr_Key left != expr_Key right then str_lt (expr_Key left) (expr_Key right)
  else str_lt (LabelOperator_string (expr_Operator left))
              (LabelOperator_string (expr_Operator right)).

Definition canonical_expression (e : LabelExpression) : LabelExpression :=
  {| expr_Key := expr_Key e; expr_Operator := expr_Operator e;
     expr_Values := sort_slice str_lt (expr_Values e) |}.

(** [Placement.Canonical] *)
Definition Placement_Canonical (p : Placement) : res Placement :=
  Placement_Validate p;;
  Ok {| ProjectIDs := sortedUUIDs (ProjectIDs p);
        ClusterIDs := sortedUUIDs (ClusterIDs p);
        ClusterGroupIDs := sortedUUIDs (ClusterGroupIDs p);
        MatchLabels := MatchLabels p;
        MatchExpressions :=
          sort_slice expression_less (map canonical_expression (MatchExpressions p));
        ExcludeClusterIDs := sortedUUIDs (ExcludeClusterIDs p);
        AllClusters := AllClusters p |}.

(** [CanarySpec.validate] *)
Definition CanarySpec_validate (s : CanarySpec) : res unit :=
  collector_err (
    (if (len (canary_ClusterIDs s) =? 0)%Z then
       append "" (Amount_validate (canary_Size s) "size" true)
     else
       validateUUIDSet "cluster_ids" (canary_ClusterIDs s) ++
       when ((amount_Type (canary_Size s) != AmountOther "") ||
             negb (amount_Value (canary_Size s) =? 0)%N)
         (add "size" VConflict "must be omitted when explicit canary cluster IDs are set")) ++
    when (canary_Soak s <? 0)%Z (add "soak" VInvalid "must not be negative")).

(** [Partition.validate] *)
Definition Partition_validate (p : Partition) : res unit :=
  let s := partition_Selector p in
  collector_err (
    validateName "name" (partition_Name p) ++
    append "selector" (Placement_Validate s) ++
    when (Placement_IsEmpty s)
      (add "selector" VRequired "must select a bounded group or label cohort") ++
    when (AllClusters s || negb (len (ClusterIDs s) =? 0)%Z ||
          negb (len (ProjectIDs s) =? 0)%Z || negb (len (ExcludeClusterIDs s) =? 0)%Z)
      (add "selector" VConflict "partition selectors may contain only group and label predicates") ++
    when (partition_Soak p <? 0)%Z (add "soak" VInvalid "must not be negative")).

Definition only_canary (s : RolloutStrategy) : list Violation :=
  when (bool_decide (Canary s <> None))
    (add "canary" VConflict "is only valid for a canary strategy").
Definition only_partitioned (s : RolloutStrategy) : list Violation :=
  when (negb (len (Partitions s) =? 0)%Z)
    (add "partitions" VConflict "is only valid for a partitioned strategy").

(** [RolloutStrategy.Validate] *)
Definition RolloutStrategy_Validate (s : RolloutStrategy) : res unit :=
  collector_err (
    when (MaxConcurrent s =? 0)%N (add "max_concurrent" VInvalid "must be greater than zero") ++
    append "" (Amount_validate (MaxUnavailable s) "max_unavailable" false) ++
    append "" (Amount_validate (FailureThreshold s) "failure_threshold" true) ++
    validatePositiveDuration "progress_deadline" (ProgressDeadline s) ++
    when (MinReady s <? 0)%Z (add "min_ready" VInvalid "must not be negative") ++
    match OnFailure s with
    | FailurePause | FailureAbort | FailureRollback => []
    | FailureOther _ => add "on_failure" VUnsupported "must be pause, abort, or rollback"
    end ++
    when (128 <? slen (ShuffleSeed s))%Z
      (add "shuffle_seed" VLimitExceeded "must be at most 128 bytes") ++
    match strategy_Type s with
    | StrategyAllAtOnce | StrategyRolling => only_canary s ++ only_partitioned s
    | StrategyCanary =>
        match Canary s with
        | None => add "canary" VRequired "is required for a canary strategy"
        | Some canary => append "canary" (CanarySpec_validate canary)
        end ++ only_partitioned s
    | StrategyPartitioned =>
        only_canary s ++
        when (len (Partitions s) =? 0)%Z
          (add "partitions" VRequired "must contain at least one partition") ++
        seen_loop partition_Name (fun i partition exists_ =>
          append (indexed "partitions" i) (Partition_validate partition) ++
          when exists_ (add (indexed "partitions" i +:+ ".name") VConflict
            "partition names must be unique"))
          0 ∅ (Partitions s)
    | StrategyOther _ =>
        add "type" VUnsupported "must be all_at_once, rolling, canary, or partitioned"
    end).

(** ** Canonical documents and digests *)

#[export] Instance uuid_json : ToJSON uuid := fun u => JString (uuid_String u).

#[export] Instance LabelExpression_json : ToJSON LabelExpression := fun e =>
  JObject (field "key" (expr_Key e) ++
           field "operator" (LabelOperator_string (expr_Operator e)) ++
           field_omit "values" (len (expr_Values e) =? 0)%Z (expr_Values e)).

#[export] Instance Placement_json : ToJSON Placement := fun p =>
  JObject (field_omit "project_ids" (len (ProjectIDs p) =? 0)%Z (ProjectIDs p) ++
           field_omit "cluster_ids" (len (ClusterIDs p) =? 0)%Z (ClusterIDs p) ++
           field_omit "cluster_group_ids" (len (ClusterGroupIDs p) =? 0)%Z (ClusterGroupIDs p) ++
           field_omit "match_labels" (size (MatchLabels p) =? 0)%nat (MatchLabels p) ++
           field_omit "match_expressions" (len (MatchExpressions p) =? 0)%Z (MatchExpressions p) ++
           field_omit "exclude_cluster_ids" (len (ExcludeClusterIDs p) =? 0)%Z (ExcludeClusterIDs p) ++
           field "all_clusters" (AllClusters p)).

Definition AmountType_string (t : AmountType) : string :=
  match t with AmountCount => "count" | AmountPercent => "percent" | AmountOther raw => raw end.

Definition StrategyType_string (t : StrategyType) : string :=
  match t with
  | StrategyAllAtOnce => "all_at_once" | StrategyRolling => "rolling"
  | StrategyCanary => "canary" | StrategyPartitioned => "partitioned"
  | StrategyOther raw => raw
  end.

Definition FailureAction_string (a : FailureAction) : string :=
  match a with
  | FailurePause => "pause" | FailureAbort => "abort" | FailureRollback => "rollback"
  | FailureOther raw => raw
  end.

#[export] Instance Amount_json : ToJSON Amount := fun a =>
  JObject (field "type" (AmountType_string (amount_Type a)) ++
           field "value" (Z.of_N (amount_Value a))).

#[export] Instance CanarySpec_json : ToJSON CanarySpec := fun s =>
  JObject (field "size" (canary_Size s) ++
           field_omit "cluster_ids" (len (canary_ClusterIDs s) =? 0)%Z (canary_ClusterIDs s) ++
           field "approval_after_canary" (canary_ApprovalAfterCanary s) ++
           [("soak", JDuration (canary_Soak s))]).

#[export] Instance Partition_json : ToJSON Partition := fun p =>
  JObject (field "name" (partition_Name p) ++
           field "selector" (partition_Selector p) ++
           field "approval_required" (partition_ApprovalRequired p) ++
           [("soak", JDuration (partition_Soak p))]).

#[export] Instance RolloutStrategy_json : ToJSON RolloutStrategy := fun s =>
  JObject (field "type" (StrategyType_string (strategy_Type s)) ++
           field "max_concurrent" (Z.of_N (MaxConcurrent s)) ++
           field "max_unavailable" (MaxUnavailable s) ++
           [("min_ready", JDuration (MinReady s));
            ("progress_deadline", JDuration (ProgressDeadline s))] ++
           field "failure_threshold" (FailureThreshold s) ++
           field "on_failure" (FailureAction_string (OnFailure s)) ++
           field "respect_maintenance_windows" (RespectMaintenanceWindows s) ++
           field_omit "shuffle_seed" (ShuffleSeed s == "") (ShuffleSeed s) ++
           match Canary s with None => [] | Some canary => field "canary" canary end ++
           field_omit "partitions" (len (Partitions s) =? 0)%Z (Partitions s)).

(** [Placement.CanonicalDigest] *)
Definition Placement_CanonicalDigest (p : Placement) : res Digest :=
  canonical ← Placement_Canonical p; CanonicalDigest canonical.

Definition canonical_canary (canary : CanarySpec) : CanarySpec :=
  {| canary_Size := canary_Size canary;
     canary_ClusterIDs := sortedUUIDs (canary_ClusterIDs canary);
     canary_ApprovalAfterCanary := canary_ApprovalAfterCanary canary;
     canary_Soak := canary_Soak canary |}.

(** [selector, _ := partition.Selector.Canonical()]: the error is dropped. *)
Definition canonical_partition (p : Partition) : Partition :=
  {| partition_Name := partition_Name p;
     partition_Selector :=
       match Placement_Canonical (partition_Selector p) with
       | Ok selector => selector
       | Err _ => emptyPlacement
       end;
     partition_ApprovalRequired := partition_ApprovalRequired p;
     partition_Soak := partition_Soak p |}.

Definition canonical_strategy (s : RolloutStrategy) : RolloutStrategy :=
  {| strategy_Type := strategy_Type s; MaxConcurrent := MaxConcurrent s;
     MaxUnavailable := MaxUnavailable s; MinReady := MinReady s;
     ProgressDeadline := ProgressDeadline s; FailureThreshold := FailureThreshold s;
     OnFailure := OnFailure s; RespectMaintenanceWindows := RespectMaintenanceWindows s;
     ShuffleSeed := ShuffleSeed s;
     Canary := canonical_canary <$> Canary s;
     Partitions := map canonical_partition (Partitions s) |}.

(** [RolloutStrategy.CanonicalDigest] *)
Definition RolloutStrategy_CanonicalDigest (s : RolloutStrategy) : res Digest :=
  RolloutStrategy_Validate s;; CanonicalDigest (canonical_strategy s).

(** ** What the validators accept

    The declarative side: a document that meets these conditions is the same
    as one the validator returns no error for. *)

Definition uuids_ok (l : list uuid) : Prop :=
  (len l <= MaxPlacementIDs)%Z /\ Forall (fun u => u <> uuid_Nil) l /\ NoDup l.

Definition amount_ok (a : Amount) (positive : bool) : Prop :=
  (amount_Type a = AmountCount \/ (amount_Type a = AmountPercent /\ (amount_Value a <= 100)%N)) /\
  (positive = true -> (0 < amount_Value a)%N).

Definition expression_ok (e : LabelExpression) : Prop :=
  IsQualifiedName (expr_Key e) = true /\
  match expr_Operator e with
  | OperatorIn | OperatorNotIn => expr_Values e <> []
  | OperatorExists | OperatorDoesNotExist => expr_Values e = []
  | OperatorOther _ => False
  end /\
  (len (expr_Values e) <= MaxExpressionValues)%Z /\
  Forall (fun v => IsValidLabelValue v = true) (expr_Values e) /\ NoDup (expr_Values e).

Definition no_selector (p : Placement) : Prop :=
  ClusterIDs p = [] /\ ClusterGroupIDs p = [] /\ MatchLabels p = ∅ /\ MatchExpressions p = [].

Definition placement_ok (p : Placement) : Prop :=
  uuids_ok (ProjectIDs p) /\ uuids_ok (ClusterIDs p) /\ uuids_ok (ClusterGroupIDs p) /\
  uuids_ok (ExcludeClusterIDs p) /\
  (AllClusters p = true -> no_selector p) /\
  (Z.of_nat (size (MatchLabels p)) <= MaxMatchLabels)%Z /\
  map_Forall (fun k v => IsQualifiedName k = true /\ IsValidLabelValue v = true) (MatchLabels p) /\
  (len (MatchExpressions p) <= MaxMatchExpressions)%Z /\
  Forall expression_ok (MatchExpressions p) /\ NoDup (expression_key <$> MatchExpressions p) /\
  (forall u, u ∈ ClusterIDs p -> u ∉ ExcludeClusterIDs p).

Definition canary_ok (s : CanarySpec) : Prop :=
  match canary_ClusterIDs s with
  | [] => amount_ok (canary_Size s) true
  | ids => uuids_ok ids /\ canary_Size s = {| amount_Type := AmountOther ""; amount_Value := 0 |}
  end /\ (0 <= canary_Soak s)%Z.

Definition name_ok (value : string) : Prop :=
  value <> "" /\ TrimSpace value = value /\ containsControl value = false /\
  (slen value <= MaxNameLength)%Z.

Definition partition_ok (p : Partition) : Prop :=
  name_ok (partition_Name p) /\
  let s := partition_Selector p in
  placement_ok s /\
  AllClusters s = false /\ ClusterIDs s = [] /\ ProjectIDs s = [] /\ ExcludeClusterIDs s = [] /\
  (ClusterGroupIDs s <> [] \/ MatchLabels s <> ∅ \/ MatchExpressions s <> []) /\
  (0 <= partition_Soak p)%Z.

Definition strategy_ok (s : RolloutStrategy) : Prop :=
  (0 < MaxConcurrent s)%N /\ amount_ok (MaxUnavailable s) false /\
  amount_ok (FailureThreshold s) true /\ (0 < ProgressDeadline s)%Z /\ (0 <= MinReady s)%Z /\
  (forall raw, OnFailure s <> FailureOther raw) /\ (slen (ShuffleSeed s) <= 128)%Z /\
  match strategy_Type s with
  | StrategyAllAtOnce | StrategyRolling => Canary s = None /\ Partitions s = []
  | StrategyCanary => Partitions s = [] /\ exists c, Canary s = Some c /\ canary_ok c
  | StrategyPartitioned =>
      Canary s = None /\ Partitions s <> [] /\ Forall partition_ok (Partitions s) /\
      NoDup (partition_Name <$> Partitions s)
  | StrategyOther _ => False
  end.
End validate.

(** ** The validators decide the specifications *)

Ltac solve_tests :=
  rewrite ?andb_false_iff, ?orb_false_iff, ?orb_true_iff, ?negb_false_iff, ?negb_true_iff,
    ?bool_decide_eq_false, ?bool_decide_eq_true, ?Z.ltb_ge, ?Z.leb_gt, ?Z.eqb_eq, ?Z.eqb_neq,
    ?N.ltb_ge, ?N.eqb_neq, ?Nat.eqb_eq, ?Nat.eqb_neq, ?len_nil_iff, ?map_size_empty_iff.

Lemma validateUUIDSet_nil field l : validateUUIDSet field l = [] <-> uuids_ok l.
Proof.
  unfold validateUUIDSet, uuids_ok. autorewrite with validation.
  rewrite (seen_loop_start id _ (fun u => u <> uuid_Nil)), list_fmap_id.
  - solve_tests. done.
  - intros i u. autorewrite with validation. solve_tests. naive_solver.
  - intros i u. autorewrite with validation. naive_solver.
Qed.

Lemma Amount_validate_Ok a f p :
  exists vs, Amount_validate a f p = collector_err vs /\ (vs = [] <-> amount_ok a p).
Proof.
  eexists; split; [reflexivity|]. unfold amount_ok. autorewrite with validation. solve_tests.
  destruct (amount_Type a), p; autorewrite with validation; solve_tests; naive_solver lia.
Qed.

Section facts.
Context `{External}.
Set Default Proof Using "Type*".

Lemma LabelExpression_Validate_Ok e :
  exists vs, LabelExpression_Validate e = collector_err vs /\ (vs = [] <-> expression_ok e).
Proof.
  eexists; split; [reflexivity|]. unfold expression_ok. autorewrite with validation.
  rewrite (seen_loop_start id _ (fun v => IsValidLabelValue v = true)), list_fmap_id; cycle 1.
  { intros i v. autorewrite with validation. solve_tests. naive_solver. }
  { intros i v. autorewrite with validation. naive_solver. }
  destruct (expr_Operator e); autorewrite with validation; solve_tests; naive_solver.
Qed.

(** A validator that is a collector of checks satisfies [append] checks too. *)
Lemma append_nil (P : Prop) (r : res unit) prefix :
  (exists vs, r = collector_err vs /\ (vs = [] <-> P)) -> (append prefix r = [] <-> P).
Proof. intros (vs & -> & <-). apply append_err_nil. Qed.

Lemma validator_Ok (P : Prop) (r : res unit) u :
  (exists vs, r = collector_err vs /\ (vs = [] <-> P)) -> (r = Ok u <-> P).
Proof. intros (vs & -> & <-). apply collector_err_Ok. Qed.

Lemma label_keys_loop m :
  index_loop (fun _ key =>
      when (negb (IsQualifiedName key))
        (add "match_labels" VInvalid "contains an invalid Kubernetes label key") ++
      when (negb (IsValidLabelValue (default "" (m !! key))))
        (add "match_labels" VInvalid "contains an invalid Kubernetes label value"))
      0 (sortedStringMapKeys m) = [] <->
  map_Forall (fun k v => IsQualifiedName k = true /\ IsValidLabelValue v = true) m.
Proof.
  rewrite (index_loop_nil _ (fun k => IsQualifiedName k = true /\
    IsValidLabelValue (default "" (m !! k)) = true)); cycle 1.
  { intros _ k. autorewrite with validation. solve_tests. done. }
  unfold sortedStringMapKeys. rewrite sort_slice_Permutation, Forall_fmap, Forall_forall, map_Forall_lookup.
  setoid_rewrite elem_of_map_to_list'. split.
  - intros Hall k v Hkv. specialize (Hall (k, v) Hkv). cbn in Hall. by rewrite Hkv in Hall.
  - intros Hall [k v] Hkv. cbn in *. rewrite Hkv. by apply Hall.
Qed.

Lemma Placement_Validate_Ok p :
  exists vs, Placement_Validate p = collector_err vs /\ (vs = [] <-> placement_ok p).
Proof.
  eexists; split; [reflexivity|]. unfold placement_ok, no_selector.
  rewrite !app_nil_iff, !validateUUIDSet_nil, label_keys_loop.
  rewrite (seen_loop_start expression_key _ expression_ok); cycle 1.
  { intros i e. rewrite app_nil_iff, (append_nil _ _ _ (LabelExpression_Validate_Ok e)).
    autorewrite with validation. naive_solver. }
  { intros i e. autorewrite with validation. naive_solver. }
  rewrite (index_loop_nil _ (fun u => u ∉ ExcludeClusterIDs p)); cycle 1.
  { intros i u. autorewrite with validation. solve_tests. done. }
  rewrite !Forall_forall. autorewrite with validation. solve_tests.
  destruct (AllClusters p); intuition congruence.
Qed.

Lemma CanarySpec_validate_Ok s :
  exists vs, CanarySpec_validate s = collector_err vs /\ (vs = [] <-> canary_ok s).
Proof.
  eexists; split; [reflexivity|]. unfold canary_ok.
  destruct s as [[ty v] [|u ids] ap soak]; cbn [canary_ClusterIDs canary_Size canary_Soak amount_Type amount_Value];
    rewrite app_nil_iff.
  - change (len [] =? 0)%Z with true. cbn iota.
    rewrite (append_nil _ _ _ (Amount_validate_Ok _ _ _)), when_add_nil. solve_tests. done.
  - change (len (u :: ids) =? 0)%Z with false. cbn iota.
    rewrite app_nil_iff, validateUUIDSet_nil, !when_add_nil. solve_tests.
    destruct ty, v; naive_solver.
Qed.

Lemma validateName_nil f v : validateName f v = [] <-> name_ok v.
Proof.
  unfold validateName, name_ok. autorewrite with validation. solve_tests.
  split.
  - intros [H1 H2]. specialize (H2 H1) as [H2 H3].
    destruct (decide (v = TrimSpace v)); destruct (containsControl v); naive_solver.
  - intros (Hne & Ht & Hc & Hl). split; [done|]. rewrite Ht, Hc. naive_solver.
Qed.

Lemma Placement_IsEmpty_false p :
  Placement_IsEmpty p = false <-> AllClusters p = true \/ ~ no_selector p.
Proof.
  unfold Placement_IsEmpty, no_selector. rewrite <- not_true_iff_false, !andb_true_iff.
  solve_tests. destruct (AllClusters p); [naive_solver|]. intuition congruence.
Qed.

Lemma Partition_validate_Ok p :
  exists vs, Partition_validate p = collector_err vs /\ (vs = [] <-> partition_ok p).
Proof.
  eexists; split; [reflexivity|]. unfold partition_ok.
  rewrite !app_nil_iff, validateName_nil, (append_nil _ _ _ (Placement_Validate_Ok _)),
    !when_add_nil, Placement_IsEmpty_false. solve_tests. unfold no_selector.
  destruct (AllClusters (partition_Selector p)); [naive_solver|].
  destruct (ClusterIDs (partition_Selector p)); [|naive_solver].
  destruct (decide (ClusterGroupIDs (partition_Selector p) = []));
    destruct (decide (MatchLabels (partition_Selector p) = ∅));
    destruct (decide (MatchExpressions (partition_Selector p) = [])); intuition congruence.
Qed.

Lemma only_canary_nil s : only_canary s = [] <-> Canary s = None.
Proof.
  unfold only_canary. rewrite when_add_nil. solve_tests. destruct (Canary s); naive_solver.
Qed.

Lemma only_partitioned_nil s : only_partitioned s = [] <-> Partitions s = [].
Proof. unfold only_partitioned. rewrite when_add_nil. solve_tests. done. Qed.

Lemma RolloutStrategy_Validate_Ok s :
  exists vs, RolloutStrategy_Validate s = collector_err vs /\ (vs = [] <-> strategy_ok s).
Proof.
  eexists; split; [reflexivity|]. unfold strategy_ok.
  rewrite !app_nil_iff, !(append_nil _ _ _ (Amount_validate_Ok _ _ _)).
  unfold validatePositiveDuration. rewrite !when_add_nil. solve_tests.
  apply and_iff_compat; [lia|]. do 4 apply and_iff_compat_l. apply and_iff_compat.
  { destruct (OnFailure s); naive_solver. }
  apply and_iff_compat_l.
  destruct (strategy_Type s); rewrite ?app_nil_iff, ?only_canary_nil, ?only_partitioned_nil;
    try naive_solver.
  - destruct (Canary s) as [c|]; [rewrite (append_nil _ _ _ (CanarySpec_validate_Ok c))|];
      naive_solver.
  - rewrite when_add_nil, (seen_loop_start partition_Name _ partition_ok); cycle 1.
    { intros i q. rewrite app_nil_iff, (append_nil _ _ _ (Partition_validate_Ok q)).
      autorewrite with validation. naive_solver. }
    { intros i q. autorewrite with validation. naive_solver. }
    solve_tests. naive_solver.
Qed.

(** ** Canonical forms

    Two placements that differ only in the order of their sets. *)

Definition expr_equiv (e f : LabelExpression) : Prop :=
  expr_Key e = expr_Key f /\ expr_Operator e = expr_Operator f /\
  expr_Values e ≡ₚ expr_Values f.

Definition placement_equiv (p q : Placement) : Prop :=
  ProjectIDs p ≡ₚ ProjectIDs q /\ ClusterIDs p ≡ₚ ClusterIDs q /\
  ClusterGroupIDs p ≡ₚ ClusterGroupIDs q /\ MatchLabels p = MatchLabels q /\
  (exists es, MatchExpressions p ≡ₚ es /\ Forall2 expr_equiv es (MatchExpressions q)) /\
  ExcludeClusterIDs p ≡ₚ ExcludeClusterIDs q /\ AllClusters p = AllClusters q.

Lemma uuids_ok_perm l k : l ≡ₚ k -> uuids_ok l -> uuids_ok k.
Proof. unfold uuids_ok, len. intros Hp. by rewrite Hp. Qed.

Lemma expression_ok_equiv e f : expr_equiv e f -> expression_ok e -> expression_ok f.
Proof.
  intros (Hk & Ho & Hv). unfold expression_ok, len. rewrite <- Hk, <- Ho, Hv.
  intros (? & Hop & ?). split; [done|]. split; [|done].
  destruct (expr_Operator e); try done.
  1,2: intros E; rewrite E in Hv; by apply Permutation_nil_r in Hv.
  all: rewrite Hop in Hv; by apply Permutation_nil_l in Hv.
Qed.

Lemma expressions_equiv_facts es fs :
  Forall2 expr_equiv es fs ->
  length es = length fs /\ (Forall expression_ok es -> Forall expression_ok fs) /\
  expression_key <$> es = expression_key <$> fs /\
  map canonical_expression es = map canonical_expression fs.
Proof.
  induction 1 as [|e f es fs He Hes (IHl & IHo & IHk & IHc)]; [done|].
  pose proof He as (Hk & Ho & Hv). cbn. split_and!.
  - by rewrite IHl.
  - rewrite !Forall_cons_iff. intros []. split; [by eapply expression_ok_equiv | auto].
  - rewrite IHk. f_equal. unfold expression_key. by rewrite Hk, Ho.
  - rewrite IHc. f_equal. unfold canonical_expression. rewrite Hk, Ho. f_equal.
    apply (sort_slice_unique id str_lt); [|done]. by intros x y.
Qed.

Lemma placement_ok_equiv p q : placement_equiv p q -> placement_ok p -> placement_ok q.
Proof.
  intros (Hp & Hc & Hg & Hl & (es & Hes & Hfs) & Hx & Ha).
  destruct (expressions_equiv_facts _ _ Hfs) as (Hlen & Hok & Hkeys & _).
  unfold placement_ok, no_selector. rewrite <- Hl, <- Ha, <- Hkeys. unfold len.
  rewrite <- Hlen, <- Hes. intros (H1 & H2 & H3 & H4 & H5 & H6 & H7 & H8 & H9 & H10 & H11).
  split_and!; try done; try by eapply uuids_ok_perm.
  - intros Hall. destruct (H5 Hall) as (E1 & E2 & E3 & E4).
    rewrite E1 in Hc. rewrite E2 in Hg. rewrite E4 in Hes.
    apply Permutation_nil_l in Hc, Hg, Hes. subst es. inversion Hfs. done.
  - apply Hok. by rewrite <- Hes.
  - intros u. rewrite <- Hc, <- Hx. apply H11.
Qed.

Definition expr_sortkey (e : LabelExpression) : string * string :=
  (expr_Key e, LabelOperator_string (expr_Operator e)).

Lemma expression_less_by_key :
  expression_less = by_key expr_sortkey (lex_lt str_lt str_lt).
Proof. reflexivity. Qed.

(** Distinct operator/key pairs give distinct positions in the sorted list. *)
Lemma canonical_expressions_inj l :
  NoDup (expression_key <$> l) -> key_inj_on expr_sortkey (map canonical_expression l).
Proof.
  intros Hnd x y Hx Hy Hk.
  apply list_elem_of_fmap in Hx as (e & -> & He). apply list_elem_of_fmap in Hy as (f & -> & Hf).
  f_equal. apply (NoDup_key_inj_on expression_key l Hnd); auto.
  unfold expr_sortkey in Hk. cbn in Hk. injection Hk as Hk1 Hk2.
  unfold expression_key. by rewrite Hk1, Hk2.
Qed.

Lemma sortedUUIDs_perm `{!ExternalLaws} l k : l ≡ₚ k -> sortedUUIDs l = sortedUUIDs k.
Proof.
  intros. apply (sort_slice_unique uuid_String str_lt); [|done].
  intros x y _ _. apply uuid_String_inj.
Qed.

Lemma sortedUUIDs_Permutation l : sortedUUIDs l ≡ₚ l.
Proof. apply sort_slice_Permutation. Qed.

Lemma Placement_Validate_iff p u : Placement_Validate p = Ok u <-> placement_ok p.
Proof. apply validator_Ok, Placement_Validate_Ok. Qed.

Lemma RolloutStrategy_Validate_iff s u : RolloutStrategy_Validate s = Ok u <-> strategy_ok s.
Proof. apply validator_Ok, RolloutStrategy_Validate_Ok. Qed.

Lemma Placement_Canonical_equiv `{!ExternalLaws} p q :
  placement_equiv p q -> placement_ok p -> Placement_Canonical p = Placement_Canonical q.
Proof.
  intros He Hok. pose proof (placement_ok_equiv p q He Hok) as Hok'.
  apply (Placement_Validate_iff _ tt) in Hok as HV.
  apply (Placement_Validate_iff _ tt) in Hok' as HV'.
  unfold Placement_Canonical. rewrite HV, HV'. cbn [mbind res_bind].
  destruct He as (Hp & Hc & Hg & Hl & (es & Hes & Hfs) & Hx & Ha). do 2 f_equal; try done.
  1-3,5: by apply sortedUUIDs_perm.
  destruct (expressions_equiv_facts _ _ Hfs) as (_ & _ & _ & Hcan). rewrite <- Hcan.
  rewrite expression_less_by_key. apply sort_slice_unique; [apply _| |by rewrite Hes].
  apply canonical_expressions_inj. apply Hok.
Qed.

(** The canonical form is a reordering of the placement. *)
Lemma Placement_Canonical_same p c : Placement_Canonical p = Ok c -> placement_equiv p c.
Proof.
  unfold Placement_Canonical. intros H1. res_inv. unfold placement_equiv. cbn.
  rewrite !sortedUUIDs_Permutation. split_and!; try done.
  assert (Hf : Forall2 expr_equiv (MatchExpressions p)
                 (map canonical_expression (MatchExpressions p))).
  { apply Forall2_fmap_r, Forall_Forall2_diag, Forall_true. intros e.
    split_and!; try done. cbn. by rewrite sort_slice_Permutation. }
  apply Forall2_flip in Hf.
  destruct (Permutation_Forall2 (Permutation_sym (sort_slice_Permutation expression_less _)) Hf)
    as (es & Hes & Hfs). apply Forall2_flip in Hfs.
  by exists es.
Qed.

(** RolloutStrategy.Validate returns no error exactly for the strategies
    that meet the declarative specification: a positive concurrency cap,
    amounts of a known kind within range, a positive deadline, a known failure
    action, and the variant data (canary or partitions, with their own
    selectors) that the strategy type calls for and no other. *)
Theorem RolloutStrategy_Validate_spec s :
  RolloutStrategy_Validate s = Ok tt <-> strategy_ok s.
Proof. apply RolloutStrategy_Validate_iff. Qed.

(** The canonical digest of a placement does not depend on the order in
    which its identifiers, label expressions and expression values are listed;
    the canonical form selects by the same sets and is its own canonical
    form. *)
Theorem Placement_digest_order_free `{!ExternalLaws} p q :
  Placement_Validate p = Ok tt -> placement_equiv p q ->
  Placement_CanonicalDigest p = Placement_CanonicalDigest q /\
  forall c, Placement_Canonical p = Ok c ->
    placement_equiv p c /\ Placement_Canonical c = Ok c.
Proof.
  intros Hok%Placement_Validate_iff Heq. split.
  - unfold Placement_CanonicalDigest. by rewrite (Placement_Canonical_equiv p q).
  - intros c Hc. pose proof (Placement_Canonical_same p c Hc) as Hpc. split; [done|].
    by rewrite <- (Placement_Canonical_equiv p c).
Qed.
End facts.

Definition example_placement (ids : list uuid) : Placement := {|
  ProjectIDs := []; ClusterIDs := ids; ClusterGroupIDs := []; MatchLabels := ∅;
  MatchExpressions := [{| expr_Key := "tier"; expr_Operator := OperatorIn;
                          expr_Values := ["web"; "db"] |}];
  ExcludeClusterIDs := []; AllClusters := false |}.

Lemma Placement_digest_order_free_witness :
  let p := example_placement [UUID "a"; UUID "b"] in
  let q := example_placement [UUID "b"; UUID "a"] in
  @Placement_CanonicalDigest Concrete.external p =
  @Placement_CanonicalDigest Concrete.external q.
Proof.
  apply (@Placement_digest_order_free Concrete.external Concrete.external_laws).
  - vm_compute. reflexivity.
  - unfold placement_equiv. cbn. split_and!; try done.
    + apply Permutation_swap.
    + eexists. split; [done|]. repeat constructor.
Defined.
End Model.
