(* ===== verification/Types.v ===== *)
(** * Sources, revisions, renderers and bundle versions
      (internal/delivery/model/types.go, rollout.go: conditions and events)

    The immutable documents a bundle version is made of, and their
    validators. *)

From Stdlib Require Import ZArith Lia Ascii.
From S2P Require Import Prelude GoSort GoStrings External Validation Model.
From stdpp Require Import base gmap strings list sorting.
Import Model.

Module Types.

Definition MaxDescriptionLength : Z := 4096.
Definition MaxURLLength : Z := 4096.
Definition MaxRequestedRevisionLength : Z := 1024.
Definition MaxValuesBytes : Z := 2 ^ 20.
Definition MaxPatchBytes : Z := 256 * 2 ^ 10.
Definition MaxCapabilities : Z := 128.

Inductive SourceType :=
  | SourceGit | SourceOCIArtifact | SourceHelmHTTP | SourceHelmOCI | SourceOther (raw : string).

Inductive AuthMode :=
  | AuthNone | AuthBasic | AuthBearer | AuthSSH | AuthWorkloadIdentity | AuthOther (raw : string).

(** [SignatureNone] is the empty provider. *)
Inductive SignatureProvider :=
  | SignatureNone | SignatureCosignKey | SignatureCosignKeyless | SignatureGit
  | SignatureOther (raw : string).

Record TrustPolicy := {
  AllowUnsigned : bool;
  trust_Provider : SignatureProvider;
  trust_Identity : string;
  trust_Issuer : string;
  trust_KeyRef : string;
}.

Record Source := {
  source_ID : uuid;
  source_ProjectID : uuid;
  source_Name : string;
  source_Description : string;
  source_Type : SourceType;
  source_URL : string;
  source_AuthMode : AuthMode;
  source_Trust : TrustPolicy;
}.

Inductive RevisionKind :=
  | RevisionGitCommit | RevisionOCIDigest | RevisionHelmChart | RevisionOther (raw : string).

Record ImmutableRevision := {
  revision_Kind : RevisionKind;
  revision_Value : string;
  revision_ArtifactDigest : Digest;
}.

Record ResolvedSourceSpec := {
  resolved_SourceID : uuid;
  resolved_Type : SourceType;
  resolved_URL : string;
  resolved_AuthMode : AuthMode;
  resolved_Trust : TrustPolicy;
  resolved_Revision : ImmutableRevision;
}.

Record CapabilityRequirement := { cap_Name : string; cap_Constraint : string }.

Inductive RendererKind := RendererKustomize | RendererHelm | RendererOther (raw : string).
Inductive Scope := ScopeNamespace | ScopePlatform | ScopeOther (raw : string).

Record KustomizeSpec := {
  kustomize_Path : string;
  kustomize_TargetNamespace : string;
  kustomize_Patches : list string;
}.

Record HelmValueSecretRef := { ref_Name : string; ref_Key : string; ref_TargetPath : string }.

Record HelmSpec := {
  helm_Chart : string;
  helm_ChartVersion : string;
  helm_ReleaseName : string;
  helm_TargetNamespace : string;
  helm_Values : string;
  helm_ValueSecretRefs : list HelmValueSecretRef;
  helm_InstallRetries : N;
  helm_UpgradeRetries : N;
  helm_Test : bool;
}.

Record RendererSpec := {
  renderer_Kind : RendererKind;
  renderer_Kustomize : option KustomizeSpec;
  renderer_Helm : option HelmSpec;
}.

Inductive DriftPolicy := DriftIgnore | DriftDetect | DriftRepair | DriftOther (raw : string).

Record ReconciliationPolicy := {
  policy_Interval : duration;
  policy_RetryInterval : duration;
  policy_Timeout : duration;
  policy_Prune : bool;
  policy_Wait : bool;
  policy_Drift : DriftPolicy;
}.

Record BundleVersionSpec := {
  spec_SourceID : uuid;
  spec_RequestedRevision : string;
  spec_Revision : ImmutableRevision;
  spec_Renderer : RendererSpec;
  spec_Scope : Scope;
  spec_Reconciliation : ReconciliationPolicy;
  spec_RequiredCapabilities : list CapabilityRequirement;
}.

Record BundleVersionDraft := {
  draft_SourceID : uuid;
  draft_RequestedRevision : string;
  draft_Renderer : RendererSpec;
  draft_Scope : Scope;
  draft_Reconciliation : ReconciliationPolicy;
  draft_RequiredCapabilities : list CapabilityRequirement;
}.

Record BundleVersion := {
  version_ID : uuid;
  version_BundleID : uuid;
  version_Version : N;
  version_Spec : BundleVersionSpec;
  version_SpecDigest : Digest;
  version_CreatedAt : time;
}.

#[export] Instance SourceType_eq_dec : EqDecision SourceType.
Proof. solve_decision. Defined.
#[export] Instance AuthMode_eq_dec : EqDecision AuthMode.
Proof. solve_decision. Defined.
#[export] Instance SignatureProvider_eq_dec : EqDecision SignatureProvider.
Proof. solve_decision. Defined.
#[export] Instance TrustPolicy_eq_dec : EqDecision TrustPolicy.
Proof. solve_decision. Defined.
#[export] Instance RevisionKind_eq_dec : EqDecision RevisionKind.
Proof. solve_decision. Defined.
#[export] Instance ImmutableRevision_eq_dec : EqDecision ImmutableRevision.
Proof. solve_decision. Defined.
#[export] Instance CapabilityRequirement_eq_dec : EqDecision CapabilityRequirement.
Proof. solve_decision. Defined.

(** ** Patterns *)

Definition gitCommitPattern (s : string) : bool :=
  ((String.length s =? 40)%nat || (String.length s =? 64)%nat) && string_forallb lower_hex s.

Definition last_byte (s : string) : option Ascii.ascii :=
  String.get (String.length s - 1) s.

(** [^[a-z0-9](?:[-a-z0-9]*[a-z0-9])?$] *)
Definition dnsLabelPattern (s : string) : bool :=
  match String.get 0 s, last_byte s with
  | Some a, Some z =>
      lower_alnum a && lower_alnum z &&
      string_forallb (fun c => lower_alnum c || (c == Ascii.ascii_of_nat 45)) s
  | _, _ => false
  end.

Definition validateDNSLabel (field value : string) : list Violation :=
  when ((value == "") || (63 <? slen value)%Z || negb (dnsLabelPattern value))
    (add field VInvalid "must be a lowercase DNS label").

Definition SafeCode (value : string) : bool :=
  negb ((value == "") || (128 <? slen value)%Z) &&
  string_forallb (fun c => lower_alnum c || (c == Ascii.ascii_of_nat 95) ||
                           (c == Ascii.ascii_of_nat 45)) value &&
  negb (Contains value "--").

Section validate.
Context `{External}.

(** [TrustPolicy.Validate] *)
Definition TrustPolicy_Validate (p : TrustPolicy) : res unit :=
  let common :=
    when ((2048 <? slen (trust_Identity p))%Z || containsControl (trust_Identity p))
      (add "identity" VInvalid "must be a bounded public identity without control characters") ++
    when ((2048 <? slen (trust_Issuer p))%Z || containsControl (trust_Issuer p))
      (add "issuer" VInvalid "must be a bounded public issuer without control characters") ++
    when ((trust_KeyRef p != "") && negb (IsDNS1123Subdomain (trust_KeyRef p)))
      (add "key_ref" VInvalid "must be a DNS subdomain reference, not inline key material") in
  if AllowUnsigned p then
    collector_err (common ++
      when ((trust_Provider p != SignatureNone) || (trust_Identity p != "") ||
            (trust_Issuer p != "") || (trust_KeyRef p != ""))
        (add "allow_unsigned" VConflict "cannot be combined with signature verification fields"))
  else
    collector_err (common ++
      match trust_Provider p with
      | SignatureCosignKey =>
          when (TrimSpace (trust_KeyRef p) == "")
            (add "key_ref" VRequired "is required for cosign key verification") ++
          when ((trust_Identity p != "") || (trust_Issuer p != ""))
            (add "identity" VConflict "identity and issuer are only valid for keyless verification")
      | SignatureCosignKeyless =>
          when (TrimSpace (trust_Identity p) == "")
            (add "identity" VRequired "is required for keyless verification") ++
          when (TrimSpace (trust_Issuer p) == "")
            (add "issuer" VRequired "is required for keyless verification") ++
          when (trust_KeyRef p != "")
            (add "key_ref" VConflict "is not valid for keyless verification")
      | SignatureGit =>
          when (TrimSpace (trust_KeyRef p) == "")
            (add "key_ref" VRequired "is required for Git verification") ++
          when (trust_Issuer p != "")
            (add "issuer" VConflict "is not valid for Git verification")
      | SignatureNone => add "provider" VRequired "is required when unsigned artifacts are disallowed"
      | SignatureOther _ => add "provider" VUnsupported "is not a supported signature provider"
      end).

(** [validateSourceURL]: the violations and the parsed URL, when there is one. *)
Definition validateSourceURL (sourceType : SourceType) (value : string) :
  list Violation * option URL :=
  if value == "" then (add "url" VRequired "is required", None)
  else if (MaxURLLength <? slen value)%Z then
    (add "url" VLimitExceeded "must be at most 4096 bytes", None)
  else
    let invalid := (add "url" VInvalid "must be an absolute URL without a query or fragment", None) in
    match url_Parse value with
    | None => invalid
    | Some parsed =>
        if (url_Host parsed == "") || (url_Fragment parsed != "") || (url_RawQuery parsed != "")
        then invalid
        else
          let allowed :=
            match sourceType with
            | SourceGit => (url_Scheme parsed == "https") || (url_Scheme parsed == "ssh")
            | SourceOCIArtifact | SourceHelmOCI => url_Scheme parsed == "oci"
            | SourceHelmHTTP => url_Scheme parsed == "https"
            | SourceOther _ => false
            end in
          (match url_User parsed with
           | None => []
           | Some (username, hasPassword) =>
               when ((url_Scheme parsed != "ssh") || (username == "") || hasPassword)
                 (add "url" VSecretNotAllowed "must not contain embedded credentials")
           end ++
           when (negb allowed)
             (add "url" VInvalid "scheme is not allowed for the selected source type"),
           Some parsed)
    end.

(** [validateSourceConnection] *)
Definition validateSourceConnection (sourceType : SourceType) (sourceURL : string)
    (authMode : AuthMode) (trust : TrustPolicy) : list Violation :=
  let '(urlViolations, parsed) := validateSourceURL sourceType sourceURL in
  match sourceType with
  | SourceOther _ => add "type" VUnsupported "is not a supported delivery source type"
  | _ => []
  end ++
  urlViolations ++
  when (negb (AllowUnsigned trust))
    match sourceType with
    | SourceGit => when (trust_Provider trust != SignatureGit)
        (add "trust_policy.provider" VConflict "Git sources require the git signature provider")
    | SourceOCIArtifact | SourceHelmHTTP | SourceHelmOCI =>
        when ((trust_Provider trust != SignatureCosignKey) &&
              (trust_Provider trust != SignatureCosignKeyless))
          (add "trust_policy.provider" VConflict "artifact sources require a cosign signature provider")
    | SourceOther _ => []
    end ++
  match authMode with
  | AuthNone | AuthBasic | AuthBearer | AuthWorkloadIdentity => []
  | AuthSSH =>
      when (sourceType != SourceGit)
        (add "auth_mode" VConflict "SSH authentication is only valid for Git sources") ++
      match parsed with
      | Some u => when (url_Scheme u != "ssh")
          (add "auth_mode" VConflict "SSH authentication requires an ssh source URL")
      | None => []
      end
  | AuthOther _ => add "auth_mode" VUnsupported "is not a supported authentication mode"
  end ++
  append "trust_policy" (TrustPolicy_Validate trust).

(** [Source.Validate] *)
Definition Source_Validate (s : Source) : res unit :=
  collector_err (
    validateUUID "id" (source_ID s) ++
    validateUUID "project_id" (source_ProjectID s) ++
    validateName "name" (source_Name s) ++
    when (MaxDescriptionLength <? slen (source_Description s))%Z
      (add "description" VLimitExceeded "must be at most 4096 bytes") ++
    validateSourceConnection (source_Type s) (source_URL s) (source_AuthMode s) (source_Trust s)).

(** [ImmutableRevision.Validate] *)
Definition ImmutableRevision_Validate (r : ImmutableRevision) : res unit :=
  collector_err (
    match revision_Kind r with
    | RevisionGitCommit =>
        when (negb (gitCommitPattern (revision_Value r)))
          (add "value" VNotImmutable "must be a full lowercase 40- or 64-character Git commit")
    | RevisionOCIDigest =>
        when (match ParseDigest (revision_Value r) with
              | Ok digest => digest == ""
              | Err _ => true
              end)
          (add "value" VNotImmutable "must be an immutable sha256 OCI digest")
    | RevisionHelmChart =>
        if (TrimSpace (revision_Value r) == "") ||
           (MaxRequestedRevisionLength <? slen (revision_Value r))%Z
        then add "value" VNotImmutable "must be an exact bounded chart version"
        else when (negb (semver_NewVersion (revision_Value r)))
          (add "value" VNotImmutable "must be an exact semantic chart version")
    | RevisionOther _ => add "kind" VUnsupported "is not a supported immutable revision kind"
    end ++
    when (negb (is_ok (Digest_Validate (revision_ArtifactDigest r))))
      (add "artifact_digest" VInvalid "must be a canonical SHA-256 digest")).

(** [ResolvedSourceSpec.Validate] *)
Definition ResolvedSourceSpec_Validate (s : ResolvedSourceSpec) : res unit :=
  collector_err (
    validateUUID "source_id" (resolved_SourceID s) ++
    validateSourceConnection (resolved_Type s) (resolved_URL s) (resolved_AuthMode s)
      (resolved_Trust s) ++
    append "revision" (ImmutableRevision_Validate (resolved_Revision s))).

(** [CapabilityRequirement.Validate] *)
Definition CapabilityRequirement_Validate (r : CapabilityRequirement) : res unit :=
  collector_err (
    when (negb (IsQualifiedName (cap_Name r)))
      (add "name" VInvalid "must be a Kubernetes qualified name") ++
    if (128 <? slen (cap_Constraint r))%Z
    then add "constraint" VLimitExceeded "must be at most 128 bytes"
    else when ((cap_Constraint r != "") && negb (semver_NewConstraint (cap_Constraint r)))
      (add "constraint" VInvalid "must be a valid semantic-version constraint")).

Definition capability_less (a b : CapabilityRequirement) : bool :=
  if cap_Name a == cap_Name b then str_lt (cap_Constraint a) (cap_Constraint b)
  else str_lt (cap_Name a) (cap_Name b).

(** [CapabilityRequirementsCanonical] *)
Definition CapabilityRequirementsCanonical (input : list CapabilityRequirement) :
  res (list CapabilityRequirement) :=
  fail_if (MaxCapabilities <? len input)%Z
    (EValidation (add "capabilities" VLimitExceeded "must contain at most 128 entries"));;
  let result := sort_slice capability_less input in
  collector_err (index_loop (fun i requirement =>
    append (indexed "capabilities" i) (CapabilityRequirement_Validate requirement) ++
    when ((0 <? i)%nat && (cap_Name <$> result !! (i - 1)%nat == Some (cap_Name requirement)))
      (add (indexed "capabilities" i +:+ ".name") VConflict "capability names must be unique"))
    0 result);;
  Ok result.

(** [KustomizeSpec.validate] *)
Definition KustomizeSpec_validate (s : KustomizeSpec) : res unit :=
  let clean := path_Clean (kustomize_Path s) in
  collector_err (
    when ((kustomize_Path s == "") || negb (HasPrefix (kustomize_Path s) "./") ||
          (clean == ".") || (clean == "..") || HasPrefix clean "../")
      (add "path" VInvalid "must be a relative ./ path without parent traversal") ++
    validateDNSLabel "target_namespace" (kustomize_TargetNamespace s) ++
    when (MaxPatchBytes <? foldr Z.add 0 (map slen (kustomize_Patches s)))%Z
      (add "patches" VLimitExceeded "must total at most 262144 bytes")).

(** [HelmSpec.validate] *)
Definition HelmSpec_validate (s : HelmSpec) : res unit :=
  collector_err (
    when ((TrimSpace (helm_Chart s) == "") || (MaxNameLength <? slen (helm_Chart s))%Z)
      (add "chart" VInvalid "must be a non-empty bounded chart name") ++
    when (negb (semver_NewVersion (helm_ChartVersion s)))
      (add "chart_version" VNotImmutable "must be an exact semantic version") ++
    validateDNSLabel "release_name" (helm_ReleaseName s) ++
    validateDNSLabel "target_namespace" (helm_TargetNamespace s) ++
    (if (MaxValuesBytes <? slen (helm_Values s))%Z
     then add "values" VLimitExceeded "must be at most 1048576 bytes"
     else when ((helm_Values s != "") && negb (json_Valid (helm_Values s)))
       (add "values" VInvalid "must be valid JSON")) ++
    when (64 <? len (helm_ValueSecretRefs s))%Z
      (add "value_secret_refs" VLimitExceeded "must contain at most 64 references") ++
    index_loop (fun index ref =>
      let field := indexed "value_secret_refs" index in
      validateDNSLabel (field +:+ ".name") (ref_Name ref) ++
      when ((ref_Key ref == "") || (253 <? slen (ref_Key ref))%Z || containsControl (ref_Key ref))
        (add (field +:+ ".key") VInvalid "must be a bounded Secret key") ++
      when ((TrimSpace (ref_TargetPath ref) == "") || (1024 <? slen (ref_TargetPath ref))%Z ||
            containsControl (ref_TargetPath ref))
        (add (field +:+ ".target_path") VInvalid "must be a bounded Helm values path"))
      0 (helm_ValueSecretRefs s)).

(** [RendererSpec.Validate] *)
Definition RendererSpec_Validate (s : RendererSpec) : res unit :=
  collector_err
    match renderer_Kind s with
    | RendererKustomize =>
        match renderer_Kustomize s with
        | None => add "kustomize" VRequired "is required for the kustomize renderer"
        | Some k => append "kustomize" (KustomizeSpec_validate k)
        end ++
        match renderer_Helm s with
        | None => []
        | Some _ => add "helm" VConflict "must be absent for the kustomize renderer"
        end
    | RendererHelm =>
        match renderer_Helm s with
        | None => add "helm" VRequired "is required for the helm renderer"
        | Some h => append "helm" (HelmSpec_validate h)
        end ++
        match renderer_Kustomize s with
        | None => []
        | Some _ => add "kustomize" VConflict "must be absent for the helm renderer"
        end
    | RendererOther _ => add "kind" VUnsupported "must be kustomize or helm"
    end.

(** [ReconciliationPolicy.Validate] *)
Definition ReconciliationPolicy_Validate (p : ReconciliationPolicy) : res unit :=
  collector_err (
    validatePositiveDuration "interval" (policy_Interval p) ++
    validatePositiveDuration "retry_interval" (policy_RetryInterval p) ++
    validatePositiveDuration "timeout" (policy_Timeout p) ++
    match policy_Drift p with
    | DriftIgnore | DriftDetect | DriftRepair => []
    | DriftOther _ => add "drift" VUnsupported "must be ignore, detect, or repair"
    end).

Definition requested_revision_check (value : string) : list Violation :=
  if TrimSpace value == "" then add "requested_revision" VRequired "is required"
  else when (MaxRequestedRevisionLength <? slen value)%Z
    (add "requested_revision" VLimitExceeded "must be at most 1024 bytes").

Definition scope_check (scope : Scope) : list Violation :=
  match scope with
  | ScopeNamespace | ScopePlatform => []
  | ScopeOther _ => add "scope" VUnsupported "must be namespace or platform"
  end.

(** [BundleVersionDraft.Validate] *)
Definition BundleVersionDraft_Validate (s : BundleVersionDraft) : res unit :=
  collector_err (
    validateUUID "source_id" (draft_SourceID s) ++
    requested_revision_check (draft_RequestedRevision s) ++
    scope_check (draft_Scope s) ++
    append "renderer" (RendererSpec_Validate (draft_Renderer s)) ++
    append "reconciliation_policy" (ReconciliationPolicy_Validate (draft_Reconciliation s)) ++
    append "required_capabilities"
      (CapabilityRequirementsCanonical (draft_RequiredCapabilities s))).

(** [BundleVersionSpec.Validate] *)
Definition BundleVersionSpec_Validate (s : BundleVersionSpec) : res unit :=
  collector_err (
    validateUUID "source_id" (spec_SourceID s) ++
    requested_revision_check (spec_RequestedRevision s) ++
    append "revision" (ImmutableRevision_Validate (spec_Revision s)) ++
    scope_check (spec_Scope s) ++
    append "renderer" (RendererSpec_Validate (spec_Renderer s)) ++
    append "reconciliation_policy" (ReconciliationPolicy_Validate (spec_Reconciliation s)) ++
    append "required_capabilities"
      (CapabilityRequirementsCanonical (spec_RequiredCapabilities s))).

(** [BundleVersionDraft.Resolve] *)
Definition BundleVersionDraft_Resolve (s : BundleVersionDraft) (revision : ImmutableRevision) :
  res BundleVersionSpec :=
  BundleVersionDraft_Validate s;;
  let resolved := {|
    spec_SourceID := draft_SourceID s;
    spec_RequestedRevision := draft_RequestedRevision s;
    spec_Revision := revision;
    spec_Renderer := draft_Renderer s;
    spec_Scope := draft_Scope s;
    spec_Reconciliation := draft_Reconciliation s;
    spec_RequiredCapabilities := draft_RequiredCapabilities s |} in
  BundleVersionSpec_Validate resolved;;
  Ok resolved.

(** ** Documents and digests *)

Definition RevisionKind_string (k : RevisionKind) : string :=
  match k with
  | RevisionGitCommit => "git_commit" | RevisionOCIDigest => "oci_digest"
  | RevisionHelmChart => "helm_chart" | RevisionOther raw => raw
  end.
Definition RendererKind_string (k : RendererKind) : string :=
  match k with
  | RendererKustomize => "kustomize" | RendererHelm => "helm" | RendererOther raw => raw
  end.
Definition Scope_string (s : Scope) : string :=
  match s with ScopeNamespace => "namespace" | ScopePlatform => "platform" | ScopeOther raw => raw end.
Definition DriftPolicy_string (d : DriftPolicy) : string :=
  match d with
  | DriftIgnore => "ignore" | DriftDetect => "detect" | DriftRepair => "repair"
  | DriftOther raw => raw
  end.

#[export] Instance ImmutableRevision_json : ToJSON ImmutableRevision := fun r =>
  JObject (field "kind" (RevisionKind_string (revision_Kind r)) ++
           field "value" (revision_Value r) ++
           field "artifact_digest" (revision_ArtifactDigest r)).

#[export] Instance CapabilityRequirement_json : ToJSON CapabilityRequirement := fun r =>
  JObject (field "name" (cap_Name r) ++
           field_omit "constraint" (cap_Constraint r == "") (cap_Constraint r)).

#[export] Instance KustomizeSpec_json : ToJSON KustomizeSpec := fun s =>
  JObject (field "path" (kustomize_Path s) ++
           field "target_namespace" (kustomize_TargetNamespace s) ++
           field_omit "patches" (len (kustomize_Patches s) =? 0)%Z (kustomize_Patches s)).

#[export] Instance HelmValueSecretRef_json : ToJSON HelmValueSecretRef := fun r =>
  JObject (field "name" (ref_Name r) ++ field "key" (ref_Key r) ++
           field "target_path" (ref_TargetPath r)).

#[export] Instance HelmSpec_json : ToJSON HelmSpec := fun s =>
  JObject (field "chart" (helm_Chart s) ++
           field "chart_version" (helm_ChartVersion s) ++
           field "release_name" (helm_ReleaseName s) ++
           field "target_namespace" (helm_TargetNamespace s) ++
           (if helm_Values s == "" then [] else [("values", JRaw (helm_Values s))]) ++
           field_omit "value_secret_refs" (len (helm_ValueSecretRefs s) =? 0)%Z
             (helm_ValueSecretRefs s) ++
           field "install_retries" (Z.of_N (helm_InstallRetries s)) ++
           field "upgrade_retries" (Z.of_N (helm_UpgradeRetries s)) ++
           field "test" (helm_Test s)).

#[export] Instance RendererSpec_json : ToJSON RendererSpec := fun s =>
  JObject (field "kind" (RendererKind_string (renderer_Kind s)) ++
           match renderer_Kustomize s with None => [] | Some k => field "kustomize" k end ++
           match renderer_Helm s with None => [] | Some h => field "helm" h end).

#[export] Instance ReconciliationPolicy_json : ToJSON ReconciliationPolicy := fun p =>
  JObject ([("interval", JDuration (policy_Interval p));
            ("retry_interval", JDuration (policy_RetryInterval p));
            ("timeout", JDuration (policy_Timeout p))] ++
           field "prune" (policy_Prune p) ++ field "wait" (policy_Wait p) ++
           field "drift" (DriftPolicy_string (policy_Drift p))).

#[export] Instance BundleVersionSpec_json : ToJSON BundleVersionSpec := fun s =>
  JObject (field "source_id" (spec_SourceID s) ++
           field "requested_revision" (spec_RequestedRevision s) ++
           field "revision" (spec_Revision s) ++
           field "renderer" (spec_Renderer s) ++
           field "scope" (Scope_string (spec_Scope s)) ++
           field "reconciliation_policy" (spec_Reconciliation s) ++
           field_omit "required_capabilities" (len (spec_RequiredCapabilities s) =? 0)%Z
             (spec_RequiredCapabilities s)).

(** [BundleVersionSpec.CanonicalDigest] *)
Definition BundleVersionSpec_CanonicalDigest (s : BundleVersionSpec) : res Digest :=
  BundleVersionSpec_Validate s;;
  let capabilities :=
    match CapabilityRequirementsCanonical (spec_RequiredCapabilities s) with
    | Ok capabilities => capabilities
    | Err _ => []
    end in
  CanonicalDigest {|
    spec_SourceID := spec_SourceID s;
    spec_RequestedRevision := spec_RequestedRevision s;
    spec_Revision := spec_Revision s;
    spec_Renderer := spec_Renderer s;
    spec_Scope := spec_Scope s;
    spec_Reconciliation := spec_Reconciliation s;
    spec_RequiredCapabilities := capabilities |}.

(** [BundleVersion.Validate] *)
Definition BundleVersion_Validate (v : BundleVersion) : res unit :=
  collector_err (
    validateUUID "id" (version_ID v) ++
    validateUUID "bundle_id" (version_BundleID v) ++
    when (version_Version v =? 0)%N (add "version" VInvalid "must be greater than zero") ++
    append "spec" (BundleVersionSpec_Validate (version_Spec v)) ++
    when (version_CreatedAt v =? 0)%Z (add "created_at" VRequired "is required") ++
    match BundleVersionSpec_CanonicalDigest (version_Spec v) with
    | Ok digest => when (version_SpecDigest v != digest)
        (add "spec_digest" VInvalid "does not match the canonical bundle version spec")
    | Err _ => []
    end).

(** ** Facts *)

Definition cap_sortkey (r : CapabilityRequirement) : string * string :=
  (cap_Name r, cap_Constraint r).

Lemma capability_less_by_key a b :
  capability_less a b = by_key cap_sortkey (lex_lt str_lt str_lt) a b.
Proof. unfold capability_less, by_key, lex_lt. cbn. by case_bool_decide. Qed.

Lemma cap_sort_unique l k :
  l ≡ₚ k -> sort_slice capability_less l = sort_slice capability_less k.
Proof.
  intros Hp. rewrite !(sort_slice_ext _ _ _ capability_less_by_key).
  apply sort_slice_unique; [apply _| |done].
  intros [] [] _ _. unfold cap_sortkey. cbn. congruence.
Qed.

Lemma CapabilityRequirementsCanonical_perm l k :
  l ≡ₚ k -> CapabilityRequirementsCanonical l = CapabilityRequirementsCanonical k.
Proof.
  intros Hp. unfold CapabilityRequirementsCanonical, len.
  by rewrite (cap_sort_unique l k Hp), Hp.
Qed.

Lemma CapabilityRequirementsCanonical_same l c :
  CapabilityRequirementsCanonical l = Ok c -> c ≡ₚ l.
Proof.
  unfold CapabilityRequirementsCanonical. intros. res_inv. apply sort_slice_Permutation.
Qed.

Lemma CapabilityRequirementsCanonical_valid l c :
  CapabilityRequirementsCanonical l = Ok c ->
  Forall (fun r => CapabilityRequirement_Validate r = Ok tt) l.
Proof.
  unfold CapabilityRequirementsCanonical. intros. res_inv.
  rewrite <- (sort_slice_Permutation capability_less l).
  match goal with Hc : collector_err _ = _ |- _ =>
    apply collector_err_Ok, index_loop_elem in Hc; eapply Forall_impl; [exact Hc|] end.
  intros r (j & [Hr _]%app_nil_iff). unfold CapabilityRequirement_Validate in *.
  apply append_err_nil in Hr. by rewrite Hr.
Qed.

Definition resolved_spec (d : BundleVersionDraft) (r : ImmutableRevision) : BundleVersionSpec :=
  {| spec_SourceID := draft_SourceID d;
     spec_RequestedRevision := draft_RequestedRevision d;
     spec_Revision := r;
     spec_Renderer := draft_Renderer d;
     spec_Scope := draft_Scope d;
     spec_Reconciliation := draft_Reconciliation d;
     spec_RequiredCapabilities := draft_RequiredCapabilities d |}.

Lemma resolved_spec_valid d r :
  BundleVersionDraft_Validate d = Ok tt ->
  BundleVersionSpec_Validate (resolved_spec d r) = Ok tt <-> ImmutableRevision_Validate r = Ok tt.
Proof.
  unfold BundleVersionDraft_Validate, BundleVersionSpec_Validate, resolved_spec,
    ImmutableRevision_Validate. cbn.
  rewrite !collector_err_Ok, !app_nil_iff, append_err_nil, app_nil_iff. intuition.
Qed.

(** A draft resolves exactly when the draft and the immutable revision are
    both valid, and then to the draft's own fields with that revision; the
    bundle version stored with the digest of the resolved spec is valid, and
    with any other digest it is not. *)
Theorem BundleVersionDraft_Resolve_spec d r s :
  (BundleVersionDraft_Resolve d r = Ok s <->
   BundleVersionDraft_Validate d = Ok tt /\ ImmutableRevision_Validate r = Ok tt /\
   s = resolved_spec d r) /\
  (forall g id bundle version created stored,
     BundleVersionDraft_Resolve d r = Ok s -> BundleVersionSpec_CanonicalDigest s = Ok g ->
     id <> uuid_Nil -> bundle <> uuid_Nil -> version <> 0%N -> created <> 0%Z ->
     BundleVersion_Validate {| version_ID := id; version_BundleID := bundle;
       version_Version := version; version_Spec := s; version_SpecDigest := stored;
       version_CreatedAt := created |} = Ok tt <-> stored = g).
Proof.
  assert (Hr : BundleVersionDraft_Resolve d r = Ok s <->
    BundleVersionDraft_Validate d = Ok tt /\ BundleVersionSpec_Validate (resolved_spec d r) = Ok tt /\
    s = resolved_spec d r).
  { unfold BundleVersionDraft_Resolve. fold (resolved_spec d r). rewrite res_bind_Ok. split.
    - intros ([] & Hd & Hs). res_inv. destruct x. done.
    - intros (Hd & Hs & ->). exists tt. by rewrite Hs. }
  split.
  - rewrite Hr. split; intros (Hd & Hs & ->); split_and!; try done;
      by apply (resolved_spec_valid d r Hd).
  - intros g id bundle version created stored (Hd & Hs & ->)%Hr Hg Hid Hb Hv Hc.
    unfold BundleVersion_Validate, validateUUID. cbn.
    rewrite collector_err_Ok, !app_nil_iff, Hg, Hs, !when_add_nil.
    rewrite !bool_decide_eq_false, negb_false_iff, bool_decide_eq_true, N.eqb_neq, Z.eqb_neq.
    intuition.
Qed.

Definition scheme_allowed (t : SourceType) (u : URL) : Prop :=
  match t with
  | SourceGit => url_Scheme u = "https" \/ url_Scheme u = "ssh"
  | SourceOCIArtifact | SourceHelmOCI => url_Scheme u = "oci"
  | SourceHelmHTTP => url_Scheme u = "https"
  | SourceOther _ => False
  end.

Lemma validateSourceURL_ok t v pu :
  validateSourceURL t v = ([], pu) ->
  exists u, pu = Some u /\ url_Parse v = Some u /\ url_Host u <> "" /\ scheme_allowed t u /\
    (forall name pw, url_User u = Some (name, pw) ->
       pw = false /\ url_Scheme u = "ssh" /\ name <> "").
Proof.
  unfold validateSourceURL.
  destruct (v == ""); [done|]. destruct (MaxURLLength <? slen v)%Z; [done|].
  destruct (url_Parse v) as [u|]; [|done].
  destruct (_ || _) eqn:Eh; [done|]. intros [= Hv <-]. exists u.
  apply app_nil_iff in Hv as [Huser Hallow]. bool_props.
  rewrite when_add_nil, negb_false_iff in Hallow. split_and!; try done.
  - unfold scheme_allowed. destruct t; rewrite ?orb_true_iff, ?bool_decide_eq_true in Hallow; done.
  - intros name pw E. rewrite E, when_add_nil in Huser. bool_props. done.
Qed.

Definition signature_ok (t : SourceType) (p : TrustPolicy) : Prop :=
  match trust_Provider p with
  | SignatureGit => t = SourceGit /\ TrimSpace (trust_KeyRef p) <> ""
  | SignatureCosignKey => t <> SourceGit /\ TrimSpace (trust_KeyRef p) <> ""
  | SignatureCosignKeyless =>
      t <> SourceGit /\ TrimSpace (trust_Identity p) <> "" /\ TrimSpace (trust_Issuer p) <> ""
  | _ => False
  end.

Lemma TrustPolicy_signed prefix p :
  append prefix (TrustPolicy_Validate p) = [] -> AllowUnsigned p = false ->
  match trust_Provider p with
  | SignatureGit | SignatureCosignKey => TrimSpace (trust_KeyRef p) <> ""
  | SignatureCosignKeyless => TrimSpace (trust_Identity p) <> "" /\ TrimSpace (trust_Issuer p) <> ""
  | _ => False
  end.
Proof.
  unfold TrustPolicy_Validate. intros Hp Ha. rewrite Ha, append_err_nil, app_nil_iff in Hp.
  destruct Hp as [_ Hp].
  destruct (trust_Provider p); autorewrite with validation in Hp;
    rewrite ?bool_decide_eq_false in Hp; naive_solver.
Qed.

(** What [Source.Validate] lets through: an absolute URL whose scheme is
    one the source type allows, no embedded credentials (a bare user name is
    accepted for ssh only), SSH authentication only over ssh to Git, and,
    unless unsigned artifacts are explicitly allowed, a signature provider of
    the right family together with the key or identity it verifies against. *)
Theorem Source_Validate_safe s :
  Source_Validate s = Ok tt ->
  exists u, url_Parse (source_URL s) = Some u /\ url_Host u <> "" /\
    scheme_allowed (source_Type s) u /\
    (forall name pw, url_User u = Some (name, pw) ->
       pw = false /\ url_Scheme u = "ssh" /\ name <> "") /\
    (source_AuthMode s = AuthSSH -> source_Type s = SourceGit /\ url_Scheme u = "ssh") /\
    (AllowUnsigned (source_Trust s) = false -> signature_ok (source_Type s) (source_Trust s)).
Proof.
  unfold Source_Validate, validateSourceConnection.
  destruct (validateSourceURL _ _) as [uv pu] eqn:Eu. rewrite collector_err_Ok, !app_nil_iff.
  intros (_ & _ & _ & _ & Ht & -> & Hsig & Hauth & Htrust).
  apply validateSourceURL_ok in Eu as (u & -> & Hu & Hh & Hs & Huser).
  exists u. split_and!; try done.
  - intros E. rewrite E, app_nil_iff, !when_add_nil, !negb_false_iff, !bool_decide_eq_true in Hauth.
    done.
  - intros Ha. pose proof (TrustPolicy_signed _ _ Htrust Ha) as Hp. rewrite Ha in Hsig. cbn in Hsig.
    unfold signature_ok. destruct (source_Type s); [..|done]; rewrite when_add_nil in Hsig;
      destruct (trust_Provider (source_Trust s)); cbn in *; naive_solver.
Qed.

(** ** Kustomize paths stay inside the source *)

(** Walking the elements of a path from depth [d] below the source root;
    [None] when the walk leaves the root. *)
Fixpoint descend (d : nat) (elems : list string) : option nat :=
  match elems with
  | [] => Some d
  | e :: es =>
      if (e == "") || (e == ".") then descend d es
      else if e == ".." then match d with O => None | S d' => descend d' es end
      else descend (S d) es
  end.

Lemma clean_bottom elems o :
  exists o', foldl (clean_step false) (o ++ [".."]) elems = o' ++ [".."].
Proof.
  revert o. induction elems as [|e es IH]; intros o; cbn; [by exists o|].
  unfold clean_step at 2. destruct (_ || _); [apply IH|]. destruct (e == "..").
  - destruct o as [|t o]; cbn; [apply (IH [".."])|].
    destruct (t == ".."); [apply (IH (".." :: t :: o)) | apply IH].
  - apply (IH (e :: o)).
Qed.

Lemma clean_descend elems out :
  Forall (fun e => e <> "..") out ->
  match descend (length out) elems with
  | Some d => length (foldl (clean_step false) out elems) = d
  | None => exists o, foldl (clean_step false) out elems = o ++ [".."]
  end.
Proof.
  revert out. induction elems as [|e es IH]; intros out Ho; cbn; [done|].
  unfold clean_step at 2 4. destruct (_ || _); [by apply IH|].
  destruct (e == "..") eqn:Ee.
  - destruct out as [|t out]; cbn; [apply (clean_bottom es [])|].
    apply Forall_cons_iff in Ho as [Ht Ho]. rewrite bool_decide_false by done. by apply IH.
  - bool_props. apply (IH (e :: out)). by constructor.
Qed.

Lemma path_Clean_dotdot p o :
  p <> "" -> HasPrefix p "/" = false ->
  foldl (clean_step false) [] (split_byte "/"%char p) = o ++ [".."] ->
  path_Clean p = ".." \/ HasPrefix (path_Clean p) "../" = true.
Proof.
  intros Hp Hr Hf. unfold path_Clean. rewrite bool_decide_false by done. rewrite Hr, Hf.
  rewrite reverse_app. cbn. destruct (reverse o) as [|w ws]; [by left|]. right.
  change (strings_Join "/" (".." :: w :: ws)) with (".." +:+ "/" +:+ strings_Join "/" (w :: ws)).
  apply (HasPrefix_app "../").
Qed.

Lemma dot_slash_relative p : HasPrefix p "./" = true -> p <> "" /\ HasPrefix p "/" = false.
Proof.
  by intros [rest ->]%HasPrefix_spec.
Qed.

(** An accepted Kustomize path names a directory strictly below the source
    root, and no prefix of it leaves the root: [descend] counts the depth
    element by element and fails at the first step above the root. *)
Theorem KustomizeSpec_path_contained s :
  KustomizeSpec_validate s = Ok tt ->
  exists d, descend 0 (split_byte "/"%char (kustomize_Path s)) = Some (S d).
Proof.
  unfold KustomizeSpec_validate. rewrite collector_err_Ok, app_nil_iff, when_add_nil.
  intros [Hg _]. bool_props. match goal with Hd : HasPrefix _ _ = true |- _ => apply dot_slash_relative in Hd as [Hne Hrel] end.
  pose proof (clean_descend (split_byte "/"%char (kustomize_Path s)) [] (Forall_nil_2 _)) as Hd.
  cbn in Hd. destruct (descend 0 _) as [[|d]|]; [|by exists d|].
  - apply nil_length_inv in Hd. exfalso.
    match goal with Hc : path_Clean _ <> "." |- _ => apply Hc end.
    unfold path_Clean. by rewrite bool_decide_false, Hrel, Hd by done.
  - destruct Hd as [o Ho]. apply path_Clean_dotdot in Ho; [|done..].
    destruct Ho; congruence.
Qed.
End validate.

Definition example_source : Source := {|
  source_ID := UUID "s"; source_ProjectID := UUID "p"; source_Name := "platform";
  source_Description := ""; source_Type := SourceGit; source_URL := "https://git.example";
  source_AuthMode := AuthBasic;
  source_Trust := {| AllowUnsigned := false; trust_Provider := SignatureGit;
                     trust_Identity := ""; trust_Issuer := ""; trust_KeyRef := "git-key" |} |}.

Lemma Source_Validate_safe_witness :
  exists u, @url_Parse Concrete.external (source_URL example_source) = Some u /\
    url_Scheme u = "https".
Proof.
  destruct (@Source_Validate_safe Concrete.external example_source) as (u & Hu & _).
  - vm_compute. reflexivity.
  - exists u. split; [exact Hu|]. cbn in Hu. by injection Hu as <-.
Defined.

Lemma KustomizeSpec_path_contained_witness :
  exists d, descend 0 (split_byte "/"%char "./base/../overlays/prod") = Some (S d).
Proof.
  apply (@KustomizeSpec_path_contained
    {| kustomize_Path := "./base/../overlays/prod"; kustomize_TargetNamespace := "web";
       kustomize_Patches := [] |}).
  vm_compute. reflexivity.
Defined.
End Types.
