(* ===== verification/RolloutTypes.v ===== *)
(** * Frozen rollouts and their companions (internal/delivery/rollout/types.go)

    The immutable plan, the approval, maintenance and lease records a scheduler
    evaluation takes, and their validators. *)

From Stdlib Require Import ZArith Lia Ascii.
From S2P Require Import Prelude GoStrings External Validation Overrides Model Types.
From stdpp Require Import base gmap strings list.
Import Overrides Model Types.

Module RolloutTypes.

Definition MaxActorLength : Z := 512.
Definition MaxIdempotencyKeyLength : Z := 128.
Definition MaxLeaseOwnerLength : Z := 253.

(** [fail] (errors.go) *)
Definition fail (code : RolloutErrorCode) (field message : string) : error :=
  ERollout code field (EText message).

(** [HasCode] (errors.go) *)
Definition HasRolloutCode (e : error) (code : RolloutErrorCode) : bool :=
  match e with ERollout c _ _ => c == code | _ => false end.

Record VersionIdentity := {
  version_BundleVersionID : uuid;
  version_Digest : Digest;
  version_Source : ResolvedSourceSpec;
  version_Overrides : TargetOverrides;
  version_Renderer : option RendererSpec;
  version_ConfigurationDigest : Digest;
}.

Record PreviousDeployment := {
  previous_Version : VersionIdentity;
  previous_Generation : Z;
}.

Record ApprovalBinding := {
  approval_Required : bool;
  approval_Digest : Digest;
}.

Record Cohort := {
  cohort_Index : Z;
  cohort_Name : string;
  cohort_ClusterIDs : list uuid;
  cohort_ApprovalRequired : bool;
  cohort_ApprovalDigest : Digest;
  cohort_SoakAfter : duration;
}.

Record PlannedCluster := {
  planned_ClusterID : uuid;
  planned_Cohort : Z;
  planned_Order : Z;
  planned_Desired : option VersionIdentity;
  planned_Previous : option PreviousDeployment;
}.

Record FrozenRollout := {
  plan_ID : uuid;
  plan_TargetID : uuid;
  plan_ProjectID : uuid;
  plan_TargetGeneration : N;
  plan_Desired : VersionIdentity;
  plan_PlacementDigest : Digest;
  plan_Strategy : RolloutStrategy;
  plan_StrategyDigest : Digest;
  plan_Approval : ApprovalBinding;
  plan_Actor : string;
  plan_IdempotencyKey : string;
  plan_RequestDigest : Digest;
  plan_CreatedAt : time;
  plan_Deadline : time;
  plan_Cohorts : list Cohort;
  plan_Clusters : list PlannedCluster;
  plan_PlanDigest : Digest;
}.

Record ApprovalDecision := {
  decision_ID : uuid;
  decision_BindingDigest : Digest;
  decision_Approved : bool;
  decision_DecidedAt : time;
  decision_ExpiresAt : time;
}.

Record MaintenanceGate := {
  gate_Open : bool;
  gate_OverrideAuthorized : bool;
  gate_OverrideReason : string;
}.

Record Lease := {
  lease_Owner : string;
  lease_Fence : Z;
  lease_ExpiresAt : time;
}.

(** [ApprovalDecision.validFor] *)
Definition validFor (d : ApprovalDecision) (binding : Digest) (now : time) : bool :=
  (decision_ID d != uuid_Nil) && (decision_BindingDigest d == binding) &&
  negb (decision_DecidedAt d =? 0)%Z && negb (now <? decision_DecidedAt d)%Z &&
  (now <? decision_ExpiresAt d)%Z.

(** [MaintenanceGate.allowsRelease] *)
Definition allowsRelease (g : MaintenanceGate) : bool :=
  gate_Open g || (gate_OverrideAuthorized g && (TrimSpace (gate_OverrideReason g) != "")).

(** [Lease.validate] *)
Definition Lease_validate (l : Lease) (now : time) (fence : Z) : res unit :=
  fail_if ((lease_Owner l == "") || (MaxLeaseOwnerLength <? slen (lease_Owner l))%Z ||
           ContainsAny (lease_Owner l) crlfnul)
    (fail CodeLeaseLost "lease.owner" "invalid lease owner");;
  fail_if (lease_Fence l != fence)
    (fail CodeStaleFence "lease.fence" "claim fence no longer matches");;
  fail_if (negb (now <? lease_ExpiresAt l)%Z)
    (fail CodeLeaseLost "lease.expires_at" "lease has expired").

Section validate.
Context `{External}.

(** [VersionIdentity.Validate] *)
Definition VersionIdentity_Validate (v : VersionIdentity) : res unit :=
  fail_if (version_BundleVersionID v == uuid_Nil)
    (fail CodeInvalidInput "bundle_version_id" "must be a non-zero UUID");;
  wrap_err (ERollout CodeInvalidInput "spec_digest") (Digest_Validate (version_Digest v));;
  wrap_err (ERollout CodeInvalidInput "source") (ResolvedSourceSpec_Validate (version_Source v));;
  wrap_err (ERollout CodeInvalidInput "overrides")
    (TargetOverrides_Validate (version_Overrides v));;
  match version_Renderer v with
  | Some renderer =>
      wrap_err (ERollout CodeInvalidInput "renderer") (RendererSpec_Validate renderer);;
      wrap_err (ERollout CodeInvalidInput "configuration_digest")
        (Digest_Validate (version_ConfigurationDigest v))
  | None =>
      fail_if (version_ConfigurationDigest v != "")
        (fail CodeInvalidInput "configuration_digest" "requires a frozen renderer")
  end.

(** [PreviousDeployment.Validate] *)
Definition PreviousDeployment_Validate (p : PreviousDeployment) : res unit :=
  fail_if (previous_Generation p <? 1)%Z
    (fail CodeInvalidInput "previous.generation" "must be positive");;
  VersionIdentity_Validate (previous_Version p).

(** ** Documents *)

Definition SourceType_string (t : SourceType) : string :=
  match t with
  | SourceGit => "git" | SourceOCIArtifact => "oci_artifact" | SourceHelmHTTP => "helm_http"
  | SourceHelmOCI => "helm_oci" | SourceOther raw => raw
  end.

Definition AuthMode_string (m : AuthMode) : string :=
  match m with
  | AuthNone => "none" | AuthBasic => "basic" | AuthBearer => "bearer" | AuthSSH => "ssh"
  | AuthWorkloadIdentity => "workload_identity" | AuthOther raw => raw
  end.

Definition SignatureProvider_string (p : SignatureProvider) : string :=
  match p with
  | SignatureNone => "" | SignatureCosignKey => "cosign_key"
  | SignatureCosignKeyless => "cosign_keyless" | SignatureGit => "git" | SignatureOther raw => raw
  end.

#[export] Instance TrustPolicy_json : ToJSON TrustPolicy := fun p =>
  JObject (field "allow_unsigned" (AllowUnsigned p) ++
           field_omit "provider" (SignatureProvider_string (trust_Provider p) == "")
             (SignatureProvider_string (trust_Provider p)) ++
           field_omit "identity" (trust_Identity p == "") (trust_Identity p) ++
           field_omit "issuer" (trust_Issuer p == "") (trust_Issuer p) ++
           field_omit "key_ref" (trust_KeyRef p == "") (trust_KeyRef p)).

#[export] Instance ResolvedSourceSpec_json : ToJSON ResolvedSourceSpec := fun s =>
  JObject (field "source_id" (resolved_SourceID s) ++
           field "type" (SourceType_string (resolved_Type s)) ++
           field "url" (resolved_URL s) ++
           field "auth_mode" (AuthMode_string (resolved_AuthMode s)) ++
           field "trust_policy" (resolved_Trust s) ++
           field "revision" (resolved_Revision s)).

#[export] Instance VersionIdentity_json : ToJSON VersionIdentity := fun v =>
  JObject (field "bundle_version_id" (version_BundleVersionID v) ++
           field "spec_digest" (version_Digest v) ++
           field "source" (version_Source v) ++
           field "overrides" (version_Overrides v) ++
           match version_Renderer v with None => [] | Some r => field "renderer" r end ++
           field_omit "configuration_digest" (version_ConfigurationDigest v == "")
             (version_ConfigurationDigest v)).

#[export] Instance PreviousDeployment_json : ToJSON PreviousDeployment := fun p =>
  JObject (field "version" (previous_Version p) ++ field "generation" (previous_Generation p)).

#[export] Instance ApprovalBinding_json : ToJSON ApprovalBinding := fun a =>
  JObject (field "required" (approval_Required a) ++ field "digest" (approval_Digest a)).

#[export] Instance Cohort_json : ToJSON Cohort := fun c =>
  JObject (field "index" (cohort_Index c) ++
           field "name" (cohort_Name c) ++
           field "cluster_ids" (cohort_ClusterIDs c) ++
           field "approval_required" (cohort_ApprovalRequired c) ++
           field_omit "approval_digest" (cohort_ApprovalDigest c == "") (cohort_ApprovalDigest c) ++
           [("soak_after", JDuration (cohort_SoakAfter c))]).

#[export] Instance PlannedCluster_json : ToJSON PlannedCluster := fun p =>
  JObject (field "cluster_id" (planned_ClusterID p) ++
           field "cohort" (planned_Cohort p) ++
           field "order" (planned_Order p) ++
           match planned_Desired p with None => [] | Some d => field "desired" d end ++
           match planned_Previous p with None => [] | Some d => field "previous" d end).

#[export] Instance FrozenRollout_json : ToJSON FrozenRollout := fun p =>
  JObject (field "id" (plan_ID p) ++
           field "target_id" (plan_TargetID p) ++
           field "project_id" (plan_ProjectID p) ++
           field "target_generation" (Z.of_N (plan_TargetGeneration p)) ++
           field "desired" (plan_Desired p) ++
           field "placement_digest" (plan_PlacementDigest p) ++
           field "strategy" (plan_Strategy p) ++
           field "strategy_digest" (plan_StrategyDigest p) ++
           field "approval" (plan_Approval p) ++
           field "actor" (plan_Actor p) ++
           field "idempotency_key" (plan_IdempotencyKey p) ++
           field "request_digest" (plan_RequestDigest p) ++
           [("created_at", JTime (plan_CreatedAt p)); ("deadline", JTime (plan_Deadline p))] ++
           field "cohorts" (plan_Cohorts p) ++
           field "clusters" (plan_Clusters p) ++
           field "plan_digest" (plan_PlanDigest p)).
End validate.
End RolloutTypes.
