(* ===== verification/Placement.v ===== *)
(** * Cluster selection (internal/delivery/placement/placement.go)

    [Evaluate] turns a placement, the caller's projects and the batch of
    candidate clusters into one decision per cluster, the selected clusters and
    a preview digest.  Sets are [gset], label and capability maps are [gmap].
    The deferred metrics call of the source has no effect on the result and is
    left out. *)

From Stdlib Require Import ZArith Lia Ascii.
From S2P Require Import Prelude GoSort GoStrings External Validation Model Types.
From stdpp Require Import base gmap strings list sorting.
Import Model Types.

Module Placement.

(** ** Data *)

Inductive CompatibilityStatus :=
  | CompatibilityCompatible | CompatibilityIncompatible | CompatibilityUnknown
  | CompatibilityOther (raw : string).

Record Candidate := {
  ID : uuid;
  ProjectID : uuid;
  Name : string;
  Labels : gmap string string;
  GroupIDs : list uuid;
  Capabilities : gmap string string;
  Connected : bool;
  Compatibility : CompatibilityStatus;
  CompatibilityReason : string;
  Decommissioning : bool;
}.

Record SnapshotIdentity := {
  TargetGeneration : N;
  BundleVersionID : uuid;
  BundleSpecDigest : Digest;
  ResolvedRevision : ImmutableRevision;
}.

Record Request := {
  request_Placement : Model.Placement;
  AllowedProjectIDs : list uuid;
  Candidates : list Candidate;
  RequiredCapabilities : list CapabilityRequirement;
  request_Identity : SnapshotIdentity;
}.

Inductive DecisionReason :=
  | ReasonSelected | ReasonExcludedSelector | ReasonExcludedExplicitly | ReasonUnauthorized
  | ReasonDisconnected | ReasonIncompatible | ReasonMissingCapability | ReasonDecommissioning.

Inductive MatchReason :=
  | MatchExplicitCluster | MatchAllClusters | MatchClusterGroup | MatchedLabels
  | MatchedExpressions.

Record Decision := {
  ClusterID : uuid;
  decision_ProjectID : uuid;
  ClusterName : string;
  Reason : DecisionReason;
  MatchReasons : list MatchReason;
  MatchedGroupIDs : list uuid;
  MissingCapabilities : list string;
  decision_CompatibilityReason : string;
}.

Record Result := {
  Decisions : list Decision;
  Selected : list Candidate;
  SelectedCount : Z;
  ExcludedCount : Z;
  RequiresAllConfirmation : bool;
  PreviewDigest : Digest;
}.

#[export] Instance CompatibilityStatus_eq_dec : EqDecision CompatibilityStatus.
Proof. solve_decision. Defined.
#[export] Instance Candidate_eq_dec : EqDecision Candidate.
Proof. solve_decision. Defined.
#[export] Instance DecisionReason_eq_dec : EqDecision DecisionReason.
Proof. solve_decision. Defined.
#[export] Instance MatchReason_eq_dec : EqDecision MatchReason.
Proof. solve_decision. Defined.
#[export] Instance Decision_eq_dec : EqDecision Decision.
Proof. solve_decision. Defined.

(** [invalidInput] *)
Definition invalidInput (cause : error) : error := EPlacement PCodeInvalidInput uuid_Nil cause.

(** ** Candidates *)

Definition idSet (input : list uuid) : gset uuid := list_to_set input.

Definition add_uuid (result : gset uuid) (id : uuid) : res (gset uuid) :=
  fail_if (id == uuid_Nil) (EText "%s contains a zero UUID");;
  fail_if (bool_decide (id ∈ result)) (EText "%s contains duplicate %s");;
  Ok ({[id]} ∪ result).

(** [canonicalUUIDSet] *)
Definition canonicalUUIDSet (input : list uuid) : res (gset uuid) :=
  fail_if (MaxPlacementIDs <? len input)%Z (EText "%s exceeds %d entries");;
  res_foldl add_uuid ∅ input.

Section evaluate.
Context `{External}.

(** [setUUIDs] *)
Definition setUUIDs (input : gset uuid) : list uuid := sortedUUIDs (elements input).

Definition unionUUIDs (left right : list uuid) : list uuid :=
  setUUIDs (idSet left ∪ idSet right).

Definition with_groups_caps (c : Candidate) (groups : list uuid) (caps : gmap string string) :
  Candidate :=
  {| ID := ID c; ProjectID := ProjectID c; Name := Name c; Labels := Labels c;
     GroupIDs := groups; Capabilities := caps; Connected := Connected c;
     Compatibility := Compatibility c; CompatibilityReason := CompatibilityReason c;
     Decommissioning := Decommissioning c |}.

(** [canonicalCandidate] *)
Definition canonicalCandidate (candidate : Candidate) : res Candidate :=
  fail_if ((ID candidate == uuid_Nil) || (ProjectID candidate == uuid_Nil))
    (EText "candidate and project IDs must be non-zero UUIDs");;
  fail_if ((TrimSpace (Name candidate) == "") || (MaxNameLength <? slen (Name candidate))%Z)
    (EText "candidate name must be non-empty and bounded");;
  wrap_err (fun _ => EText "candidate labels: %w")
    (Placement_Validate {| ProjectIDs := []; ClusterIDs := []; ClusterGroupIDs := [];
       MatchLabels := Labels candidate; MatchExpressions := []; ExcludeClusterIDs := [];
       AllClusters := false |});;
  groups ← canonicalUUIDSet (GroupIDs candidate);
  fail_if (MaxCapabilities <? Z.of_nat (size (Capabilities candidate)))%Z
    (EText "candidate capabilities exceed %d entries");;
  res_iter (fun name =>
    wrap_err (fun _ => EText "candidate capability name: %w")
      (CapabilityRequirement_Validate {| cap_Name := name; cap_Constraint := "" |});;
    let version := default "" (Capabilities candidate !! name) in
    fail_if ((version != "") && negb (semver_NewVersion version))
      (EText "candidate capability %s has invalid version"))
    (sortedStringMapKeys (Capabilities candidate));;
  fail_if match Compatibility candidate with
          | CompatibilityCompatible | CompatibilityIncompatible | CompatibilityUnknown => false
          | CompatibilityOther _ => true
          end (EText "candidate compatibility status is invalid");;
  fail_if ((CompatibilityReason candidate != "") && negb (SafeCode (CompatibilityReason candidate)))
    (EText "candidate compatibility reason must be a bounded machine code");;
  Ok (with_groups_caps candidate (setUUIDs groups) (Capabilities candidate)).

(** [left.Capabilities[name] = version], unless the two disagree. *)
Definition add_capability (caps : gmap string string) (nv : string * string) :
  res (gmap string string) :=
  fail_if (match caps !! nv.1 with Some old => old != nv.2 | None => false end)
    (EText "duplicate projections disagree on capability %s");;
  Ok (<[nv.1 := nv.2]> caps).

(** [mergeCandidates] *)
Definition mergeCandidates (left right : Candidate) : res Candidate :=
  fail_if (with_groups_caps left [] ∅ != with_groups_caps right [] ∅)
    (EText "duplicate projections disagree on cluster attributes");;
  capabilities ← res_foldl add_capability (Capabilities left)
    (map_to_list (Capabilities right));
  Ok (with_groups_caps left (unionUUIDs (GroupIDs left) (GroupIDs right)) capabilities).

(** One iteration of the loop of [canonicalCandidates] over the sorted input. *)
Definition add_candidate (byID : gmap uuid Candidate) (raw : Candidate) :
  res (gmap uuid Candidate) :=
  candidate ← wrap_err invalidInput (canonicalCandidate raw);
  match byID !! ID candidate with
  | Some existing =>
      merged ← wrap_err (EPlacement PCodeDuplicateClusterConflict (ID candidate))
                 (mergeCandidates existing candidate);
      Ok (<[ID candidate := merged]> byID)
  | None => Ok (<[ID candidate := candidate]> byID)
  end.

Definition id_less : Candidate -> Candidate -> bool :=
  by_key (fun c => uuid_String (ID c)) str_lt.

(** [canonicalCandidates] *)
Definition canonicalCandidates (input : list Candidate) : res (list Candidate) :=
  byID ← res_foldl add_candidate ∅ (sort_slice id_less input);
  Ok (sort_slice id_less (map_to_list byID).*2).

(** ** Matching *)

(** [matchesExpression] *)
Definition matchesExpression (expression : LabelExpression) (value : string) (exists_ : bool) :
  bool :=
  match expr_Operator expression with
  | OperatorIn => exists_ && bool_decide (value ∈ expr_Values expression)
  | OperatorNotIn => negb exists_ || negb (bool_decide (value ∈ expr_Values expression))
  | OperatorExists => exists_
  | OperatorDoesNotExist => negb exists_
  | OperatorOther _ => false
  end.

(** [matches] *)
Definition matches (selector : Model.Placement) (projectScope groupScope explicit : gset uuid)
    (candidate : Candidate) : bool * list MatchReason * list uuid :=
  let no := (false, [], []) in
  if negb (size projectScope =? 0)%nat && negb (bool_decide (ProjectID candidate ∈ projectScope))
  then no
  else if AllClusters selector then (true, [MatchAllClusters], [])
  else if bool_decide (ID candidate ∈ explicit) then (true, [MatchExplicitCluster], [])
  else if negb (negb (size groupScope =? 0)%nat || negb (size (MatchLabels selector) =? 0)%nat ||
                negb (len (MatchExpressions selector) =? 0)%Z) then no
  else
    let matchedGroups :=
      if (size groupScope =? 0)%nat then []
      else filter (fun g => g ∈ groupScope) (GroupIDs candidate) in
    if negb (size groupScope =? 0)%nat && (len matchedGroups =? 0)%Z then no
    else if negb (forallb (fun kv => bool_decide (Labels candidate !! kv.1 = Some kv.2))
                    (map_to_list (MatchLabels selector))) then no
    else if negb (forallb (fun e => let found := Labels candidate !! expr_Key e in
                             matchesExpression e (default "" found) (bool_decide (is_Some found)))
                    (MatchExpressions selector)) then no
    else (true,
          (if (size groupScope =? 0)%nat then [] else [MatchClusterGroup]) ++
          (if (size (MatchLabels selector) =? 0)%nat then [] else [MatchedLabels]) ++
          (if (len (MatchExpressions selector) =? 0)%Z then [] else [MatchedExpressions]),
          matchedGroups).

(** [missingCapabilities] *)
Definition missingCapability (actual : gmap string string) (requirement : CapabilityRequirement) :
  option string :=
  match actual !! cap_Name requirement with
  | None => Some (cap_Name requirement)
  | Some version =>
      if cap_Constraint requirement == "" then None
      else if negb (semver_NewVersion version) ||
              negb (semver_Check (cap_Constraint requirement) version)
      then Some (cap_Name requirement +:+ "@" +:+ cap_Constraint requirement)
      else None
  end.

Definition missingCapabilities (required : list CapabilityRequirement)
    (actual : gmap string string) : list string :=
  omap (missingCapability actual) required.

(** ** Evaluation *)

(** [SnapshotIdentity.validate] *)
Definition SnapshotIdentity_validate (i : SnapshotIdentity) : res unit :=
  fail_if (TargetGeneration i =? 0)%N (EText "target generation must be greater than zero");;
  fail_if (BundleVersionID i == uuid_Nil) (EText "bundle version ID must be a non-zero UUID");;
  wrap_err (fun _ => EText "bundle spec digest: %w") (Digest_Validate (BundleSpecDigest i));;
  wrap_err (fun _ => EText "resolved revision: %w") (ImmutableRevision_Validate (ResolvedRevision i)).

(** The sets [Evaluate] computes before its loop. *)
Record Scope := {
  selector : Model.Placement;
  capabilities : list CapabilityRequirement;
  allowedProjects : gset uuid;
  explicit : gset uuid;
  excluded : gset uuid;
  projectScope : gset uuid;
  groupScope : gset uuid;
}.

Definition bare_decision (id : uuid) (reason : DecisionReason) : Decision :=
  {| ClusterID := id; decision_ProjectID := uuid_Nil; ClusterName := ""; Reason := reason;
     MatchReasons := []; MatchedGroupIDs := []; MissingCapabilities := [];
     decision_CompatibilityReason := "" |}.

Definition decision_for (c : Candidate) (reason : DecisionReason) (reasons : list MatchReason)
    (groups : list uuid) (missing : list string) (compatibility : string) : Decision :=
  {| ClusterID := ID c; decision_ProjectID := ProjectID c; ClusterName := Name c;
     Reason := reason; MatchReasons := reasons; MatchedGroupIDs := groups;
     MissingCapabilities := missing; decision_CompatibilityReason := compatibility |}.

(** The body of the loop over candidates: the decision it appends, if any; the
    candidate is appended to [Selected] when the reason is [ReasonSelected]. *)
Definition decide_candidate (s : Scope) (c : Candidate) : option Decision :=
  if negb (bool_decide (ProjectID c ∈ allowedProjects s)) then
    if bool_decide (ID c ∈ explicit s) then Some (bare_decision (ID c) ReasonUnauthorized) else None
  else if bool_decide (ID c ∈ excluded s) then
    Some (decision_for c ReasonExcludedExplicitly [] [] [] "")
  else
    let '(matched, reasons, groups) :=
      matches (selector s) (projectScope s) (groupScope s) (explicit s) c in
    if negb matched then Some (decision_for c ReasonExcludedSelector reasons groups [] "")
    else if Decommissioning c then Some (decision_for c ReasonDecommissioning reasons groups [] "")
    else if negb (Connected c) then Some (decision_for c ReasonDisconnected reasons groups [] "")
    else if Compatibility c != CompatibilityCompatible then
      Some (decision_for c ReasonIncompatible reasons groups []
        (if CompatibilityReason c == "" then "compatibility_unknown" else CompatibilityReason c))
    else
      let missing := missingCapabilities (capabilities s) (Capabilities c) in
      if negb (len missing =? 0)%Z then
        Some (decision_for c ReasonMissingCapability reasons groups missing "")
      else Some (decision_for c ReasonSelected reasons groups [] "").

Record LoopState := {
  loop_Decisions : list Decision;
  loop_Selected : list Candidate;
  seenExplicit : gset uuid;
}.

Definition evaluate_step (s : Scope) (st : LoopState) (c : Candidate) : LoopState :=
  let d := decide_candidate s c in
  {| loop_Decisions := loop_Decisions st ++ option_list d;
     loop_Selected := loop_Selected st ++
       (if bool_decide (Reason <$> d = Some ReasonSelected) then [c] else []);
     seenExplicit :=
       if bool_decide (ID c ∈ explicit s) then {[ID c]} ∪ seenExplicit st else seenExplicit st |}.

Definition DecisionReason_string (r : DecisionReason) : string :=
  match r with
  | ReasonSelected => "selected" | ReasonExcludedSelector => "excluded_by_selector"
  | ReasonExcludedExplicitly => "excluded_explicitly" | ReasonUnauthorized => "unauthorized"
  | ReasonDisconnected => "disconnected" | ReasonIncompatible => "incompatible"
  | ReasonMissingCapability => "missing_capability" | ReasonDecommissioning => "decommissioning"
  end.

Definition MatchReason_string (r : MatchReason) : string :=
  match r with
  | MatchExplicitCluster => "explicit_cluster" | MatchAllClusters => "all_clusters"
  | MatchClusterGroup => "cluster_group" | MatchedLabels => "match_labels"
  | MatchedExpressions => "match_expressions"
  end.

#[export] Instance SnapshotIdentity_json : ToJSON SnapshotIdentity := fun i =>
  JObject (field "target_generation" (Z.of_N (TargetGeneration i)) ++
           field "bundle_version_id" (BundleVersionID i) ++
           field "bundle_spec_digest" (BundleSpecDigest i) ++
           field "resolved_revision" (ResolvedRevision i)).

(** [omitempty] has no effect on the array type of [project_id]. *)
#[export] Instance Decision_json : ToJSON Decision := fun d =>
  JObject (field "cluster_id" (ClusterID d) ++
           field "project_id" (decision_ProjectID d) ++
           field_omit "cluster_name" (ClusterName d == "") (ClusterName d) ++
           field "reason" (DecisionReason_string (Reason d)) ++
           field_omit "match_reasons" (len (MatchReasons d) =? 0)%Z
             (map MatchReason_string (MatchReasons d)) ++
           field_omit "matched_group_ids" (len (MatchedGroupIDs d) =? 0)%Z (MatchedGroupIDs d) ++
           field_omit "missing_capabilities" (len (MissingCapabilities d) =? 0)%Z
             (MissingCapabilities d) ++
           field_omit "compatibility_reason" (decision_CompatibilityReason d == "")
             (decision_CompatibilityReason d)).

(** A nil slice of decisions is encoded as null. *)
Record DigestInput := {
  input_Scope : Scope;
  input_Identity : SnapshotIdentity;
  input_Decisions : list Decision;
}.

#[export] Instance DigestInput_json : ToJSON DigestInput := fun i =>
  JObject (field "placement" (selector (input_Scope i)) ++
           field_omit "required_capabilities" (len (capabilities (input_Scope i)) =? 0)%Z
             (capabilities (input_Scope i)) ++
           field "identity" (input_Identity i) ++
           [("decisions", match input_Decisions i with [] => JNull | ds => to_json ds end)]).

(** The validation and set construction at the top of [Evaluate]. *)
Definition evaluate_scope (request : Request) : res Scope :=
  canonicalPlacement ← wrap_err invalidInput (Placement_Canonical (request_Placement request));
  caps ← wrap_err invalidInput (CapabilityRequirementsCanonical (RequiredCapabilities request));
  wrap_err invalidInput (SnapshotIdentity_validate (request_Identity request));;
  allowed ← wrap_err invalidInput (canonicalUUIDSet (AllowedProjectIDs request));
  Ok {| selector := canonicalPlacement; capabilities := caps; allowedProjects := allowed;
        explicit := idSet (ClusterIDs canonicalPlacement);
        excluded := idSet (ExcludeClusterIDs canonicalPlacement);
        projectScope := idSet (ProjectIDs canonicalPlacement);
        groupScope := idSet (ClusterGroupIDs canonicalPlacement) |}.

Definition decision_less : Decision -> Decision -> bool :=
  by_key (fun d => uuid_String (ClusterID d)) str_lt.

(** The decisions of the loop, then one for every explicit identifier that no
    candidate carried, sorted by identifier. *)
Definition evaluate_decisions (s : Scope) (st : LoopState) : list Decision :=
  sort_slice decision_less
    (loop_Decisions st ++
     map (fun id => bare_decision id ReasonUnauthorized)
       (elements (explicit s ∖ seenExplicit st))).

(** [Evaluate] *)
Definition Evaluate (request : Request) : res Result :=
  s ← evaluate_scope request;
  candidates ← canonicalCandidates (Candidates request);
  let st := foldl (evaluate_step s)
    {| loop_Decisions := []; loop_Selected := []; seenExplicit := ∅ |} candidates in
  let decisions := evaluate_decisions s st in
  digest ← wrap_err (fun _ => EText "digest placement preview: %w")
    (CanonicalDigest {| input_Scope := s; input_Identity := request_Identity request;
                        input_Decisions := decisions |});
  Ok {| Decisions := decisions;
        Selected := loop_Selected st;
        SelectedCount := len (loop_Selected st);
        ExcludedCount := len decisions - len (loop_Selected st);
        RequiresAllConfirmation := AllClusters (selector s);
        PreviewDigest := digest |}.

(** [Result.ValidateLaunch] *)
Definition ValidateLaunch (r : Result) (expected : Digest) (confirmAllClusters : bool) : res unit :=
  wrap_err (fun e => invalidInput (EText "expected preview digest: %w")) (Digest_Validate expected);;
  fail_if (PreviewDigest r != expected)
    (EPlacement PCodePreviewStale uuid_Nil (EText "placement preview no longer matches"));;
  fail_if (RequiresAllConfirmation r && negb confirmAllClusters)
    (EPlacement PCodeAllConfirmationRequired uuid_Nil
       (EText "all-clusters placement requires explicit confirmation")).
End evaluate.
End Placement.
