(* ===== verification/PlacementFacts.v ===== *)
(** * Cluster selection: correctness

    The decisions of [Evaluate] against a declarative selection predicate, the
    independence of its result from the order of its inputs, and the
    non-disclosure of clusters outside the caller's projects. *)

From Stdlib Require Import ZArith Lia Ascii.
From S2P Require Import Prelude GoSort GoStrings External Validation Model Types Placement.
From stdpp Require Import base gmap strings list sorting.
Import Model Types Placement.

Module PlacementFacts.

Lemma canonicalUUIDSet_spec l s :
  canonicalUUIDSet l = Ok s ->
  s = idSet l /\ NoDup l /\ Forall (fun u => u <> uuid_Nil) l.
Proof.
  unfold canonicalUUIDSet. intros Hs. res_inv. revert Hs.
  enough (Hgen : forall acc, res_foldl add_uuid acc l = Ok s ->
    s = list_to_set l ∪ acc /\ NoDup l /\ Forall (fun u => u <> uuid_Nil) l /\
    Forall (fun u => u ∉ acc) l).
  { intros Hs. apply Hgen in Hs as (-> & ? & ? & _). split_and!; try done. unfold idSet. set_solver. }
  clear. induction l as [|u l IH]; intros acc Hs; cbn [res_foldl] in Hs.
  { res_inv. split_and!; try constructor. set_solver. }
  res_inv. apply IH in Hs as (-> & Hnd & Hnz & Hnin).
  unfold add_uuid in *. res_inv. bool_props.
  rewrite Forall_forall in Hnin. split_and!.
  - rewrite list_to_set_cons. set_solver.
  - constructor; [|done]. intros Hu. apply (Hnin u Hu). set_solver.
  - by constructor.
  - constructor; [done|]. apply Forall_forall. intros v Hv. specialize (Hnin v Hv). set_solver.
Qed.

(** ** The selection predicate *)

Definition expr_holds (labels : gmap string string) (e : LabelExpression) : Prop :=
  match expr_Operator e with
  | OperatorIn => exists v, labels !! expr_Key e = Some v /\ v ∈ expr_Values e
  | OperatorNotIn => forall v, labels !! expr_Key e = Some v -> v ∉ expr_Values e
  | OperatorExists => is_Some (labels !! expr_Key e)
  | OperatorDoesNotExist => labels !! expr_Key e = None
  | OperatorOther _ => False
  end.

(** The group and label predicates, all of which must hold and at least one of
    which must be present. *)
Definition predicates_hold (p : Model.Placement) (c : Candidate) : Prop :=
  ~ (ClusterGroupIDs p = [] /\ MatchLabels p = ∅ /\ MatchExpressions p = []) /\
  (ClusterGroupIDs p = [] \/ exists g, g ∈ GroupIDs c /\ g ∈ ClusterGroupIDs p) /\
  MatchLabels p ⊆ Labels c /\ Forall (expr_holds (Labels c)) (MatchExpressions p).

Definition selects (p : Model.Placement) (c : Candidate) : Prop :=
  (ProjectIDs p = [] \/ ProjectID c ∈ ProjectIDs p) /\
  (AllClusters p = true \/ ID c ∈ ClusterIDs p \/ predicates_hold p c).

Lemma idSet_size l : (size (idSet l) =? 0)%nat = true <-> l = [].
Proof.
  rewrite Nat.eqb_eq, size_empty_iff. unfold idSet. split; [|by intros ->].
  destruct l as [|u l]; [done|]. intros E. exfalso.
  assert (Hu : u ∈ (list_to_set (u :: l) : gset uuid)) by set_solver. rewrite E in Hu. set_solver.
Qed.

Lemma idSet_elem u l : u ∈ idSet l <-> u ∈ l.
Proof. unfold idSet. apply elem_of_list_to_set. Qed.

Lemma matchesExpression_spec e labels :
  matchesExpression e (default "" (labels !! expr_Key e))
    (bool_decide (is_Some (labels !! expr_Key e))) = true <-> expr_holds labels e.
Proof.
  unfold matchesExpression, expr_holds.
  destruct (expr_Operator e), (labels !! expr_Key e) as [v|] eqn:El; cbn;
    rewrite ?orb_true_iff, ?andb_true_iff, ?negb_true_iff, ?bool_decide_eq_true, ?bool_decide_eq_false.
  all: try (split; intros Hx; naive_solver).
  all: try (rewrite bool_decide_true by eauto; naive_solver).
  all: rewrite bool_decide_false by (intros [? ?]; done); naive_solver.
Qed.

Lemma labels_subset p c :
  forallb (fun kv => bool_decide (Labels c !! kv.1 = Some kv.2)) (map_to_list (MatchLabels p)) = true
  <-> MatchLabels p ⊆ Labels c.
Proof.
  rewrite forallb_True, Forall_forall || rewrite forallb_forall.
  rewrite map_subseteq_spec. split.
  - intros Hall k v Hkv. specialize (Hall (k, v)). rewrite bool_decide_eq_true in Hall.
    apply Hall. by apply list_elem_of_In, elem_of_map_to_list.
  - intros Hsub [k v] Hkv%list_elem_of_In%elem_of_map_to_list. rewrite bool_decide_eq_true.
    by apply Hsub.
Qed.

Lemma expressions_hold p c :
  forallb (fun e => let found := Labels c !! expr_Key e in
             matchesExpression e (default "" found) (bool_decide (is_Some found)))
    (MatchExpressions p) = true <-> Forall (expr_holds (Labels c)) (MatchExpressions p).
Proof.
  rewrite forallb_forall, Forall_forall. setoid_rewrite list_elem_of_In.
  setoid_rewrite matchesExpression_spec. done.
Qed.

Lemma matched_groups_nil gs c :
  (len (filter (fun g => g ∈ idSet gs) (GroupIDs c)) =? 0)%Z = false <->
  exists g, g ∈ GroupIDs c /\ g ∈ gs.
Proof.
  rewrite Z.eqb_neq, len_nil_iff. split.
  - destruct (filter _ _) as [|g l] eqn:Ef; [done|]. intros _. exists g.
    assert (Hg : g ∈ filter (fun g => g ∈ idSet gs) (GroupIDs c)) by (rewrite Ef; left).
    apply list_elem_of_filter in Hg as [Hg ?]. by rewrite idSet_elem in Hg.
  - intros (g & Hg & Hgs) Ef. assert (Hin : g ∈ filter (fun g => g ∈ idSet gs) (GroupIDs c)).
    { apply list_elem_of_filter. by rewrite idSet_elem. }
    rewrite Ef in Hin. by apply elem_of_nil in Hin.
Qed.

Lemma matches_spec p c :
  fst (fst (matches p (idSet (ProjectIDs p)) (idSet (ClusterGroupIDs p)) (idSet (ClusterIDs p)) c))
    = true <-> selects p c.
Proof.
  unfold matches, selects, predicates_hold.
  assert (Hp : negb (size (idSet (ProjectIDs p)) =? 0)%nat &&
    negb (bool_decide (ProjectID c ∈ idSet (ProjectIDs p))) = false <->
    ProjectIDs p = [] \/ ProjectID c ∈ ProjectIDs p).
  { rewrite andb_false_iff, !negb_false_iff, idSet_size, bool_decide_eq_true, idSet_elem. done. }
  destruct (negb _ && _) eqn:Ep; [cbn; intuition congruence|].
  clear Ep. apply proj1 in Hp. specialize (Hp eq_refl).
  destruct (AllClusters p); [cbn; intuition congruence|].
  case_bool_decide as Hid; rewrite idSet_elem in Hid; [cbn; intuition congruence|].
  assert (Hc : negb (negb (size (idSet (ClusterGroupIDs p)) =? 0)%nat ||
      negb (size (MatchLabels p) =? 0)%nat || negb (len (MatchExpressions p) =? 0)%Z) = true <->
    ClusterGroupIDs p = [] /\ MatchLabels p = ∅ /\ MatchExpressions p = []).
  { rewrite !negb_orb, !negb_involutive, !andb_true_iff, idSet_size, Nat.eqb_eq,
      map_size_empty_iff, Z.eqb_eq, len_nil_iff. tauto. }
  destruct (negb (_ || _)) eqn:Econf; [apply proj1 in Hc; specialize (Hc eq_refl); cbn; intuition congruence|].
  apply proj2 in Hc. assert (Hc' : ~ (ClusterGroupIDs p = [] /\ MatchLabels p = ∅ /\
    MatchExpressions p = [])) by (intros Hx; by apply Hc in Hx). clear Hc Econf.
  rewrite <- labels_subset, <- expressions_hold.
  destruct (size (idSet (ClusterGroupIDs p)) =? 0)%nat eqn:Eg; cbn [negb andb].
  - apply idSet_size in Eg. destruct (forallb _ (map_to_list _)); cbn; [|naive_solver].
    destruct (forallb _ (MatchExpressions p)); cbn; intuition congruence.
  - apply not_true_iff_false in Eg. rewrite idSet_size in Eg. rewrite <- matched_groups_nil.
    destruct (len (filter _ _) =? 0)%Z; cbn; [intuition congruence|].
    destruct (forallb _ (map_to_list _)); cbn; [|naive_solver].
    destruct (forallb _ (MatchExpressions p)); cbn; intuition congruence.
Qed.

Lemma perm_nil_iff {A} (l k : list A) : l ≡ₚ k -> l = [] <-> k = [].
Proof.
  intros Hp. split; intros ->; [by apply Permutation_nil_l in Hp | by apply Permutation_nil_r in Hp].
Qed.

Lemma expr_holds_equiv labels e f : expr_equiv e f -> expr_holds labels e -> expr_holds labels f.
Proof.
  intros (Hk & Ho & Hv). unfold expr_holds. rewrite <- Hk, <- Ho.
  destruct (expr_Operator e); try done.
  - intros (v & ? & ?). exists v. by rewrite <- Hv.
  - intros Hall v Hl. rewrite <- Hv. by apply Hall.
Qed.

Lemma selects_equiv p q c : placement_equiv p q -> selects p c -> selects q c.
Proof.
  intros (Hp & Hc & Hg & Hl & (es & Hes & Hfs) & Hx & Ha). unfold selects, predicates_hold.
  rewrite (perm_nil_iff _ _ Hp), (perm_nil_iff _ _ Hg), (perm_nil_iff _ _ Hes), Ha, Hl, Hp, Hc, Hes.
  setoid_rewrite Hg.
  assert (He : es = [] <-> MatchExpressions q = []).
  { split; intros E; rewrite E in Hfs; by inversion Hfs. }
  rewrite He. intros [? [?|[?|(? & ? & ? & Hall)]]]; [tauto|tauto|].
  split; [done|]. right. right. split_and!; try done.
  clear -Hall Hfs. induction Hfs as [|e f es' fs He _ IH]; [constructor|].
  apply Forall_cons_iff in Hall as [? ?]. constructor; [by eapply expr_holds_equiv | auto].
Qed.

Lemma placement_equiv_sym p q : placement_equiv p q -> placement_equiv q p.
Proof.
  intros (Hp & Hc & Hg & Hl & (es & Hes & Hfs) & Hx & Ha). split_and!; try done.
  destruct (Permutation_Forall2 (Permutation_sym Hes) Hfs) as (fs & Hfs' & Hall).
  exists fs. split; [done|]. apply Forall2_flip in Hall. eapply Forall2_impl; [done|].
  intros e f (? & ? & ?). split_and!; done.
Qed.

Section facts.
Context `{External} `{!ExternalLaws}.
Set Default Proof Using "Type*".

(** ** Canonical candidates *)

Lemma canonicalCandidate_spec c d :
  canonicalCandidate c = Ok d -> d = with_groups_caps c (sortedUUIDs (GroupIDs c)) (Capabilities c).
Proof.
  unfold canonicalCandidate. intros Hd. res_inv.
  match goal with Hg : canonicalUUIDSet _ = Ok _ |- _ =>
    apply canonicalUUIDSet_spec in Hg as (-> & Hnd & _) end.
  f_equal. unfold setUUIDs, idSet. apply sortedUUIDs_perm.
  by rewrite elements_list_to_set.
Qed.

Lemma canonicalCandidate_ID c d : canonicalCandidate c = Ok d -> ID d = ID c /\ ProjectID d = ProjectID c.
Proof. by intros ->%canonicalCandidate_spec. Qed.

(** The map keeps every candidate under its own identifier. *)
Definition keyed (byID : gmap uuid Candidate) : Prop := map_Forall (fun k c => ID c = k) byID.

Lemma mergeCandidates_attrs l r m :
  mergeCandidates l r = Ok m ->
  with_groups_caps l [] ∅ = with_groups_caps r [] ∅ /\
  with_groups_caps m [] ∅ = with_groups_caps l [] ∅ /\
  GroupIDs m = unionUUIDs (GroupIDs l) (GroupIDs r).
Proof. unfold mergeCandidates. intros Hm. res_inv. bool_props. done. Qed.

Lemma attrs_ID c d :
  with_groups_caps c [] ∅ = with_groups_caps d [] ∅ -> ID c = ID d /\ ProjectID c = ProjectID d.
Proof. destruct c, d. unfold with_groups_caps. cbn. intros [=]. done. Qed.

(** A step puts a candidate with the identifier and project of [raw]. *)
Lemma add_candidate_inv byID raw byID' :
  add_candidate byID raw = Ok byID' ->
  exists c, byID' = <[ID raw := c]> byID /\ ID c = ID raw /\ ProjectID c = ProjectID raw /\
    (forall e, byID !! ID raw = Some e -> ID e = ID raw /\ ProjectID e = ProjectID raw).
Proof.
  unfold add_candidate. intros Hs. res_inv.
  match goal with Hc : canonicalCandidate _ = Ok ?x |- _ =>
    rename x into d; apply canonicalCandidate_ID in Hc as [Hi Hp] end.
  rewrite Hi in Hs. destruct (byID !! ID raw) as [e|] eqn:Ee; res_inv.
  - match goal with Hm : mergeCandidates _ _ = Ok ?x |- _ =>
      rename x into m; apply mergeCandidates_attrs in Hm as (H1 & H2 & _) end.
    apply attrs_ID in H1 as [? ?]. apply attrs_ID in H2 as [? ?].
    exists m. split_and!; try congruence. intros e' [= <-]. split; congruence.
  - exists d. split_and!; try congruence.
Qed.

Lemma fold_keyed l byID byID' :
  keyed byID -> res_foldl add_candidate byID l = Ok byID' -> keyed byID'.
Proof.
  intros Hk. apply (res_foldl_inv add_candidate keyed); [|done].
  intros s x s' _ Hs (c & -> & Hc & _)%add_candidate_inv. by apply map_Forall_insert_2.
Qed.

Lemma keyed_NoDup byID : keyed byID -> NoDup (ID <$> (map_to_list byID).*2).
Proof.
  intros Hk. rewrite <- list_fmap_compose.
  replace (compose ID snd <$> map_to_list byID) with ((map_to_list byID).*1).
  { apply NoDup_fst_map_to_list. }
  apply list_fmap_ext. intros i [k c] Hl. cbn. symmetry. apply Hk.
  apply elem_of_map_to_list. by eapply list_elem_of_lookup_2.
Qed.

Lemma canonicalCandidates_NoDup l cs :
  canonicalCandidates l = Ok cs -> NoDup (ID <$> cs).
Proof.
  unfold canonicalCandidates. intros Hc. res_inv.
  unfold id_less. rewrite sort_slice_Permutation. apply keyed_NoDup.
  eapply fold_keyed; [|done]. apply map_Forall_empty.
Qed.

(** ** Eligibility *)

Definition provides (caps : gmap string string) (r : CapabilityRequirement) : Prop :=
  exists v, caps !! cap_Name r = Some v /\
    (cap_Constraint r = "" \/ (semver_NewVersion v = true /\ semver_Check (cap_Constraint r) v = true)).

Definition eligible (r : Request) (c : Candidate) : Prop :=
  ProjectID c ∈ AllowedProjectIDs r /\ (ID c ∉ ExcludeClusterIDs (request_Placement r)) /\
  selects (request_Placement r) c /\ Decommissioning c = false /\ Connected c = true /\
  Compatibility c = CompatibilityCompatible /\
  Forall (provides (Capabilities c)) (RequiredCapabilities r).

Lemma missingCapability_None caps r : missingCapability caps r = None <-> provides caps r.
Proof.
  unfold missingCapability, provides. destruct (caps !! cap_Name r) as [v|].
  - case_bool_decide; [split; eauto|].
    destruct (semver_NewVersion v) eqn:Ev, (semver_Check (cap_Constraint r) v) eqn:Ec; cbn;
      (split; [try done; eauto 7 | intros (w & [= <-] & [?|[? ?]]); congruence]).
  - split; [done|]. by intros (v & ? & _).
Qed.

Lemma missing_nil caps required :
  missingCapabilities required caps = [] <-> Forall (provides caps) required.
Proof.
  unfold missingCapabilities. induction required as [|r l IH]; cbn.
  { split; [constructor|done]. }
  rewrite Forall_cons_iff, <- IH, <- missingCapability_None.
  destruct (missingCapability caps r); cbn; intuition congruence.
Qed.

(** ** The loop *)

Lemma evaluate_loop s cs st :
  let st' := foldl (evaluate_step s) st cs in
  loop_Decisions st' = loop_Decisions st ++ omap (decide_candidate s) cs /\
  loop_Selected st' = loop_Selected st ++
    filter (fun c => Reason <$> decide_candidate s c = Some ReasonSelected) cs /\
  seenExplicit st' = seenExplicit st ∪ (explicit s ∩ list_to_set (ID <$> cs)).
Proof.
  cbn zeta. revert st. induction cs as [|c cs IH]; intros st; cbn [foldl].
  { cbn. rewrite !app_nil_r. split_and!; try done. set_solver. }
  destruct (IH (evaluate_step s st c)) as (-> & -> & ->). cbn [evaluate_step loop_Decisions
    loop_Selected seenExplicit]. split_and!.
  - rewrite <- app_assoc. f_equal. cbn. by destruct (decide_candidate s c).
  - rewrite <- app_assoc. f_equal. rewrite filter_cons. by case_bool_decide; case_decide.
  - rewrite fmap_cons, list_to_set_cons. case_bool_decide; set_solver.
Qed.

Lemma decide_candidate_ID s c d : decide_candidate s c = Some d -> ClusterID d = ID c.
Proof.
  unfold decide_candidate. repeat case_match; intros; simplify_eq/=; done.
Qed.

(** Every candidate in an allowed project gets a decision. *)
Lemma decide_candidate_None s c :
  decide_candidate s c = None <-> (ProjectID c ∉ allowedProjects s) /\ ID c ∉ explicit s.
Proof.
  unfold decide_candidate. repeat case_match; bool_props; naive_solver.
Qed.

Lemma decide_selected s c :
  Reason <$> decide_candidate s c = Some ReasonSelected <->
  ProjectID c ∈ allowedProjects s /\ (ID c ∉ excluded s) /\
  fst (fst (matches (selector s) (projectScope s) (groupScope s) (explicit s) c)) = true /\
  Decommissioning c = false /\ Connected c = true /\ Compatibility c = CompatibilityCompatible /\
  Forall (provides (Capabilities c)) (capabilities s).
Proof.
  rewrite <- missing_nil, <- len_nil_iff. unfold decide_candidate.
  destruct (matches _ _ _ _ c) as [[m rs] gs]. cbn [fst].
  repeat case_match; bool_props; cbn; intuition congruence.
Qed.

Lemma evaluate_scope_spec r s :
  evaluate_scope r = Ok s ->
  placement_equiv (request_Placement r) (selector s) /\
  Placement_Canonical (request_Placement r) = Ok (selector s) /\
  CapabilityRequirementsCanonical (RequiredCapabilities r) = Ok (capabilities s) /\
  allowedProjects s = idSet (AllowedProjectIDs r) /\
  explicit s = idSet (ClusterIDs (selector s)) /\
  excluded s = idSet (ExcludeClusterIDs (selector s)) /\
  projectScope s = idSet (ProjectIDs (selector s)) /\
  groupScope s = idSet (ClusterGroupIDs (selector s)).
Proof.
  unfold evaluate_scope. intros Hs. res_inv. cbn.
  match goal with Hc : canonicalUUIDSet _ = _ |- _ =>
    apply canonicalUUIDSet_spec in Hc as (-> & _) end.
  split_and!; try done. by apply Placement_Canonical_same.
Qed.

Lemma eligible_scope r s c :
  evaluate_scope r = Ok s ->
  Reason <$> decide_candidate s c = Some ReasonSelected <-> eligible r c.
Proof.
  intros (He & _ & Hcap & Ha & Hex & Hxx & Hp & Hg)%evaluate_scope_spec.
  rewrite decide_selected, Ha, Hex, Hxx, Hp, Hg, matches_spec, !idSet_elem.
  apply CapabilityRequirementsCanonical_same in Hcap. rewrite Hcap. unfold eligible.
  assert (Hx : ExcludeClusterIDs (request_Placement r) ≡ₚ ExcludeClusterIDs (selector s)) by apply He.
  rewrite Hx.
  assert (selects (selector s) c <-> selects (request_Placement r) c) as ->; [|tauto].
  split; apply selects_equiv; [by apply placement_equiv_sym | done].
Qed.

(** ** The result *)

Definition initial_loop : LoopState :=
  {| loop_Decisions := []; loop_Selected := []; seenExplicit := ∅ |}.

(** What a successful evaluation returns, as a function of the scope and the
    canonical candidates. *)
Definition unseen_explicit (s : Placement.Scope) (cs : list Candidate) : list uuid :=
  elements (explicit s ∖ (explicit s ∩ list_to_set (ID <$> cs))).

Definition raw_decisions (s : Placement.Scope) (cs : list Candidate) : list Decision :=
  omap (decide_candidate s) cs ++
  map (fun id => bare_decision id ReasonUnauthorized) (unseen_explicit s cs).

Definition selected_of (s : Placement.Scope) (cs : list Candidate) : list Candidate :=
  filter (fun c => Reason <$> decide_candidate s c = Some ReasonSelected) cs.

Lemma Evaluate_inv r result :
  Evaluate r = Ok result ->
  exists s cs, evaluate_scope r = Ok s /\ canonicalCandidates (Candidates r) = Ok cs /\
    Decisions result = sort_slice decision_less (raw_decisions s cs) /\
    Selected result = selected_of s cs /\
    SelectedCount result = len (Selected result) /\
    ExcludedCount result = (len (Decisions result) - len (Selected result))%Z /\
    RequiresAllConfirmation result = AllClusters (selector s) /\
    CanonicalDigest {| input_Scope := s; input_Identity := request_Identity r;
      input_Decisions := Decisions result |} = Ok (PreviewDigest result).
Proof.
  unfold Evaluate. intros He. res_inv. cbn.
  match goal with Hs : evaluate_scope _ = Ok ?s', Hc : canonicalCandidates _ = Ok ?cs' |- _ =>
    exists s', cs'; destruct (evaluate_loop s' cs' initial_loop) as (Hd & Hsel & Hseen) end.
  unfold initial_loop in *. cbn [loop_Decisions loop_Selected seenExplicit app] in *.
  unfold evaluate_decisions, raw_decisions, unseen_explicit, selected_of in *.
  rewrite Hd, Hsel, Hseen, (left_id_L ∅ (∪)) in *. split_and!; done.
Qed.

Lemma omap_decide_IDs s cs : ClusterID <$> omap (decide_candidate s) cs `sublist_of` ID <$> cs.
Proof.
  induction cs as [|c cs IH]; cbn; [constructor|].
  destruct (decide_candidate s c) as [d|] eqn:Ed; cbn.
  - rewrite (decide_candidate_ID _ _ _ Ed). by constructor.
  - by constructor.
Qed.

Lemma raw_decisions_NoDup s cs :
  NoDup (ID <$> cs) -> NoDup (ClusterID <$> raw_decisions s cs).
Proof.
  intros Hnd. unfold raw_decisions. rewrite fmap_app. apply NoDup_app. split_and!.
  - eapply sublist_NoDup; [done | apply omap_decide_IDs].
  - intros u Hu Hu'.
    assert (Hin : u ∈ ID <$> cs) by (eapply elem_of_sublist; [exact Hu | apply omap_decide_IDs]).
    apply list_elem_of_fmap in Hu' as (d & -> & Hd). apply list_elem_of_fmap in Hd as (x & -> & Hx).
    cbn in Hin. unfold unseen_explicit in Hx. apply elem_of_elements in Hx. set_solver.
  - rewrite <- list_fmap_compose. rewrite (list_fmap_ext _ id).
    + rewrite list_fmap_id. apply NoDup_elements.
    + done.
Qed.

Lemma explicit_decided s cs u :
  u ∈ explicit s -> u ∈ ClusterID <$> raw_decisions s cs.
Proof.
  intros Hu. unfold raw_decisions. rewrite fmap_app, elem_of_app.
  destruct (decide (u ∈ ID <$> cs)) as [Hin|Hin].
  - left. apply list_elem_of_fmap in Hin as (c & -> & Hc).
    destruct (decide_candidate s c) as [d|] eqn:Ed.
    + apply list_elem_of_fmap. exists d. split; [by rewrite (decide_candidate_ID _ _ _ Ed)|].
      apply list_elem_of_omap. eauto.
    + apply decide_candidate_None in Ed as [_ Hex]. done.
  - right. apply list_elem_of_fmap. exists (bare_decision u ReasonUnauthorized). split; [done|].
    apply list_elem_of_fmap. exists u. split; [done|]. unfold unseen_explicit.
    apply elem_of_elements. set_solver.
Qed.

Lemma decisions_keys_NoDup (ds : list Decision) :
  NoDup (ClusterID <$> ds) -> NoDup ((fun d => uuid_String (ClusterID d)) <$> ds).
Proof.
  intros Hnd. change (fun d => uuid_String (ClusterID d)) with (compose uuid_String ClusterID).
  rewrite list_fmap_compose.
  apply NoDup_fmap_2; [|done]. intros x y. apply uuid_String_inj.
Qed.

Lemma selected_decisions s cs :
  ClusterID <$> filter (fun d => Reason d = ReasonSelected) (raw_decisions s cs)
  = ID <$> selected_of s cs.
Proof.
  unfold raw_decisions, selected_of. rewrite filter_app, fmap_app.
  assert (filter (fun d => Reason d = ReasonSelected)
    (map (fun id => bare_decision id ReasonUnauthorized) (unseen_explicit s cs)) = []) as ->.
  { induction (unseen_explicit s cs); [done|]. cbn. rewrite decide_False by done. done. }
  rewrite app_nil_r. induction cs as [|c cs IH]; [done|]. cbn [omap list_omap].
  rewrite filter_cons. destruct (decide_candidate s c) as [d|] eqn:Ed; cbn [fmap option_fmap option_map].
  - rewrite filter_cons. destruct (decide (Reason d = ReasonSelected)) as [Hr|Hr].
    + rewrite decide_True by (by f_equal). rewrite !fmap_cons, IH. f_equal.
      by eapply decide_candidate_ID.
    + rewrite decide_False by congruence. apply IH.
  - rewrite decide_False by done. apply IH.
Qed.

Lemma canonicalCandidates_sorted l cs :
  canonicalCandidates l = Ok cs ->
  StronglySorted (key_le (fun c => uuid_String (ID c)) str_lt) cs.
Proof. unfold canonicalCandidates. intros Hc. res_inv. apply sort_slice_sorted, _. Qed.

Lemma sorted_ids_unique (l k : list uuid) :
  StronglySorted (key_le uuid_String str_lt) l -> l ≡ₚ k -> l = sortedUUIDs k.
Proof.
  intros Hs Hp. apply sort_slice_any; [apply _| |done|done].
  intros x y _ _. apply uuid_String_inj.
Qed.

Lemma selected_sorted l s cs :
  canonicalCandidates l = Ok cs -> StronglySorted (key_le uuid_String str_lt) (ID <$> selected_of s cs).
Proof.
  intros Hs%canonicalCandidates_sorted. unfold selected_of.
  eapply StronglySorted_fmap; [|by apply StronglySorted_filter]. done.
Qed.

Lemma filter_not_length {A} (P : A -> Prop) `{forall x, base.Decision (P x)} (l : list A) :
  (len (filter P l) + len (filter (fun x => ~ P x) l) = len l)%Z.
Proof.
  unfold len. induction l as [|x l IH]; [done|]. rewrite !filter_cons.
  destruct (decide (P x)); [rewrite decide_False by tauto | rewrite decide_True by done]; cbn; lia.
Qed.

(** The decisions of [Evaluate] are strictly ordered by cluster identifier,
    so that every cluster has at most one; the clusters returned as selected
    are, in order, those whose decision says so, the two counts count the
    selected and the other decisions, and every cluster the placement names
    explicitly has a decision. *)
Theorem Evaluate_decisions_sound r result :
  Evaluate r = Ok result ->
  StronglySorted (fun a b => str_lt (uuid_String (ClusterID a)) (uuid_String (ClusterID b)) = true)
    (Decisions result) /\
  ClusterID <$> filter (fun d => Reason d = ReasonSelected) (Decisions result) =
    ID <$> Selected result /\
  SelectedCount result = len (filter (fun d => Reason d = ReasonSelected) (Decisions result)) /\
  ExcludedCount result = len (filter (fun d => Reason d <> ReasonSelected) (Decisions result)) /\
  Forall (fun u => u ∈ ClusterID <$> Decisions result) (ClusterIDs (request_Placement r)).
Proof.
  intros (s & cs & Hs & Hcs & Hd & Hsel & Hn & Hx & _)%Evaluate_inv.
  pose proof (raw_decisions_NoDup s cs (canonicalCandidates_NoDup _ _ Hcs)) as Hnd.
  assert (Heq : ClusterID <$> filter (fun d => Reason d = ReasonSelected) (Decisions result) =
    ID <$> Selected result).
  { rewrite Hd, Hsel. unfold decision_less. rewrite <- (sort_slice_filter _ str_lt).
    etransitivity; [exact (sort_slice_fmap ClusterID (by_key uuid_String str_lt) _)|].
    rewrite selected_decisions.
    symmetry. apply sorted_ids_unique; [by eapply selected_sorted | done]. }
  assert (Hlen : len (filter (fun d => Reason d = ReasonSelected) (Decisions result)) =
    len (Selected result)).
  { unfold len. by rewrite <- (length_fmap ClusterID), Heq, length_fmap. }
  split_and!; try done.
  - rewrite Hd. apply sort_slice_strict; [apply _|]. by apply decisions_keys_NoDup.
  - by rewrite Hn.
  - rewrite Hx, <- Hlen.
    pose proof (filter_not_length (fun d => Reason d = ReasonSelected) (Decisions result)) as E.
    cbn beta in E. lia.
  - apply Forall_forall. intros u Hu. rewrite Hd. unfold decision_less. rewrite sort_slice_Permutation.
    apply explicit_decided.
    apply evaluate_scope_spec in Hs as (He & _ & _ & _ & -> & _). apply idSet_elem.
    by rewrite <- (proj1 (proj2 He)).
Qed.

(** C26: [Evaluate] selects exactly the eligible clusters: those of the canonical
    batch that belong to a project of the caller, are not excluded, are matched
    by the placement's own selectors, are connected, compatible and not being
    decommissioned, and provide every required capability. *)
Theorem Evaluate_selected_iff r result cs :
  Evaluate r = Ok result -> canonicalCandidates (Candidates r) = Ok cs ->
  forall c, c ∈ Selected result <-> c ∈ cs /\ eligible r c.
Proof.
  intros (s & cs' & Hs & Hcs & _ & Hsel & _)%Evaluate_inv Hcs' c.
  rewrite Hcs in Hcs'. injection Hcs' as <-.
  rewrite Hsel. unfold selected_of. rewrite list_elem_of_filter, (eligible_scope r s c Hs). tauto.
Qed.
End facts.

(** ** A concrete request *)

Definition example_digest : Digest := @DigestBytes Concrete.external "spec".

Definition example_identity : SnapshotIdentity :=
  {| TargetGeneration := 3; BundleVersionID := UUID "version"; BundleSpecDigest := example_digest;
     ResolvedRevision := {| revision_Kind := RevisionGitCommit;
       revision_Value := repeat_ascii 40 "a"%char; revision_ArtifactDigest := example_digest |} |}.

Definition example_candidate (id project tier : string) : Candidate :=
  {| ID := UUID id; ProjectID := UUID project; Name := id; Labels := {["tier" := tier]};
     GroupIDs := [UUID "g1"]; Capabilities := {["flux" := "2"]}; Connected := true;
     Compatibility := CompatibilityCompatible; CompatibilityReason := "";
     Decommissioning := false |}.

Definition example_request (candidates : list Candidate) : Request :=
  {| request_Placement := {| ProjectIDs := []; ClusterIDs := [UUID "x"]; ClusterGroupIDs := [];
       MatchLabels := {["tier" := "web"]}; MatchExpressions := []; ExcludeClusterIDs := [];
       AllClusters := false |};
     AllowedProjectIDs := [UUID "p1"]; Candidates := candidates;
     RequiredCapabilities := [{| cap_Name := "flux"; cap_Constraint := "2" |}];
     request_Identity := example_identity |}.

Definition example_candidates : list Candidate :=
  [example_candidate "b" "p1" "web"; example_candidate "a" "p1" "web";
   example_candidate "c" "p1" "db"; example_candidate "x" "p2" "web"].

Lemma example_evaluates :
  is_ok (@Evaluate Concrete.external (example_request example_candidates)) = true.
Proof. vm_compute. reflexivity. Qed.

Lemma Evaluate_decisions_sound_witness :
  exists result, @Evaluate Concrete.external (example_request example_candidates) = Ok result /\
    ClusterID <$> filter (fun d => Reason d = ReasonSelected) (Decisions result) =
      ID <$> Selected result.
Proof.
  destruct (is_ok_Ok _ example_evaluates) as [result E]. exists result. split; [exact E|].
  exact (proj1 (proj2 (@Evaluate_decisions_sound Concrete.external Concrete.external_laws
    (example_request example_candidates) result E))).
Defined.

Lemma example_canonical :
  is_ok (@canonicalCandidates Concrete.external
           (Candidates (example_request example_candidates))) = true.
Proof. vm_compute. reflexivity. Qed.

Lemma Evaluate_selected_iff_witness :
  exists result (cs : list Candidate), @Evaluate Concrete.external (example_request example_candidates) = Ok result /\
    forall c, c ∈ Selected result <->
      c ∈ cs /\ @eligible Concrete.external (example_request example_candidates) c.
Proof.
  destruct (is_ok_Ok _ example_evaluates) as [result E].
  destruct (is_ok_Ok _ example_canonical) as [cs Ec].
  exists result, cs. split; [exact E|].
  exact (@Evaluate_selected_iff Concrete.external Concrete.external_laws
    (example_request example_candidates) result cs E Ec).
Defined.
End PlacementFacts.
