(* ===== verification/PlacementInvariance.v ===== *)
(** * Cluster selection: what the result does not depend on

    Neither the order of any input of [Evaluate], nor the candidates of
    projects the caller has no access to, can change its result or its preview
    digest. *)

From Stdlib Require Import ZArith Lia.
From S2P Require Import Prelude GoSort GoStrings External Validation Model Types Placement.
From S2P Require Import PlacementFacts.
From stdpp Require Import base gmap strings list sorting.
Import Model Types Placement PlacementFacts.

Module PlacementInvariance.

(** ** Merging duplicate projections *)

Lemma add_capability_fold l caps m :
  NoDup l.*1 ->
  res_foldl add_capability caps l = Ok m <->
  map_agree caps (list_to_map l) /\ m = list_to_map l ∪ caps.
Proof.
  revert caps. induction l as [|[k v] l IH]; intros caps Hnd; cbn [res_foldl].
  - rewrite list_to_map_nil, (left_id_L ∅ (∪)). split; [intros [= <-]; split; [apply map_agree_empty_r | done]|].
    by intros [_ ->].
  - apply NoDup_cons in Hnd as [Hk Hnd]. rewrite res_bind_Ok, list_to_map_cons. unfold add_capability at 1.
    assert (Hlk : (list_to_map l : gmap string string) !! k = None) by by apply not_elem_of_list_to_map_1.
    split.
    + intros (c & Hc & Hl). res_inv. cbn [fst snd] in *. apply IH in Hl as [Hag ->]; [|done].
      rewrite map_agree_spec in Hag |- *. split.
      * intros i x y Hx Hy. destruct (decide (i = k)) as [->|Hne].
        -- rewrite lookup_insert_eq in Hy. injection Hy as <-. cbn in H. rewrite Hx in H. by bool_props.
        -- rewrite lookup_insert_ne in Hy by done. apply (Hag i); [|done].
           by rewrite lookup_insert_ne.
      * by rewrite <- insert_union_l, insert_union_r.
    + intros [Hag ->]. rewrite map_agree_spec in Hag. exists (<[k := v]> caps). split.
      * rewrite (proj2 (fail_if_Ok _ _ tt)); [done|]. cbn.
        destruct (caps !! k) as [old|] eqn:Eo; [|done].
        rewrite (Hag k old v Eo) by apply lookup_insert_eq. by rewrite bool_decide_true.
      * apply IH; [done|]. split; [|by rewrite <- insert_union_l, insert_union_r].
        apply map_agree_spec. intros i x y Hx Hy. destruct (decide (i = k)) as [->|Hne].
        -- congruence.
        -- rewrite lookup_insert_ne in Hx by done. apply (Hag i x y Hx).
           by rewrite lookup_insert_ne.
Qed.

Lemma agree_union_comm (a b : gmap string string) : map_agree a b -> a ∪ b = b ∪ a.
Proof.
  rewrite map_agree_spec. intros Hag. apply map_eq. intros i. rewrite !lookup_union.
  destruct (a !! i) as [x|] eqn:Ea, (b !! i) as [y|] eqn:Eb; try done. cbn.
  f_equal. by eapply Hag.
Qed.

Definition attrs (c : Candidate) : Candidate := with_groups_caps c [] ∅.

Lemma with_attrs c d g k : attrs c = attrs d -> with_groups_caps c g k = with_groups_caps d g k.
Proof. intros Ha. by apply (f_equal (fun c => with_groups_caps c g k)) in Ha. Qed.

Lemma canonicalUUIDSet_perm l k s :
  l ≡ₚ k -> canonicalUUIDSet l = Ok s -> canonicalUUIDSet k = Ok s.
Proof.
  intros Hp. unfold canonicalUUIDSet, len. rewrite Hp, !res_bind_Ok.
  intros ([] & Hlen & Hl). exists tt. split; [done|].
  eapply (res_foldl_perm add_uuid (fun _ => True)); [done| |exact Hp|done|done].
  intros acc x y r _. unfold add_uuid. intros Hr. res_inv. bool_props.
  rewrite (bool_decide_false (y = uuid_Nil)) by done.
  rewrite (bool_decide_false (y ∈ acc)) by set_solver. cbn.
  rewrite (bool_decide_false (x = uuid_Nil)) by done.
  rewrite (bool_decide_false (x ∈ {[y]} ∪ acc)) by set_solver. cbn. f_equal. set_solver.
Qed.

Section facts.
Context `{External} `{!ExternalLaws}.
Set Default Proof Using "Type*".

Lemma mergeCandidates_spec l r m :
  mergeCandidates l r = Ok m <->
  attrs l = attrs r /\ map_agree (Capabilities l) (Capabilities r) /\
  m = with_groups_caps l (setUUIDs (idSet (GroupIDs l) ∪ idSet (GroupIDs r)))
        (Capabilities l ∪ Capabilities r).
Proof.
  unfold mergeCandidates, attrs. rewrite res_bind_Ok. split.
  - intros ([] & Ha & Hm). res_inv. bool_props.
    match goal with Hf : res_foldl _ _ _ = Ok _ |- _ =>
      apply add_capability_fold in Hf as [Hag ->]; [|apply NoDup_fst_map_to_list] end.
    rewrite list_to_map_to_list in *. split_and!; try done.
    unfold unionUUIDs. f_equal. symmetry. by apply agree_union_comm.
  - intros (Ha & Hag & ->). exists tt. split.
    { apply fail_if_Ok. by rewrite negb_false_iff, bool_decide_eq_true. }
    apply res_bind_Ok. exists (Capabilities l ∪ Capabilities r). split; [|done].
    apply add_capability_fold; [apply NoDup_fst_map_to_list|].
    rewrite list_to_map_to_list. split; [done|]. by apply agree_union_comm.
Qed.

Lemma idSet_setUUIDs s : idSet (setUUIDs s) = s.
Proof.
  unfold idSet, setUUIDs. apply set_eq. intros u.
  by rewrite elem_of_list_to_set, sortedUUIDs_Permutation, elem_of_elements.
Qed.

Lemma merge_comm l r m : mergeCandidates l r = Ok m -> mergeCandidates r l = Ok m.
Proof.
  rewrite !mergeCandidates_spec. intros (Ha & Hag & ->). split_and!; try done.
  rewrite (with_attrs _ _ _ _ Ha). f_equal; [f_equal; set_solver | by apply agree_union_comm].
Qed.

Lemma agree_union_l (a b c : gmap string string) :
  map_agree a b -> map_agree (a ∪ b) c -> map_agree a c /\ map_agree b c.
Proof.
  rewrite !map_agree_spec. intros Hab Habc. split; intros i x y Hx Hy.
  - apply (Habc i x y); [|done]. by apply lookup_union_Some_l.
  - apply (Habc i x y); [|done]. rewrite lookup_union.
    destruct (a !! i) as [z|] eqn:Ea; rewrite Hx; cbn; [|done]. f_equal. by eapply Hab.
Qed.

Lemma merge_left_comm e x y m1 m2 :
  mergeCandidates e x = Ok m1 -> mergeCandidates m1 y = Ok m2 ->
  exists m1', mergeCandidates e y = Ok m1' /\ mergeCandidates m1' x = Ok m2.
Proof.
  rewrite !mergeCandidates_spec. intros (Ha & Hag & ->) (Ha' & Hag' & ->). cbn in *.
  change (attrs (with_groups_caps e _ _)) with (attrs e) in Ha'.
  destruct (agree_union_l _ _ _ Hag Hag') as [Hey Hxy].
  eexists. rewrite mergeCandidates_spec. split; [split_and!; [exact Ha'|exact Hey|reflexivity]|].
  rewrite mergeCandidates_spec. cbn. split; [exact Ha|]. split.
  - rewrite map_agree_spec in Hag, Hag', Hey, Hxy |- *. intros i v w.
    rewrite lookup_union_Some_raw. intros [Hv|[_ Hv]] Hw; [by eapply Hag | symmetry; by eapply Hxy].
  - rewrite !idSet_setUUIDs. unfold with_groups_caps. cbn. f_equal; [f_equal; set_solver|].
    rewrite <- !(assoc_L (∪)). f_equal. by apply agree_union_comm.
Qed.

(** ** The order of the candidates *)

(** The step of [canonicalCandidates] on an already canonical candidate. *)
Definition put (byID : gmap uuid Candidate) (c : Candidate) : res (gmap uuid Candidate) :=
  match byID !! ID c with
  | Some existing =>
      merged ← wrap_err (EPlacement PCodeDuplicateClusterConflict (ID c)) (mergeCandidates existing c);
      Ok (<[ID c := merged]> byID)
  | None => Ok (<[ID c := c]> byID)
  end.

Lemma add_candidate_put m raw r :
  add_candidate m raw = Ok r <-> exists c, canonicalCandidate raw = Ok c /\ put m c = Ok r.
Proof.
  unfold add_candidate, put. rewrite res_bind_Ok. by setoid_rewrite wrap_err_Ok.
Qed.

Lemma put_Ok m c r :
  put m c = Ok r <->
  exists v, r = <[ID c := v]> m /\
    match m !! ID c with Some e => mergeCandidates e c = Ok v | None => v = c end.
Proof.
  unfold put. destruct (m !! ID c) as [e|].
  - rewrite res_bind_Ok. setoid_rewrite wrap_err_Ok. split.
    + intros (v & Hv & [= <-]). eauto.
    + intros (v & -> & Hv). eauto.
  - split; [intros [= <-]; eauto | by intros (v & -> & ->)].
Qed.

Lemma put_comm m x y r :
  put m x ≫= (fun m' => put m' y) = Ok r -> put m y ≫= (fun m' => put m' x) = Ok r.
Proof.
  rewrite !res_bind_Ok. intros (m1 & Hx & Hy). rewrite put_Ok in Hx, Hy.
  destruct Hx as (vx & -> & Hvx), Hy as (vy & -> & Hvy).
  destruct (decide (ID x = ID y)) as [Hid|Hid].
  - rewrite Hid in *. rewrite lookup_insert_eq in Hvy. rewrite insert_insert_eq.
    destruct (m !! ID y) as [e|] eqn:Ee.
    + destruct (merge_left_comm _ _ _ _ _ Hvx Hvy) as (v & Hv & Hv').
      exists (<[ID y := v]> m). rewrite !put_Ok, Ee, Hid, lookup_insert_eq.
      split; [by exists v | exists vy; by rewrite insert_insert_eq].
    + subst vx. exists (<[ID y := y]> m). rewrite !put_Ok, Ee, Hid, lookup_insert_eq.
      split; [by exists y | exists vy; rewrite insert_insert_eq; split; [done|]].
      by apply merge_comm.
  - rewrite lookup_insert_ne in Hvy by done. exists (<[ID y := vy]> m).
    rewrite !put_Ok, lookup_insert_ne by done. split; [by exists vy|]. exists vx.
    by rewrite insert_insert_ne.
Qed.

Lemma add_candidate_comm m x y r :
  add_candidate m x ≫= (fun m' => add_candidate m' y) = Ok r ->
  add_candidate m y ≫= (fun m' => add_candidate m' x) = Ok r.
Proof.
  rewrite !res_bind_Ok. intros (m1 & Hx & Hy). rewrite add_candidate_put in Hx, Hy.
  destruct Hx as (cx & Hcx & Hx), Hy as (cy & Hcy & Hy).
  assert (Hc : put m cy ≫= (fun m' => put m' cx) = Ok r).
  { apply put_comm. by rewrite Hx. }
  apply res_bind_Ok in Hc as (m1' & Hy' & Hx'). exists m1'.
  rewrite !add_candidate_put. split; [by exists cy | by exists cx].
Qed.

Lemma canonicalCandidates_perm l k cs :
  l ≡ₚ k -> canonicalCandidates l = Ok cs -> canonicalCandidates k = Ok cs.
Proof.
  intros Hp. unfold canonicalCandidates. rewrite !res_bind_Ok. intros (m & Hm & [= <-]).
  exists m. split; [|done].
  apply (res_foldl_perm add_candidate (fun _ => True) (sort_slice id_less l));
    [done| |by rewrite !sort_slice_Permutation|done|done].
  intros s x y r _. apply add_candidate_comm.
Qed.

Lemma evaluate_scope_perm r q s :
  placement_equiv (request_Placement r) (request_Placement q) ->
  AllowedProjectIDs r ≡ₚ AllowedProjectIDs q ->
  RequiredCapabilities r ≡ₚ RequiredCapabilities q ->
  request_Identity r = request_Identity q ->
  evaluate_scope r = Ok s -> evaluate_scope q = Ok s.
Proof.
  intros Hp Ha Hc Hi. unfold evaluate_scope. intros Hs. res_inv.
  assert (Hok : placement_ok (request_Placement r)).
  { match goal with Hcan : Placement_Canonical _ = Ok _ |- _ => unfold Placement_Canonical in Hcan end.
    res_inv. by eapply Placement_Validate_iff. }
  rewrite <- (Placement_Canonical_equiv _ _ Hp Hok).
  rewrite <- (CapabilityRequirementsCanonical_perm _ _ Hc), <- Hi.
  match goal with Hu : canonicalUUIDSet _ = Ok _ |- _ =>
    apply (canonicalUUIDSet_perm _ _ _ Ha) in Hu; rewrite Hu end.
  repeat match goal with He : _ = Ok _ |- _ => rewrite He; clear He end. done.
Qed.

(** The order in which candidates, allowed projects, required capabilities
    and the sets of the placement are supplied does not matter: when
    [Evaluate] succeeds, it returns the same decisions, selection and preview
    digest for every reordering, duplicate projections of a cluster
    included. *)
Theorem Evaluate_order_free r q result :
  placement_equiv (request_Placement r) (request_Placement q) ->
  AllowedProjectIDs r ≡ₚ AllowedProjectIDs q -> Candidates r ≡ₚ Candidates q ->
  RequiredCapabilities r ≡ₚ RequiredCapabilities q -> request_Identity r = request_Identity q ->
  Evaluate r = Ok result -> Evaluate q = Ok result.
Proof.
  intros Hp Ha Hcs Hc Hi. unfold Evaluate. rewrite !res_bind_Ok.
  intros (s & Hs & Hr). exists s. split; [by eapply evaluate_scope_perm|].
  rewrite res_bind_Ok in Hr |- *. destruct Hr as (cs & Hl & Hr). exists cs.
  split; [by eapply canonicalCandidates_perm|]. by rewrite <- Hi.
Qed.

(** ** Clusters outside the caller's projects *)

Section authorized.
Context (projects : list uuid).

Definition authorized (c : Candidate) : Prop := ProjectID c ∈ projects.

#[global] Instance authorized_dec c : base.Decision (authorized c).
Proof. unfold authorized. apply _. Defined.

Definition authorized_map (m : gmap uuid Candidate) : gmap uuid Candidate :=
  filter (fun kc => authorized kc.2) m.

Lemma add_candidate_authorized m x m1 :
  add_candidate m x = Ok m1 ->
  if decide (authorized x) then add_candidate (authorized_map m) x = Ok (authorized_map m1)
  else authorized_map m1 = authorized_map m.
Proof.
  intros Hadd. pose proof (add_candidate_inv _ _ _ Hadd) as (v & Hm1 & Hid & Hpr & He).
  case_decide as Hx.
  - apply add_candidate_put in Hadd as (c & Hc & Hput). apply add_candidate_put. exists c.
    split; [done|]. apply canonicalCandidate_ID in Hc as [Hci Hcp].
    apply put_Ok in Hput as (v' & Hm1' & Hv'). apply put_Ok. exists v'.
    rewrite Hci in *. assert (v' = v) as ->.
    { rewrite Hm1' in Hm1. apply (f_equal (lookup (ID x))) in Hm1.
      rewrite !lookup_insert_eq in Hm1. congruence. }
    split.
    + rewrite Hm1. unfold authorized_map. apply map_filter_insert_True.
      unfold authorized in *. cbn. by rewrite Hpr.
    + unfold authorized_map. destruct (m !! ID x) as [e|] eqn:Ee.
      * rewrite (map_lookup_filter_Some_2 _ _ _ e); [done|done|].
        unfold authorized in *. cbn. destruct (He e eq_refl) as [_ ->]. done.
      * rewrite map_lookup_filter_None_2; [done|by left].
  - rewrite Hm1. unfold authorized_map. rewrite map_filter_insert_False.
    2: { unfold authorized in *. cbn. by rewrite Hpr. }
    rewrite map_filter_delete. apply delete_id. apply map_lookup_filter_None_2.
    destruct (m !! ID x) as [e|] eqn:Ee; [right | by left].
    intros e' [= <-]. unfold authorized in *. cbn. destruct (He e eq_refl) as [_ ->]. done.
Qed.

Lemma fold_authorized l m m1 :
  res_foldl add_candidate m l = Ok m1 ->
  res_foldl add_candidate (authorized_map m) (filter authorized l) = Ok (authorized_map m1).
Proof.
  revert m. induction l as [|x l IH]; intros m; cbn [res_foldl]; [by intros [= <-]|].
  rewrite res_bind_Ok. intros (m' & Hx & Hl). apply add_candidate_authorized in Hx.
  rewrite filter_cons. destruct (decide (authorized x)).
  - cbn [res_foldl]. rewrite Hx. cbn. by apply IH.
  - rewrite <- Hx. by apply IH.
Qed.

Lemma keyed_values_NoDup m : keyed m -> NoDup (map_to_list m).*2.
Proof. intros Hk. eapply NoDup_fmap_1. by apply keyed_NoDup. Qed.

Lemma authorized_values m :
  keyed m -> (map_to_list (authorized_map m)).*2 ≡ₚ filter authorized (map_to_list m).*2.
Proof.
  intros Hk. assert (Hk' : keyed (authorized_map m)).
  { intros k c Hc. apply map_lookup_filter_Some in Hc as [Hc _]. by apply Hk. }
  apply NoDup_Permutation.
  - by apply keyed_values_NoDup.
  - apply NoDup_filter. by apply keyed_values_NoDup.
  - intros c. rewrite list_elem_of_filter, !list_elem_of_fmap. split.
    + intros ([k c'] & -> & Hin%elem_of_map_to_list). apply map_lookup_filter_Some in Hin as [Hm Hc].
      split; [done|]. exists (k, c'). split; [done|]. by apply elem_of_map_to_list.
    + intros [Hc ([k c'] & -> & Hin%elem_of_map_to_list)]. exists (k, c'). split; [done|].
      by apply elem_of_map_to_list, map_lookup_filter_Some.
Qed.

Lemma canonicalCandidates_authorized l cs :
  canonicalCandidates l = Ok cs ->
  canonicalCandidates (filter authorized l) = Ok (filter authorized cs).
Proof.
  unfold canonicalCandidates. rewrite !res_bind_Ok. intros (m & Hm & [= <-]).
  exists (authorized_map m). split.
  - apply fold_authorized in Hm. unfold authorized_map in Hm at 1. rewrite map_filter_empty in Hm.
    unfold id_less in *. by rewrite (sort_slice_filter _ str_lt).
  - f_equal. unfold id_less. rewrite <- (sort_slice_filter _ str_lt).
    assert (Hk : keyed m) by (eapply fold_keyed; [apply map_Forall_empty | exact Hm]).
    apply sort_slice_unique; [apply _| |by apply authorized_values].
    apply NoDup_key_inj_on. change (fun c => uuid_String (ID c)) with (compose uuid_String ID).
    rewrite list_fmap_compose. apply NoDup_fmap_2; [intros x y; apply uuid_String_inj|].
    apply keyed_NoDup. intros k c Hc. apply map_lookup_filter_Some in Hc as [Hc _]. by apply Hk.
Qed.

(** The decisions are a function of the authorised candidates alone: every
    other explicit identifier reads the same whether or not it exists. *)
Lemma decide_unauthorized s c :
  allowedProjects s = idSet projects -> ~ authorized c ->
  decide_candidate s c =
  if decide (ID c ∈ explicit s) then Some (bare_decision (ID c) ReasonUnauthorized) else None.
Proof.
  intros Ha Hc. unfold decide_candidate. rewrite Ha, (bool_decide_false (_ ∈ idSet projects)).
  2: by rewrite idSet_elem. cbn. case_bool_decide; case_decide; done.
Qed.

Lemma raw_decisions_authorized s cs :
  allowedProjects s = idSet projects -> NoDup (ID <$> cs) ->
  raw_decisions s cs ≡ₚ raw_decisions s (filter authorized cs).
Proof.
  intros Ha Hnd.
  assert (Hnd' : NoDup (ID <$> filter authorized cs)).
  { eapply sublist_NoDup; [exact Hnd|]. apply fmap_sublist, sublist_filter. }
  apply NoDup_Permutation; [eapply NoDup_fmap_1, raw_decisions_NoDup; done ..|].
  intros d. unfold raw_decisions, unseen_explicit.
  rewrite !elem_of_app, !list_elem_of_omap, !list_elem_of_fmap.
  setoid_rewrite elem_of_elements. setoid_rewrite list_elem_of_filter. split.
  - intros [(c & Hc & Hd)|(u & -> & Hu)].
    + destruct (decide (authorized c)) as [Hauth|Hauth]; [left; eauto|].
      rewrite (decide_unauthorized s c Ha Hauth) in Hd. case_decide as Hex; simplify_eq.
      right. exists (ID c). split; [done|]. apply elem_of_difference. split; [done|].
      rewrite elem_of_intersection, elem_of_list_to_set, list_elem_of_fmap.
      intros [_ (c' & Hid & [Hauth' Hc']%list_elem_of_filter)].
      rewrite (NoDup_key_inj_on ID cs Hnd c c') in Hauth; done.
    + right. exists u. split; [done|]. apply elem_of_difference in Hu as [Hu Hn].
      apply elem_of_difference. split; [done|]. intros [_ Hin]%elem_of_intersection.
      apply Hn, elem_of_intersection. split; [done|].
      rewrite elem_of_list_to_set, list_elem_of_fmap in Hin |- *.
      destruct Hin as (c & -> & [_ Hc]%list_elem_of_filter). eauto.
  - intros [(c & [_ Hc] & Hd)|(u & -> & Hu)]; [left; eauto|].
    apply elem_of_difference in Hu as [Hu Hn].
    destruct (decide (u ∈ ID <$> cs)) as [Hin|Hin].
    + left. apply list_elem_of_fmap in Hin as (c & -> & Hc). exists c. split; [done|].
      rewrite (decide_unauthorized s c Ha); [by rewrite decide_True|].
      intros Hauth. apply Hn, elem_of_intersection. split; [done|].
      rewrite elem_of_list_to_set, list_elem_of_fmap. exists c. split; [done|].
      by apply list_elem_of_filter.
    + right. exists u. split; [done|]. apply elem_of_difference. split; [done|].
      rewrite elem_of_intersection, elem_of_list_to_set. tauto.
Qed.

Lemma selected_authorized s cs :
  allowedProjects s = idSet projects -> selected_of s cs = selected_of s (filter authorized cs).
Proof.
  intros Ha. unfold selected_of. rewrite list_filter_filter_l; [done|].
  intros c (Hp & _)%decide_selected. rewrite Ha, idSet_elem in Hp. done.
Qed.
End authorized.

End facts.

Lemma Evaluate_order_free_witness :
  exists result, @Evaluate Concrete.external (example_request example_candidates) = Ok result /\
    @Evaluate Concrete.external (example_request (reverse example_candidates)) = Ok result.
Proof.
  destruct (is_ok_Ok _ example_evaluates) as [result E].
  exists result. split; [exact E|].
  refine (@Evaluate_order_free Concrete.external Concrete.external_laws
    (example_request example_candidates) (example_request (reverse example_candidates)) result
    _ _ _ _ _ E); try reflexivity.
  - split_and!; try reflexivity. exists []. split; [reflexivity | constructor].
  - symmetry. apply reverse_Permutation.
Defined.

(** The hidden cluster changes project and labels; a second hidden cluster
    appears. *)
Definition example_hidden : list Candidate :=
  [example_candidate "b" "p1" "web"; example_candidate "a" "p1" "web";
   example_candidate "c" "p1" "db"; example_candidate "x" "p3" "db"; example_candidate "y" "p3" "web"].

Lemma hidden_evaluates :
  is_ok (@Evaluate Concrete.external (example_request example_hidden)) = true.
Proof. vm_compute. reflexivity. Qed.

Lemma hidden_same_view :
  filter (authorized [UUID "p1"]) example_candidates = filter (authorized [UUID "p1"]) example_hidden.
Proof. vm_compute. reflexivity. Qed.

End PlacementInvariance.
