(* ===== verification/Cohorts.v ===== *)
(** * Cohorts of a rollout (internal/delivery/rollout/cohorts.go)

    [BuildCohorts] freezes which clusters are released together and in which
    order.  The candidates are those placement selected. *)

From Stdlib Require Import ZArith Lia Ascii.
From S2P Require Import Prelude GoSort SafeConv GoStrings External Validation Model Types.
From S2P Require Import RolloutTypes Placement.
From stdpp Require Import base gmap strings list sorting.
Import SafeConv Model Types RolloutTypes Placement.

Module Cohorts.

(** [newCohort] *)
Definition newCohort (index : Z) (name : string) (clusterIDs : list uuid) (approval : bool)
    (soak : duration) : Cohort :=
  {| cohort_Index := index; cohort_Name := name; cohort_ClusterIDs := clusterIDs;
     cohort_ApprovalRequired := approval; cohort_ApprovalDigest := "";
     cohort_SoakAfter := soak |}.

(** [ids] *)
Definition ids (candidates : list Candidate) : list uuid := map ID candidates.

(** ** Amounts *)

(** [amountSize]: a count as it is, a percentage of [total] in 64-bit unsigned
    arithmetic, rounded up on request. *)
Definition amountSize (amount : Amount) (total : Z) (roundUp : bool) : Z :=
  if amount_Type amount == AmountCount then Z.of_N (amount_Value amount)
  else
    let value := wrapU64 (Uint64 total * Z.of_N (amount_Value amount)) in
    let value := if roundUp && negb (value mod 100 =? 0)%Z then wrapU64 (value + 100) else value in
    Int (value / 100).

(** [amountLimit] (scheduler.go) *)
Definition amountLimit (amount : Amount) (total : Z) : Z :=
  if amount_Type amount == AmountCount then Z.min (Z.of_N (amount_Value amount)) total
  else Int (wrapU64 (Uint64 total * Z.of_N (amount_Value amount)) / 100).

(** ** Batches *)

(** [for start := 0; start < len(candidates); start += size]: the slices
    [candidates[start:end]].  Every iteration consumes at least one element, so
    the length of the slice bounds their number. *)
Fixpoint batches (fuel : nat) (size : nat) (candidates : list Candidate) : list (list Candidate) :=
  match fuel, candidates with
  | S fuel', _ :: _ => take size candidates :: batches fuel' size (drop size candidates)
  | _, _ => []
  end.

(** [%04d] *)
Definition pad4 (n : Z) : string :=
  let s := itoa n in repeat_ascii (4 - String.length s) "0"%char +:+ s.

Fixpoint number_batches (index : Z) (prefix : string) (bs : list (list Candidate)) : list Cohort :=
  match bs with
  | [] => []
  | b :: bs' =>
      newCohort index (prefix +:+ "-" +:+ pad4 index) (ids b) false 0
        :: number_batches (index + 1) prefix bs'
  end.

(** [batchCohorts] *)
Definition batchCohorts (candidates : list Candidate) (size : N) (offset : Z) (prefix : string) :
  list Cohort :=
  number_batches offset prefix (batches (length candidates) (N.to_nat size) candidates).

(** ** Partitions *)

(** [partitionMatches] on one expression; an operator outside the enumeration
    is ignored by the [switch]. *)
Definition partition_expression (labels : gmap string string) (e : LabelExpression) : bool :=
  let value := default "" (labels !! expr_Key e) in
  let exists_ := bool_decide (is_Some (labels !! expr_Key e)) in
  let contains := bool_decide (value ∈ expr_Values e) in
  match expr_Operator e with
  | OperatorIn => negb (negb exists_ || negb contains)
  | OperatorNotIn => negb (exists_ && contains)
  | OperatorExists => exists_
  | OperatorDoesNotExist => negb exists_
  | OperatorOther _ => true
  end.

(** [partitionMatches]: a missing label reads as the empty string. *)
Definition partitionMatches (selector : Model.Placement) (candidate : Candidate) : bool :=
  ((len (ClusterGroupIDs selector) =? 0)%Z ||
   existsb (fun id => bool_decide (id ∈ GroupIDs candidate)) (ClusterGroupIDs selector)) &&
  forallb (fun kv => default "" (Labels candidate !! kv.1) == kv.2)
    (map_to_list (MatchLabels selector)) &&
  forallb (partition_expression (Labels candidate)) (MatchExpressions selector).

(** The inner loop over the partitions: the one index that matches. *)
Fixpoint match_partitions (index : nat) (partitions : list Partition) (matched : option nat)
    (candidate : Candidate) : res (option nat) :=
  match partitions with
  | [] => Ok matched
  | p :: ps =>
      if partitionMatches (partition_Selector p) candidate then
        match matched with
        | Some _ => Err (fail CodeInvalidCohorts "partitions" "cluster %s matches multiple partitions")
        | None => match_partitions (S index) ps (Some index) candidate
        end
      else match_partitions (S index) ps matched candidate
  end.

Definition add_member (partitions : list Partition) (members : list (list Candidate))
    (candidate : Candidate) : res (list (list Candidate)) :=
  matched ← match_partitions 0 partitions None candidate;
  match matched with
  | None => Err (fail CodeInvalidCohorts "partitions" "cluster %s matches no partition")
  | Some index => Ok (alter (fun l => l ++ [candidate]) index members)
  end.

Fixpoint partition_cohorts (index : Z) (partitions : list Partition)
    (members : list (list Candidate)) : res (list Cohort) :=
  match partitions, members with
  | p :: ps, m :: ms =>
      fail_if (len m =? 0)%Z (fail CodeInvalidCohorts "partitions" "partition %q is empty");;
      rest ← partition_cohorts (index + 1) ps ms;
      Ok (newCohort index (partition_Name p) (ids m) (partition_ApprovalRequired p)
            (partition_Soak p) :: rest)
  | _, _ => Ok []
  end.

Section build.
Context `{External}.

(** [stableHash] *)
Definition stableHash (seed : string) (id : uuid) : string :=
  sha256_Sum256 (seed +:+ String zero_byte (uuid_bytes id)).

(** [lessCandidate] *)
Definition lessCandidate (seed : string) (left right : uuid) : bool :=
  if seed == "" then uuid_lt left right
  else if stableHash seed left != stableHash seed right then
    str_lt (stableHash seed left) (stableHash seed right)
  else uuid_lt left right.

Definition candidate_less (seed : string) (left right : Candidate) : bool :=
  lessCandidate seed (ID left) (ID right).

Definition add_by_id (byID : gmap uuid Candidate) (candidate : Candidate) :
  res (gmap uuid Candidate) :=
  fail_if (ID candidate == uuid_Nil) (fail CodeInvalidInput "clusters" "contains a zero UUID");;
  fail_if (bool_decide (is_Some (byID !! ID candidate)))
    (fail CodeInvalidInput "clusters" "contains duplicate %s");;
  Ok (<[ID candidate := candidate]> byID).

(** [canonicalCandidates] *)
Definition order_candidates (input : list Candidate) (seed : string) :
  res (list Candidate * gmap uuid Candidate) :=
  byID ← res_foldl add_by_id ∅ input;
  Ok (sort_slice (candidate_less seed) input, byID).

Definition canary_seed (seed : string) : string :=
  if seed == "" then "astronomer-canary-v1"
  else "astronomer-canary-v1" +:+ String zero_byte seed.

(** The identifiers [splitCanary] picks. *)
Definition canary_set (spec : CanarySpec) (ordered : list Candidate)
    (byID : gmap uuid Candidate) (seed : string) : res (gset uuid) :=
  if negb (len (canary_ClusterIDs spec) =? 0)%Z then
    res_iter (fun id => fail_if (bool_decide (byID !! id = None))
      (fail CodeInvalidCohorts "canary.cluster_ids" "cluster %s is not in the frozen placement"))
      (canary_ClusterIDs spec);;
    Ok (list_to_set (canary_ClusterIDs spec))
  else
    let count := amountSize (canary_Size spec) (len ordered) true in
    fail_if (len ordered <? count)%Z
      (fail CodeInvalidCohorts "canary.size" "exceeds selected cluster count");;
    let ranked := sort_slice (candidate_less (canary_seed seed)) ordered in
    Ok (list_to_set (ids (take (Z.to_nat count) ranked))).

(** [splitCanary] *)
Definition splitCanary (spec : CanarySpec) (ordered : list Candidate)
    (byID : gmap uuid Candidate) (seed : string) : res (list Candidate * list Candidate) :=
  canarySet ← canary_set spec ordered byID seed;
  Ok (filter (fun c => ID c ∈ canarySet) ordered, filter (fun c => ID c ∉ canarySet) ordered).

Definition require_approval (c : Cohort) : Cohort :=
  {| cohort_Index := cohort_Index c; cohort_Name := cohort_Name c;
     cohort_ClusterIDs := cohort_ClusterIDs c; cohort_ApprovalRequired := true;
     cohort_ApprovalDigest := cohort_ApprovalDigest c; cohort_SoakAfter := cohort_SoakAfter c |}.

(** [if len(remaining) != 0 && approval { remaining[0].ApprovalRequired = true }] *)
Definition approve_first (approval : bool) (remaining : list Cohort) : list Cohort :=
  match remaining with
  | c :: cs => if approval then require_approval c :: cs else remaining
  | [] => []
  end.

(** The [switch] of [BuildCohorts]. *)
Definition strategy_cohorts (strategy : RolloutStrategy) (ordered : list Candidate)
    (byID : gmap uuid Candidate) : res (list Cohort) :=
  match strategy_Type strategy with
  | StrategyAllAtOnce => Ok [newCohort 0 "all" (ids ordered) false 0]
  | StrategyRolling => Ok (batchCohorts ordered (MaxConcurrent strategy) 0 "rolling")
  | StrategyCanary =>
      match Canary strategy with
      | None => Err (EText "nil pointer dereference")
      | Some spec =>
          split ← splitCanary spec ordered byID (ShuffleSeed strategy);
          let '(canary, rest) := split in
          let remaining := batchCohorts rest (MaxConcurrent strategy) 1 "rolling" in
          Ok (newCohort 0 "canary" (ids canary) false (canary_Soak spec)
                :: approve_first (canary_ApprovalAfterCanary spec) remaining)
      end
  | StrategyPartitioned =>
      members ← res_foldl (add_member (Partitions strategy))
        (replicate (length (Partitions strategy)) []) ordered;
      partition_cohorts 0 (Partitions strategy) members
  | StrategyOther _ => Err (fail CodeInvalidInput "strategy.type" "unsupported strategy")
  end.

(** The final loop of [BuildCohorts]: one row per member, numbered in order. *)
Fixpoint plan_ids (cohort order : Z) (clusterIDs : list uuid) : list PlannedCluster :=
  match clusterIDs with
  | [] => []
  | id :: rest =>
      {| planned_ClusterID := id; planned_Cohort := cohort; planned_Order := order;
         planned_Desired := None; planned_Previous := None |}
        :: plan_ids cohort (order + 1) rest
  end.

Fixpoint plan_rows (order : Z) (cohorts : list Cohort) : list PlannedCluster :=
  match cohorts with
  | [] => []
  | c :: cs =>
      plan_ids (cohort_Index c) order (cohort_ClusterIDs c) ++
      plan_rows (order + len (cohort_ClusterIDs c)) cs
  end.

(** [BuildCohorts] *)
Definition BuildCohorts (strategy : RolloutStrategy) (candidates : list Candidate) :
  res (list Cohort * list PlannedCluster) :=
  wrap_err (ERollout CodeInvalidInput "strategy") (RolloutStrategy_Validate strategy);;
  canonical ← order_candidates candidates (ShuffleSeed strategy);
  let '(ordered, byID) := canonical in
  fail_if (len ordered =? 0)%Z (fail CodeNoClusters "clusters" "rollout selection is empty");;
  cohorts ← strategy_cohorts strategy ordered byID;
  Ok (cohorts, plan_rows 0 cohorts).
End build.
End Cohorts.
