(* ===== verification/CohortsFacts.v ===== *)
(** * Cohorts of a rollout: correctness *)

From Stdlib Require Import ZArith Lia Ascii.
From S2P Require Import Prelude GoSort SafeConv GoStrings External Validation Overrides Model Types.
From S2P Require Import RolloutTypes Placement PlacementFacts Cohorts.
From stdpp Require Import base gmap strings list sorting.
Import SafeConv Model Types RolloutTypes Placement Cohorts.

Module CohortsFacts.
#[local] Open Scope Z_scope.

(** ** Amounts *)

(** No fleet a process can hold in memory makes the 64-bit products wrap. *)
Definition fleet_bound (total : Z) : Prop := 0 <= total /\ total * 100 <= MaxInt64 - 100.

(** [ceil (total * value / 100)] and [floor (total * value / 100)] *)
Definition percent_up (total value : Z) : Z := (total * value + 99) / 100.
Definition percent_down (total value : Z) : Z := total * value / 100.

Lemma percent_product total v :
  fleet_bound total -> (v <= 100)%N ->
  wrapU64 (Uint64 total * Z.of_N v) = total * Z.of_N v /\ 0 <= total * Z.of_N v <= MaxInt64 - 100.
Proof.
  intros [H0 H1] Hv. unfold MaxInt64 in *.
  assert (Hr : 0 <= total * Z.of_N v <= total * 100) by nia.
  rewrite Uint64_small by (unfold MaxUint64; lia). split; [|lia].
  apply wrapU64_small. unfold MaxUint64. lia.
Qed.

Lemma amountLimit_spec a total :
  fleet_bound total -> amount_ok a false ->
  amountLimit a total =
    match amount_Type a with
    | AmountCount => Z.min (Z.of_N (amount_Value a)) total
    | _ => percent_down total (Z.of_N (amount_Value a))
    end /\ 0 <= amountLimit a total <= total.
Proof.
  intros Hf [Hty _]. unfold amountLimit, percent_down. pose proof Hf as [Ht _].
  destruct (amount_Type a) as [| |raw] eqn:E; eval_tests; [split; [done|lia]| |naive_solver].
  destruct Hty as [?|[_ Hv]]; [done|]. destruct (percent_product total _ Hf Hv) as [-> Hb].
  assert (Hd : 0 <= total * Z.of_N (amount_Value a) / 100 <= total).
  { split; [apply Z.div_pos; lia|]. apply Z.div_le_upper_bound; nia. }
  rewrite Int_small; [done|]. unfold fleet_bound, MinInt64, MaxInt64 in *. lia.
Qed.

Lemma amountSize_spec a total :
  fleet_bound total -> amount_ok a true ->
  amountSize a total true =
    match amount_Type a with
    | AmountCount => Z.of_N (amount_Value a)
    | _ => percent_up total (Z.of_N (amount_Value a))
    end /\ (0 < total -> 0 < amountSize a total true).
Proof.
  intros Hf [Hty Hpos]. specialize (Hpos eq_refl). unfold amountSize, percent_up.
  destruct (amount_Type a) as [| |raw] eqn:E; eval_tests; [split; [done|lia]| |naive_solver].
  destruct Hty as [?|[_ Hv]]; [done|]. destruct (percent_product total _ Hf Hv) as [-> Hb].
  set (x := total * Z.of_N (amount_Value a)) in *. cbn [andb].
  assert (Hceil : (if negb (x mod 100 =? 0) then wrapU64 (x + 100) else x) / 100 = (x + 99) / 100).
  { pose proof (Z.div_mod x 100 ltac:(lia)) as Hdm. pose proof (Z.mod_pos_bound x 100 ltac:(lia)).
    destruct (Z.eqb_spec (x mod 100) 0); cbn [negb].
    - apply (Z.div_unique (x + 99) 100 (x / 100) 99); lia.
    - rewrite wrapU64_small by (unfold MaxInt64, MaxUint64 in *; lia).
      replace (x + 100) with (x + 1 * 100) by lia. rewrite Z.div_add by lia.
      apply (Z.div_unique (x + 99) 100 (x / 100 + 1) (x mod 100 - 1)); lia. }
  assert (Hd : 0 <= (x + 99) / 100 <= x + 99).
  { split; [apply Z.div_pos; lia|]. apply Z.div_le_upper_bound; lia. }
  rewrite Hceil, Int_small by (unfold MinInt64, MaxInt64 in *; lia). split; [done|].
  intros Ht. apply Z.div_str_pos. assert (1 <= x) by (unfold x; nia). lia.
Qed.

(** ** Batches *)

Lemma batches_concat n size l :
  (0 < size)%nat -> (length l <= n)%nat -> concat (batches n size l) = l.
Proof.
  intros Hs. revert l. induction n as [|n IH]; intros l Hl.
  - by destruct l; cbn in Hl; [|lia].
  - destruct l as [|x l]; [done|]. cbn [batches concat]. rewrite IH.
    + apply take_drop.
    + rewrite length_drop. cbn in *. lia.
Qed.

Lemma batches_sizes n size l :
  (0 < size)%nat -> Forall (fun b => b <> [] /\ (length b <= size)%nat) (batches n size l).
Proof.
  intros Hs. revert l. induction n as [|n IH]; intros l; [constructor|].
  destruct l as [|x l]; [constructor|]. cbn [batches]. constructor; [|apply IH]. split.
  - destruct size; [lia|]. done.
  - rewrite length_take. lia.
Qed.

(** ** The shape of a list of cohorts *)

Definition cohort_ok (i : Z) (c : Cohort) : Prop :=
  cohort_Index c = i /\ cohort_ClusterIDs c <> [] /\ cohort_Name c <> "" /\
  0 <= cohort_SoakAfter c /\ cohort_ApprovalDigest c = "".

(** Consecutive indices from [i], and every cohort non-empty and named. *)
Fixpoint cohorts_from (i : Z) (cs : list Cohort) : Prop :=
  match cs with
  | [] => True
  | c :: cs' => cohort_ok i c /\ cohorts_from (i + 1) cs'
  end.

Definition members (cs : list Cohort) : list uuid := concat (map cohort_ClusterIDs cs).

Lemma cohorts_from_lookup i cs k c :
  cohorts_from i cs -> cs !! k = Some c -> cohort_ok (i + Z.of_nat k) c.
Proof.
  revert i k. induction cs as [|d cs IH]; intros i k; [done|]. intros [Hd Hcs].
  destruct k as [|k]; cbn.
  - intros [= <-]. by rewrite Z.add_0_r.
  - intros Hk. replace (i + Z.of_nat (S k)) with (i + 1 + Z.of_nat k) by lia. by apply IH.
Qed.

Lemma ids_concat bs : ids (concat bs) = concat (map ids bs).
Proof.
  induction bs as [|b bs IH]; cbn [concat map]; [done|]. unfold ids in *.
  by rewrite map_app, IH.
Qed.

Lemma number_batches_spec i prefix bs :
  prefix <> "" -> Forall (fun b => b <> []) bs ->
  cohorts_from i (number_batches i prefix bs) /\
  members (number_batches i prefix bs) = concat (map ids bs) /\
  map cohort_ClusterIDs (number_batches i prefix bs) = map ids bs.
Proof.
  intros Hp. revert i. induction bs as [|b bs IH]; intros i Hb; [done|].
  apply Forall_cons_iff in Hb as [Hb Hbs]. destruct (IH (i + 1) Hbs) as (H1 & H2 & H3).
  unfold members in *. cbn [number_batches cohorts_from map concat]. rewrite H2, H3. split_and!; try done.
  unfold cohort_ok, newCohort. cbn. split_and!; try done; [by destruct b|].
  by destruct prefix.
Qed.

Lemma batchCohorts_spec l size i :
  (0 < size)%N ->
  let cs := batchCohorts l size i "rolling" in
  cohorts_from i cs /\ members cs = ids l /\
  Forall (fun c => (len (cohort_ClusterIDs c) <= Z.of_N size)%Z) cs.
Proof.
  intros Hs cs. unfold cs, batchCohorts.
  pose proof (batches_sizes (length l) (N.to_nat size) l ltac:(lia)) as Hb.
  destruct (number_batches_spec i "rolling" (batches (length l) (N.to_nat size) l)) as (H1 & H2 & H3).
  { done. }
  { eapply Forall_impl; [exact Hb|]. by intros b [? _]. }
  split; [done|]. split.
  - rewrite H2, <- ids_concat, batches_concat; [done|lia|done].
  - rewrite Forall_forall in Hb. apply Forall_forall. intros c Hc.
    assert (Hin : cohort_ClusterIDs c ∈ map ids (batches (length l) (N.to_nat size) l)).
    { rewrite <- H3. apply list_elem_of_fmap. eauto. }
    apply list_elem_of_fmap in Hin as (b & -> & Hin). destruct (Hb b Hin) as [_ Hlen].
    unfold len, ids. rewrite length_map. lia.
Qed.

Lemma approve_first_spec b i cs :
  (cohorts_from i cs -> cohorts_from i (approve_first b cs)) /\
  map cohort_ClusterIDs (approve_first b cs) = map cohort_ClusterIDs cs.
Proof. destruct cs as [|c cs]; [done|]. by destruct b. Qed.

(** ** Partitions *)

Lemma match_partitions_spec i ps matched c r :
  match_partitions i ps matched c = Ok (Some r) ->
  (matched = Some r /\ Forall (fun p => partitionMatches (partition_Selector p) c = false) ps) \/
  (matched = None /\ exists k p, r = (i + k)%nat /\ ps !! k = Some p /\
     partitionMatches (partition_Selector p) c = true /\
     forall j q, ps !! j = Some q -> j <> k -> partitionMatches (partition_Selector q) c = false).
Proof.
  revert i matched. induction ps as [|p ps IH]; intros i matched; cbn [match_partitions].
  { intros [= ->]. by left. }
  destruct (partitionMatches (partition_Selector p) c) eqn:Ep.
  - destruct matched; [done|]. intros Hr. right. split; [done|].
    apply IH in Hr as [[[= <-] Hall]|[? _]]; [|done]. exists O, p.
    split_and!; try done; try lia. intros [|j] q Hj Hne; [done|].
    rewrite Forall_forall in Hall. apply Hall. by eapply list_elem_of_lookup_2.
  - intros Hr. apply IH in Hr as [[-> Hall]|(-> & k & q & -> & Hk & Hq & Hother)].
    + left. split; [done|]. by constructor.
    + right. split; [done|]. exists (S k), q. split_and!; try done; try lia.
      intros [|j] q' Hj Hne; [by injection Hj as <-|]. apply (Hother j); [done|lia].
Qed.

(** [c] belongs to the partition at [i] and to no other. *)
Definition belongs (ps : list Partition) (i : nat) (c : Candidate) : Prop :=
  exists p, ps !! i = Some p /\ partitionMatches (partition_Selector p) c = true /\
    forall j q, ps !! j = Some q -> j <> i -> partitionMatches (partition_Selector q) c = false.

Definition members_ok (ps : list Partition) (ms : list (list Candidate)) : Prop :=
  length ms = length ps /\ forall i m, ms !! i = Some m -> Forall (belongs ps i) m.

Lemma concat_alter_snoc (ms : list (list Candidate)) i c :
  (i < length ms)%nat -> concat (alter (fun l => l ++ [c]) i ms) ≡ₚ c :: concat ms.
Proof.
  revert i. induction ms as [|m ms IH]; intros i; cbn; [lia|]. destruct i as [|i]; cbn; intros Hi.
  - rewrite <- app_assoc. cbn. by rewrite <- Permutation_middle.
  - rewrite IH by lia. by rewrite <- Permutation_middle.
Qed.

Lemma add_member_spec ps ms c ms' :
  members_ok ps ms -> add_member ps ms c = Ok ms' ->
  members_ok ps ms' /\ concat ms' ≡ₚ c :: concat ms.
Proof.
  intros [Hlen Hok]. unfold add_member. rewrite res_bind_Ok. intros ([i|] & Hm & Hs); [|done].
  injection Hs as <-. apply match_partitions_spec in Hm as [[? _]|(_ & k & p & -> & Hk & Hp & Ho)]; [done|].
  cbn in *. pose proof (lookup_lt_Some _ _ _ Hk) as Hlt. split.
  - split; [by rewrite length_alter|]. intros j m.
    destruct (decide (j = k)) as [->|Hne].
    + rewrite list_lookup_alter_eq. intros (m0 & Hm0 & ->)%fmap_Some.
      apply Forall_app. split; [by apply Hok|]. constructor; [|constructor]. by exists p.
    + rewrite list_lookup_alter_ne by done. apply Hok.
  - apply concat_alter_snoc. lia.
Qed.

Lemma members_fold ps l ms ms' :
  members_ok ps ms -> res_foldl (add_member ps) ms l = Ok ms' ->
  members_ok ps ms' /\ concat ms' ≡ₚ concat ms ++ l.
Proof.
  revert ms. induction l as [|c l IH]; intros ms Hok; cbn [res_foldl].
  { intros [= <-]. by rewrite app_nil_r. }
  rewrite res_bind_Ok. intros (m1 & H1 & Hl).
  destruct (add_member_spec _ _ _ _ Hok H1) as [Hok1 Hp]. destruct (IH _ Hok1 Hl) as [Hok' Hp'].
  split; [done|]. rewrite Hp', Hp. cbn. apply Permutation_middle.
Qed.

Lemma partition_cohorts_spec i ps ms cs :
  Forall (fun p => partition_Name p <> "" /\ 0 <= partition_Soak p) ps -> length ms = length ps ->
  partition_cohorts i ps ms = Ok cs ->
  cohorts_from i cs /\ map cohort_ClusterIDs cs = map ids ms.
Proof.
  revert i ms cs. induction ps as [|p ps IH]; intros i [|m ms] cs Hps Hlen; cbn [partition_cohorts];
    try done.
  { by intros [= <-]. }
  apply Forall_cons_iff in Hps as [[Hn Hs] Hps]. intros Hc. res_inv. bool_props.
  match goal with Hr : partition_cohorts _ _ _ = Ok _ |- _ =>
    apply IH in Hr as [H1 H2]; [|done|by injection Hlen] end.
  cbn. rewrite H2. split; [|done]. split; [|done]. unfold cohort_ok. cbn. split_and!; try done.
  destruct m; [done|]. done.
Qed.

(** ** Ordering *)

Section facts.
Context `{External}.
Set Default Proof Using "Type*".

Definition rank_key (seed : string) (c : Candidate) : string * uuid :=
  (if seed == "" then "" else stableHash seed (ID c), ID c).

Lemma candidate_less_by_key seed :
  forall a b, candidate_less seed a b = by_key (rank_key seed) (lex_lt str_lt uuid_lt) a b.
Proof.
  intros a b. unfold candidate_less, lessCandidate, by_key, lex_lt, rank_key. cbn.
  destruct (seed == ""); [by rewrite bool_decide_true|]. done.
Qed.

Lemma order_sort_unique seed l k :
  NoDup (ids l) -> l ≡ₚ k -> sort_slice (candidate_less seed) l = sort_slice (candidate_less seed) k.
Proof.
  intros Hnd Hp. rewrite !(sort_slice_ext _ _ _ (candidate_less_by_key seed)).
  apply sort_slice_unique; [apply _| |done].
  intros x y Hx Hy [= _ Hid]. by apply (NoDup_key_inj_on ID l Hnd).
Qed.

Lemma add_by_id_fold l m m' :
  res_foldl add_by_id m l = Ok m' ->
  NoDup (ids l) /\ Forall (fun c => ID c <> uuid_Nil /\ m !! ID c = None) l /\
  (forall u, is_Some (m' !! u) <-> is_Some (m !! u) \/ u ∈ ids l).
Proof.
  revert m. induction l as [|c l IH]; intros m; cbn [res_foldl].
  { intros [= <-]. split_and!; [constructor..|]. intros u. cbn [ids map]. rewrite elem_of_nil. tauto. }
  rewrite res_bind_Ok. unfold add_by_id at 1. intros (m1 & H1 & Hl). res_inv. bool_props.
  apply IH in Hl as (Hnd & Hall & Hdom). rewrite Forall_forall in Hall.
  assert (Hc : ID c ∉ ids l).
  { unfold ids. intros (d & Hd & Hin)%list_elem_of_fmap. destruct (Hall d Hin) as [_ Hn].
    rewrite <- Hd, lookup_insert_eq in Hn. done. }
  assert (Hmc : m !! ID c = None) by (destruct (m !! ID c); [exfalso; eauto | done]).
  split_and!.
  - by constructor.
  - constructor; [done|]. apply Forall_forall. intros d Hd. destruct (Hall d Hd) as [? Hn].
    split; [done|]. rewrite lookup_insert_ne in Hn; [done|]. intros E. apply Hc. unfold ids.
    apply list_elem_of_fmap. eauto.
  - intros u. rewrite Hdom. cbn [ids map]. rewrite elem_of_cons.
    destruct (decide (u = ID c)) as [->|Hne].
    + rewrite lookup_insert_eq. naive_solver.
    + rewrite lookup_insert_ne by done. naive_solver.
Qed.

Lemma order_candidates_spec l seed ordered byID :
  order_candidates l seed = Ok (ordered, byID) ->
  ordered = sort_slice (candidate_less seed) l /\ NoDup (ids l) /\
  Forall (fun u => u <> uuid_Nil) (ids l) /\ (forall u, is_Some (byID !! u) <-> u ∈ ids l).
Proof.
  unfold order_candidates. intros Ho. res_inv.
  match goal with Hf : res_foldl _ _ _ = Ok _ |- _ =>
    apply add_by_id_fold in Hf as (Hnd & Hall & Hdom) end.
  split_and!; try done.
  - unfold ids. apply Forall_fmap. eapply Forall_impl; [exact Hall|]. by intros c [? _].
  - intros u. rewrite Hdom, lookup_empty. split; [intros [[? ?]|?]; done | by right].
Qed.

Lemma ids_perm l k : l ≡ₚ k -> ids l ≡ₚ ids k.
Proof. unfold ids. intros Hp. by apply (Permutation_map ID). Qed.

(** ** Canary *)

Lemma elem_ids u l : u ∈ ids l <-> exists c, c ∈ l /\ ID c = u.
Proof. unfold ids. rewrite list_elem_of_fmap. naive_solver. Qed.

Lemma filter_set_perm (l k : list Candidate) :
  NoDup (ids l) -> NoDup (ids k) -> (forall u, u ∈ ids k -> u ∈ ids l) ->
  ids (filter (fun c => ID c ∈ (list_to_set (ids k) : gset uuid)) l) ≡ₚ ids k.
Proof.
  intros Hl Hk Hsub. apply NoDup_Permutation; [|done|].
  - eapply sublist_NoDup; [exact Hl|]. apply fmap_sublist, sublist_filter.
  - intros u. rewrite elem_ids. split.
    + intros (c & [Hc _]%list_elem_of_filter & <-). by rewrite elem_of_list_to_set in Hc.
    + intros Hu. pose proof (Hsub u Hu) as (c & Hc & <-)%elem_ids. exists c. split; [|done].
      apply list_elem_of_filter. by rewrite elem_of_list_to_set.
Qed.

(** A canary set is the identifiers of some clusters of the fleet. *)
Definition canary_pick (ordered k : list Candidate) (set : gset uuid) : Prop :=
  NoDup (ids k) /\ (forall u, u ∈ ids k -> u ∈ ids ordered) /\ k <> [] /\ set = list_to_set (ids k).

Lemma canary_set_size spec ordered byID seed set :
  canary_ClusterIDs spec = [] -> amount_ok (canary_Size spec) true ->
  NoDup (ids ordered) -> ordered <> [] -> fleet_bound (len ordered) ->
  canary_set spec ordered byID seed = Ok set ->
  exists k, canary_pick ordered k set /\ len k = amountSize (canary_Size spec) (len ordered) true.
Proof.
  intros Ecl Hspec Hnd Hne Hf. unfold canary_set. rewrite Ecl.
  change (negb (len (@nil uuid) =? 0)) with false. cbn iota.
  rewrite res_bind_Ok. intros ([] & Hle & [= <-]). rewrite fail_if_Ok, Z.ltb_ge in Hle.
  set (n := amountSize (canary_Size spec) (len ordered) true) in *.
  set (ranked := sort_slice (candidate_less (canary_seed seed)) ordered).
  assert (Hr : ranked ≡ₚ ordered) by apply sort_slice_Permutation.
  assert (Hpos : 0 < n).
  { apply amountSize_spec; try done. unfold len. destruct ordered; [done|]. cbn. lia. }
  assert (Hlen : length (take (Z.to_nat n) ranked) = Z.to_nat n).
  { rewrite length_take, Hr. unfold len in *. lia. }
  exists (take (Z.to_nat n) ranked). unfold canary_pick. split_and!; try done.
  - eapply sublist_NoDup; [rewrite <- (ids_perm _ _ Hr) in Hnd; exact Hnd|].
    apply fmap_sublist, sublist_take.
  - intros u (c & Hc & <-)%elem_ids. apply elem_ids. exists c. split; [|done].
    rewrite <- Hr. by eapply subseteq_take.
  - intros E. rewrite E in Hlen. cbn in Hlen. lia.
  - unfold len at 1. rewrite Hlen. lia.
Qed.

Lemma canary_set_explicit spec ordered byID seed set :
  canary_ClusterIDs spec <> [] -> NoDup (canary_ClusterIDs spec) ->
  NoDup (ids ordered) -> (forall u, is_Some (byID !! u) <-> u ∈ ids ordered) ->
  canary_set spec ordered byID seed = Ok set ->
  exists k, canary_pick ordered k set /\ ids k ≡ₚ canary_ClusterIDs spec.
Proof.
  intros Hcl Hnd' Hnd Hdom. unfold canary_set.
  replace (len (canary_ClusterIDs spec) =? 0) with false
    by (symmetry; apply Z.eqb_neq; by rewrite len_nil_iff).
  cbn [negb]. rewrite res_bind_Ok. intros ([] & Hin & [= <-]). rewrite res_iter_Ok in Hin.
  assert (Hall : forall u, u ∈ canary_ClusterIDs spec -> u ∈ ids ordered).
  { intros u Hu. apply Hdom. rewrite Forall_forall in Hin. specialize (Hin u Hu).
    rewrite fail_if_Ok, bool_decide_eq_false in Hin. by destruct (byID !! u). }
  set (k := filter (fun c => ID c ∈ (list_to_set (canary_ClusterIDs spec) : gset uuid)) ordered).
  assert (Hk : forall u, u ∈ ids k <-> u ∈ canary_ClusterIDs spec).
  { intros u. rewrite elem_ids. split.
    - intros (c & [Hc _]%list_elem_of_filter & <-). by rewrite elem_of_list_to_set in Hc.
    - intros Hu. pose proof (Hall u Hu) as (c & Hc & <-)%elem_ids. exists c. split; [|done].
      apply list_elem_of_filter. by rewrite elem_of_list_to_set. }
  assert (HNk : NoDup (ids k)).
  { eapply sublist_NoDup; [exact Hnd|]. apply fmap_sublist, sublist_filter. }
  exists k. unfold canary_pick. split_and!; try done.
  - intros u Hu. apply Hall. by apply Hk.
  - intros E. rewrite E in Hk. destruct (canary_ClusterIDs spec) as [|u us]; [done|].
    assert (Hu : u ∈ @nil uuid) by (apply Hk; left). by apply elem_of_nil in Hu.
  - apply set_eq. intros u. rewrite !elem_of_list_to_set. symmetry. apply Hk.
  - apply NoDup_Permutation; done.
Qed.

Lemma canary_pick_split ordered k set :
  NoDup (ids ordered) -> canary_pick ordered k set ->
  let canary := filter (fun c => ID c ∈ set) ordered in
  let rest := filter (fun c => ID c ∉ set) ordered in
  ids canary ++ ids rest ≡ₚ ids ordered /\ canary <> [] /\ ids canary ≡ₚ ids k.
Proof.
  intros Hnd (Hk & Hsub & Hkne & ->). cbn zeta.
  pose proof (filter_set_perm ordered k Hnd Hk Hsub) as Hp. split_and!; [|intros E|done].
  - unfold ids. rewrite <- map_app. apply Permutation_map, filter_app_complement.
  - rewrite E in Hp. apply Permutation_nil_l in Hp. by destruct k.
Qed.

Lemma splitCanary_spec spec ordered byID seed canary rest :
  canary_ok spec -> NoDup (ids ordered) -> ordered <> [] -> fleet_bound (len ordered) ->
  (forall u, is_Some (byID !! u) <-> u ∈ ids ordered) ->
  splitCanary spec ordered byID seed = Ok (canary, rest) ->
  ids canary ++ ids rest ≡ₚ ids ordered /\ canary <> [] /\
  (canary_ClusterIDs spec = [] ->
     len (ids canary) = amountSize (canary_Size spec) (len ordered) true) /\
  (canary_ClusterIDs spec <> [] -> ids canary ≡ₚ canary_ClusterIDs spec).
Proof.
  intros [Hspec _] Hnd Hne Hf Hdom. unfold splitCanary. rewrite res_bind_Ok.
  intros (set & Hset & [= <- <-]). destruct (canary_ClusterIDs spec) as [|u0 us] eqn:Ecl.
  - destruct (canary_set_size _ _ _ _ _ Ecl Hspec Hnd Hne Hf Hset) as (k & Hk & Hlen).
    destruct (canary_pick_split _ _ _ Hnd Hk) as (H1 & H2 & H3). split_and!; try done.
    intros _. rewrite <- Hlen. unfold len. rewrite H3. unfold ids. by rewrite length_map.
  - rewrite <- Ecl in Hspec. destruct Hspec as [(_ & _ & Hnd') _].
    destruct (canary_set_explicit spec ordered byID seed set) as (k & Hk & Hids); try done.
    { by rewrite Ecl. }
    destruct (canary_pick_split _ _ _ Hnd Hk) as (H1 & H2 & H3). split_and!; try done.
    intros _. by rewrite H3, Hids, Ecl.
Qed.

(** ** All strategies *)

(** What each strategy promises about the size and membership of its cohorts. *)
Definition strategy_promise (s : RolloutStrategy) (fleet : list Candidate) (cs : list Cohort) : Prop :=
  let small c := len (cohort_ClusterIDs c) <= Z.of_N (MaxConcurrent s) in
  match strategy_Type s with
  | StrategyAllAtOnce => length cs = 1%nat
  | StrategyRolling => Forall small cs
  | StrategyCanary =>
      match Canary s, cs with
      | Some spec, c :: rest =>
          Forall small rest /\
          (canary_ClusterIDs spec = [] ->
             len (cohort_ClusterIDs c) = amountSize (canary_Size spec) (len fleet) true) /\
          (canary_ClusterIDs spec <> [] -> cohort_ClusterIDs c ≡ₚ canary_ClusterIDs spec)
      | _, _ => False
      end
  | StrategyPartitioned =>
      length cs = length (Partitions s) /\
      forall i c, cs !! i = Some c ->
        Forall (fun u => exists x, x ∈ fleet /\ ID x = u /\ belongs (Partitions s) i x)
          (cohort_ClusterIDs c)
  | StrategyOther _ => False
  end.

Lemma partitioned_cohorts s ordered ms cs :
  Forall partition_ok (Partitions s) -> NoDup (ids ordered) ->
  res_foldl (add_member (Partitions s)) (replicate (length (Partitions s)) []) ordered = Ok ms ->
  partition_cohorts 0 (Partitions s) ms = Ok cs ->
  cohorts_from 0 cs /\ members cs ≡ₚ ids ordered /\ length cs = length (Partitions s) /\
  forall i c, cs !! i = Some c ->
    Forall (fun u => exists x, x ∈ ordered /\ ID x = u /\ belongs (Partitions s) i x)
      (cohort_ClusterIDs c).
Proof.
  intros Hps Hnd Hms Hcs. apply members_fold in Hms as [[Hlen Hbel] Hperm].
  2: { split; [by rewrite length_replicate|]. intros i m Hm.
       apply lookup_replicate in Hm as [-> _]. constructor. }
  assert (Hz : concat (replicate (length (Partitions s)) (@nil Candidate)) = []).
  { clear. induction (length (Partitions s)) as [|n IH]; [done|]. exact IH. }
  rewrite Hz in Hperm. cbn in Hperm.
  apply partition_cohorts_spec in Hcs as [Hfrom Hids]; [| |done].
  2: { eapply Forall_impl; [exact Hps|]. intros p (Hn & Hp). split; [apply Hn | apply Hp]. }
  split_and!; try done.
  - unfold members. rewrite Hids, <- ids_concat. by apply ids_perm.
  - rewrite <- Hlen. apply (f_equal length) in Hids. by rewrite !length_map in Hids.
  - intros i c Hi. assert (Hmi : map cohort_ClusterIDs cs !! i = Some (cohort_ClusterIDs c)).
    { by rewrite (list_lookup_fmap cohort_ClusterIDs), Hi. }
    rewrite Hids, (list_lookup_fmap ids) in Hmi. apply fmap_Some in Hmi as (m & Hm & ->).
    unfold ids. apply Forall_fmap. specialize (Hbel i m Hm). rewrite Forall_forall in Hbel.
    apply Forall_forall. intros x Hx. exists x. split_and!; try done; [|by apply Hbel].
    rewrite <- Hperm.
    apply list_elem_of_In, in_concat. exists m. split; apply list_elem_of_In; [|done].
    by eapply list_elem_of_lookup_2.
Qed.

Lemma strategy_cohorts_spec s ordered byID cs :
  strategy_ok s -> NoDup (ids ordered) -> ordered <> [] -> fleet_bound (len ordered) ->
  (forall u, is_Some (byID !! u) <-> u ∈ ids ordered) ->
  strategy_cohorts s ordered byID = Ok cs ->
  cohorts_from 0 cs /\ members cs ≡ₚ ids ordered /\ strategy_promise s ordered cs.
Proof.
  intros (Hmc & _ & _ & _ & _ & _ & _ & Hty) Hnd Hne Hf Hdom.
  unfold strategy_cohorts, strategy_promise. destruct (strategy_Type s) eqn:Ety; [| | | |done].
  - intros [= <-]. split_and!; try done.
    + unfold cohort_ok. cbn. split_and!; try done. by destruct ordered.
    + unfold members. cbn. by rewrite app_nil_r.
  - intros [= <-]. destruct (batchCohorts_spec ordered (MaxConcurrent s) 0 Hmc) as (H1 & H2 & H3).
    split_and!; try done. by rewrite H2.
  - destruct Hty as (_ & spec & -> & Hspec). rewrite res_bind_Ok.
    intros ([canary rest] & Hsplit & [= <-]).
    apply splitCanary_spec in Hsplit as (Hp & Hcne & Hsize & Hexp); try done.
    destruct (batchCohorts_spec rest (MaxConcurrent s) 1 Hmc) as (H1 & H2 & H3).
    destruct (approve_first_spec (canary_ApprovalAfterCanary spec) 1
      (batchCohorts rest (MaxConcurrent s) 1 "rolling")) as [Ha1 Ha2].
    split_and!; try done.
    + split; [|by apply Ha1]. unfold cohort_ok. cbn. split_and!; try done; [by destruct canary|].
      apply Hspec.
    + unfold members in *. cbn [map concat cohort_ClusterIDs newCohort]. by rewrite Ha2, H2.
    + rewrite <- (Forall_map cohort_ClusterIDs (fun u => len u <= Z.of_N (MaxConcurrent s))), Ha2.
      by apply Forall_map.
  - destruct Hty as (_ & _ & Hps & _). rewrite res_bind_Ok. intros (ms & Hms & Hcs).
    destruct (partitioned_cohorts s ordered ms cs Hps Hnd Hms Hcs) as (? & ? & ? & ?). done.
Qed.

(** ** Rows *)

Lemma plan_ids_spec k o us j r :
  plan_ids k o us !! j = Some r ->
  planned_Order r = o + Z.of_nat j /\ planned_Cohort r = k /\ us !! j = Some (planned_ClusterID r) /\
  planned_Desired r = None /\ planned_Previous r = None.
Proof.
  revert o j. induction us as [|u us IH]; intros o j; [done|]. destruct j as [|j]; cbn.
  - intros [= <-]. cbn. split_and!; try done. lia.
  - intros (? & ? & ? & ? & ?)%IH. split_and!; try done. lia.
Qed.

Lemma plan_ids_ids k o us : map planned_ClusterID (plan_ids k o us) = us.
Proof. revert o. induction us as [|u us IH]; intros o; cbn; [done|]. by rewrite IH. Qed.

Lemma plan_rows_ids o cs : map planned_ClusterID (plan_rows o cs) = members cs.
Proof.
  revert o. unfold members. induction cs as [|c cs IH]; intros o; cbn; [done|].
  by rewrite map_app, plan_ids_ids, IH.
Qed.

Lemma plan_rows_lookup i o cs j r :
  cohorts_from i cs -> plan_rows o cs !! j = Some r ->
  planned_Order r = o + Z.of_nat j /\ planned_Desired r = None /\ planned_Previous r = None /\
  exists n c, planned_Cohort r = i + Z.of_nat n /\ cs !! n = Some c /\
    planned_ClusterID r ∈ cohort_ClusterIDs c.
Proof.
  revert i o j. induction cs as [|c cs IH]; intros i o j; [done|]. intros [[Hi _] Hcs]. cbn [plan_rows].
  rewrite lookup_app_Some. intros [Hr|[Hge Hr]].
  - apply plan_ids_spec in Hr as (? & ? & Hu & ? & ?). split_and!; try done.
    exists O, c. split_and!; [lia|done|]. by eapply list_elem_of_lookup_2.
  - apply (IH (i + 1)) in Hr as (Ho & ? & ? & n & d & Hn & Hd & Hu); [|done].
    assert (Hl : length (plan_ids (cohort_Index c) o (cohort_ClusterIDs c)) =
      length (cohort_ClusterIDs c)).
    { rewrite <- (plan_ids_ids (cohort_Index c) o (cohort_ClusterIDs c)) at 2. by rewrite length_map. }
    rewrite Hl in *. unfold len in *. split_and!; try done; [lia|].
    exists (S n), d. split_and!; [lia|done|done].
Qed.

(** ** BuildCohorts *)

Lemma BuildCohorts_inv s cs cohorts rows :
  BuildCohorts s cs = Ok (cohorts, rows) ->
  exists ordered byID, strategy_ok s /\ order_candidates cs (ShuffleSeed s) = Ok (ordered, byID) /\
    ordered <> [] /\ strategy_cohorts s ordered byID = Ok cohorts /\ rows = plan_rows 0 cohorts.
Proof.
  unfold BuildCohorts. intros Hb. res_inv.
  match goal with x : (list Candidate * gmap uuid Candidate)%type |- _ => destruct x as [ordered byID] end.
  res_inv. bool_props. exists ordered, byID. split_and!; try done.
  - by eapply RolloutStrategy_Validate_iff.
  - intros ->. done.
Qed.

Lemma strategy_promise_perm s l k cs : l ≡ₚ k -> strategy_promise s l cs -> strategy_promise s k cs.
Proof.
  intros Hp. unfold strategy_promise, len. destruct (strategy_Type s); try done.
  - destruct (Canary s), cs; try done. by rewrite Hp.
  - intros [Hl Hall]. split; [done|]. intros i c Hi. eapply Forall_impl; [by apply (Hall i c)|].
    intros u (x & Hx & ?). exists x. by rewrite <- Hp.
Qed.

Lemma BuildCohorts_shape s cs cohorts rows :
  fleet_bound (len cs) -> BuildCohorts s cs = Ok (cohorts, rows) ->
  cohorts_from 0 cohorts /\ members cohorts ≡ₚ ids cs /\ NoDup (ids cs) /\
  Forall (fun u => u <> uuid_Nil) (ids cs) /\ strategy_ok s /\ cs <> [] /\
  rows = plan_rows 0 cohorts /\ strategy_promise s cs cohorts.
Proof.
  intros Hf (ordered & byID & Hs & Ho & Hne & Hc & ->)%BuildCohorts_inv.
  apply order_candidates_spec in Ho as (Hord & Hnd & Hnil & Hdom).
  assert (Hp : ordered ≡ₚ cs) by (rewrite Hord; apply sort_slice_Permutation).
  apply strategy_cohorts_spec in Hc as (Hfrom & Hmem & Hprom); try done.
  - split_and!; try done.
    + by rewrite Hmem, (ids_perm _ _ Hp).
    + intros ->. apply Permutation_nil_r in Hp. done.
    + by apply (strategy_promise_perm s ordered).
  - by rewrite (ids_perm _ _ Hp).
  - unfold len. by rewrite Hp.
  - intros u. by rewrite Hdom, (ids_perm _ _ Hp).
Qed.

(** C33: a rollout's cohorts partition the selected clusters: every cluster is
    in exactly one cohort, no cohort is empty, the cohorts are numbered 0, 1,
    2, ... and the planned rows list the members cohort by cohort, each with
    its position and the index of its cohort. *)
Theorem BuildCohorts_partition s cs cohorts rows :
  fleet_bound (len cs) -> BuildCohorts s cs = Ok (cohorts, rows) ->
  members cohorts ≡ₚ ids cs /\ NoDup (members cohorts) /\
  (forall i c, cohorts !! i = Some c -> cohort_Index c = Z.of_nat i /\ cohort_ClusterIDs c <> []) /\
  map planned_ClusterID rows = members cohorts /\
  (forall j r, rows !! j = Some r ->
     planned_Order r = Z.of_nat j /\
     exists n c, planned_Cohort r = Z.of_nat n /\ cohorts !! n = Some c /\
       planned_ClusterID r ∈ cohort_ClusterIDs c).
Proof.
  intros Hf (Hfrom & Hmem & Hnd & _ & _ & _ & -> & _)%BuildCohorts_shape; [|done].
  split_and!; try done.
  - by rewrite Hmem.
  - intros i c Hi. apply (cohorts_from_lookup 0 _ _ _ Hfrom) in Hi as (? & ? & _). split; [lia|done].
  - apply plan_rows_ids.
  - intros j r Hr. apply (plan_rows_lookup 0 0) in Hr as (? & _ & _ & n & c & ? & ? & ?); [|done].
    split; [lia|]. exists n, c. split_and!; [lia|done|done].
Qed.

(** Every strategy keeps its promise: rolling batches, and the batches
    after a canary, never exceed the concurrency cap; the canary cohort has
    exactly the explicit members or the requested count (a percentage of the
    fleet rounded up); and under a partitioned strategy a cluster is in the
    cohort of the one partition whose selector matches it. *)
Theorem BuildCohorts_promise s cs cohorts rows :
  fleet_bound (len cs) -> BuildCohorts s cs = Ok (cohorts, rows) ->
  strategy_promise s cs cohorts.
Proof. intros Hf Hb. by apply BuildCohorts_shape in Hb as (_ & _ & _ & _ & _ & _ & _ & ?). Qed.

Lemma add_by_id_comm m x y r :
  add_by_id m x ≫= (fun m' => add_by_id m' y) = Ok r ->
  add_by_id m y ≫= (fun m' => add_by_id m' x) = Ok r.
Proof.
  unfold add_by_id. intros Hr. res_inv. bool_props.
  assert (Hne : ID x <> ID y).
  { intros E. rewrite E in *. match goal with Hn : ~ is_Some (<[_ := _]> _ !! _) |- _ => apply Hn end.
    rewrite lookup_insert_eq. eauto. }
  rewrite lookup_insert_ne in * by done.
  rewrite !bool_decide_false by done. cbn.
  rewrite lookup_insert_ne, !bool_decide_false by done. cbn. by rewrite insert_insert_ne.
Qed.

(** The order in which the selected clusters are supplied never changes
    the cohorts, their order or the planned rows. *)
Theorem BuildCohorts_order_free s cs cs' cohorts rows :
  cs ≡ₚ cs' -> BuildCohorts s cs = Ok (cohorts, rows) -> BuildCohorts s cs' = Ok (cohorts, rows).
Proof.
  intros Hp. unfold BuildCohorts. rewrite res_bind_Ok. intros ([] & Hv & Hb). rewrite Hv.
  cbn [mbind res_bind]. rewrite res_bind_Ok in Hb. destruct Hb as ([ordered byID] & Ho & Hb).
  rewrite res_bind_Ok. exists (ordered, byID). split; [|done].
  pose proof Ho as (-> & Hnd & _)%order_candidates_spec.
  unfold order_candidates in Ho |- *. rewrite res_bind_Ok in Ho. rewrite res_bind_Ok.
  destruct Ho as (m & Hm & [= <-]). exists m. split.
  - eapply (res_foldl_perm add_by_id (fun _ => True)); [done| |exact Hp|done|done].
    intros acc x y r _. apply add_by_id_comm.
  - by rewrite (order_sort_unique _ _ _ Hnd Hp).
Qed.
End facts.

(** ** A concrete canary rollout *)

Definition example_strategy : RolloutStrategy :=
  {| strategy_Type := StrategyCanary; MaxConcurrent := 2;
     MaxUnavailable := {| amount_Type := AmountPercent; amount_Value := 50 |};
     MinReady := 60; ProgressDeadline := 3600;
     FailureThreshold := {| amount_Type := AmountCount; amount_Value := 1 |};
     OnFailure := FailureRollback; RespectMaintenanceWindows := false; ShuffleSeed := "seed";
     Canary := Some {| canary_Size := {| amount_Type := AmountPercent; amount_Value := 30 |};
       canary_ClusterIDs := []; canary_ApprovalAfterCanary := true; canary_Soak := 10 |};
     Partitions := [] |}.

Lemma example_builds :
  is_ok (@BuildCohorts Concrete.external example_strategy PlacementFacts.example_candidates) = true.
Proof. vm_compute. reflexivity. Qed.

Lemma example_fleet : fleet_bound (len PlacementFacts.example_candidates).
Proof. split; vm_compute; discriminate. Qed.

Lemma BuildCohorts_partition_witness :
  exists cohorts rows,
    @BuildCohorts Concrete.external example_strategy PlacementFacts.example_candidates =
      Ok (cohorts, rows) /\
    members cohorts ≡ₚ ids PlacementFacts.example_candidates.
Proof.
  destruct (is_ok_Ok _ example_builds) as [[cohorts rows] E]. exists cohorts, rows.
  split; [exact E|].
  exact (proj1 (@BuildCohorts_partition Concrete.external example_strategy
    PlacementFacts.example_candidates cohorts rows example_fleet E)).
Defined.

Lemma BuildCohorts_promise_witness :
  exists cohorts rows,
    @BuildCohorts Concrete.external example_strategy PlacementFacts.example_candidates =
      Ok (cohorts, rows) /\
    strategy_promise example_strategy PlacementFacts.example_candidates cohorts.
Proof.
  destruct (is_ok_Ok _ example_builds) as [[cohorts rows] E]. exists cohorts, rows.
  split; [exact E|].
  exact (@BuildCohorts_promise Concrete.external example_strategy
    PlacementFacts.example_candidates cohorts rows example_fleet E).
Defined.

Lemma BuildCohorts_order_free_witness :
  exists cohorts rows,
    @BuildCohorts Concrete.external example_strategy (reverse PlacementFacts.example_candidates) =
      Ok (cohorts, rows).
Proof.
  destruct (is_ok_Ok _ example_builds) as [[cohorts rows] E]. exists cohorts, rows.
  refine (@BuildCohorts_order_free Concrete.external example_strategy
    PlacementFacts.example_candidates _ cohorts rows _ E).
  symmetry. apply reverse_Permutation.
Defined.
End CohortsFacts.
