(* ===== verification/Planner.v ===== *)
(** * The rollout planner (internal/delivery/rollout/planner.go)

    [Create] freezes a rollout in one storage transaction.  The store is an
    interface, as in the source: [PlanningTransaction] lists its operations over
    some store state, [PlanningLaws] what the planner needs of them.  The state
    of a failed transaction is discarded. *)

From Stdlib Require Import ZArith Lia Ascii.
From S2P Require Import Prelude GoStrings External Validation Overrides Model Types RolloutTypes.
From S2P Require Import Placement Cohorts.
From stdpp Require Import base gmap strings list.
Import Overrides Model Types RolloutTypes Placement Cohorts.

Module Planner.

Definition MaxRolloutClusters : Z := 10000.

(** ** Data *)

(** [audit.Intent], with the fields of its event the planner reads or sets. *)
Record Intent := {
  intent_Action : string;
  intent_ResourceID : string;
  intent_Detail : gmap string json;
  intent_DedupeKey : string;
}.

(** [audit.Intent.IsZero] *)
Definition Intent_IsZero (i : Intent) : bool :=
  (TrimSpace (intent_Action i) == "") || (TrimSpace (intent_DedupeKey i) == "").

Record PlanningSnapshot := {
  snapshot_TargetID : uuid;
  snapshot_ProjectID : uuid;
  snapshot_TargetGeneration : N;
  snapshot_Desired : VersionIdentity;
  DesiredByCluster : gmap uuid VersionIdentity;
  ConfigurationSetDigest : Digest;
  PlacementRequest : Placement.Request;
  InitialApproval : bool;
  PreviousByCluster : gmap uuid PreviousDeployment;
}.

Record CreateRequest := {
  create_TargetID : uuid;
  ExpectedTargetGeneration : N;
  create_PreviewDigest : Digest;
  ConfirmAllClusters : bool;
  create_Strategy : RolloutStrategy;
  create_Actor : string;
  create_IdempotencyKey : string;
  create_Audit : Intent;
}.

(** The interface [PlanningTransaction] of types.go over a store state.  Waiting
    for the target's row lock lets other transactions commit, so the state after
    [LoadSnapshotForUpdate] need not be the state before it. *)
Class PlanningTransaction (S : Type) := {
  FindByIdempotency : S -> uuid -> string -> res (option FrozenRollout);
  LoadSnapshotForUpdate : S -> uuid -> res (PlanningSnapshot * S);
  InsertRollout : S -> FrozenRollout -> res S;
  AppendRolloutCreated : S -> FrozenRollout -> res S;
  EnqueueRollout : S -> uuid -> res S;
  RecordAuditIntent : S -> Intent -> res S;
}.

(** What the planner relies on: the bound on candidates is checked by
    [LoadSnapshotForUpdate] of postgres_store.go; an inserted rollout is found
    under its target and key, and the other writes leave rollouts alone. *)
Class PlanningLaws (S : Type) `{PlanningTransaction S} := {
  snapshot_bounded : forall s t snap s', LoadSnapshotForUpdate s t = Ok (snap, s') ->
    (len (Candidates (PlacementRequest snap)) <= MaxRolloutClusters)%Z;
  find_inserted : forall s p s', InsertRollout s p = Ok s' ->
    FindByIdempotency s' (plan_TargetID p) (plan_IdempotencyKey p) = Ok (Some p);
  append_keeps : forall s p s' t k, AppendRolloutCreated s p = Ok s' ->
    FindByIdempotency s' t k = FindByIdempotency s t k;
  enqueue_keeps : forall s u s' t k, EnqueueRollout s u = Ok s' ->
    FindByIdempotency s' t k = FindByIdempotency s t k;
  audit_keeps : forall s i s' t k, RecordAuditIntent s i = Ok s' ->
    FindByIdempotency s' t k = FindByIdempotency s t k;
}.

Section planner.
Context `{External}.

(** [validateCreateRequest] (types.go) *)
Definition validateCreateRequest (request : CreateRequest) : res unit :=
  fail_if (create_TargetID request == uuid_Nil)
    (fail CodeInvalidInput "target_id" "must be a non-zero UUID");;
  fail_if (ExpectedTargetGeneration request =? 0)%N
    (fail CodeInvalidInput "expected_target_generation" "must be positive");;
  wrap_err (ERollout CodeInvalidInput "preview_digest")
    (Digest_Validate (create_PreviewDigest request));;
  wrap_err (ERollout CodeInvalidInput "strategy")
    (RolloutStrategy_Validate (create_Strategy request));;
  fail_if ((TrimSpace (create_Actor request) == "") ||
           (MaxActorLength <? slen (create_Actor request))%Z ||
           ContainsAny (create_Actor request) crlfnul)
    (fail CodeInvalidInput "actor" "must be 1..%d safe bytes");;
  fail_if ((TrimSpace (create_IdempotencyKey request) == "") ||
           (MaxIdempotencyKeyLength <? slen (create_IdempotencyKey request))%Z ||
           ContainsAny (create_IdempotencyKey request) crlfnul)
    (fail CodeInvalidInput "idempotency_key" "must be 1..%d safe bytes").

(** [validateSnapshot] *)
Definition validateSnapshot (snapshot : PlanningSnapshot) : res unit :=
  fail_if (snapshot_ProjectID snapshot == uuid_Nil)
    (fail CodeInvariant "snapshot.project_id" "must be a non-zero UUID");;
  wrap_err (ERollout CodeInvariant "snapshot.desired")
    (VersionIdentity_Validate (snapshot_Desired snapshot));;
  (if ConfigurationSetDigest snapshot != "" then
     wrap_err (ERollout CodeInvariant "snapshot.configuration_set_digest")
       (Digest_Validate (ConfigurationSetDigest snapshot))
   else Ok tt);;
  let expectedPlacementDigest :=
    if ConfigurationSetDigest snapshot != "" then ConfigurationSetDigest snapshot
    else version_Digest (snapshot_Desired snapshot) in
  let identity := request_Identity (PlacementRequest snapshot) in
  fail_if ((TargetGeneration identity != snapshot_TargetGeneration snapshot) ||
           (BundleVersionID identity != version_BundleVersionID (snapshot_Desired snapshot)) ||
           (BundleSpecDigest identity != expectedPlacementDigest) ||
           (ResolvedRevision identity !=
              resolved_Revision (version_Source (snapshot_Desired snapshot))))
    (fail CodeInvariant "snapshot.placement_identity"
       "does not match the frozen target and desired version");;
  res_iter (fun cd =>
    fail_if ((cd.1 == uuid_Nil) ||
             (version_BundleVersionID cd.2 != version_BundleVersionID (snapshot_Desired snapshot)))
      (fail CodeInvariant "snapshot.desired_by_cluster"
         "contains an invalid cluster or bundle identity");;
    wrap_err (ERollout CodeInvariant "snapshot.desired_by_cluster") (VersionIdentity_Validate cd.2))
    (map_to_list (DesiredByCluster snapshot));;
  res_iter (fun cp =>
    fail_if (cp.1 == uuid_Nil) (fail CodeInvariant "snapshot.previous" "contains a zero cluster UUID");;
    wrap_err (ERollout CodeInvariant "snapshot.previous") (PreviousDeployment_Validate cp.2))
    (map_to_list (PreviousByCluster snapshot)).

(** ** Digests *)

(** The document of [approvalDigest]: the plan's identity and, per cluster of
    the cohort (of every cohort when [cohort] is negative), its version. *)
Record ApprovalDocument := {
  document_plan : FrozenRollout;
  document_cohort : Z;
  document_clusterIDs : list uuid;
  document_configurations : list (uuid * Digest);
}.

#[export] Instance configuration_json : ToJSON (uuid * Digest) := fun c =>
  JObject (field "cluster_id" c.1 ++ field "spec_digest" c.2).

#[export] Instance ApprovalDocument_json : ToJSON ApprovalDocument := fun d =>
  let plan := document_plan d in
  JObject (field "rollout_id" (plan_ID plan) ++
           field "target_id" (plan_TargetID plan) ++
           field "target_generation" (Z.of_N (plan_TargetGeneration plan)) ++
           field "placement_digest" (plan_PlacementDigest plan) ++
           field "bundle_version_id" (version_BundleVersionID (plan_Desired plan)) ++
           field "spec_digest" (version_Digest (plan_Desired plan)) ++
           field "strategy_digest" (plan_StrategyDigest plan) ++
           field "actor" (plan_Actor plan) ++
           field "cohort" (document_cohort d) ++
           field_omit "cluster_ids" (len (document_clusterIDs d) =? 0)%Z (document_clusterIDs d) ++
           field "configurations" (document_configurations d)).

Definition configurations (plan : FrozenRollout) (cohort : Z) : list (uuid * Digest) :=
  map (fun c => (planned_ClusterID c,
                 match planned_Desired c with
                 | Some d => version_Digest d
                 | None => version_Digest (plan_Desired plan)
                 end))
    (filter (fun c => ~ ((0 <= cohort)%Z /\ planned_Cohort c <> cohort)) (plan_Clusters plan)).

(** The members an approval of [cohort] covers; none are listed for the approval
    of the whole rollout. *)
Definition approval_members (cohorts : list Cohort) (cohort : Z) : res (list uuid) :=
  if (0 <=? cohort)%Z then
    match cohorts !! Z.to_nat cohort with
    | Some c =>
        fail_if (cohort_Index c != cohort)
          (fail CodeInvariant "cohort" "approval cohort index is inconsistent");;
        Ok (cohort_ClusterIDs c)
    | None => Err (fail CodeInvariant "cohort" "approval cohort index is inconsistent")
    end
  else Ok [].

(** [approvalDigest] *)
Definition approvalDigest (plan : FrozenRollout) (cohort : Z) : res Digest :=
  clusterIDs ← approval_members (plan_Cohorts plan) cohort;
  CanonicalDigest {| document_plan := plan; document_cohort := cohort;
                     document_clusterIDs := clusterIDs;
                     document_configurations := configurations plan cohort |}.

Definition with_digests (plan : FrozenRollout) (approval : Digest) (cohorts : list Cohort)
    (digest : Digest) : FrozenRollout :=
  {| plan_ID := plan_ID plan; plan_TargetID := plan_TargetID plan;
     plan_ProjectID := plan_ProjectID plan; plan_TargetGeneration := plan_TargetGeneration plan;
     plan_Desired := plan_Desired plan; plan_PlacementDigest := plan_PlacementDigest plan;
     plan_Strategy := plan_Strategy plan; plan_StrategyDigest := plan_StrategyDigest plan;
     plan_Approval := {| approval_Required := approval_Required (plan_Approval plan);
                         approval_Digest := approval |};
     plan_Actor := plan_Actor plan; plan_IdempotencyKey := plan_IdempotencyKey plan;
     plan_RequestDigest := plan_RequestDigest plan; plan_CreatedAt := plan_CreatedAt plan;
     plan_Deadline := plan_Deadline plan; plan_Cohorts := cohorts;
     plan_Clusters := plan_Clusters plan; plan_PlanDigest := digest |}.

(** [frozenDigest] *)
Definition frozenDigest (plan : FrozenRollout) : res Digest :=
  CanonicalDigest (with_digests plan (approval_Digest (plan_Approval plan)) (plan_Cohorts plan) "").

(** ** [FrozenRollout.Validate] *)

(** The walk over the rows: the clusters seen and the next expected order. *)
Definition check_cluster (plan : FrozenRollout) (index : Z) (st : gset uuid * nat)
    (clusterID : uuid) : res (gset uuid * nat) :=
  let '(seen, expectedOrder) := st in
  match plan_Clusters plan !! expectedOrder with
  | None => Err (fail CodeInvariant "clusters" "cohort membership exceeds cluster rows")
  | Some cluster =>
      fail_if ((planned_ClusterID cluster != clusterID) || (planned_Cohort cluster != index) ||
               (planned_Order cluster != Z.of_nat expectedOrder))
        (fail CodeInvariant "clusters" "rows do not match frozen cohort order");;
      fail_if (bool_decide (clusterID ∈ seen))
        (fail CodeInvariant "clusters" "contains duplicate membership");;
      match planned_Desired cluster with
      | Some desired =>
          VersionIdentity_Validate desired;;
          fail_if (version_BundleVersionID desired != version_BundleVersionID (plan_Desired plan))
            (fail CodeInvariant "clusters.desired" "bundle version must match the rollout")
      | None => Ok tt
      end;;
      match planned_Previous cluster with
      | Some previous => PreviousDeployment_Validate previous
      | None => Ok tt
      end;;
      Ok ({[clusterID]} ∪ seen, S expectedOrder)
  end.

Definition check_cohort (plan : FrozenRollout) (st : gset uuid * nat) (ic : Z * Cohort) :
  res (gset uuid * nat) :=
  let '(index, cohort) := ic in
  fail_if ((cohort_Index cohort != index) || (cohort_Name cohort == "") ||
           (len (cohort_ClusterIDs cohort) =? 0)%Z || (cohort_SoakAfter cohort <? 0)%Z)
    (fail CodeInvariant "cohorts" "indices, names, membership, and soak must be valid");;
  (if cohort_ApprovalRequired cohort then
     match approvalDigest plan index with
     | Ok digest => fail_if (digest != cohort_ApprovalDigest cohort)
         (fail CodeInvariant "cohort.approval_digest" "does not match frozen cohort")
     | Err _ => Err (fail CodeInvariant "cohort.approval_digest" "does not match frozen cohort")
     end
   else fail_if (cohort_ApprovalDigest cohort != "")
     (fail CodeInvariant "cohort.approval_digest" "must be empty when approval is not required"));;
  res_foldl (check_cluster plan index) st (cohort_ClusterIDs cohort).

Definition enumerate_cohorts (cohorts : list Cohort) : list (Z * Cohort) :=
  imap (fun i c => (Z.of_nat i, c)) cohorts.

(** The digests are checked in the iteration order of a map; only the field
    named in the error depends on it. *)
Definition check_digests (plan : FrozenRollout) : res unit :=
  res_iter (fun fd => wrap_err (ERollout CodeInvalidInput fd.1) (Digest_Validate fd.2))
    [("placement_digest", plan_PlacementDigest plan); ("strategy_digest", plan_StrategyDigest plan);
     ("request_digest", plan_RequestDigest plan);
     ("approval.digest", approval_Digest (plan_Approval plan));
     ("plan_digest", plan_PlanDigest plan)].

Definition digest_is (r : res Digest) (d : Digest) (e : error) : res unit :=
  match r with Ok digest => fail_if (digest != d) e | Err _ => Err e end.

Definition FrozenRollout_Validate (plan : FrozenRollout) : res unit :=
  fail_if ((plan_ID plan == uuid_Nil) || (plan_TargetID plan == uuid_Nil) ||
           (plan_ProjectID plan == uuid_Nil) || (plan_TargetGeneration plan =? 0)%N)
    (fail CodeInvalidInput "identity" "rollout, target, project, and generation are required");;
  VersionIdentity_Validate (plan_Desired plan);;
  check_digests plan;;
  RolloutStrategy_Validate (plan_Strategy plan);;
  digest_is (RolloutStrategy_CanonicalDigest (plan_Strategy plan)) (plan_StrategyDigest plan)
    (fail CodeInvariant "strategy_digest" "does not match strategy");;
  fail_if ((plan_CreatedAt plan =? 0)%Z || negb (plan_CreatedAt plan <? plan_Deadline plan)%Z ||
           (plan_Deadline plan != plan_CreatedAt plan + ProgressDeadline (plan_Strategy plan))%Z)
    (fail CodeInvalidInput "deadline" "must equal creation time plus progress deadline");;
  fail_if ((len (plan_Cohorts plan) =? 0)%Z || (len (plan_Clusters plan) =? 0)%Z)
    (fail CodeInvalidInput "cohorts" "must not be empty");;
  walked ← res_foldl (check_cohort plan) (∅, O) (enumerate_cohorts (plan_Cohorts plan));
  fail_if (Z.of_nat walked.2 != len (plan_Clusters plan))
    (fail CodeInvariant "clusters" "contains rows absent from cohorts");;
  digest_is (approvalDigest plan (-1)) (approval_Digest (plan_Approval plan))
    (fail CodeInvariant "approval.digest" "does not match frozen rollout");;
  digest ← frozenDigest plan;
  fail_if (digest != plan_PlanDigest plan)
    (fail CodeInvariant "plan_digest" "does not match immutable plan: got %s").

(** ** [Planner.Create] *)

Record RequestDocument := {
  document_request : CreateRequest;
  document_strategyDigest : Digest;
}.

#[export] Instance RequestDocument_json : ToJSON RequestDocument := fun d =>
  let r := document_request d in
  JObject (field "target_id" (create_TargetID r) ++
           field "expected_target_generation" (Z.of_N (ExpectedTargetGeneration r)) ++
           field "preview_digest" (create_PreviewDigest r) ++
           field "confirm_all_clusters" (ConfirmAllClusters r) ++
           field "strategy_digest" (document_strategyDigest d) ++
           field "actor" (create_Actor r)).

(** The checks and digests before the transaction. *)
Definition prepare (request : CreateRequest) : res (Digest * Digest) :=
  validateCreateRequest request;;
  fail_if (Intent_IsZero (create_Audit request))
    (EText "transactional audit outbox is unavailable");;
  strategyDigest ← wrap_err (ERollout CodeInvalidInput "strategy")
    (RolloutStrategy_CanonicalDigest (create_Strategy request));
  requestDigest ← wrap_err (ERollout CodeInvalidInput "request")
    (CanonicalDigest {| document_request := request; document_strategyDigest := strategyDigest |});
  Ok (strategyDigest, requestDigest).

(** The loop that attaches versions to the rows. *)
Definition attach_versions (snapshot : PlanningSnapshot) (c : PlannedCluster) : PlannedCluster :=
  {| planned_ClusterID := planned_ClusterID c; planned_Cohort := planned_Cohort c;
     planned_Order := planned_Order c;
     planned_Desired :=
       match DesiredByCluster snapshot !! planned_ClusterID c with
       | Some desired => Some desired
       | None => planned_Desired c
       end;
     planned_Previous :=
       match PreviousByCluster snapshot !! planned_ClusterID c with
       | Some previous => Some previous
       | None => planned_Previous c
       end |}.

Definition with_approval_digest (c : Cohort) (digest : Digest) : Cohort :=
  {| cohort_Index := cohort_Index c; cohort_Name := cohort_Name c;
     cohort_ClusterIDs := cohort_ClusterIDs c;
     cohort_ApprovalRequired := cohort_ApprovalRequired c; cohort_ApprovalDigest := digest;
     cohort_SoakAfter := cohort_SoakAfter c |}.

(** The loop that binds the approvals of the cohorts; [approvalDigest] does not
    read the digests the loop has already stored. *)
Fixpoint bind_approvals (plan : FrozenRollout) (cohorts : list Cohort) : res (list Cohort) :=
  match cohorts with
  | [] => Ok []
  | c :: cs =>
      c' ← (if cohort_ApprovalRequired c then
              digest ← approvalDigest plan (cohort_Index c); Ok (with_approval_digest c digest)
            else Ok c);
      cs' ← bind_approvals plan cs;
      Ok (c' :: cs')
  end.

(** The plan before its digests are bound. *)
Definition draft_plan (request : CreateRequest) (snapshot : PlanningSnapshot)
    (strategyDigest requestDigest : Digest) (placementResult : Placement.Result)
    (cohorts : list Cohort) (clusters : list PlannedCluster) (createdAt : time) (rolloutID : uuid) :
  FrozenRollout :=
  {| plan_ID := rolloutID; plan_TargetID := snapshot_TargetID snapshot;
     plan_ProjectID := snapshot_ProjectID snapshot;
     plan_TargetGeneration := snapshot_TargetGeneration snapshot;
     plan_Desired := snapshot_Desired snapshot;
     plan_PlacementDigest := PreviewDigest placementResult;
     plan_Strategy := create_Strategy request; plan_StrategyDigest := strategyDigest;
     plan_Approval := {| approval_Required := InitialApproval snapshot; approval_Digest := "" |};
     plan_Actor := create_Actor request; plan_IdempotencyKey := create_IdempotencyKey request;
     plan_RequestDigest := requestDigest; plan_CreatedAt := createdAt;
     plan_Deadline := createdAt + ProgressDeadline (create_Strategy request);
     plan_Cohorts := cohorts; plan_Clusters := map (attach_versions snapshot) clusters;
     plan_PlanDigest := "" |}.

(** From the clusters of the evaluated placement to the frozen plan. *)
Definition freeze (request : CreateRequest) (snapshot : PlanningSnapshot)
    (strategyDigest requestDigest : Digest) (placementResult : Placement.Result)
    (cohorts : list Cohort) (clusters : list PlannedCluster) (createdAt : time) (rolloutID : uuid) :
  res FrozenRollout :=
  fail_if (createdAt =? 0)%Z (fail CodeInvariant "clock" "returned zero time");;
  fail_if (rolloutID == uuid_Nil) (fail CodeInvariant "id_generator" "returned zero UUID");;
  let result := draft_plan request snapshot strategyDigest requestDigest placementResult cohorts
    clusters createdAt rolloutID in
  approval ← approvalDigest result (-1);
  bound ← bind_approvals result cohorts;
  let result := with_digests result approval bound "" in
  digest ← frozenDigest result;
  Ok (with_digests result approval bound digest).

(** From the snapshot loaded under the lock to the frozen plan. *)
Definition plan_rollout (request : CreateRequest) (snapshot : PlanningSnapshot)
    (strategyDigest requestDigest : Digest) (createdAt : time) (rolloutID : uuid) :
  res FrozenRollout :=
  fail_if ((snapshot_TargetID snapshot != create_TargetID request) ||
           (snapshot_TargetGeneration snapshot =? 0)%N)
    (fail CodeInvariant "snapshot" "target identity is inconsistent");;
  fail_if (snapshot_TargetGeneration snapshot != ExpectedTargetGeneration request)
    (fail CodeTargetChanged "target_generation" "target changed after preview");;
  validateSnapshot snapshot;;
  placementResult ← Placement.Evaluate (PlacementRequest snapshot);
  wrap_err (fun e => match e with
                     | EPlacement PCodePreviewStale _ _ => ERollout CodePreviewStale "preview_digest" e
                     | _ => e
                     end)
    (ValidateLaunch placementResult (create_PreviewDigest request) (ConfirmAllClusters request));;
  fail_if (SelectedCount placementResult =? 0)%Z
    (fail CodeNoClusters "placement" "selects no eligible clusters");;
  built ← BuildCohorts (create_Strategy request) (Selected placementResult);
  freeze request snapshot strategyDigest requestDigest placementResult built.1 built.2
    createdAt rolloutID.

(** [recordIntent] *)
Definition audit_intent (request : CreateRequest) (result : FrozenRollout) : Intent :=
  let i := create_Audit request in
  {| intent_Action := intent_Action i;
     intent_ResourceID := uuid_String (plan_ID result);
     intent_Detail :=
       <["approval_required" := JBool (approval_Required (plan_Approval result))]>
       (<["cluster_count" := JNumber (len (plan_Clusters result))]>
       (<["plan_digest" := JString (plan_PlanDigest result)]>
       (<["placement_digest" := JString (plan_PlacementDigest result)]>
       (<["target_generation" := JNumber (Z.of_N (plan_TargetGeneration result))]>
       (<["target_id" := JString (uuid_String (plan_TargetID result))]> (intent_Detail i))))));
     intent_DedupeKey := intent_DedupeKey i |}.

Section store.
Context {S : Type} `{PlanningTransaction S}.

(** The branch for a rollout already bound to the idempotency key. *)
Definition reuse_existing (request : CreateRequest) (requestDigest : Digest) (s : S)
    (existing : FrozenRollout) : res (FrozenRollout * S) :=
  fail_if (plan_RequestDigest existing != requestDigest)
    (fail CodeIdempotencyConflict "idempotency_key" "key is already bound to a different request");;
  wrap_err (ERollout CodeInvariant "existing_rollout") (FrozenRollout_Validate existing);;
  s' ← RecordAuditIntent s (audit_intent request existing);
  Ok (existing, s').

(** The body of the transaction. *)
Definition create_tx (request : CreateRequest) (strategyDigest requestDigest : Digest)
    (createdAt : time) (rolloutID : uuid) (s : S) : res (FrozenRollout * S) :=
  found ← FindByIdempotency s (create_TargetID request) (create_IdempotencyKey request);
  match found with
  | Some existing => reuse_existing request requestDigest s existing
  | None =>
      loaded ← LoadSnapshotForUpdate s (create_TargetID request);
      let '(snapshot, s) := loaded in
      found ← FindByIdempotency s (create_TargetID request) (create_IdempotencyKey request);
      match found with
      | Some existing => reuse_existing request requestDigest s existing
      | None =>
          result ← plan_rollout request snapshot strategyDigest requestDigest createdAt rolloutID;
          wrap_err (ERollout CodeInvariant "plan") (FrozenRollout_Validate result);;
          s1 ← InsertRollout s result;
          s2 ← AppendRolloutCreated s1 result;
          s3 ← EnqueueRollout s2 (plan_ID result);
          s4 ← RecordAuditIntent s3 (audit_intent request result);
          Ok (result, s4)
      end
  end.

(** [Create]: the plan and the committed state, or the error, in which case the
    transaction is rolled back and the caller keeps [s]. *)
Definition Create (request : CreateRequest) (createdAt : time) (rolloutID : uuid) (s : S) :
  res (FrozenRollout * S) :=
  digests ← prepare request;
  create_tx request digests.1 digests.2 createdAt rolloutID s.
End store.
End planner.
End Planner.
