(* ===== verification/PlannerFacts.v ===== *)
(** * The rollout planner: correctness

    A plan that [Create] builds always passes [FrozenRollout.Validate], a retry
    with the same key and request returns the committed plan, and a different
    request under the same key is refused. *)

From Stdlib Require Import ZArith Lia Ascii.
From S2P Require Import Prelude GoSort GoStrings External Validation Overrides Model Types.
From S2P Require Import RolloutTypes Placement PlacementFacts Cohorts CohortsFacts Planner.
From stdpp Require Import base gmap strings list sorting.
Import Overrides Model Types RolloutTypes Placement PlacementFacts Cohorts CohortsFacts Planner.

Module PlannerFacts.

Section facts.
Context `{External} `{!ExternalLaws}.
Set Default Proof Using "Type*".

(** ** Bound cohorts *)

(** [b] is [c] with its approval digest bound, when it needs one. *)
Definition bound_as (plan : FrozenRollout) (c b : Cohort) : Prop :=
  if cohort_ApprovalRequired c then
    exists d, approvalDigest plan (cohort_Index c) = Ok d /\ b = with_approval_digest c d
  else b = c.

Lemma bind_approvals_spec plan cs bs :
  bind_approvals plan cs = Ok bs -> Forall2 (bound_as plan) cs bs.
Proof.
  revert bs. induction cs as [|c cs IH]; intros bs; cbn [bind_approvals].
  { intros [= <-]. constructor. }
  rewrite res_bind_Ok. intros (b & Hb & Hr). res_inv. constructor; [|by apply IH].
  unfold bound_as. destruct (cohort_ApprovalRequired c); res_inv; eauto.
Qed.

Lemma bound_as_same plan c b :
  bound_as plan c b ->
  cohort_Index b = cohort_Index c /\ cohort_Name b = cohort_Name c /\
  cohort_ClusterIDs b = cohort_ClusterIDs c /\ cohort_SoakAfter b = cohort_SoakAfter c /\
  cohort_ApprovalRequired b = cohort_ApprovalRequired c.
Proof.
  unfold bound_as. destruct (cohort_ApprovalRequired c) eqn:E; [intros (d & _ & ->) | intros ->];
    cbn; by rewrite ?E.
Qed.

Lemma approval_members_bound plan cs bs k :
  Forall2 (bound_as plan) cs bs -> approval_members bs k = approval_members cs k.
Proof.
  intros Hb. unfold approval_members. destruct (0 <=? k)%Z; [|done].
  rewrite Forall2_lookup in Hb. destruct (Hb (Z.to_nat k)) as [c b Hcb|]; [|done].
  by apply bound_as_same in Hcb as (-> & _ & -> & _).
Qed.

(** The approval digests of the final plan are those of the plan they were
    computed on. *)
Lemma approvalDigest_with plan a bs d k :
  Forall2 (bound_as plan) (plan_Cohorts plan) bs ->
  approvalDigest (with_digests plan a bs d) k = approvalDigest plan k.
Proof.
  intros Hb. unfold approvalDigest. cbn [plan_Cohorts with_digests].
  rewrite (approval_members_bound _ _ _ k Hb). by destruct (approval_members (plan_Cohorts plan) k).
Qed.

(** ** The walk of Validate *)

(** A row whose attached versions are valid for the rollout. *)
Definition row_ok (plan : FrozenRollout) (r : PlannedCluster) : Prop :=
  (forall d, planned_Desired r = Some d -> VersionIdentity_Validate d = Ok tt /\
     version_BundleVersionID d = version_BundleVersionID (plan_Desired plan)) /\
  (forall p, planned_Previous r = Some p -> PreviousDeployment_Validate p = Ok tt).

Lemma check_cluster_ok plan k seen n u r :
  plan_Clusters plan !! n = Some r -> planned_ClusterID r = u -> planned_Cohort r = k ->
  planned_Order r = Z.of_nat n -> row_ok plan r -> u ∉ seen ->
  check_cluster plan k (seen, n) u = Ok ({[u]} ∪ seen, S n).
Proof.
  intros Hn Hu Hk Ho [Hd Hp] Hs. unfold check_cluster. rewrite Hn, Hu, Hk, Ho.
  rewrite (bool_decide_false (u ∈ seen)), !bool_decide_true by done. cbn.
  destruct (planned_Desired r) as [d|].
  - destruct (Hd d eq_refl) as [-> ->]. rewrite bool_decide_true by done. cbn.
    destruct (planned_Previous r) as [p|]; [by rewrite (Hp p eq_refl)|done].
  - destruct (planned_Previous r) as [p|]; cbn; [by rewrite (Hp p eq_refl)|done].
Qed.

Lemma walk_ids plan k (f : PlannedCluster -> PlannedCluster) us :
  (forall r, planned_ClusterID (f r) = planned_ClusterID r /\ planned_Cohort (f r) = planned_Cohort r /\
     planned_Order (f r) = planned_Order r) ->
  Forall (row_ok plan) (plan_Clusters plan) ->
  forall seen n rest, drop n (plan_Clusters plan) = map f (plan_ids k (Z.of_nat n) us ++ rest) ->
  NoDup us -> Forall (fun u => u ∉ seen) us ->
  res_foldl (check_cluster plan k) (seen, n) us =
    Ok (list_to_set us ∪ seen, (n + length us)%nat) /\
  drop (n + length us) (plan_Clusters plan) = map f rest.
Proof.
  intros Hf Hok. induction us as [|u us IH]; intros seen n rest Hd Hnd Hs.
  { cbn in *. rewrite (left_id_L ∅ (∪)), Nat.add_0_r. done. }
  apply NoDup_cons in Hnd as [Hu Hnd]. apply Forall_cons_iff in Hs as [Hus Hs].
  cbn [plan_ids app map] in Hd.
  assert (Hn : plan_Clusters plan !! n = Some (f {| planned_ClusterID := u; planned_Cohort := k;
    planned_Order := Z.of_nat n; planned_Desired := None; planned_Previous := None |})).
  { rewrite <- (Nat.add_0_r n), <- lookup_drop, Nat.add_0_r, Hd. done. }
  assert (Hd' : drop (S n) (plan_Clusters plan) = map f (plan_ids k (Z.of_nat (S n)) us ++ rest)).
  { replace (S n) with (n + 1)%nat at 1 by lia. rewrite <- drop_drop, Hd. cbn.
    by replace (Z.of_nat (S n)) with (Z.of_nat n + 1)%Z by lia. }
  cbn [res_foldl]. destruct (Hf {| planned_ClusterID := u; planned_Cohort := k;
    planned_Order := Z.of_nat n; planned_Desired := None; planned_Previous := None |}) as (H1 & H2 & H3).
  rewrite (check_cluster_ok plan k seen n u _ Hn H1 H2 H3); [|by eapply Forall_lookup_1|done].
  cbn [mbind res_bind]. destruct (IH ({[u]} ∪ seen) (S n) rest Hd' Hnd) as [-> Hdrop].
  { rewrite Forall_forall in Hs. apply Forall_forall. intros v Hv. specialize (Hs v Hv). set_solver. }
  split.
  - f_equal. f_equal; [set_solver|]. cbn. lia.
  - rewrite <- Hdrop. f_equal. cbn. lia.
Qed.

Definition keeps_position (f : PlannedCluster -> PlannedCluster) : Prop :=
  forall r, planned_ClusterID (f r) = planned_ClusterID r /\ planned_Cohort (f r) = planned_Cohort r /\
    planned_Order (f r) = planned_Order r.

(** The head checks of one cohort pass. *)
Lemma check_cohort_head plan0 final i c b st :
  (forall k, approvalDigest final k = approvalDigest plan0 k) ->
  bound_as plan0 c b -> cohort_ok i c ->
  check_cohort final st (i, b) = res_foldl (check_cluster final i) st (cohort_ClusterIDs c).
Proof.
  intros Hap Hcb (Hi & Hne & Hn & Hs & Hd). pose proof (bound_as_same _ _ _ Hcb) as (Ei & En & Ec & Es & Er).
  unfold check_cohort. rewrite Ei, En, Ec, Es, Hi, (bool_decide_true (i = i)),
    (bool_decide_false (cohort_Name c = "")) by done.
  replace (len (cohort_ClusterIDs c) =? 0)%Z with false
    by (symmetry; apply Z.eqb_neq; by rewrite len_nil_iff).
  replace (cohort_SoakAfter c <? 0)%Z with false by (symmetry; apply Z.ltb_ge; lia). cbn.
  unfold bound_as in Hcb. rewrite Er. destruct (cohort_ApprovalRequired c).
  - destruct Hcb as (d & Hd' & ->). rewrite Hi in Hd'. rewrite Hap, Hd'. cbn.
    by rewrite bool_decide_true.
  - subst b. by rewrite Hd, bool_decide_true.
Qed.

Lemma walk_cohorts plan0 final f cs bs :
  keeps_position f -> Forall (row_ok final) (plan_Clusters final) ->
  (forall k, approvalDigest final k = approvalDigest plan0 k) ->
  Forall2 (bound_as plan0) cs bs ->
  forall m seen n, cohorts_from (Z.of_nat m) cs ->
  drop n (plan_Clusters final) = map f (plan_rows (Z.of_nat n) cs) ->
  NoDup (members cs) -> Forall (fun u => u ∉ seen) (members cs) ->
  res_foldl (check_cohort final) (seen, n) (imap (fun i c => (Z.of_nat (m + i), c)) bs) =
    Ok (list_to_set (members cs) ∪ seen, (n + length (members cs))%nat).
Proof.
  intros Hf Hok Hap Hb. induction Hb as [|c b cs bs Hcb Hb IH]; intros m seen n Hfrom Hd Hnd Hs.
  { cbn. rewrite (left_id_L ∅ (∪)), Nat.add_0_r. done. }
  destruct Hfrom as [Hc Hfrom]. unfold members in Hnd, Hs. cbn [map concat] in Hnd, Hs.
  apply NoDup_app in Hnd as (Hnd1 & Hdisj & Hnd2). apply Forall_app in Hs as [Hs1 Hs2].
  rewrite imap_cons. cbn [res_foldl]. rewrite Nat.add_0_r.
  rewrite (check_cohort_head plan0 final (Z.of_nat m) c b _ Hap Hcb Hc).
  cbn [plan_rows] in Hd. destruct Hc as (Hi & _). rewrite Hi in Hd.
  destruct (walk_ids final (Z.of_nat m) f (cohort_ClusterIDs c) Hf Hok seen n _ Hd Hnd1 Hs1) as [-> Hd'].
  cbn [mbind res_bind].
  assert (Hn : (Z.of_nat n + len (cohort_ClusterIDs c))%Z =
    Z.of_nat (n + length (cohort_ClusterIDs c))) by (unfold len; lia).
  rewrite Hn in Hd'. replace (Z.of_nat m + 1)%Z with (Z.of_nat (S m)) in Hfrom by lia.
  rewrite (imap_ext _ (fun i c => (Z.of_nat (S m + i), c)))
    by (intros j x _; unfold compose; do 2 f_equal; lia).
  rewrite (IH (S m) (list_to_set (cohort_ClusterIDs c) ∪ seen) _ Hfrom Hd' Hnd2).
  - unfold members. cbn [map concat]. rewrite length_app, list_to_set_app_L.
    f_equal. f_equal; [set_solver | lia].
  - rewrite Forall_forall in Hs2. apply Forall_forall. intros u Hu. specialize (Hs2 u Hu).
    intros [Hin|Hin]%elem_of_union; [|done]. rewrite elem_of_list_to_set in Hin.
    by apply (Hdisj u Hin).
Qed.

(** ** Bounds *)

Lemma add_candidate_size l m m' :
  res_foldl add_candidate m l = Ok m' -> (size m' <= size m + length l)%nat.
Proof.
  revert m. induction l as [|x l IH]; intros m; cbn [res_foldl length].
  { intros [= <-]. lia. }
  rewrite res_bind_Ok. intros (m1 & Hx & Hl). apply IH in Hl.
  apply add_candidate_inv in Hx as (v & -> & _). rewrite map_size_insert in Hl.
  destruct (m !! ID x); cbn in Hl; lia.
Qed.

Lemma Evaluate_selected_bound r result :
  Placement.Evaluate r = Ok result -> (len (Selected result) <= len (Candidates r))%Z.
Proof.
  intros (s & cs & _ & Hcs & _ & -> & _)%Evaluate_inv. unfold canonicalCandidates in Hcs. res_inv.
  match goal with Hf : res_foldl _ _ _ = Ok _ |- _ => apply add_candidate_size in Hf end.
  rewrite sort_slice_length in *. unfold selected_of, len.
  pose proof (length_filter (fun c => Reason <$> decide_candidate s c = Some ReasonSelected)
    (sort_slice id_less (map_to_list x).*2)) as Hlen.
  rewrite sort_slice_length, length_fmap in Hlen. rewrite map_size_empty in *.
  pose proof (length_map_to_list x). lia.
Qed.

Lemma fleet_bound_small n : (0 <= n <= MaxRolloutClusters)%Z -> fleet_bound n.
Proof. unfold fleet_bound, MaxRolloutClusters, MaxInt64. lia. Qed.

(** ** Attached versions *)

Lemma validateSnapshot_rows snapshot :
  validateSnapshot snapshot = Ok tt ->
  snapshot_ProjectID snapshot <> uuid_Nil /\
  VersionIdentity_Validate (snapshot_Desired snapshot) = Ok tt /\
  (forall u d, DesiredByCluster snapshot !! u = Some d -> VersionIdentity_Validate d = Ok tt /\
     version_BundleVersionID d = version_BundleVersionID (snapshot_Desired snapshot)) /\
  (forall u p, PreviousByCluster snapshot !! u = Some p -> PreviousDeployment_Validate p = Ok tt).
Proof.
  unfold validateSnapshot. intros Hv. res_inv. bool_props.
  repeat match goal with u : unit |- _ => destruct u end.
  repeat match goal with Hi : res_iter _ _ = Ok _ |- _ =>
    rewrite res_iter_Ok, Forall_forall in Hi end.
  split_and!; try done.
  - intros u d Hd%elem_of_map_to_list.
    match goal with Hi : forall x, x ∈ map_to_list (DesiredByCluster _) -> _ |- _ => apply Hi in Hd end.
    res_inv. bool_props. done.
  - intros u p Hp%elem_of_map_to_list.
    match goal with Hi : forall x, x ∈ map_to_list (PreviousByCluster _) -> _ |- _ => apply Hi in Hp end.
    res_inv. done.
Qed.

(** ** A frozen plan is valid *)

Lemma prepare_spec request sd rd :
  prepare request = Ok (sd, rd) ->
  create_TargetID request <> uuid_Nil /\ strategy_ok (create_Strategy request) /\
  RolloutStrategy_CanonicalDigest (create_Strategy request) = Ok sd /\
  digestPattern sd = true /\ digestPattern rd = true.
Proof.
  unfold prepare, validateCreateRequest. intros Hp. res_inv. bool_props.
  repeat match goal with u : unit |- _ => destruct u end. simplify_eq.
  split_and!; try done; [by eapply RolloutStrategy_Validate_iff|..].
  - unfold RolloutStrategy_CanonicalDigest in *. res_inv. digest_valid.
  - digest_valid.
Qed.

Lemma digest_is_Ok d e : digest_is (Ok d) d e = Ok tt.
Proof. cbn. by rewrite bool_decide_true. Qed.

Lemma approvalDigest_valid plan k d : approvalDigest plan k = Ok d -> digestPattern d = true.
Proof. unfold approvalDigest. intros Hd. res_inv. digest_valid. Qed.

Lemma frozenDigest_valid plan d : frozenDigest plan = Ok d -> digestPattern d = true.
Proof. unfold frozenDigest. intros. digest_valid. Qed.

Lemma Evaluate_digest_valid r result :
  Placement.Evaluate r = Ok result -> digestPattern (PreviewDigest result) = true.
Proof.
  intros (s & cs & _ & _ & _ & _ & _ & _ & _ & Hd)%Evaluate_inv. digest_valid.
Qed.

(** Everything [Validate] checks, as premises. *)
Lemma Validate_intro plan :
  plan_ID plan <> uuid_Nil -> plan_TargetID plan <> uuid_Nil -> plan_ProjectID plan <> uuid_Nil ->
  plan_TargetGeneration plan <> 0%N -> VersionIdentity_Validate (plan_Desired plan) = Ok tt ->
  digestPattern (plan_PlacementDigest plan) = true -> digestPattern (plan_RequestDigest plan) = true ->
  digestPattern (plan_StrategyDigest plan) = true ->
  RolloutStrategy_CanonicalDigest (plan_Strategy plan) = Ok (plan_StrategyDigest plan) ->
  strategy_ok (plan_Strategy plan) -> plan_CreatedAt plan <> 0%Z ->
  plan_Deadline plan = (plan_CreatedAt plan + ProgressDeadline (plan_Strategy plan))%Z ->
  plan_Cohorts plan <> [] -> plan_Clusters plan <> [] ->
  (exists seen, res_foldl (check_cohort plan) (∅, O) (enumerate_cohorts (plan_Cohorts plan)) =
     Ok (seen, length (plan_Clusters plan))) ->
  approvalDigest plan (-1) = Ok (approval_Digest (plan_Approval plan)) ->
  frozenDigest plan = Ok (plan_PlanDigest plan) ->
  FrozenRollout_Validate plan = Ok tt.
Proof.
  intros H1 H2 H3 H4 H5 H6 H7 H8 H9 H10 H11 H12 H13 H14 [seen H15] H16 H17.
  pose proof (approvalDigest_valid _ _ _ H16) as H18. pose proof (frozenDigest_valid _ _ H17) as H19.
  pose proof (proj2 (RolloutStrategy_Validate_iff _ tt) H10) as HV.
  destruct H10 as (_ & _ & _ & Hdl & _).
  unfold FrozenRollout_Validate, check_digests.
  rewrite (bool_decide_false (plan_ID plan = uuid_Nil)), (bool_decide_false (plan_TargetID plan = uuid_Nil)),
    (bool_decide_false (plan_ProjectID plan = uuid_Nil)) by done. apply N.eqb_neq in H4 as ->. cbn [orb fail_if mbind res_bind].
  rewrite H5. cbn [mbind res_bind res_iter fst snd]. unfold Digest_Validate.
  rewrite H6, H7, H8, H18, H19. cbn [wrap_err mbind res_bind]. rewrite HV, H9, digest_is_Ok.
  cbn [mbind res_bind]. apply Z.eqb_neq in H11 as ->.
  assert (Hlt : (plan_CreatedAt plan <? plan_Deadline plan)%Z = true) by (apply Z.ltb_lt; lia).
  rewrite Hlt, H12, bool_decide_true by done. cbn [orb negb fail_if mbind res_bind].
  assert (E13 : (len (plan_Cohorts plan) =? 0)%Z = false) by (apply Z.eqb_neq; by rewrite len_nil_iff).
  assert (E14 : (len (plan_Clusters plan) =? 0)%Z = false) by (apply Z.eqb_neq; by rewrite len_nil_iff).
  rewrite E13, E14. cbn [orb fail_if mbind res_bind]. rewrite H15. cbn [mbind res_bind snd].
  unfold len. rewrite bool_decide_true by done. cbn [negb fail_if mbind res_bind].
  rewrite H16, digest_is_Ok, H17. cbn [mbind res_bind]. by rewrite bool_decide_true.
Qed.

Lemma attach_keeps snapshot : keeps_position (attach_versions snapshot).
Proof. done. Qed.

Lemma attach_row_ok snapshot plan rows :
  validateSnapshot snapshot = Ok tt -> plan_Desired plan = snapshot_Desired snapshot ->
  Forall (fun r => planned_Desired r = None /\ planned_Previous r = None) rows ->
  Forall (row_ok plan) (map (attach_versions snapshot) rows).
Proof.
  intros (_ & _ & Hd & Hp)%validateSnapshot_rows Hdes Hrows. apply Forall_fmap.
  eapply Forall_impl; [exact Hrows|]. intros r [Hn1 Hn2]. unfold row_ok, attach_versions. cbn.
  rewrite Hn1, Hn2, Hdes. split.
  - intros d. destruct (DesiredByCluster snapshot !! planned_ClusterID r) eqn:E; [|done].
    intros [= <-]. by eapply Hd.
  - intros q. destruct (PreviousByCluster snapshot !! planned_ClusterID r) eqn:E; [|done].
    intros [= <-]. by eapply Hp.
Qed.

Lemma plan_rows_bare cohorts :
  cohorts_from 0 cohorts ->
  Forall (fun r => planned_Desired r = None /\ planned_Previous r = None) (plan_rows 0 cohorts).
Proof.
  intros Hf. apply Forall_lookup. intros j r Hr.
  by apply (plan_rows_lookup 0 0) in Hr as (_ & ? & ? & _).
Qed.

Lemma freeze_valid request snapshot sd rd presult cohorts rows now id plan :
  prepare request = Ok (sd, rd) -> validateSnapshot snapshot = Ok tt ->
  snapshot_TargetID snapshot = create_TargetID request -> snapshot_TargetGeneration snapshot <> 0%N ->
  digestPattern (PreviewDigest presult) = true ->
  cohorts_from 0 cohorts -> NoDup (members cohorts) -> members cohorts <> [] ->
  rows = plan_rows 0 cohorts ->
  freeze request snapshot sd rd presult cohorts rows now id = Ok plan ->
  FrozenRollout_Validate plan = Ok tt.
Proof.
  intros (Ht & Hs & Hsd & Hsdv & Hrdv)%prepare_spec Hsnap Htid Hgen Hpd Hfrom Hnd Hne -> Hfz.
  unfold freeze in Hfz. res_inv. bool_props.
  match goal with Hb : bind_approvals ?p _ = Ok _ |- _ =>
    apply bind_approvals_spec in Hb as Hbound; set (plan0 := p) in * end.
  set (final := with_digests _ _ _ _).
  pose proof (validateSnapshot_rows _ Hsnap) as (Hpid & Hdes & _).
  assert (Hap : forall k, approvalDigest final k = approvalDigest plan0 k).
  { intros k. unfold final. change (with_digests (with_digests plan0 ?a ?b _) ?a ?b ?d)
      with (with_digests plan0 a b d). by apply approvalDigest_with. }
  assert (Hids : map planned_ClusterID (plan_Clusters final) = members cohorts).
  { rewrite <- (plan_rows_ids 0 cohorts). cbn. by rewrite map_map. }
  apply Validate_intro; try done; [by cbn; rewrite Htid|..].
  - intros E. cbn in E. subst. apply Forall2_length in Hbound. destruct cohorts; [by apply Hne|done].
  - intros E. rewrite E in Hids. by rewrite <- Hids in Hne.
  - exists (list_to_set (members cohorts) ∪ ∅).
    rewrite <- (length_map planned_ClusterID), Hids.
    apply (walk_cohorts plan0 final (attach_versions snapshot) cohorts) with (m := O) (n := O); try done.
    + by apply attach_row_ok, plan_rows_bare.
    + apply Forall_true. set_solver.
Qed.

Lemma plan_rollout_inv request snapshot sd rd now id plan :
  prepare request = Ok (sd, rd) ->
  (len (Candidates (PlacementRequest snapshot)) <= MaxRolloutClusters)%Z ->
  plan_rollout request snapshot sd rd now id = Ok plan ->
  FrozenRollout_Validate plan = Ok tt /\ plan_TargetID plan = create_TargetID request /\
  plan_IdempotencyKey plan = create_IdempotencyKey request /\ plan_RequestDigest plan = rd /\
  exists result, Placement.Evaluate (PlacementRequest snapshot) = Ok result /\
    PreviewDigest result = create_PreviewDigest request /\
    plan_PlacementDigest plan = create_PreviewDigest request /\
    map planned_ClusterID (plan_Clusters plan) ≡ₚ ids (Selected result).
Proof.
  intros Hprep Hlen Hp. unfold plan_rollout in Hp. res_inv. bool_props.
  repeat match goal with u : unit |- _ => destruct u end.
  match goal with x : (list Cohort * list PlannedCluster)%type |- _ => destruct x as [cohorts rows] end.
  cbn [fst snd] in *.
  match goal with Hb : BuildCohorts _ _ = Ok _, He : Placement.Evaluate _ = Ok ?r |- _ =>
    rename r into presult; pose proof (Evaluate_selected_bound _ _ He) as Hsel;
    apply BuildCohorts_shape in Hb as (Hfrom & Hmem & Hnd & _ & _ & Hne & Hrows & _) end.
  2: { apply fleet_bound_small. pose proof (len_nonneg (Selected presult)). lia. }
  assert (Hdig : PreviewDigest presult = create_PreviewDigest request).
  { unfold ValidateLaunch in *. res_inv. by bool_props. }
  split; [|split_and!; try (unfold freeze in Hp; res_inv; done)].
  2: { exists presult. split_and!; try done; unfold freeze in Hp; res_inv; [done|]. subst. cbn.
       rewrite map_map, <- Hmem, <- (plan_rows_ids 0 cohorts). done. }
  eapply (freeze_valid request snapshot sd rd); try done.
  - by apply N.eqb_neq.
  - by eapply Evaluate_digest_valid.
  - by rewrite Hmem.
  - intros E. rewrite E in Hmem. apply Permutation_nil_l in Hmem. by destruct (Selected presult).
Qed.

(** C25: whenever planning succeeds, the frozen plan passes its own validation
    (so [Create] never fails with an invariant error on a plan it built itself),
    it is bound to the previewed placement digest, and its rows are exactly the
    clusters the placement evaluation selects. *)
Theorem plan_rollout_valid request snapshot sd rd now id plan :
  prepare request = Ok (sd, rd) ->
  (len (Candidates (PlacementRequest snapshot)) <= MaxRolloutClusters)%Z ->
  plan_rollout request snapshot sd rd now id = Ok plan ->
  FrozenRollout_Validate plan = Ok tt /\
  plan_PlacementDigest plan = create_PreviewDigest request /\
  exists result, Placement.Evaluate (PlacementRequest snapshot) = Ok result /\
    PreviewDigest result = create_PreviewDigest request /\
    map planned_ClusterID (plan_Clusters plan) ≡ₚ ids (Selected result).
Proof.
  intros Hp Hl (Hv & _ & _ & _ & r & Hr & Hd & Hpd & Hids)%plan_rollout_inv; [|done..].
  split_and!; [done..|]. by exists r.
Qed.

(** ** Idempotency *)

Section store.
Context {S : Type} `{PlanningTransaction S} `{!PlanningLaws S}.

Lemma reuse_existing_inv request rd s existing plan s' :
  reuse_existing request rd s existing = Ok (plan, s') ->
  plan = existing /\ plan_RequestDigest plan = rd /\ FrozenRollout_Validate plan = Ok tt /\
  forall t k, FindByIdempotency s' t k = FindByIdempotency s t k.
Proof.
  unfold reuse_existing. intros Hr. res_inv. bool_props.
  match goal with u : unit |- _ => destruct u end. split_and!; try done.
  intros t k. by eapply audit_keeps.
Qed.

Lemma create_tx_inv request sd rd now id s plan s' :
  prepare request = Ok (sd, rd) ->
  create_tx request sd rd now id s = Ok (plan, s') ->
  FindByIdempotency s' (create_TargetID request) (create_IdempotencyKey request) = Ok (Some plan) /\
  plan_RequestDigest plan = rd /\ FrozenRollout_Validate plan = Ok tt.
Proof.
  intros Hprep. unfold create_tx. intros Hc. res_inv.
  match goal with x : option FrozenRollout |- _ => destruct x as [existing|] end.
  { apply reuse_existing_inv in Hc as (-> & ? & ? & Hk). by rewrite Hk. }
  res_inv. match goal with x : (PlanningSnapshot * S)%type |- _ => destruct x as [snapshot s0] end.
  res_inv. match goal with x : option FrozenRollout |- _ => destruct x as [existing|] end.
  { apply reuse_existing_inv in Hc as (-> & ? & ? & Hk). by rewrite Hk. }
  res_inv. simplify_eq.
  match goal with Hpl : plan_rollout _ _ _ _ _ _ = Ok _ |- _ =>
    apply plan_rollout_inv in Hpl as (Hv & Ht & Hk & Hd & _); [|done|by eapply snapshot_bounded] end.
  split; [|done]. rewrite <- Ht, <- Hk.
  erewrite audit_keeps, enqueue_keeps, append_keeps by done. by eapply find_inserted.
Qed.

End store.
End facts.

(** ** An in-memory store *)

Module MemoryStore.
Record store := {
  store_rollouts : list FrozenRollout;
  store_target : PlanningSnapshot;
  store_created : list uuid;
  store_queue : list uuid;
  store_audit : list Intent;
}.

Definition bound_to (t : uuid) (k : string) (p : FrozenRollout) : bool :=
  (plan_TargetID p == t) && (plan_IdempotencyKey p == k).

Definition insert (s : store) (p : FrozenRollout) : store :=
  {| store_rollouts := p :: store_rollouts s; store_target := store_target s;
     store_created := store_created s; store_queue := store_queue s; store_audit := store_audit s |}.

#[export] Instance transaction : PlanningTransaction store := {|
  FindByIdempotency s t k := Ok (List.find (bound_to t k) (store_rollouts s));
  LoadSnapshotForUpdate s t :=
    if (len (Candidates (PlacementRequest (store_target s))) <=? MaxRolloutClusters)%Z
    then Ok (store_target s, s) else Err (EText "too many candidates");
  InsertRollout s p := Ok (insert s p);
  AppendRolloutCreated s p := Ok
    {| store_rollouts := store_rollouts s; store_target := store_target s;
       store_created := plan_ID p :: store_created s; store_queue := store_queue s;
       store_audit := store_audit s |};
  EnqueueRollout s u := Ok
    {| store_rollouts := store_rollouts s; store_target := store_target s;
       store_created := store_created s; store_queue := u :: store_queue s;
       store_audit := store_audit s |};
  RecordAuditIntent s i := Ok
    {| store_rollouts := store_rollouts s; store_target := store_target s;
       store_created := store_created s; store_queue := store_queue s;
       store_audit := i :: store_audit s |};
|}.

#[export] Instance laws : PlanningLaws store.
Proof.
  split; cbn.
  - intros s t snap s'. case_match eqn:E; [|done]. intros [= <- _]. by apply Z.leb_le.
  - intros s p s' [= <-]. cbn. unfold bound_to at 1. by rewrite !bool_decide_true.
  - by intros s p s' t k [= <-].
  - by intros s u s' t k [= <-].
  - by intros s i s' t k [= <-].
Qed.
End MemoryStore.

Definition example_version : VersionIdentity :=
  {| version_BundleVersionID := UUID "version"; version_Digest := PlacementFacts.example_digest;
     version_Source := {| resolved_SourceID := UUID "source"; resolved_Type := SourceGit;
       resolved_URL := "https://git.example"; resolved_AuthMode := AuthNone;
       resolved_Trust := source_Trust example_source;
       resolved_Revision := ResolvedRevision PlacementFacts.example_identity |};
     version_Overrides := {| HelmValues := ""; Patches := [] |};
     version_Renderer := None; version_ConfigurationDigest := "" |}.

Definition example_snapshot : PlanningSnapshot :=
  {| snapshot_TargetID := UUID "target"; snapshot_ProjectID := UUID "p1";
     snapshot_TargetGeneration := 3; snapshot_Desired := example_version;
     DesiredByCluster := ∅; ConfigurationSetDigest := "";
     PlacementRequest := PlacementFacts.example_request PlacementFacts.example_candidates;
     InitialApproval := true;
     PreviousByCluster := {[UUID "a" := {| previous_Version := example_version;
                                            previous_Generation := 4 |}]} |}.

Definition example_preview : Digest :=
  match @Placement.Evaluate Concrete.external (PlacementRequest example_snapshot) with
  | Ok r => PreviewDigest r
  | Err _ => ""
  end.

Definition example_create : CreateRequest :=
  {| create_TargetID := UUID "target"; ExpectedTargetGeneration := 3;
     create_PreviewDigest := example_preview; ConfirmAllClusters := false;
     create_Strategy := CohortsFacts.example_strategy; create_Actor := "operator";
     create_IdempotencyKey := "key";
     create_Audit := {| intent_Action := "create"; intent_ResourceID := ""; intent_Detail := ∅;
                        intent_DedupeKey := "dedupe" |} |}.

Definition example_store : MemoryStore.store :=
  {| MemoryStore.store_rollouts := []; MemoryStore.store_target := example_snapshot;
     MemoryStore.store_created := []; MemoryStore.store_queue := [];
     MemoryStore.store_audit := [] |}.

Definition example_planned : res (FrozenRollout * (Digest * Digest)) :=
  ds ← @prepare Concrete.external example_create;
  p ← @plan_rollout Concrete.external example_create example_snapshot ds.1 ds.2 100%Z (UUID "rollout");
  Ok (p, ds).

Lemma example_creates :
  is_ok (@Create Concrete.external _ MemoryStore.transaction example_create 100%Z (UUID "rollout")
           example_store) = true.
Proof. vm_compute. reflexivity. Qed.

Lemma example_plans : is_ok example_planned = true.
Proof. vm_compute. reflexivity. Qed.

Lemma plan_rollout_valid_witness :
  exists plan, @FrozenRollout_Validate Concrete.external plan = Ok tt /\
    plan_TargetID plan = UUID "target".
Proof.
  destruct (is_ok_Ok _ example_plans) as [[plan ds] E]. unfold example_planned in E.
  apply res_bind_Ok in E as ([sd rd] & Hprep & E). apply res_bind_Ok in E as (plan' & Hplan & E).
  injection E as -> _. cbn [fst snd] in Hplan. exists plan.
  pose proof (@plan_rollout_valid Concrete.external Concrete.external_laws example_create
    example_snapshot sd rd 100%Z (UUID "rollout") plan Hprep ltac:(vm_compute; discriminate) Hplan)
    as (Hv & _).
  split; [exact Hv|].
  exact (proj1 (proj2 (@plan_rollout_inv Concrete.external Concrete.external_laws example_create
    example_snapshot sd rd 100%Z (UUID "rollout") plan Hprep ltac:(vm_compute; discriminate) Hplan))).
Defined.

End PlannerFacts.
