(* ===== verification/Scheduler.v ===== *)
(** * The rollout scheduler (internal/delivery/rollout/scheduler.go)

    [Evaluate] turns an authoritative runtime snapshot of a rollout into one
    decision: at most one transition of the rollout, the transitions of its
    clusters and the releases to hand out.  Indexing a slice out of range and
    dereferencing a nil pointer are the error [EPanic]. *)

From Stdlib Require Import ZArith Lia Ascii.
From S2P Require Import Prelude Enums State GoSort GoStrings External Validation Overrides Model.
From S2P Require Import Types RolloutTypes Cohorts Planner.
From stdpp Require Import base gmap strings list.
Import State Overrides Model Types RolloutTypes Planner.

Open Scope Z_scope.

Module Scheduler.

(** ** Data *)

Inductive AssignmentAction := AssignmentApply | AssignmentRollback | AssignmentOther (raw : string).

Record ClusterRuntime := {
  runtime_ClusterID : uuid;
  runtime_State : RolloutClusterState;
  runtime_Fence : Z;
  runtime_Connected : bool;
  runtime_Available : bool;
  runtime_ReadySince : option time;
  runtime_StateChangedAt : time;
  runtime_Deadline : time;
  runtime_CurrentGeneration : Z;
  runtime_EverReleased : bool;
  runtime_LastAction : AssignmentAction;
}.

Record RuntimeSnapshot := {
  snapshot_Plan : FrozenRollout;
  snapshot_State : RolloutState;
  snapshot_Fence : Z;
  snapshot_Clusters : list ClusterRuntime;
}.

Record EvaluateInput := {
  input_Now : time;
  input_Snapshot : RuntimeSnapshot;
  input_Lease : Lease;
  input_InitialApproval : option ApprovalDecision;
  input_CohortApprovals : gmap Z ApprovalDecision;
  input_Maintenance : MaintenanceGate;
}.

Inductive BlockReason :=
  | BlockNone | BlockApproval | BlockMaintenance | BlockSoak | BlockConcurrency
  | BlockUnavailable | BlockDisconnected.

Record RolloutTransition := {
  rt_From : RolloutState;
  rt_To : RolloutState;
  rt_ExpectedFence : Z;
  rt_Code : string;
}.

Record ClusterTransition := {
  ct_ClusterID : uuid;
  ct_From : RolloutClusterState;
  ct_To : RolloutClusterState;
  ct_ExpectedFence : Z;
  ct_Code : string;
}.

Record Release := {
  release_ClusterID : uuid;
  release_Action : AssignmentAction;
  release_Version : VersionIdentity;
  release_Generation : Z;
  release_Deadline : time;
  release_ExpectedFence : Z;
  release_IdempotencyKey : Digest;
  release_FromState : RolloutClusterState;
  release_ToState : RolloutClusterState;
}.

Record Decision := {
  decision_Digest : Digest;
  decision_ExpectedRolloutFence : Z;
  decision_RolloutTransition : option RolloutTransition;
  decision_ClusterTransitions : list ClusterTransition;
  decision_Releases : list Release;
  decision_Counters : RolloutCounters;
  decision_Blocked : BlockReason;
}.

#[export] Instance AssignmentAction_eq_dec : EqDecision AssignmentAction.
Proof. solve_decision. Defined.
#[export] Instance BlockReason_eq_dec : EqDecision BlockReason.
Proof. solve_decision. Defined.

(** Assignments to one field of the decision. *)
Definition set_id (d : Decision) (id : Digest) : Decision :=
  {| decision_Digest := id; decision_ExpectedRolloutFence := decision_ExpectedRolloutFence d;
     decision_RolloutTransition := decision_RolloutTransition d;
     decision_ClusterTransitions := decision_ClusterTransitions d;
     decision_Releases := decision_Releases d; decision_Counters := decision_Counters d;
     decision_Blocked := decision_Blocked d |}.

Definition set_rollout (d : Decision) (t : RolloutTransition) : Decision :=
  {| decision_Digest := decision_Digest d;
     decision_ExpectedRolloutFence := decision_ExpectedRolloutFence d;
     decision_RolloutTransition := Some t;
     decision_ClusterTransitions := decision_ClusterTransitions d;
     decision_Releases := decision_Releases d; decision_Counters := decision_Counters d;
     decision_Blocked := decision_Blocked d |}.

Definition set_slices (d : Decision) (ts : list ClusterTransition) (rs : list Release) : Decision :=
  {| decision_Digest := decision_Digest d;
     decision_ExpectedRolloutFence := decision_ExpectedRolloutFence d;
     decision_RolloutTransition := decision_RolloutTransition d;
     decision_ClusterTransitions := ts; decision_Releases := rs;
     decision_Counters := decision_Counters d; decision_Blocked := decision_Blocked d |}.

Definition set_blocked (d : Decision) (b : BlockReason) : Decision :=
  {| decision_Digest := decision_Digest d;
     decision_ExpectedRolloutFence := decision_ExpectedRolloutFence d;
     decision_RolloutTransition := decision_RolloutTransition d;
     decision_ClusterTransitions := decision_ClusterTransitions d;
     decision_Releases := decision_Releases d; decision_Counters := decision_Counters d;
     decision_Blocked := b |}.

Definition add_release (d : Decision) (r : Release) : Decision :=
  set_slices d (decision_ClusterTransitions d) (decision_Releases d ++ [r]).

(** [xs[i]] *)
Definition at_index {A} (xs : list A) (i : Z) : res A :=
  if (i <? 0) then Err EPanic
  else match xs !! Z.to_nat i with Some x => Ok x | None => Err EPanic end.

(** [*p] *)
Definition deref {A} (p : option A) : res A :=
  match p with Some x => Ok x | None => Err EPanic end.

(** [t.After(now)] *)
Definition after (t now : time) : bool := now <? t.

(** ** Documents *)

Definition AssignmentAction_string (a : AssignmentAction) : string :=
  match a with
  | AssignmentApply => "apply" | AssignmentRollback => "rollback" | AssignmentOther raw => raw
  end.

Definition BlockReason_string (b : BlockReason) : string :=
  match b with
  | BlockNone => "" | BlockApproval => "approval_required"
  | BlockMaintenance => "maintenance_window_closed" | BlockSoak => "soak_in_progress"
  | BlockConcurrency => "max_concurrent" | BlockUnavailable => "max_unavailable"
  | BlockDisconnected => "clusters_disconnected"
  end.

(** A slice that was never appended to is nil and encodes as null. *)
Definition nil_slice `{ToJSON A} (l : list A) : json :=
  match l with [] => JNull | _ => to_json l end.

#[export] Instance RolloutCounters_json : ToJSON RolloutCounters := fun c =>
  JObject (field "total" (Total c) ++ field "pending" (Pending c) ++ field "active" (Active c) ++
           field "ready" (Ready c) ++ field "failed" (Failed c) ++ field "blocked" (Blocked c) ++
           field "skipped" (Skipped c) ++ field "rollback_ready" (RollbackReady c) ++
           field "terminal" (Terminal c) ++ field "unavailable" (Unavailable c)).

#[export] Instance RolloutTransition_json : ToJSON RolloutTransition := fun t =>
  JObject (field "From" (RolloutState_string (rt_From t)) ++
           field "To" (RolloutState_string (rt_To t)) ++
           field "ExpectedFence" (rt_ExpectedFence t) ++ field "Code" (rt_Code t)).

Section documents.
Context `{External}.

#[export] Instance ClusterTransition_json : ToJSON ClusterTransition := fun t =>
  JObject (field "ClusterID" (ct_ClusterID t) ++
           field "From" (RolloutClusterState_string (ct_From t)) ++
           field "To" (RolloutClusterState_string (ct_To t)) ++
           field "ExpectedFence" (ct_ExpectedFence t) ++ field "Code" (ct_Code t)).

#[export] Instance Release_json : ToJSON Release := fun r =>
  JObject (field "ClusterID" (release_ClusterID r) ++
           field "Action" (AssignmentAction_string (release_Action r)) ++
           field "Version" (release_Version r) ++
           field "Generation" (release_Generation r) ++
           [("Deadline", JTime (release_Deadline r))] ++
           field "ExpectedFence" (release_ExpectedFence r) ++
           field "IdempotencyKey" (release_IdempotencyKey r) ++
           field "FromState" (RolloutClusterState_string (release_FromState r)) ++
           field "ToState" (RolloutClusterState_string (release_ToState r))).

#[export] Instance Decision_json : ToJSON Decision := fun d =>
  JObject (field "ID" (decision_Digest d) ++
           field "ExpectedRolloutFence" (decision_ExpectedRolloutFence d) ++
           [("RolloutTransition", match decision_RolloutTransition d with
                                  | None => JNull | Some t => to_json t end);
            ("ClusterTransitions", nil_slice (decision_ClusterTransitions d));
            ("Releases", nil_slice (decision_Releases d))] ++
           field "Counters" (decision_Counters d) ++
           field "Blocked" (BlockReason_string (decision_Blocked d))).
End documents.

(** ** Helpers *)

(** [deadlineFor] *)
Definition deadlineFor (plan : FrozenRollout) (cluster : ClusterRuntime) : time :=
  if negb (runtime_Deadline cluster =? 0) then runtime_Deadline cluster else plan_Deadline plan.

(** [isApplyActive] *)
Definition isApplyActive (value : RolloutClusterState) : bool :=
  (value == RolloutClusterReleased) || (value == RolloutClusterAcknowledged) ||
  (value == RolloutClusterReconciling).

(** [canStartRollback] *)
Definition canStartRollback (value : RolloutClusterState) : bool :=
  match value with
  | RolloutClusterReleased | RolloutClusterAcknowledged | RolloutClusterReconciling
  | RolloutClusterReady | RolloutClusterTimedOut | RolloutClusterFailed => true
  | _ => false
  end.

(** [consumesConcurrency] *)
Definition consumesConcurrency (cluster : ClusterRuntime) (minReady : duration) (now : time) :
  res bool :=
  match runtime_State cluster with
  | RolloutClusterReleased | RolloutClusterAcknowledged | RolloutClusterReconciling
  | RolloutClusterRollingBack => Ok true
  | RolloutClusterReady =>
      readySince ← deref (runtime_ReadySince cluster);
      Ok (after (readySince + minReady) now)
  | _ => Ok false
  end.

(** [failureBudgetExceeded] *)
Definition failureBudgetExceeded (amount : Amount) (total failures : Z) : bool :=
  Cohorts.amountLimit amount total <? failures.

(** [setRolloutTransition] *)
Definition setRolloutTransition (decision : Decision) (snapshot : RuntimeSnapshot)
    (desired : RolloutState) (code : string) : res Decision :=
  fail_if (bool_decide (is_Some (decision_RolloutTransition decision)))
    (fail CodeInvariant "decision" "contains multiple rollout transitions");;
  _ ← wrap_err (ERollout CodeInvariant "rollout.transition")
    (TransitionRollout {| Rollout_State := snapshot_State snapshot;
                          Rollout_Fence := snapshot_Fence snapshot |}
       desired (snapshot_Fence snapshot));
  Ok (set_rollout decision {| rt_From := snapshot_State snapshot; rt_To := desired;
                              rt_ExpectedFence := snapshot_Fence snapshot; rt_Code := code |}).

(** The state of a cluster as [state.RolloutCluster]. *)
Definition fenced_state (cluster : ClusterRuntime) : RolloutCluster :=
  {| RolloutCluster_State := runtime_State cluster; RolloutCluster_Fence := runtime_Fence cluster |}.

(** [addClusterTransition] *)
Definition addClusterTransition (decision : Decision) (cluster : ClusterRuntime)
    (desired : RolloutClusterState) (code : string) : res Decision :=
  _ ← wrap_err (ERollout CodeInvariant "cluster.transition")
    (TransitionRolloutCluster (fenced_state cluster) desired (runtime_Fence cluster));
  Ok (set_slices decision
        (decision_ClusterTransitions decision ++
         [{| ct_ClusterID := runtime_ClusterID cluster; ct_From := runtime_State cluster;
             ct_To := desired; ct_ExpectedFence := runtime_Fence cluster; ct_Code := code |}])
        (decision_Releases decision)).

(** [validateRuntime]: the map of the input by cluster, then the rows of the plan
    looked up in it. *)
Definition index_runtime (byID : gmap uuid ClusterRuntime) (cluster : ClusterRuntime) :
  res (gmap uuid ClusterRuntime) :=
  fail_if ((runtime_ClusterID cluster == uuid_Nil) ||
           negb (RolloutClusterState_Valid (runtime_State cluster)) ||
           (runtime_Fence cluster <? 0) || (runtime_CurrentGeneration cluster <? 0))
    (fail CodeInvariant "runtime.clusters"
       "contains invalid identity, state, fence, or generation");;
  fail_if (bool_decide (is_Some (byID !! runtime_ClusterID cluster)))
    (fail CodeInvariant "runtime.clusters" "contains duplicate cluster");;
  fail_if ((runtime_State cluster == RolloutClusterReady) &&
           match runtime_ReadySince cluster with None => true | Some t => t =? 0 end)
    (fail CodeInvariant "runtime.ready_since" "ready cluster requires a stable timestamp");;
  Ok (<[runtime_ClusterID cluster := cluster]> byID).

Fixpoint order_runtime (byID : gmap uuid ClusterRuntime) (planned : list PlannedCluster) :
  res (list ClusterRuntime) :=
  match planned with
  | [] => Ok []
  | p :: rest =>
      match byID !! planned_ClusterID p with
      | None => Err (fail CodeInvariant "runtime.clusters" "is missing frozen cluster")
      | Some cluster => ordered ← order_runtime byID rest; Ok (cluster :: ordered)
      end
  end.

Definition validateRuntime (plan : FrozenRollout) (input : list ClusterRuntime) :
  res (list ClusterRuntime) :=
  fail_if (len input != len (plan_Clusters plan))
    (fail CodeInvariant "runtime.clusters" "does not match frozen membership count");;
  byID ← res_foldl index_runtime ∅ input;
  order_runtime byID (plan_Clusters plan).

(** ** [activeCohort] *)

(** One row of the inner loop: is the cohort still complete, and when did it
    complete. *)
Definition cohort_row (plan : FrozenRollout) (clusters : list ClusterRuntime) (now : time)
    (index : Z) (st : bool * time) (planned : PlannedCluster) : res (bool * time) :=
  let '(complete, completedAt) := st in
  if planned_Cohort planned != index then Ok st
  else
    cluster ← at_index clusters (planned_Order planned);
    match runtime_State cluster with
    | RolloutClusterReady =>
        readySince ← deref (runtime_ReadySince cluster);
        let matureAt := readySince + MinReady (plan_Strategy plan) in
        Ok (if after matureAt now then false else complete,
            if after matureAt completedAt then matureAt else completedAt)
    | RolloutClusterFailed | RolloutClusterTimedOut | RolloutClusterSkipped =>
        fail_if (runtime_StateChangedAt cluster =? 0)
          (fail CodeInvariant "runtime.state_changed_at" "terminal cluster requires a timestamp");;
        Ok (complete, if after (runtime_StateChangedAt cluster) completedAt
                      then runtime_StateChangedAt cluster else completedAt)
    | _ => Ok (false, completedAt)
    end.

Fixpoint active_from (plan : FrozenRollout) (clusters : list ClusterRuntime) (now : time)
    (previousCompletedAt : time) (cohorts : list Cohort) : res (Z * time * bool) :=
  match cohorts with
  | [] => Ok (len (plan_Cohorts plan), previousCompletedAt, true)
  | cohort :: rest =>
      st ← res_foldl (cohort_row plan clusters now (cohort_Index cohort))
             (true, plan_CreatedAt plan) (plan_Clusters plan);
      if negb st.1 then Ok (cohort_Index cohort, previousCompletedAt, false)
      else active_from plan clusters now st.2 rest
  end.

Definition activeCohort (plan : FrozenRollout) (clusters : list ClusterRuntime) (now : time) :
  res (Z * time * bool) :=
  active_from plan clusters now (plan_CreatedAt plan) (plan_Cohorts plan).

Section scheduler.
Context `{External}.

(** ** [newRelease] *)

Record ReleaseKey := {
  key_RolloutID : uuid;
  key_ClusterID : uuid;
  key_Action : AssignmentAction;
  key_BundleVersionID : uuid;
  key_SpecDigest : Digest;
}.

#[export] Instance ReleaseKey_json : ToJSON ReleaseKey := fun k =>
  JObject (field "rollout_id" (key_RolloutID k) ++ field "cluster_id" (key_ClusterID k) ++
           field "action" (AssignmentAction_string (key_Action k)) ++
           field "bundle_version_id" (key_BundleVersionID k) ++
           field "spec_digest" (key_SpecDigest k)).

Definition newRelease (plan : FrozenRollout) (planned : PlannedCluster) (cluster : ClusterRuntime)
    (action : AssignmentAction) (version : VersionIdentity) (now : time) : res Release :=
  fail_if (runtime_CurrentGeneration cluster =? MaxInt64)
    (fail CodeInvariant "generation" "cannot increment maximum generation");;
  let desiredState :=
    if action == AssignmentRollback then RolloutClusterRollingBack else RolloutClusterReleased in
  _ ← wrap_err (ERollout CodeInvariant "cluster.transition")
    (TransitionRolloutCluster (fenced_state cluster) desiredState (runtime_Fence cluster));
  key ← CanonicalDigest {| key_RolloutID := plan_ID plan; key_ClusterID := planned_ClusterID planned;
                           key_Action := action;
                           key_BundleVersionID := version_BundleVersionID version;
                           key_SpecDigest := version_Digest version |};
  let deadline :=
    if action == AssignmentRollback then now + ProgressDeadline (plan_Strategy plan)
    else plan_Deadline plan in
  Ok {| release_ClusterID := planned_ClusterID planned; release_Action := action;
        release_Version := version;
        release_Generation := wrapS64 (runtime_CurrentGeneration cluster + 1);
        release_Deadline := deadline; release_ExpectedFence := runtime_Fence cluster;
        release_IdempotencyKey := key; release_FromState := runtime_State cluster;
        release_ToState := desiredState |}.

(** ** [evaluateProgressing] *)

(** The first loop: reconnects, disconnects and progress deadlines. *)
Definition observe_cluster (plan : FrozenRollout) (now : time) (decision : Decision)
    (cluster : ClusterRuntime) : res Decision :=
  if (runtime_State cluster == RolloutClusterPending) && negb (runtime_Connected cluster) then
    addClusterTransition decision cluster RolloutClusterBlocked "cluster_disconnected"
  else if (runtime_State cluster == RolloutClusterBlocked) && runtime_Connected cluster then
    addClusterTransition decision cluster RolloutClusterPending "cluster_reconnected"
  else if isApplyActive (runtime_State cluster) && negb (after (deadlineFor plan cluster) now) then
    addClusterTransition decision cluster RolloutClusterTimedOut "progress_deadline_exceeded"
  else Ok decision.

(** The loop that counts reserved slots and clusters at risk. *)
Definition reserve (minReady : duration) (now : time) (st : Z * Z) (cluster : ClusterRuntime) :
  res (Z * Z) :=
  let '(reserved, atRisk) := st in
  consumes ← consumesConcurrency cluster minReady now;
  if (consumes : bool) then Ok (reserved + 1, atRisk + 1)
  else if negb (runtime_Available cluster) then Ok (reserved, atRisk + 1)
  else Ok st.

Record ReleaseLoop := {
  loop_concurrencySlots : Z;
  loop_availabilitySlots : Z;
  loop_availabilityBlocked : bool;
  loop_decision : Decision;
}.

(** One iteration of the release loop; after [break] nothing changes. *)
Definition release_row (plan : FrozenRollout) (clusters : list ClusterRuntime) (now : time)
    (cohortIndex : Z) (st : ReleaseLoop) (planned : PlannedCluster) : res ReleaseLoop :=
  if (loop_concurrencySlots st =? 0) then Ok st
  else if planned_Cohort planned != cohortIndex then Ok st
  else
    cluster ← at_index clusters (planned_Order planned);
    if (runtime_State cluster != RolloutClusterPending) || negb (runtime_Connected cluster) then Ok st
    else if runtime_Available cluster && (loop_availabilitySlots st <=? 0) then
      Ok {| loop_concurrencySlots := loop_concurrencySlots st;
            loop_availabilitySlots := loop_availabilitySlots st;
            loop_availabilityBlocked := true; loop_decision := loop_decision st |}
    else
      let desired := match planned_Desired planned with Some d => d | None => plan_Desired plan end in
      release ← newRelease plan planned cluster AssignmentApply desired now;
      Ok {| loop_concurrencySlots := loop_concurrencySlots st - 1;
            loop_availabilitySlots :=
              if runtime_Available cluster then loop_availabilitySlots st - 1
              else loop_availabilitySlots st;
            loop_availabilityBlocked := loop_availabilityBlocked st;
            loop_decision := add_release (loop_decision st) release |}.

(** The last loop: does the cohort have a disconnected cluster. *)
Fixpoint has_disconnected (clusters : list ClusterRuntime) (cohortIndex : Z)
    (rows : list PlannedCluster) : res bool :=
  match rows with
  | [] => Ok false
  | planned :: rest =>
      cluster ← at_index clusters (planned_Order planned);
      if (planned_Cohort planned == cohortIndex) &&
         ((runtime_State cluster == RolloutClusterBlocked) || negb (runtime_Connected cluster))
      then Ok true else has_disconnected clusters cohortIndex rest
  end.

(** From the budgets to the end of the function. *)
Definition release_cohort (plan : FrozenRollout) (clusters : list ClusterRuntime) (now : time)
    (cohortIndex : Z) (decision : Decision) : res Decision :=
  counts ← res_foldl (reserve (MinReady (plan_Strategy plan)) now) (0, 0) clusters;
  let '(reserved, atRisk) := counts in
  let concurrencySlots := Z.of_N (MaxConcurrent (plan_Strategy plan)) - reserved in
  if concurrencySlots <=? 0 then Ok (set_blocked decision BlockConcurrency)
  else
    let maxUnavailable := Cohorts.amountLimit (MaxUnavailable (plan_Strategy plan)) (len clusters) in
    st ← res_foldl (release_row plan clusters now cohortIndex)
           {| loop_concurrencySlots := concurrencySlots;
              loop_availabilitySlots := maxUnavailable - atRisk;
              loop_availabilityBlocked := false; loop_decision := decision |}
           (plan_Clusters plan);
    let decision := loop_decision st in
    if (len (decision_Releases decision) =? 0) && (decision_Blocked decision == BlockNone) then
      if loop_availabilityBlocked st then Ok (set_blocked decision BlockUnavailable)
      else
        disconnected ← has_disconnected clusters cohortIndex (plan_Clusters plan);
        Ok (if (disconnected : bool) then set_blocked decision BlockDisconnected else decision)
    else Ok decision.

(** The gates of the active cohort: soak, approval, maintenance. *)
Definition evaluate_cohort (input : EvaluateInput) (clusters : list ClusterRuntime)
    (cohortIndex : Z) (completedAt : time) (decision : Decision) : res Decision :=
  let plan := snapshot_Plan (input_Snapshot input) in
  let now := input_Now input in
  cohort ← at_index (plan_Cohorts plan) cohortIndex;
  soaking ← (if 0 <? cohortIndex then
               previous ← at_index (plan_Cohorts plan) (cohortIndex - 1);
               Ok (after (completedAt + cohort_SoakAfter previous) now)
             else Ok false);
  if (soaking : bool) then Ok (set_blocked decision BlockSoak)
  else
    let continue :=
      if RespectMaintenanceWindows (plan_Strategy plan) && negb (allowsRelease (input_Maintenance input))
      then Ok (set_blocked decision BlockMaintenance)
      else release_cohort plan clusters now cohortIndex decision in
    if cohort_ApprovalRequired cohort then
      match input_CohortApprovals input !! cohort_Index cohort with
      | None => Ok (set_blocked decision BlockApproval)
      | Some approval =>
          if negb (validFor approval (cohort_ApprovalDigest cohort) now)
          then Ok (set_blocked decision BlockApproval)
          else if negb (decision_Approved approval)
          then setRolloutTransition decision (input_Snapshot input) RolloutPaused
                 "cohort_approval_rejected"
          else continue
      end
    else continue.

Definition evaluateProgressing (input : EvaluateInput) (clusters : list ClusterRuntime)
    (decision : Decision) : res Decision :=
  let plan := snapshot_Plan (input_Snapshot input) in
  let now := input_Now input in
  decision ← res_foldl (observe_cluster plan now) decision clusters;
  if negb (len (decision_ClusterTransitions decision) =? 0) then Ok decision
  else if negb (after (plan_Deadline plan) now) then
    setRolloutTransition decision (input_Snapshot input) RolloutFailed "rollout_deadline_exceeded"
  else
    let failed := Failed (decision_Counters decision) in
    let continue :=
      active ← activeCohort plan clusters now;
      let '(cohortIndex, completedAt, complete) := active in
      if (complete : bool) then
        if negb (failed =? 0)
        then setRolloutTransition decision (input_Snapshot input) RolloutFailed
               "rollout_completed_with_failures"
        else setRolloutTransition decision (input_Snapshot input) RolloutSucceeded
               "rollout_completed"
      else evaluate_cohort input clusters cohortIndex completedAt decision in
    if failureBudgetExceeded (FailureThreshold (plan_Strategy plan)) (len clusters) failed then
      match OnFailure (plan_Strategy plan) with
      | FailurePause => setRolloutTransition decision (input_Snapshot input) RolloutPaused
                          "failure_budget_exceeded"
      | FailureAbort | FailureRollback =>
          setRolloutTransition decision (input_Snapshot input) RolloutFailed
            "failure_budget_exceeded"
      | FailureOther _ => continue
      end
    else continue.

(** ** [evaluateRollback] *)

(** A loop with early returns: the value returned, or the state to go on with. *)
Inductive Flow (S : Type) := Return (d : Decision) | Continue (s : S).
#[global] Arguments Return {S} d.
#[global] Arguments Continue {S} s.

Fixpoint flow_foldl {A S} (f : S -> A -> res (Flow S)) (s : S) (l : list A) : res (Flow S) :=
  match l with
  | [] => Ok (Continue s)
  | x :: l' =>
      next ← f s x;
      match next with Return d => Ok (Return d) | Continue s' => flow_foldl f s' l' end
  end.

Definition return_transition {S} (decision : Decision) (snapshot : RuntimeSnapshot)
    (desired : RolloutState) (code : string) : res (Flow S) :=
  d ← setRolloutTransition decision snapshot desired code; Ok (Return d).

Record RollbackTally := {
  tally_rollbackTargets : Z;
  tally_complete : Z;
  tally_reserved : Z;
  tally_atRisk : Z;
}.

(** The first loop. *)
Definition tally_row (input : EvaluateInput) (clusters : list ClusterRuntime) (decision : Decision)
    (st : RollbackTally) (planned : PlannedCluster) : res (Flow RollbackTally) :=
  let snapshot := input_Snapshot input in
  let plan := snapshot_Plan snapshot in
  cluster ← at_index clusters (planned_Order planned);
  if negb (runtime_EverReleased cluster) then Ok (Continue st)
  else if bool_decide (planned_Previous planned = None) then
    return_transition decision snapshot RolloutRollbackFailed "previous_version_unavailable"
  else if runtime_State cluster == RolloutClusterReadyPrevious then
    Ok (Continue {| tally_rollbackTargets := tally_rollbackTargets st + 1;
                    tally_complete := tally_complete st + 1;
                    tally_reserved := tally_reserved st; tally_atRisk := tally_atRisk st |})
  else if ((runtime_State cluster == RolloutClusterFailed) ||
           (runtime_State cluster == RolloutClusterTimedOut)) &&
          (runtime_LastAction cluster == AssignmentRollback) then
    return_transition decision snapshot RolloutRollbackFailed "rollback_cluster_failed"
  else if (runtime_State cluster == RolloutClusterRollingBack) &&
          negb (after (deadlineFor plan cluster) (input_Now input)) then
    return_transition decision snapshot RolloutRollbackFailed "rollback_deadline_exceeded"
  else
    let rolling := runtime_State cluster == RolloutClusterRollingBack in
    Ok (Continue
      {| tally_rollbackTargets := tally_rollbackTargets st + 1; tally_complete := tally_complete st;
         tally_reserved := if rolling then tally_reserved st + 1 else tally_reserved st;
         tally_atRisk := if rolling || negb (runtime_Available cluster)
                         then tally_atRisk st + 1 else tally_atRisk st |}).

(** The order of the second loop: unavailable clusters first, otherwise plan
    order.  The first loop has already indexed [clusters] by every row, so the
    comparison finds its clusters. *)
Definition unavailable (clusters : list ClusterRuntime) (planned : PlannedCluster) : bool :=
  match at_index clusters (planned_Order planned) with
  | Ok cluster => negb (runtime_Available cluster)
  | Err _ => false
  end.

Definition rollback_less (clusters : list ClusterRuntime) (i j : PlannedCluster) : bool :=
  unavailable clusters i && negb (unavailable clusters j).

Record RollbackLoop := {
  rollback_slots : Z;
  rollback_atRisk : Z;
  rollback_decision : Decision;
}.

(** One iteration of the second loop; after [break] nothing changes. *)
Definition rollback_row (input : EvaluateInput) (clusters : list ClusterRuntime)
    (maxUnavailable : Z) (st : RollbackLoop) (planned : PlannedCluster) : res (Flow RollbackLoop) :=
  let snapshot := input_Snapshot input in
  let block b := Ok (Continue {| rollback_slots := rollback_slots st;
                                 rollback_atRisk := rollback_atRisk st;
                                 rollback_decision := set_blocked (rollback_decision st) b |}) in
  if rollback_slots st =? 0 then Ok (Continue st)
  else
    cluster ← at_index clusters (planned_Order planned);
    if negb (runtime_EverReleased cluster) ||
       (runtime_State cluster == RolloutClusterReadyPrevious) ||
       (runtime_State cluster == RolloutClusterRollingBack) then Ok (Continue st)
    else if negb (runtime_Connected cluster) then block BlockDisconnected
    else if runtime_Available cluster && (maxUnavailable <=? rollback_atRisk st)
    then block BlockUnavailable
    else
      match planned_Previous planned with
      | None => return_transition (rollback_decision st) snapshot RolloutRollbackFailed
                  "previous_version_unavailable"
      | Some previous =>
          fail_if (negb (canStartRollback (runtime_State cluster)))
            (fail CodeInvariant "cluster.state" "cannot roll back cluster %s from %s");;
          release ← newRelease (snapshot_Plan snapshot) planned cluster AssignmentRollback
                      (previous_Version previous) (input_Now input);
          Ok (Continue {| rollback_slots := rollback_slots st - 1;
                          rollback_atRisk := if runtime_Available cluster
                                             then rollback_atRisk st + 1 else rollback_atRisk st;
                          rollback_decision := add_release (rollback_decision st) release |})
      end.

(** From the tally to the end of the function. *)
Definition release_rollbacks (input : EvaluateInput) (clusters : list ClusterRuntime)
    (decision : Decision) (tally : RollbackTally) : res Decision :=
  let plan := snapshot_Plan (input_Snapshot input) in
  if (tally_rollbackTargets tally =? 0) || (tally_complete tally =? tally_rollbackTargets tally) then
    setRolloutTransition decision (input_Snapshot input) RolloutRolledBack "rollback_completed"
  else
    let slots := Z.of_N (MaxConcurrent (plan_Strategy plan)) - tally_reserved tally in
    if slots <=? 0 then Ok (set_blocked decision BlockConcurrency)
    else
      let rollbackOrder := sort_slice (rollback_less clusters) (plan_Clusters plan) in
      let maxUnavailable :=
        Cohorts.amountLimit (MaxUnavailable (plan_Strategy plan)) (len clusters) in
      flow ← flow_foldl (rollback_row input clusters maxUnavailable)
        {| rollback_slots := slots; rollback_atRisk := tally_atRisk tally;
           rollback_decision := decision |} rollbackOrder;
      Ok match flow with Return d => d | Continue st => rollback_decision st end.

Definition evaluateRollback (input : EvaluateInput) (clusters : list ClusterRuntime)
    (decision : Decision) : res Decision :=
  flow ← flow_foldl (tally_row input clusters decision)
    {| tally_rollbackTargets := 0; tally_complete := 0; tally_reserved := 0; tally_atRisk := 0 |}
    (plan_Clusters (snapshot_Plan (input_Snapshot input)));
  match flow with
  | Return d => Ok d
  | Continue tally => release_rollbacks input clusters decision tally
  end.

(** ** [Evaluate] *)

Record DecisionDocument := { document_RolloutID : uuid; document_Decision : Decision }.

#[export] Instance DecisionDocument_json : ToJSON DecisionDocument := fun d =>
  JObject (field "rollout_id" (document_RolloutID d) ++ field "decision" (document_Decision d)).

(** [decisionDigest] sorts the slices of its copy of the decision in place; the
    copy shares them with the caller, whose decision is sorted too.  The result
    is the digest and the decision the caller is left with. *)
Definition sorted_decision (decision : Decision) : Decision :=
  set_slices decision
    (sort_slice (fun i j => str_lt (uuid_String (ct_ClusterID i)) (uuid_String (ct_ClusterID j)))
       (decision_ClusterTransitions decision))
    (sort_slice (fun i j => str_lt (uuid_String (release_ClusterID i))
                                   (uuid_String (release_ClusterID j)))
       (decision_Releases decision)).

Definition decisionDigest (rolloutID : uuid) (decision : Decision) : res (Digest * Decision) :=
  let sorted := sorted_decision decision in
  digest ← CanonicalDigest {| document_RolloutID := rolloutID; document_Decision := set_id sorted "" |};
  Ok (digest, sorted).

(** The switch over the state of the rollout. *)
Definition evaluate_state (input : EvaluateInput) (clusters : list ClusterRuntime)
    (decision : Decision) : res Decision :=
  let snapshot := input_Snapshot input in
  let plan := snapshot_Plan snapshot in
  let now := input_Now input in
  match snapshot_State snapshot with
  | RolloutResolving =>
      if approval_Required (plan_Approval plan)
      then setRolloutTransition decision snapshot RolloutAwaitingApproval "approval_requested"
      else setRolloutTransition decision snapshot RolloutQueued "plan_resolved"
  | RolloutAwaitingApproval =>
      match input_InitialApproval input with
      | None => Ok (set_blocked decision BlockApproval)
      | Some approval =>
          if negb (validFor approval (approval_Digest (plan_Approval plan)) now)
          then Ok (set_blocked decision BlockApproval)
          else if negb (decision_Approved approval)
          then setRolloutTransition decision snapshot RolloutRejected "approval_rejected"
          else setRolloutTransition decision snapshot RolloutQueued "approval_granted"
      end
  | RolloutQueued =>
      if RespectMaintenanceWindows (plan_Strategy plan) && negb (allowsRelease (input_Maintenance input))
      then Ok (set_blocked decision BlockMaintenance)
      else setRolloutTransition decision snapshot RolloutProgressing "rollout_started"
  | RolloutProgressing => evaluateProgressing input clusters decision
  | RolloutFailed =>
      if OnFailure (plan_Strategy plan) == FailureRollback
      then setRolloutTransition decision snapshot RolloutRollingBack "automatic_rollback_started"
      else Ok decision
  | RolloutRollingBack => evaluateRollback input clusters decision
  | RolloutDraft => Err (fail CodeInvariant "rollout.state" "draft rollout is not schedulable")
  | RolloutPaused | RolloutRejected | RolloutAborted | RolloutSucceeded | RolloutRolledBack
  | RolloutRollbackFailed => Ok decision
  | RolloutStateOther _ => Err (fail CodeInvariant "rollout.state" "unsupported schedulable state")
  end.

(** The checks before the switch: the runtime in plan order and the decision it
    starts from. *)
Definition evaluate_checks (input : EvaluateInput) : res (list ClusterRuntime * Decision) :=
  let snapshot := input_Snapshot input in
  fail_if (input_Now input =? 0) (fail CodeInvalidInput "now" "must not be zero");;
  wrap_err (ERollout CodeInvariant "plan") (FrozenRollout_Validate (snapshot_Plan snapshot));;
  fail_if (negb (RolloutState_Valid (snapshot_State snapshot)) || (snapshot_Fence snapshot <? 0))
    (fail CodeInvariant "rollout_runtime" "state and fence must be valid");;
  Lease_validate (input_Lease input) (input_Now input) (snapshot_Fence snapshot);;
  clusters ← validateRuntime (snapshot_Plan snapshot) (snapshot_Clusters snapshot);
  counters ← DeriveRolloutCounters (map runtime_State clusters);
  Ok (clusters,
      {| decision_Digest := ""; decision_ExpectedRolloutFence := snapshot_Fence snapshot;
         decision_RolloutTransition := None; decision_ClusterTransitions := [];
         decision_Releases := []; decision_Counters := counters; decision_Blocked := BlockNone |}).

Definition Evaluate (input : EvaluateInput) : res Decision :=
  checked ← evaluate_checks input;
  decision ← evaluate_state input checked.1 checked.2;
  signed ← decisionDigest (plan_ID (snapshot_Plan (input_Snapshot input))) decision;
  Ok (set_id signed.2 signed.1).
End scheduler.
End Scheduler.
