(* ===== verification/SchedulerFacts.v ===== *)
(** * The rollout scheduler: correctness

    Every decision is legal for the state machines of State.v, the releases
    respect the gates and the budgets of the frozen strategy, a rollback touches
    exactly the clusters that were ever released, and the decision does not
    depend on the order of the runtime rows. *)

From Stdlib Require Import ZArith Lia Ascii.
From S2P Require Import Prelude Enums State GoSort GoStrings External Validation Overrides Model.
From S2P Require Import Types RolloutTypes Cohorts Planner Scheduler.
From stdpp Require Import base gmap strings list sorting.
Import State Overrides Model Types RolloutTypes Planner Scheduler.

Open Scope Z_scope.

Module SchedulerFacts.

(** ** Indices *)

Lemma at_index_Ok {A} (xs : list A) i x :
  at_index xs i = Ok x <-> 0 <= i /\ xs !! Z.to_nat i = Some x.
Proof.
  unfold at_index. destruct (Z.ltb_spec i 0); [split; [done|lia]|].
  destruct (xs !! Z.to_nat i); split; intros Hx; naive_solver.
Qed.

Lemma at_index_nat {A} (xs : list A) n x : at_index xs (Z.of_nat n) = Ok x <-> xs !! n = Some x.
Proof. rewrite at_index_Ok, Nat2Z.id. split; [tauto | split; [lia|done]]. Qed.

(** ** Frozen rows *)

(** What [FrozenRollout.Validate] says about the rows and cohorts of a plan. *)
Record plan_shape (plan : FrozenRollout) : Prop := {
  shape_cohorts : forall i c, plan_Cohorts plan !! i = Some c -> cohort_Index c = Z.of_nat i;
  shape_ids : NoDup (map planned_ClusterID (plan_Clusters plan));
  shape_rows : forall n p, plan_Clusters plan !! n = Some p ->
    planned_Order p = Z.of_nat n /\ 0 <= planned_Cohort p < len (plan_Cohorts plan);
  shape_failure : forall raw, OnFailure (plan_Strategy plan) <> FailureOther raw;
}.

Section shape.
Context `{External} `{!ExternalLaws}.
Set Default Proof Using "Type*".

(** The walk of [Validate] up to row [n]. *)
Definition walked (plan : FrozenRollout) (st : gset uuid * nat) : Prop :=
  let rows := take st.2 (plan_Clusters plan) in
  NoDup (map planned_ClusterID rows) /\
  (forall u, u ∈ st.1 <-> u ∈ map planned_ClusterID rows) /\
  forall n p, rows !! n = Some p ->
    planned_Order p = Z.of_nat n /\ 0 <= planned_Cohort p < len (plan_Cohorts plan).

Lemma walked_cluster plan index st u st' :
  0 <= index < len (plan_Cohorts plan) ->
  walked plan st -> check_cluster plan index st u = Ok st' -> walked plan st'.
Proof.
  intros Hi (Hnd & Hseen & Hrows). destruct st as [seen n]. unfold check_cluster.
  destruct (plan_Clusters plan !! n) as [p|] eqn:Hp; [|done]. intros Hc. res_inv. bool_props.
  unfold walked. cbn [fst snd] in *. rewrite (take_S_r _ _ _ Hp), map_app. cbn [map].
  assert (Hfresh : planned_ClusterID p ∉ map planned_ClusterID (take n (plan_Clusters plan))).
  { rewrite <- Hseen. congruence. }
  split_and!.
  - apply NoDup_app. split_and!; [done| |apply NoDup_singleton]. set_solver.
  - set_solver.
  - intros m q [Hq|[Hlen Hq]]%lookup_app_Some; [by apply Hrows|].
    apply list_lookup_singleton_Some in Hq as [Hm <-]. rewrite length_take in *.
    apply lookup_lt_Some in Hp. split; [|congruence]. lia.
Qed.

Lemma walked_cohort plan st ic st' :
  ic ∈ enumerate_cohorts (plan_Cohorts plan) ->
  walked plan st -> check_cohort plan st ic = Ok st' -> walked plan st'.
Proof.
  destruct ic as [i c]. unfold enumerate_cohorts. intros Hic Hw Hc. unfold check_cohort in Hc. res_inv.
  eapply (res_foldl_inv (check_cluster plan i) (walked plan)); [|exact Hw|exact Hc].
  intros s u s' _ Hs Hcl. eapply walked_cluster; [|exact Hs|exact Hcl].
  apply elem_of_lookup_imap in Hic as (j & d & [= -> <-] & Hj).
  apply lookup_lt_Some in Hj. unfold len. lia.
Qed.

Lemma Validate_shape plan : FrozenRollout_Validate plan = Ok tt -> plan_shape plan.
Proof.
  unfold FrozenRollout_Validate. intros Hv. res_inv. bool_props.
  match goal with Hw : res_foldl _ _ _ = Ok ?w, He : Z.of_nat _ = _ |- _ =>
    pose proof (res_foldl_steps _ _ _ _ Hw) as Hsteps;
    destruct w as [seen n]; cbn in He;
    apply (res_foldl_inv (check_cohort plan) (walked plan)) in Hw as (Hnd & _ & Hrows) end.
  - cbn [snd] in *. rewrite take_ge in Hnd, Hrows by (unfold len in *; lia).
    split; [|done|done|].
    + intros i c Hc. rewrite Forall_forall in Hsteps.
      destruct (Hsteps (Z.of_nat i, c)) as (a & b & Hab).
      { apply elem_of_lookup_imap. eauto. }
      unfold check_cohort in Hab. res_inv. by bool_props.
    + by eapply RolloutStrategy_Validate_iff.
  - intros s ic s' Hin. by apply walked_cohort.
  - split_and!; cbn; [constructor|set_solver|done].
Qed.
End shape.

(** ** The runtime in plan order *)

Definition runtime_ok (c : ClusterRuntime) : Prop :=
  runtime_ClusterID c <> uuid_Nil /\ runtime_State c ∈ AllRolloutClusterStates /\
  0 <= runtime_Fence c /\ 0 <= runtime_CurrentGeneration c /\
  (runtime_State c = RolloutClusterReady ->
   exists t, runtime_ReadySince c = Some t /\ t <> 0).

Lemma index_runtime_Ok byID c byID' :
  index_runtime byID c = Ok byID' <->
  runtime_ok c /\ byID !! runtime_ClusterID c = None /\ byID' = <[runtime_ClusterID c := c]> byID.
Proof.
  unfold index_runtime, runtime_ok, RolloutClusterState_Valid. rewrite <- contains_elem_of. split.
  - intros Hx. res_inv. bool_props.
    match goal with Hr : (_ && _)%bool = false |- _ => apply andb_false_iff in Hr as Hready end.
    split_and!; try done.
    + intros Hs. destruct Hready as [Hr|Hr]; bool_props; [done|].
      destruct (runtime_ReadySince c) as [t|]; [|done]. exists t. by bool_props.
    + by apply eq_None_not_Some.
  - intros ((Hid & Hst & Hf & Hg & Hr) & Hn & ->).
    rewrite (bool_decide_false (_ = uuid_Nil)) by done. rewrite Hst, Hn.
    apply Z.ltb_ge in Hf as ->. apply Z.ltb_ge in Hg as ->. cbn.
    case_bool_decide as Hready; [|done].
    destruct (Hr Hready) as (t & -> & Ht). apply Z.eqb_neq in Ht as ->. done.
Qed.

Lemma index_runtime_loop input byID :
  res_foldl index_runtime ∅ input = Ok byID ->
  forall u c, byID !! u = Some c -> c ∈ input /\ runtime_ClusterID c = u /\ runtime_ok c.
Proof.
  apply (res_foldl_inv index_runtime (fun m => forall u c, m !! u = Some c ->
    c ∈ input /\ runtime_ClusterID c = u /\ runtime_ok c)); [|done].
  intros m c m' Hin Hm (Hok & _ & ->)%index_runtime_Ok u d.
  rewrite lookup_insert_Some. intros [[<- <-]|[_ ?]]; auto.
Qed.

Lemma order_runtime_Ok byID rows cs :
  order_runtime byID rows = Ok cs <-> Forall2 (fun p c => byID !! planned_ClusterID p = Some c) rows cs.
Proof.
  revert cs. induction rows as [|p rows IH]; intros cs; cbn [order_runtime].
  { split; [intros [= <-]; constructor | by inversion 1]. }
  destruct (byID !! planned_ClusterID p) as [c|] eqn:E.
  - rewrite res_bind_Ok. setoid_rewrite IH. split.
    + intros (cs' & ? & [= <-]). by constructor.
    + inversion 1; simplify_eq. eauto.
  - split; [done|]. inversion 1; congruence.
Qed.

(** A validated runtime is the input in plan order. *)
Lemma validateRuntime_spec plan input cs :
  plan_shape plan -> validateRuntime plan input = Ok cs ->
  Forall2 (fun p c => runtime_ClusterID c = planned_ClusterID p) (plan_Clusters plan) cs /\
  cs ≡ₚ input /\ Forall runtime_ok cs.
Proof.
  intros Hshape Hv. unfold validateRuntime in Hv. res_inv. bool_props.
  match goal with Hl : res_foldl _ _ _ = Ok _ |- _ => pose proof (index_runtime_loop _ _ Hl) as Hm end.
  apply order_runtime_Ok in Hv.
  assert (H2 : Forall2 (fun p c => runtime_ClusterID c = planned_ClusterID p) (plan_Clusters plan) cs).
  { eapply Forall2_impl; [exact Hv|]. intros p c Hc. by apply Hm in Hc as (_ & -> & _). }
  assert (Hc : Forall (fun c => c ∈ input /\ runtime_ok c) cs).
  { apply Forall_forall. intros c (i & Hi)%list_elem_of_lookup.
    destruct (Forall2_lookup_r _ _ _ _ _ Hv Hi) as (p & _ & Hp). apply Hm in Hp. tauto. }
  split_and!; [done| |by eapply Forall_impl; [exact Hc|intros ? []]].
  apply submseteq_length_Permutation.
  - apply NoDup_submseteq.
    + eapply (NoDup_fmap_1 runtime_ClusterID).
      replace (runtime_ClusterID <$> cs) with (map planned_ClusterID (plan_Clusters plan));
        [by apply shape_ids|].
      apply list_eq_Forall2, Forall2_fmap. eapply Forall2_impl; [exact H2|]. done.
    + rewrite Forall_forall in Hc. intros c Hin. by apply Hc.
  - apply Forall2_length in Hv. unfold len in *. lia.
Qed.

Lemma validateRuntime_perm plan input input' cs :
  input ≡ₚ input' -> validateRuntime plan input = Ok cs -> validateRuntime plan input' = Ok cs.
Proof.
  intros Hp Hv. unfold validateRuntime in *. res_inv.
  assert (Hl : len input' = len input) by (unfold len; by rewrite Hp).
  match goal with Hf : _ = false |- _ => rewrite Hl, Hf end. cbn [fail_if mbind res_bind].
  match goal with Hf : res_foldl _ _ _ = Ok ?m |- _ =>
    assert (Hm : res_foldl index_runtime ∅ input' = Ok m); [|by rewrite Hm] end.
  apply (res_foldl_perm index_runtime (fun _ => True) input); try done.
  - intros s x y r _. rewrite !res_bind_Ok. intros (s1 & (Hx & Hnx & ->)%index_runtime_Ok & Hy).
    apply index_runtime_Ok in Hy as (Hy & Hny & ->). apply lookup_insert_None in Hny as [Hny Hne].
    exists (<[runtime_ClusterID y := y]> s). rewrite !index_runtime_Ok. split_and!; try done.
    + by rewrite lookup_insert_ne.
    + by apply insert_insert_ne.
Qed.

(** The frozen row [p] and the runtime [c] of the same cluster. *)
Definition row_of (snapshot : RuntimeSnapshot) (p : PlannedCluster) (c : ClusterRuntime) : Prop :=
  p ∈ plan_Clusters (snapshot_Plan snapshot) /\ c ∈ snapshot_Clusters snapshot /\
  runtime_ClusterID c = planned_ClusterID p.

(** What the checks of [Evaluate] establish for the rest of the function. *)
Record checked (snapshot : RuntimeSnapshot) (cs : list ClusterRuntime) : Prop := {
  checked_shape : plan_shape (snapshot_Plan snapshot);
  checked_ids : Forall2 (fun p c => runtime_ClusterID c = planned_ClusterID p)
    (plan_Clusters (snapshot_Plan snapshot)) cs;
  checked_perm : cs ≡ₚ snapshot_Clusters snapshot;
  checked_ok : Forall runtime_ok cs;
}.

Lemma checked_row snapshot cs p c :
  checked snapshot cs -> p ∈ plan_Clusters (snapshot_Plan snapshot) ->
  at_index cs (planned_Order p) = Ok c <-> row_of snapshot p c.
Proof.
  intros [Hs Hids Hperm _] Hp. unfold row_of. apply list_elem_of_lookup in Hp as [n Hn].
  destruct (shape_rows _ Hs _ _ Hn) as [-> _]. rewrite at_index_nat.
  destruct (Forall2_lookup_l _ _ _ _ _ Hids Hn) as (d & Hd & Hdp). split.
  - intros Hc. simplify_eq. split_and!; [by eapply list_elem_of_lookup_2| |done].
    rewrite <- Hperm. by eapply list_elem_of_lookup_2.
  - intros (_ & Hc & He). rewrite <- Hperm in Hc. apply list_elem_of_lookup in Hc as [m Hm].
    destruct (Forall2_lookup_r _ _ _ _ _ Hids Hm) as (q & Hq & Hqc).
    assert (m = n) as ->; [|done].
    eapply (NoDup_lookup (map planned_ClusterID (plan_Clusters (snapshot_Plan snapshot))));
      [by apply shape_ids|..].
    + change (map planned_ClusterID (plan_Clusters (snapshot_Plan snapshot)))
        with (planned_ClusterID <$> plan_Clusters (snapshot_Plan snapshot)).
      rewrite list_lookup_fmap, Hq. cbn. by rewrite <- Hqc.
    + change (map planned_ClusterID (plan_Clusters (snapshot_Plan snapshot)))
        with (planned_ClusterID <$> plan_Clusters (snapshot_Plan snapshot)).
      rewrite list_lookup_fmap, Hn. cbn. by rewrite <- He.
Qed.

Lemma checked_total snapshot cs p :
  checked snapshot cs -> p ∈ plan_Clusters (snapshot_Plan snapshot) ->
  exists c, at_index cs (planned_Order p) = Ok c.
Proof.
  intros [Hs Hids _ _] [n Hn]%list_elem_of_lookup. destruct (shape_rows _ Hs _ _ Hn) as [-> _].
  destruct (Forall2_lookup_l _ _ _ _ _ Hids Hn) as (d & Hd & _). exists d. by apply at_index_nat.
Qed.

Lemma checked_cluster snapshot cs c :
  checked snapshot cs -> c ∈ cs ->
  exists p, p ∈ plan_Clusters (snapshot_Plan snapshot) /\ at_index cs (planned_Order p) = Ok c.
Proof.
  intros [Hs Hids _ _] [n Hn]%list_elem_of_lookup.
  destruct (Forall2_lookup_r _ _ _ _ _ Hids Hn) as (p & Hp & _). exists p.
  split; [by eapply list_elem_of_lookup_2|]. destruct (shape_rows _ Hs _ _ Hp) as [-> _].
  by apply at_index_nat.
Qed.

Lemma row_of_runtime_ok snapshot cs p c :
  checked snapshot cs -> row_of snapshot p c -> runtime_ok c.
Proof.
  intros [_ _ Hperm Hok] (_ & Hc & _). rewrite Forall_forall in Hok. apply Hok. by rewrite Hperm.
Qed.

(** ** The active cohort *)

(** The cluster needs no more work of the rollout at [now]: it has been ready for
    the minimum time, or it failed, timed out or was skipped. *)
Definition finished (minReady : duration) (now : time) (c : ClusterRuntime) : Prop :=
  match runtime_State c with
  | RolloutClusterReady => exists t, runtime_ReadySince c = Some t /\ t + minReady <= now
  | RolloutClusterFailed | RolloutClusterTimedOut | RolloutClusterSkipped => True
  | _ => False
  end.

Definition finished_at (minReady : duration) (c : ClusterRuntime) : time :=
  match runtime_State c with
  | RolloutClusterReady => default 0 (runtime_ReadySince c) + minReady
  | _ => runtime_StateChangedAt c
  end.

Section active.
Context (plan : FrozenRollout) (cs : list ClusterRuntime) (now : time).
#[local] Abbreviation minReady := (MinReady (plan_Strategy plan)).
#[local] Abbreviation row p c := (p ∈ plan_Clusters plan /\ at_index cs (planned_Order p) = Ok c).

Lemma cohort_row_step k st p st' :
  cohort_row plan cs now k st p = Ok st' ->
  st.2 <= st'.2 /\
  (planned_Cohort p <> k -> st' = st) /\
  (planned_Cohort p = k -> exists c, at_index cs (planned_Order p) = Ok c /\
     (finished minReady now c -> st'.1 = st.1 /\ finished_at minReady c <= st'.2) /\
     (~ finished minReady now c -> st'.1 = false)).
Proof.
  destruct st as [b t]. unfold cohort_row. case_bool_decide as Hk; cbn [negb].
  2: { intros [= <-]. split_and!; [done..|]. intros ?. by destruct Hk. }
  intros Hr. apply res_bind_Ok in Hr as (c & Hc & Hr).
  assert (Hgoal : t <= st'.2 /\
    (finished minReady now c -> st'.1 = b /\ finished_at minReady c <= st'.2) /\
    (~ finished minReady now c -> st'.1 = false)).
  { unfold finished, finished_at. destruct (runtime_State c); res_inv; cbn; try (split_and!; done || lia);
      unfold after, deref in *; [destruct (runtime_ReadySince c) as [r|]; simplify_eq/=|..].
    all: repeat match goal with |- context [?a <? ?b] => destruct (Z.ltb_spec a b) end.
    all: split_and!; try lia; try tauto; try (intros (? & [= <-] & ?); split; (done || lia)).
    all: try (intros _; split; (done || lia)). all: intros Hn; destruct Hn; eauto. }
  destruct Hgoal as (? & ? & ?). split_and!; [done..|]. intros _. by exists c.
Qed.

Lemma cohort_rows_spec k rows st st' :
  res_foldl (cohort_row plan cs now k) st rows = Ok st' ->
  st.2 <= st'.2 /\
  (st'.1 = true -> st.1 = true /\
     forall p c, p ∈ rows -> planned_Cohort p = k -> at_index cs (planned_Order p) = Ok c ->
       finished minReady now c /\ finished_at minReady c <= st'.2) /\
  (st'.1 = false -> st.1 = true ->
     exists p c, p ∈ rows /\ planned_Cohort p = k /\ at_index cs (planned_Order p) = Ok c /\
       ~ finished minReady now c).
Proof.
  revert st. induction rows as [|q rows IH]; intros st; cbn [res_foldl].
  { intros [= <-]. split_and!; [done| |congruence]. intros ->. split; [done|]. set_solver. }
  rewrite res_bind_Ok. intros (st1 & Hq & (Hle & Ht & Hf)%IH).
  apply cohort_row_step in Hq as (Hle1 & Hskip & Hrow). split; [lia|].
  destruct (decide (planned_Cohort q = k)) as [Hk|Hk].
  2: { rewrite (Hskip Hk) in *. split.
       - intros [? Hall]%Ht. split; [done|]. intros p c Hp Hpk. apply elem_of_cons in Hp as [->|Hp].
         + by destruct Hk.
         + by eapply Hall.
       - intros H1 H2. destruct (Hf H1 H2) as (p & c & ? & ?). exists p, c. split; [by right|tauto]. }
  destruct (Hrow Hk) as (c & Hc & Hyes & Hno).
  assert (Hdec : finished minReady now c \/ ~ finished minReady now c).
  { unfold finished. destruct (runtime_State c); try tauto.
    destruct (runtime_ReadySince c) as [t|]; [|right; by intros (? & ? & _)].
    destruct (Z.le_gt_cases (t + minReady) now); [left; eauto|right; intros (? & [= <-] & ?); lia]. }
  split.
  - intros [Ht1 Hall]%Ht. destruct Hdec as [Hfin|Hfin]; [|by rewrite (Hno Hfin) in Ht1].
    destruct (Hyes Hfin) as [Hst Hat]. split; [congruence|].
    intros p d [->|Hp]%elem_of_cons Hpk Hd; [|by eapply Hall]. rewrite Hc in Hd. injection Hd as <-. split; [done|lia].
  - intros Hfalse Htrue. destruct Hdec as [Hfin|Hfin].
    + destruct (Hyes Hfin) as [Hst _]. rewrite Htrue in Hst.
      destruct (Hf Hfalse Hst) as (p & d & ? & ?). exists p, d. split; [by right|tauto].
    + exists q, c. split_and!; [by left|done..].
Qed.

(** The rows of the cohorts before [k] are finished, those of the last of them by
    [t]. *)
Definition cohorts_done (k : Z) (t : time) : Prop :=
  forall p c, row p c -> planned_Cohort p < k ->
    finished minReady now c /\ (planned_Cohort p = k - 1 -> finished_at minReady c <= t).

Lemma active_from_spec cohorts pre t k t' complete :
  plan_shape plan -> plan_Cohorts plan = pre ++ cohorts ->
  cohorts_done (len pre) t -> active_from plan cs now t cohorts = Ok (k, t', complete) ->
  cohorts_done k t' /\ 0 <= k /\
  if complete then k = len (plan_Cohorts plan)
  else k < len (plan_Cohorts plan) /\
       exists p c, row p c /\ planned_Cohort p = k /\ ~ finished minReady now c.
Proof.
  intros Hs. revert pre t. induction cohorts as [|q cohorts IH]; intros pre t Hpre Hdone; cbn [active_from].
  { intros [= <- <- <-]. rewrite Hpre, app_nil_r. split_and!; [done|apply len_nonneg|done]. }
  rewrite res_bind_Ok. intros ([b t1] & Hloop & Hr). cbn [fst snd] in Hr.
  apply cohort_rows_spec in Hloop as (_ & Htrue & Hfalse). cbn [fst snd] in *.
  assert (Hq : cohort_Index q = len pre).
  { apply (shape_cohorts _ Hs (length pre)). rewrite Hpre. by apply list_lookup_middle. }
  rewrite Hq in *. destruct b; cbn [negb] in Hr.
  - apply (IH (pre ++ [q])) in Hr; [done|by rewrite <- app_assoc|].
    destruct (Htrue eq_refl) as [_ Hall]. intros p c [Hp Hc]. unfold len. rewrite length_app. cbn.
    intros Hlt. destruct (decide (planned_Cohort p = len pre)) as [Hk|Hk].
    + destruct (Hall p c Hp Hk Hc) as [? Hat]. split; [done|]. done.
    + unfold len in *. destruct (Hdone p c (conj Hp Hc)) as [? _]; [lia|]. split; [done|lia].
  - injection Hr as <- <- <-. split_and!; [done|apply len_nonneg| |].
    + rewrite Hpre. unfold len. rewrite length_app. cbn. lia.
    + destruct (Hfalse eq_refl eq_refl) as (p & c & ? & ? & ? & ?). by exists p, c.
Qed.

Lemma activeCohort_spec k t complete :
  plan_shape plan -> activeCohort plan cs now = Ok (k, t, complete) ->
  cohorts_done k t /\ 0 <= k /\
  if complete then k = len (plan_Cohorts plan)
  else k < len (plan_Cohorts plan) /\
       exists p c, row p c /\ planned_Cohort p = k /\ ~ finished minReady now c.
Proof.
  intros Hs Ha. eapply (active_from_spec (plan_Cohorts plan) []); [done..| |exact Ha].
  intros p c [[n Hn]%list_elem_of_lookup _]. cbn.
  destruct (shape_rows _ Hs _ _ Hn) as [_ [? _]]. unfold len. cbn. lia.
Qed.
End active.

(** ** The release loop *)

Definition count {A} (f : A -> bool) (l : list A) : Z := len (List.filter f l).

Lemma count_cons {A} (f : A -> bool) x l : count f (x :: l) = (if f x then 1 else 0) + count f l.
Proof. unfold count, len. cbn. destruct (f x); cbn [length]; lia. Qed.

Lemma count_nonneg {A} (f : A -> bool) l : 0 <= count f l.
Proof. unfold count. apply len_nonneg. Qed.

#[export] Instance count_perm {A} (f : A -> bool) : Proper ((≡ₚ) ==> (=)) (count f).
Proof.
  intros l k Hp. induction Hp as [|x l k _ IH|x y l|]; rewrite ?count_cons; try lia; congruence.
Qed.

Lemma len_cons {A} (x : A) l : len (x :: l) = 1 + len l.
Proof. unfold len. cbn [length]. lia. Qed.

Lemma len_app {A} (l k : list A) : len (l ++ k) = len l + len k.
Proof. unfold len. rewrite length_app. lia. Qed.

(** The version a row asks for. *)
Definition desired_version (plan : FrozenRollout) (p : PlannedCluster) : VersionIdentity :=
  match planned_Desired p with Some d => d | None => plan_Desired plan end.

Section release.
Context `{External}.
Context (plan : FrozenRollout) (cs : list ClusterRuntime) (now : time) (k : Z).
Set Default Proof Using "Type".

Definition releasable (p : PlannedCluster) (c : ClusterRuntime) : Prop :=
  planned_Cohort p = k /\ at_index cs (planned_Order p) = Ok c /\
  runtime_State c = RolloutClusterPending /\ runtime_Connected c = true.

Definition released_as (pc : PlannedCluster * ClusterRuntime) (r : Release) : Prop :=
  releasable pc.1 pc.2 /\
  newRelease plan pc.1 pc.2 AssignmentApply (desired_version plan pc.1) now = Ok r.

(** What a run of the loop adds to its state. *)
Definition released_rows (rows : list PlannedCluster) (st st' : ReleaseLoop)
    (picked : list (PlannedCluster * ClusterRuntime)) (new : list Release) : Prop :=
  sublist (map fst picked) rows /\ Forall2 released_as picked new /\
  loop_decision st' = set_slices (loop_decision st) (decision_ClusterTransitions (loop_decision st))
    (decision_Releases (loop_decision st) ++ new) /\
  loop_concurrencySlots st' = loop_concurrencySlots st - len new /\
  0 <= loop_concurrencySlots st' /\
  loop_availabilitySlots st' =
    loop_availabilitySlots st - count (fun pc => runtime_Available pc.2) picked /\
  (count (fun pc => runtime_Available pc.2) picked = 0 \/ 0 <= loop_availabilitySlots st') /\
  (new = [] -> 0 < loop_concurrencySlots st -> loop_availabilityBlocked st' = false ->
   forall p c, p ∈ rows -> ~ releasable p c).

(** One row: nothing changes, or the row is blocked by the availability budget,
    or it is released. *)
Lemma release_row_step st p st' :
  release_row plan cs now k st p = Ok st' ->
  (st' = st /\ (loop_concurrencySlots st = 0 \/ forall c, ~ releasable p c)) \/
  (loop_availabilityBlocked st' = true /\ loop_concurrencySlots st' = loop_concurrencySlots st /\
   loop_availabilitySlots st' = loop_availabilitySlots st /\ loop_decision st' = loop_decision st) \/
  exists c r, released_as (p, c) r /\ loop_concurrencySlots st <> 0 /\
    loop_concurrencySlots st' = loop_concurrencySlots st - 1 /\
    loop_availabilitySlots st' = loop_availabilitySlots st - (if runtime_Available c then 1 else 0) /\
    (runtime_Available c = true -> 0 < loop_availabilitySlots st) /\
    loop_availabilityBlocked st' = loop_availabilityBlocked st /\
    loop_decision st' = add_release (loop_decision st) r.
Proof.
  unfold release_row. destruct (Z.eqb_spec (loop_concurrencySlots st) 0) as [E0|E0].
  { intros [= <-]. left. auto. }
  case_bool_decide as Hk; cbn [negb].
  2: { intros [= <-]. left. split; [done|]. right. intros c (? & _). done. }
  intros Hr. apply res_bind_Ok in Hr as (c & Hc & Hr).
  destruct (_ || _)%bool eqn:Hguard.
  { injection Hr as <-. left. split; [done|]. right. intros d (_ & Hd & Hs & Hconn).
    rewrite Hc in Hd. injection Hd as <-. rewrite Hs, Hconn in Hguard. done. }
  bool_props. destruct (_ && _)%bool eqn:Ha.
  { injection Hr as <-. right. left. by split_and!. }
  right. right. apply res_bind_Ok in Hr as (r & Hrel & Hst). injection Hst as <-. exists c, r. cbn.
  split_and!; try done.
  - by destruct (runtime_Available c); lia.
  - intros Hav. rewrite Hav in Ha. cbn in Ha. bool_props. lia.
Qed.

Lemma set_slices_id d : set_slices d (decision_ClusterTransitions d) (decision_Releases d) = d.
Proof. by destruct d. Qed.

Lemma release_rows_spec rows st st' :
  res_foldl (release_row plan cs now k) st rows = Ok st' -> 0 <= loop_concurrencySlots st ->
  exists picked new, released_rows rows st st' picked new.
Proof.
  revert st. induction rows as [|p rows IH]; intros st; cbn [res_foldl].
  { intros [= <-] Hs. exists [], []. unfold released_rows. rewrite app_nil_r, set_slices_id. cbn.
    split_and!; try done; try (left; done); try (unfold count, len; cbn; lia). set_solver. }
  rewrite res_bind_Ok. intros (st1 & Hp & Hrest) Hs.
  apply release_row_step in Hp as [[-> Hno]|[(Hab & Hcs & Hav & Hd)|(c & r & Hrel & H0 & Hcs & Hav & Hpos & Hab & Hd)]].
  - destruct (IH st Hrest Hs) as (picked & new & Hsub & H2 & Hdec & H3 & H4 & H5 & H6 & H7).
    exists picked, new. split_and!; try done; [by constructor|].
    intros Hn Hp Hb q d [->|Hq]%elem_of_cons; [|by eapply H7]. destruct Hno as [?|Hno]; [lia|apply Hno].
  - destruct (IH st1 Hrest) as (picked & new & Hsub & H2 & Hdec & H3 & H4 & H5 & H6 & H7); [lia|].
    exists picked, new. rewrite Hd, Hcs, Hav in *. split_and!; try done; [by constructor|].
    intros Hn Hp Hb. exfalso.
    assert (Hmono : loop_availabilityBlocked st' = true); [|congruence].
    eapply (res_foldl_inv _ (fun s => loop_availabilityBlocked s = true)); [|exact Hab|exact Hrest].
    intros s q s' _ Hs1 [[-> _]|[(? & _)|(? & ? & _ & _ & _ & _ & _ & Hb1 & _)]]%release_row_step;
      congruence.
  - destruct (IH st1 Hrest) as (picked & new & Hsub & H2 & Hdec & H3 & H4 & H5 & H6 & H7); [lia|].
    exists ((p, c) :: picked), (r :: new). unfold released_rows. rewrite count_cons, len_cons. cbn [snd map fst].
    split_and!; try done; try lia.
    + by constructor.
    + by constructor.
    + rewrite Hdec, Hd. unfold add_release, set_slices. cbn. by rewrite <- app_assoc.
    + pose proof (count_nonneg (fun pc : PlannedCluster * ClusterRuntime => runtime_Available pc.2) picked).
      destruct (runtime_Available c); [|lia]. specialize (Hpos eq_refl). right. lia.
Qed.
End release.

(** ** Budgets *)

(** The cluster occupies a concurrency slot: it is being changed, or has not been
    ready for the minimum time yet. *)
Definition in_flight (minReady : duration) (now : time) (c : ClusterRuntime) : bool :=
  match runtime_State c with
  | RolloutClusterReleased | RolloutClusterAcknowledged | RolloutClusterReconciling
  | RolloutClusterRollingBack => true
  | RolloutClusterReady =>
      match runtime_ReadySince c with Some t => now <? t + minReady | None => false end
  | _ => false
  end.

(** The cluster is unavailable or may become so. *)
Definition at_risk (minReady : duration) (now : time) (c : ClusterRuntime) : bool :=
  in_flight minReady now c || negb (runtime_Available c).

Lemma consumesConcurrency_spec minReady now c b :
  consumesConcurrency c minReady now = Ok b -> in_flight minReady now c = b.
Proof.
  unfold consumesConcurrency, in_flight, deref, after.
  destruct (runtime_State c), (runtime_ReadySince c); cbn; by intros [= <-].
Qed.

Lemma reserve_spec minReady now cs st st' :
  res_foldl (reserve minReady now) st cs = Ok st' ->
  st' = (st.1 + count (in_flight minReady now) cs, st.2 + count (at_risk minReady now) cs).
Proof.
  revert st. induction cs as [|c cs IH]; intros [a r]; cbn [res_foldl].
  { intros [= <-]. unfold count, len. cbn. f_equal; lia. }
  rewrite res_bind_Ok. intros (st1 & Hc & ->%IH). unfold reserve in Hc.
  apply res_bind_Ok in Hc as (b & Hb%consumesConcurrency_spec & Hc).
  rewrite !count_cons. unfold at_risk at 2. rewrite Hb.
  destruct b, (runtime_Available c); cbn in *; injection Hc as <-; cbn; f_equal; lia.
Qed.

(** ** Transitions *)

Lemma cluster_edge c to r :
  TransitionRolloutCluster (fenced_state c) to (runtime_Fence c) = Ok r -> runtime_State c <> to ->
  to ∈ rolloutClusterTransitions (runtime_State c).
Proof.
  rewrite TransitionRolloutCluster_fenced. intros Ht Hne. res_inv.
  match goal with Hf : fenced _ _ _ _ _ _ = Ok _ |- _ =>
    apply fenced_Ok in Hf as [_ (_ & _ & [?|[_ ?]])] end; done.
Qed.

Lemma setRolloutTransition_Ok d snapshot to code d' :
  setRolloutTransition d snapshot to code = Ok d' -> snapshot_State snapshot <> to ->
  decision_RolloutTransition d = None /\ to ∈ rolloutTransitions (snapshot_State snapshot) /\
  d' = set_rollout d {| rt_From := snapshot_State snapshot; rt_To := to;
                        rt_ExpectedFence := snapshot_Fence snapshot; rt_Code := code |}.
Proof.
  unfold setRolloutTransition. intros Hs Hne. res_inv. bool_props. split_and!; [| |done].
  - by apply eq_None_not_Some.
  - rewrite TransitionRollout_fenced in *. res_inv.
    match goal with Hf : fenced _ _ _ _ _ _ = Ok _ |- _ =>
      apply fenced_Ok in Hf as [_ (_ & _ & [?|[_ ?]])] end; done.
Qed.

(** [t] is a transition of cluster [c] that the table has. *)
Definition moves (c : ClusterRuntime) (t : ClusterTransition) : Prop :=
  ct_ClusterID t = runtime_ClusterID c /\ ct_From t = runtime_State c /\
  ct_ExpectedFence t = runtime_Fence c /\ ct_To t ∈ rolloutClusterTransitions (runtime_State c) /\
  ct_To t ∈ [RolloutClusterBlocked; RolloutClusterPending; RolloutClusterTimedOut].

(** Nothing is due for the cluster before the rollout itself is considered. *)
Definition quiet (plan : FrozenRollout) (now : time) (c : ClusterRuntime) : Prop :=
  (runtime_State c = RolloutClusterPending -> runtime_Connected c = true) /\
  (runtime_State c = RolloutClusterBlocked -> runtime_Connected c = false) /\
  (isApplyActive (runtime_State c) = true -> now < deadlineFor plan c).

Lemma isApplyActive_iff s :
  isApplyActive s = true <->
  s = RolloutClusterReleased \/ s = RolloutClusterAcknowledged \/ s = RolloutClusterReconciling.
Proof. unfold isApplyActive. rewrite !orb_true_iff, !bool_decide_eq_true. tauto. Qed.

Lemma observe_step plan now d c d' :
  observe_cluster plan now d c = Ok d' ->
  (d' = d /\ quiet plan now c) \/
  exists t, moves c t /\
    d' = set_slices d (decision_ClusterTransitions d ++ [t]) (decision_Releases d).
Proof.
  unfold observe_cluster, addClusterTransition, quiet. intros Ho.
  destruct ((runtime_State c == RolloutClusterPending) && negb (runtime_Connected c)) eqn:E1;
    [|destruct ((runtime_State c == RolloutClusterBlocked) && runtime_Connected c) eqn:E2;
      [|destruct (isApplyActive _ && _)%bool eqn:E3]].
  1-3: right; res_inv; bool_props; eexists; split; [|reflexivity]; unfold moves; cbn; split_and!; try done; try set_solver.
  1-2: eapply cluster_edge; [done|congruence].
  - eapply cluster_edge; [done|]. match goal with Hi : isApplyActive _ = true |- _ =>
      apply isApplyActive_iff in Hi as [->|[->| ->]]; done end.
  - injection Ho as <-. left. split; [done|]. apply andb_false_iff in E1, E2, E3. split_and!.
    + intros Hs. destruct E1; bool_props; done.
    + intros Hs. destruct E2; bool_props; [done|]. by destruct (runtime_Connected c).
    + intros Ha. unfold after in E3. destruct E3 as [E3|E3]; [congruence|]. by bool_props.
Qed.

Lemma observe_spec plan now cs d d' :
  res_foldl (observe_cluster plan now) d cs = Ok d' ->
  exists moved ts, sublist moved cs /\ Forall2 moves moved ts /\
    d' = set_slices d (decision_ClusterTransitions d ++ ts) (decision_Releases d) /\
    (ts = [] -> Forall (quiet plan now) cs).
Proof.
  revert d. induction cs as [|c cs IH]; intros d; cbn [res_foldl].
  { intros [= <-]. exists [], []. rewrite app_nil_r, set_slices_id. split_and!; constructor. }
  rewrite res_bind_Ok. intros (d1 & [[-> Hq]|(t & Ht & ->)]%observe_step & Hr).
  - apply IH in Hr as (moved & ts & Hsub & H2 & -> & Hn). exists moved, ts.
    split_and!; [by constructor|done|done|]. intros Ets. constructor; [done|by apply Hn].
  - apply IH in Hr as (moved & ts & Hsub & H2 & -> & _). exists (c :: moved), (t :: ts).
    split_and!; [by constructor|by constructor| |done]. unfold set_slices. cbn. by rewrite <- app_assoc.
Qed.

Lemma Derive_failed states c :
  DeriveRolloutCounters states = Ok c -> Failed c = counted is_failed states.
Proof.
  unfold DeriveRolloutCounters. intros Hd. res_inv. cbn.
  match goal with Hf : res_foldl _ _ _ = Ok _ |- _ =>
    rewrite countState_loop in Hf by (apply (countState_valid _ zeroCounters); by rewrite Hf);
    injection Hf as <- end. done.
Qed.

(** ** Progressing rollouts *)

(** The decision [Evaluate] starts from. *)
Record fresh (d : Decision) : Prop := {
  fresh_rollout : decision_RolloutTransition d = None;
  fresh_clusters : decision_ClusterTransitions d = [];
  fresh_releases : decision_Releases d = [];
  fresh_blocked : decision_Blocked d = BlockNone;
}.

(** The gates a cohort has to pass before any of its clusters is released. *)
Record gates (input : EvaluateInput) (k : Z) : Prop := {
  gate_quiet : Forall (quiet (snapshot_Plan (input_Snapshot input)) (input_Now input))
    (snapshot_Clusters (input_Snapshot input));
  gate_deadline : input_Now input < plan_Deadline (snapshot_Plan (input_Snapshot input));
  gate_failures :
    count (fun c => is_failed (runtime_State c)) (snapshot_Clusters (input_Snapshot input)) <=
    Cohorts.amountLimit (FailureThreshold (plan_Strategy (snapshot_Plan (input_Snapshot input))))
      (len (snapshot_Clusters (input_Snapshot input)));
  gate_earlier : forall p c, row_of (input_Snapshot input) p c -> planned_Cohort p < k ->
    finished (MinReady (plan_Strategy (snapshot_Plan (input_Snapshot input)))) (input_Now input) c;
  gate_soak : forall p c previous, row_of (input_Snapshot input) p c -> planned_Cohort p = k - 1 ->
    at_index (plan_Cohorts (snapshot_Plan (input_Snapshot input))) (k - 1) = Ok previous ->
    finished_at (MinReady (plan_Strategy (snapshot_Plan (input_Snapshot input)))) c +
      cohort_SoakAfter previous <= input_Now input;
  gate_approval : exists cohort,
    at_index (plan_Cohorts (snapshot_Plan (input_Snapshot input))) k = Ok cohort /\
    (cohort_ApprovalRequired cohort = true ->
     exists approval, input_CohortApprovals input !! k = Some approval /\
       validFor approval (cohort_ApprovalDigest cohort) (input_Now input) = true /\
       decision_Approved approval = true);
  gate_maintenance :
    RespectMaintenanceWindows (plan_Strategy (snapshot_Plan (input_Snapshot input))) = true ->
    allowsRelease (input_Maintenance input) = true;
}.

Lemma has_disconnected_false cs k rows :
  has_disconnected cs k rows = Ok false ->
  forall p c, p ∈ rows -> planned_Cohort p = k -> at_index cs (planned_Order p) = Ok c ->
  runtime_State c <> RolloutClusterBlocked /\ runtime_Connected c = true.
Proof.
  induction rows as [|q rows IH]; cbn [has_disconnected]; [set_solver|].
  rewrite res_bind_Ok. intros (d & Hd & Hr). destruct (_ && _)%bool eqn:E; [done|].
  intros p c [->|Hp]%elem_of_cons Hk Hc; [|by eapply IH].
  rewrite Hd in Hc. injection Hc as <-. rewrite bool_decide_true in E by done. cbn in E. by bool_props.
Qed.

Section progressing.
Context `{External}.
Context (input : EvaluateInput) (cs : list ClusterRuntime) (d0 : Decision).
#[local] Abbreviation snapshot := (input_Snapshot input).
#[local] Abbreviation plan := (snapshot_Plan (input_Snapshot input)).
#[local] Abbreviation now := (input_Now input).
#[local] Abbreviation minReady := (MinReady (plan_Strategy (snapshot_Plan (input_Snapshot input)))).
Context (Hchecked : checked (input_Snapshot input) cs) (Hfresh : fresh d0).
Set Default Proof Using "Type*".

(** No cluster of the cohort [k] is waiting to be released. *)
Definition cohort_idle (k : Z) : Prop :=
  forall p c, p ∈ plan_Clusters plan -> planned_Cohort p = k -> at_index cs (planned_Order p) = Ok c ->
  runtime_State c <> RolloutClusterPending /\ runtime_State c <> RolloutClusterBlocked.

(** The outcome of the release step for the cohort [k]. *)
Definition cohort_released (k : Z) (d : Decision) : Prop :=
  let reserved := count (in_flight minReady now) cs in
  let slots := Z.of_N (MaxConcurrent (plan_Strategy plan)) - reserved in
  let spare := Cohorts.amountLimit (MaxUnavailable (plan_Strategy plan)) (len cs) -
               count (at_risk minReady now) cs in
  (slots <= 0 /\ d = set_blocked d0 BlockConcurrency) \/
  exists picked new b, 0 < slots /\
    sublist (map fst picked) (plan_Clusters plan) /\
    Forall2 (released_as plan cs now k) picked new /\
    d = set_blocked (set_slices d0 [] new) b /\
    len new <= slots /\
    (count (fun pc => runtime_Available pc.2) picked = 0 \/
     count (fun pc => runtime_Available pc.2) picked <= spare) /\
    (new <> [] -> b = BlockNone) /\
    (new = [] -> b = BlockNone -> cohort_idle k).

Lemma release_cohort_inv k d : release_cohort plan cs now k d0 = Ok d -> cohort_released k d.
Proof.
  destruct Hfresh as [Hf1 Hf2 Hf3 Hf4]. unfold release_cohort, cohort_released.
  rewrite res_bind_Ok. intros (counts & ->%reserve_spec & Hr). cbn [fst snd] in Hr. rewrite !Z.add_0_l in Hr.
  destruct (Z.leb_spec (Z.of_N (MaxConcurrent (plan_Strategy plan)) - count (in_flight minReady now) cs) 0)
    as [Hs|Hs]; [left; by injection Hr as <-|]. right.
  apply res_bind_Ok in Hr as (st & Hloop & Hr).
  apply release_rows_spec in Hloop as (picked & new & Hsub & H2 & Hdec & Hcs & Hpos & Hav & Hle & Hstall); [|cbn; lia].
  cbn [loop_concurrencySlots loop_availabilitySlots loop_decision loop_availabilityBlocked] in *.
  rewrite Hf2, Hf3 in Hdec. cbn [app] in Hdec. rewrite Hdec in Hr. cbn in Hr. rewrite Hf4 in Hr.
  assert (Hb : exists b, d = set_blocked (set_slices d0 [] new) b /\ (new <> [] -> b = BlockNone) /\
    (new = [] -> b = BlockNone -> cohort_idle k)).
  { destruct (Z.eqb_spec (len new) 0) as [Hn|Hn]; cbn in Hr.
    - apply len_nil_iff in Hn as ->. destruct (loop_availabilityBlocked st) eqn:Hab.
      { injection Hr as <-. exists BlockUnavailable. by split_and!. }
      apply res_bind_Ok in Hr as (dis & Hdis & Hr). destruct dis; injection Hr as <-.
      { exists BlockDisconnected. by split_and!. }
      exists BlockNone. split_and!; [|done|].
      { unfold set_blocked, set_slices. cbn. by rewrite Hf4. }
      intros _ _ p c Hp Hk Hc. destruct (has_disconnected_false _ _ _ Hdis p c Hp Hk Hc) as [? Hconn].
      split; [|done]. intros Hpend. eapply (Hstall eq_refl Hs eq_refl p c Hp). by split_and!.
    - injection Hr as <-. exists BlockNone. split_and!; [|done|].
      { unfold set_blocked, set_slices. cbn. by rewrite Hf4. }
      intros ->. done. }
  destruct Hb as (b & Hd & Hb1 & Hb2). exists picked, new, b. split_and!; try done; try lia.
Qed.

(** The outcomes of [evaluateProgressing]. *)
Definition progressing_outcome (d : Decision) : Prop :=
  (exists moved ts, ts <> [] /\ sublist moved cs /\ Forall2 moves moved ts /\
     d = set_slices d0 ts []) \/
  (exists to code, setRolloutTransition d0 snapshot to code = Ok d /\
     to ∈ [RolloutPaused; RolloutFailed; RolloutSucceeded] /\
     (to = RolloutSucceeded -> Failed (decision_Counters d0) = 0 /\
        forall p c, p ∈ plan_Clusters plan -> at_index cs (planned_Order p) = Ok c ->
          finished minReady now c)) \/
  (exists b, b ∈ [BlockSoak; BlockApproval; BlockMaintenance] /\ d = set_blocked d0 b) \/
  (exists k, gates input k /\ cohort_released k d /\
     exists p c, p ∈ plan_Clusters plan /\ at_index cs (planned_Order p) = Ok c /\
       planned_Cohort p = k /\ ~ finished minReady now c).

Lemma evaluate_cohort_inv k t d :
  Forall (quiet plan now) cs -> now < plan_Deadline plan ->
  Failed (decision_Counters d0) = count (fun c => is_failed (runtime_State c)) cs ->
  Failed (decision_Counters d0) <=
    Cohorts.amountLimit (FailureThreshold (plan_Strategy plan)) (len cs) ->
  0 <= k < len (plan_Cohorts plan) -> cohorts_done plan cs now k t ->
  (exists p c, p ∈ plan_Clusters plan /\ at_index cs (planned_Order p) = Ok c /\
     planned_Cohort p = k /\ ~ finished minReady now c) ->
  evaluate_cohort input cs k t d0 = Ok d -> progressing_outcome d.
Proof.
  intros Hq Hdl Hfc Hfail Hk Hdone Hleft He. unfold evaluate_cohort in He.
  apply res_bind_Ok in He as (cohort & Hcohort & He). apply res_bind_Ok in He as (soaking & Hsoak & He).
  assert (Hidx : cohort_Index cohort = k).
  { apply at_index_Ok in Hcohort as [_ Hc].
    rewrite (shape_cohorts _ (checked_shape _ _ Hchecked) _ _ Hc). lia. }
  destruct soaking.
  { injection He as <-. right. right. left. exists BlockSoak. split; [set_solver|done]. }
  destruct (RespectMaintenanceWindows _ && _)%bool eqn:Hm.
  { right. destruct (cohort_ApprovalRequired cohort);
      [destruct (input_CohortApprovals input !! _) as [a|]; [destruct (negb (validFor _ _ _)); [|destruct (negb (decision_Approved a))]|]|];
      try (injection He as <-; right; left; eexists; split; [|reflexivity]; set_solver).
    left. exists RolloutPaused, "cohort_approval_rejected". split_and!; [done|set_solver|done]. }
  assert (Hrel : (exists to code, setRolloutTransition d0 snapshot to code = Ok d /\ to = RolloutPaused) \/
    d = set_blocked d0 BlockApproval \/
    ((cohort_ApprovalRequired cohort = true ->
       exists approval, input_CohortApprovals input !! k = Some approval /\
       validFor approval (cohort_ApprovalDigest cohort) now = true /\
       decision_Approved approval = true) /\ release_cohort plan cs now k d0 = Ok d)).
  { destruct (cohort_ApprovalRequired cohort); [|by right; right].
    rewrite Hidx in He. destruct (input_CohortApprovals input !! k) as [a|]; [|by right; left; injection He].
    destruct (validFor _ _ _) eqn:Hv; cbn in He; [|by right; left; injection He].
    destruct (decision_Approved a) eqn:Hap; cbn in He; [|left; by eauto].
    right. right. split; [|done]. intros _. by exists a. }
  destruct Hrel as [(to & code & Hset & ->)|[->|[Happ Hrel]]].
  - right. left. exists RolloutPaused, code. split_and!; [done|set_solver|done].
  - right. right. left. exists BlockApproval. split; [set_solver|done].
  - right. right. right. exists k. split_and!; [|by apply release_cohort_inv|done].
    pose proof (checked_perm _ _ Hchecked) as Hperm.
    split; try done.
    + by rewrite <- Hperm.
    + unfold len. rewrite <- Hperm, <- Hfc. done.
    + intros p c Hrow Hlt. assert (Hp : p ∈ plan_Clusters plan) by apply Hrow.
      apply (checked_row _ _ _ _ Hchecked Hp) in Hrow. by eapply Hdone.
    + intros p c previous Hrow Hlt Hprev. assert (Hp : p ∈ plan_Clusters plan) by apply Hrow.
      apply (checked_row _ _ _ _ Hchecked Hp) in Hrow.
      destruct (Hdone p c (conj Hp Hrow)) as [_ Hat]; [lia|].
      apply at_index_Ok in Hprev as Hpos. destruct (Z.ltb_spec 0 k) as [_|?]; [|lia].
      rewrite Hprev in Hsoak. injection Hsoak as Hs. unfold after in Hs. bool_props. specialize (Hat Hlt). lia.
    + by exists cohort.
    + intros Hresp. rewrite Hresp in Hm. cbn in Hm. by bool_props.
Qed.

Lemma evaluateProgressing_inv d :
  Failed (decision_Counters d0) = count (fun c => is_failed (runtime_State c)) cs ->
  evaluateProgressing input cs d0 = Ok d -> progressing_outcome d.
Proof.
  intros Hfc He. unfold evaluateProgressing in He.
  apply res_bind_Ok in He as (d1 & (moved & ts & Hsub & H2 & -> & Hquiet)%observe_spec & He).
  rewrite (fresh_clusters _ Hfresh), (fresh_releases _ Hfresh) in He. cbn [app] in He.
  destruct (Z.eqb_spec (len ts) 0) as [Hts|Hts]; cbn [negb decision_ClusterTransitions set_slices] in He.
  2: { destruct (Z.eqb_spec (len ts) 0); [done|]. injection He as <-. left. exists moved, ts.
       split_and!; try done. by intros ->. }
  apply len_nil_iff in Hts as ->. cbn [len length] in He.
  assert (E : set_slices d0 [] [] = d0).
  { rewrite <- (fresh_clusters _ Hfresh) at 1. rewrite <- (fresh_releases _ Hfresh) at 1. apply set_slices_id. }
  rewrite E in He. cbn in He. clear E.
  unfold after at 1 in He. destruct (Z.ltb_spec now (plan_Deadline plan)) as [Hdl|Hdl]; cbn [negb] in He.
  2: { right. left. exists RolloutFailed, "rollout_deadline_exceeded". split_and!; [done|set_solver|done]. }
  destruct (failureBudgetExceeded _ _ _) eqn:Hfb; unfold failureBudgetExceeded in Hfb.
  { pose proof (shape_failure _ (checked_shape _ _ Hchecked)) as Hraw. right. left.
    destruct (OnFailure (plan_Strategy plan)) as [| | |raw]; [..|by destruct (Hraw raw)].
    all: eexists _, _; split_and!; [exact He|set_solver|done]. }
  bool_props. apply res_bind_Ok in He as ([[k t] complete] & Hact & He).
  apply activeCohort_spec in Hact as (Hdone & Hk0 & Hact); [|apply Hchecked].
  destruct complete; cbn in He.
  - right. left. destruct (Z.eqb_spec (Failed (decision_Counters d0)) 0) as [Hf0|Hf0]; cbn [negb] in He.
    + exists RolloutSucceeded, "rollout_completed". split_and!; [done|set_solver|]. intros _. split; [done|].
      intros p c Hp Hc. apply (Hdone p c (conj Hp Hc)). subst k.
      apply list_elem_of_lookup in Hp as [n Hn].
      destruct (shape_rows _ (checked_shape _ _ Hchecked) _ _ Hn) as [_ ?]. lia.
    + exists RolloutFailed, "rollout_completed_with_failures". split_and!; [done|set_solver|done].
  - destruct Hact as (Hk & p & c & (Hp & Hc) & Hpk & Hnf).
    apply (evaluate_cohort_inv k t d); try done; [by apply Hquiet|by exists p, c].
Qed.
End progressing.

(** ** Rollbacks *)

(** The cluster is a target of the rollback and not back on its old version. *)
Definition to_roll_back (c : ClusterRuntime) : bool :=
  runtime_EverReleased c && (runtime_State c != RolloutClusterReadyPrevious).

Definition rolling_back (c : ClusterRuntime) : bool :=
  runtime_EverReleased c && (runtime_State c == RolloutClusterRollingBack).

Definition rollback_at_risk (c : ClusterRuntime) : bool :=
  to_roll_back c && ((runtime_State c == RolloutClusterRollingBack) || negb (runtime_Available c)).

(** The rollback of the row cannot succeed. *)
Definition rollback_broken (plan : FrozenRollout) (now : time) (p : PlannedCluster)
    (c : ClusterRuntime) : Prop :=
  runtime_EverReleased c = true /\
  (planned_Previous p = None \/
   ((runtime_State c = RolloutClusterFailed \/ runtime_State c = RolloutClusterTimedOut) /\
    runtime_LastAction c = AssignmentRollback) \/
   (runtime_State c = RolloutClusterRollingBack /\ deadlineFor plan c <= now)).

Section rollback.
Context `{External}.
Context (input : EvaluateInput) (cs : list ClusterRuntime).
#[local] Abbreviation snapshot := (input_Snapshot input).
#[local] Abbreviation plan := (snapshot_Plan (input_Snapshot input)).
#[local] Abbreviation now := (input_Now input).
Set Default Proof Using "Type".

Definition tally_add (c : ClusterRuntime) (st : RollbackTally) : RollbackTally :=
  {| tally_rollbackTargets := tally_rollbackTargets st + (if runtime_EverReleased c then 1 else 0);
     tally_complete := tally_complete st +
       (if runtime_EverReleased c && negb (to_roll_back c) then 1 else 0);
     tally_reserved := tally_reserved st + (if rolling_back c then 1 else 0);
     tally_atRisk := tally_atRisk st + (if rollback_at_risk c then 1 else 0) |}.

Lemma tally_row_step d st p fl :
  tally_row input cs d st p = Ok fl ->
  exists c, at_index cs (planned_Order p) = Ok c /\
  match fl with
  | Return d' => rollback_broken plan now p c /\
      exists code, setRolloutTransition d snapshot RolloutRollbackFailed code = Ok d'
  | Continue st' => ~ rollback_broken plan now p c /\ st' = tally_add c st
  end.
Proof.
  unfold tally_row. rewrite res_bind_Ok. intros (c & Hc & Hr). exists c. split; [done|].
  unfold rollback_broken, tally_add, rollback_at_risk, rolling_back, to_roll_back, return_transition in *.
  destruct (runtime_EverReleased c) eqn:He; cbn [negb andb] in *.
  2: { injection Hr as <-. split; [by intros []|]. destruct st; cbn. f_equal; lia. }
  case_bool_decide as Hprev; [res_inv; eauto 10|].
  case_bool_decide as Hrp.
  { injection Hr as <-. rewrite Hrp. split; [intros (_ & [?|[[[?|?] _]|[? _]]]); done|].
    destruct st; cbn. eval_tests. cbn. f_equal; lia. }
  destruct (_ && (runtime_LastAction c == _))%bool eqn:Hla.
  { apply andb_true_iff in Hla as [Hst Hla]. apply orb_true_iff in Hst. rewrite !bool_decide_eq_true in Hst.
    bool_props. res_inv. eauto 10. }
  unfold after in Hr. destruct ((runtime_State c == _) && _)%bool eqn:Hdl.
  { bool_props. res_inv. eauto 10. }
  injection Hr as <-. split.
  - intros (_ & [?|[[Hst Hl]|[Hst Hd]]]); [done|..].
    + rewrite Hl in Hla. eval_tests. rewrite andb_true_r in Hla. apply orb_false_iff in Hla.
      rewrite !bool_decide_eq_false in Hla. tauto.
    + rewrite Hst in Hdl. eval_tests. cbn in Hdl. bool_props. lia.
  - destruct st; cbn. destruct (runtime_State c == RolloutClusterRollingBack); cbn [orb];
      destruct (runtime_Available c); cbn; f_equal; lia.
Qed.

Lemma tally_spec d rows st fl :
  flow_foldl (tally_row input cs d) st rows = Ok fl ->
  match fl with
  | Return d' => (exists p c, p ∈ rows /\ at_index cs (planned_Order p) = Ok c /\
                    rollback_broken plan now p c) /\
      exists code, setRolloutTransition d snapshot RolloutRollbackFailed code = Ok d'
  | Continue st' =>
      (forall p c, p ∈ rows -> at_index cs (planned_Order p) = Ok c -> ~ rollback_broken plan now p c) /\
      exists ds, Forall2 (fun p c => at_index cs (planned_Order p) = Ok c) rows ds /\
        st' = foldl (fun s c => tally_add c s) st ds
  end.
Proof.
  revert st. induction rows as [|p rows IH]; intros st; cbn [flow_foldl].
  { intros [= <-]. split; [set_solver|]. exists []. split; [constructor|done]. }
  rewrite res_bind_Ok. intros (fl1 & (c & Hc & H1)%tally_row_step & Hr). destruct fl1 as [d'|st1].
  { injection Hr as <-. destruct H1 as [Hb Hset]. split; [|done]. exists p, c. split_and!; [by left|done..]. }
  destruct H1 as [Hnb ->]. apply IH in Hr. destruct fl as [d'|st'].
  - destruct Hr as [(q & e & ? & ? & ?) ?]. split; [|done]. exists q, e. split_and!; [by right|done..].
  - destruct Hr as [Hall (ds & H2 & ->)]. split.
    + intros q e [->|Hq]%elem_of_cons He; [|by eapply Hall]. rewrite Hc in He. by injection He as <-.
    + exists (c :: ds). split; [by constructor|done].
Qed.

Lemma tally_foldl ds st :
  foldl (fun s c => tally_add c s) st ds =
  {| tally_rollbackTargets := tally_rollbackTargets st + count runtime_EverReleased ds;
     tally_complete := tally_complete st + count (fun c => runtime_EverReleased c && negb (to_roll_back c)) ds;
     tally_reserved := tally_reserved st + count rolling_back ds;
     tally_atRisk := tally_atRisk st + count rollback_at_risk ds |}.
Proof.
  revert st. induction ds as [|c ds IH]; intros st; cbn [foldl].
  - destruct st. unfold count, len. cbn. f_equal; lia.
  - rewrite IH, !count_cons. cbn. f_equal; lia.
Qed.

(** The targets not back yet are those that are not complete. *)
Lemma tally_targets ds :
  count runtime_EverReleased ds =
  count (fun c => runtime_EverReleased c && negb (to_roll_back c)) ds + count to_roll_back ds.
Proof.
  induction ds as [|c ds IH]; [done|]. rewrite !count_cons, IH. unfold to_roll_back.
  destruct (runtime_EverReleased c); cbn [andb]; [|lia]. destruct (_ == _); cbn; lia.
Qed.

(** A row the second loop hands out. *)
Definition rolled_back_as (pc : PlannedCluster * ClusterRuntime) (r : Release) : Prop :=
  at_index cs (planned_Order pc.1) = Ok pc.2 /\ runtime_EverReleased pc.2 = true /\
  runtime_Connected pc.2 = true /\ canStartRollback (runtime_State pc.2) = true /\
  exists previous, planned_Previous pc.1 = Some previous /\
    newRelease plan pc.1 pc.2 AssignmentRollback (previous_Version previous) now = Ok r.

Lemma rollback_row_step m st p fl :
  rollback_row input cs m st p = Ok fl ->
  (forall c, at_index cs (planned_Order p) = Ok c -> ~ rollback_broken plan now p c) ->
  exists st', fl = Continue st' /\
  ((st' = st /\ (rollback_slots st = 0 \/ exists c, at_index cs (planned_Order p) = Ok c /\
      (to_roll_back c = true -> runtime_State c = RolloutClusterRollingBack))) \/
   (exists b, b <> BlockNone /\ st' = {| rollback_slots := rollback_slots st;
      rollback_atRisk := rollback_atRisk st;
      rollback_decision := set_blocked (rollback_decision st) b |}) \/
   (exists c r, rolled_back_as (p, c) r /\ rollback_slots st <> 0 /\
      (runtime_Available c = true -> rollback_atRisk st < m) /\
      st' = {| rollback_slots := rollback_slots st - 1;
               rollback_atRisk := rollback_atRisk st + (if runtime_Available c then 1 else 0);
               rollback_decision := add_release (rollback_decision st) r |})).
Proof.
  unfold rollback_row. destruct (Z.eqb_spec (rollback_slots st) 0) as [H0|H0].
  { intros [= <-] _. exists st. auto. }
  rewrite res_bind_Ok. intros (c & Hc & Hr) Hnb. specialize (Hnb c Hc).
  destruct (_ || _)%bool eqn:Hskip.
  { injection Hr as <-. exists st. split; [done|]. left. split; [done|]. right. exists c. split; [done|].
    unfold to_roll_back. intros [Hev Hnr]%andb_true_iff. rewrite Hev in Hskip. bool_props.
    rewrite bool_decide_false in Hskip by done. cbn in Hskip. by bool_props. }
  bool_props. destruct (runtime_Connected c) eqn:Hconn; cbn [negb] in Hr.
  2: { injection Hr as <-. eexists; split; [done|]. right. left. by exists BlockDisconnected. }
  destruct (_ && _)%bool eqn:Hav.
  { injection Hr as <-. eexists; split; [done|]. right. left. by exists BlockUnavailable. }
  destruct (planned_Previous p) as [previous|] eqn:Hprev.
  2: { destruct Hnb. by split; [|left]. }
  res_inv. bool_props. eexists; split; [done|]. right. right. eexists c, _.
  split; [split_and!; try done; by eexists|]. split_and!; [done| |].
  - intros Ha. rewrite Ha in Hav. cbn in Hav. by bool_props.
  - f_equal. destruct (runtime_Available c); lia.
Qed.

(** What a run of the second loop adds to its state. *)
Definition rolled_back_rows (m : Z) (rows : list PlannedCluster) (st st' : RollbackLoop)
    (picked : list (PlannedCluster * ClusterRuntime)) (new : list Release) : Prop :=
  sublist (map fst picked) rows /\ Forall2 rolled_back_as picked new /\
  (exists b, rollback_decision st' = set_blocked (set_slices (rollback_decision st)
      (decision_ClusterTransitions (rollback_decision st))
      (decision_Releases (rollback_decision st) ++ new)) b /\
    (new = [] -> b = BlockNone -> 0 < rollback_slots st ->
     decision_Blocked (rollback_decision st) = BlockNone /\
     forall p c, p ∈ rows -> at_index cs (planned_Order p) = Ok c -> to_roll_back c = true ->
       runtime_State c = RolloutClusterRollingBack)) /\
  rollback_slots st' = rollback_slots st - len new /\ 0 <= rollback_slots st' /\
  rollback_atRisk st' = rollback_atRisk st + count (fun pc => runtime_Available pc.2) picked /\
  (count (fun pc => runtime_Available pc.2) picked = 0 \/ rollback_atRisk st' <= m).

Lemma set_blocked_id d : set_blocked d (decision_Blocked d) = d.
Proof. by destruct d. Qed.

Lemma rollback_rows_spec m rows st fl :
  flow_foldl (rollback_row input cs m) st rows = Ok fl -> 0 <= rollback_slots st ->
  (forall p c, p ∈ rows -> at_index cs (planned_Order p) = Ok c -> ~ rollback_broken plan now p c) ->
  exists st' picked new, fl = Continue st' /\ rolled_back_rows m rows st st' picked new.
Proof.
  revert st. induction rows as [|p rows IH]; intros st; cbn [flow_foldl].
  { intros [= <-] Hs _. exists st, [], []. split; [done|]. unfold rolled_back_rows.
    rewrite app_nil_r, set_slices_id. split_and!; try done; try (left; done);
      try (unfold count, len; cbn; lia).
    exists (decision_Blocked (rollback_decision st)). rewrite set_blocked_id. split; [done|].
    intros _ ? _. split; [done|]. set_solver. }
  rewrite res_bind_Ok. intros (fl1 & H1 & Hr) Hs Hnb.
  apply rollback_row_step in H1 as (st1 & -> & Hcase); [|intros c; apply Hnb; by left].
  apply IH in Hr as (st' & picked & new & -> & Hsub & H2 & (b & Hd & Hb) & Hsl & Hpos & Hrisk & Hle);
    [| |intros q c Hq; apply Hnb; by right].
  2: { destruct Hcase as [[-> _]|[(b & _ & ->)|(c & r & _ & ? & _ & ->)]]; cbn; lia. }
  destruct Hcase as [[-> Hno]|[(b1 & Hb1 & ->)|(c & r & Hrel & H0 & Hav & ->)]];
    cbn [rollback_slots rollback_atRisk rollback_decision] in *.
  - exists st', picked, new. split; [done|]. split_and!; try done; [by constructor|].
    exists b. split; [done|]. intros Hn Hbn Hp. destruct (Hb Hn Hbn Hp) as [? Hall]. split; [done|].
    intros q e [->|Hq]%elem_of_cons He; [|by eapply Hall]. destruct Hno as [?|(c & Hc & Hno)]; [lia|].
    rewrite He in Hc. by injection Hc as <-.
  - exists st', picked, new. split; [done|]. split_and!; try done; [by constructor|].
    exists b. split; [done|]. intros Hn Hbn Hp. destruct (Hb Hn Hbn Hp) as [Hbl _]. done.
  - exists st', ((p, c) :: picked), (r :: new). split; [done|].
    unfold rolled_back_rows. rewrite count_cons, len_cons. cbn [map fst snd].
    split_and!; try lia; [by constructor|by constructor|..].
    + exists b. split; [|done]. rewrite Hd. unfold add_release, set_slices, set_blocked. cbn.
      by rewrite <- app_assoc.
    + pose proof (count_nonneg (fun pc : PlannedCluster * ClusterRuntime => runtime_Available pc.2) picked).
      destruct (runtime_Available c); [|lia]. specialize (Hav eq_refl). right. lia.
Qed.
End rollback.

Lemma checked_rows_eq snapshot cs ds :
  checked snapshot cs ->
  Forall2 (fun p c => at_index cs (planned_Order p) = Ok c) (plan_Clusters (snapshot_Plan snapshot)) ds ->
  ds = cs.
Proof.
  intros [Hs Hids _ _] H2. apply list_eq_same_length with (length cs); [done| |].
  { by rewrite <- (Forall2_length _ _ _ H2), (Forall2_length _ _ _ Hids). }
  intros i x y Hi Hx Hy. destruct (Forall2_lookup_r _ _ _ _ _ H2 Hx) as (p & Hp & Hpx).
  destruct (shape_rows _ Hs _ _ Hp) as [Ho _]. rewrite Ho in Hpx. apply at_index_nat in Hpx. congruence.
Qed.

Lemma count_zero {A} (f : A -> bool) l : count f l = 0 <-> forall x, x ∈ l -> f x = false.
Proof.
  induction l as [|x l IH]; [split; [set_solver|done]|].
  rewrite count_cons. pose proof (count_nonneg f l). setoid_rewrite elem_of_cons. split.
  - intros Hc y [->|Hy]; [destruct (f x); [lia|done]|]. apply IH; [|done]. destruct (f x); lia.
  - intros Hall. rewrite (Hall x) by auto. rewrite (proj2 IH); [done|]. auto.
Qed.

Lemma picked_NoDup plan (picked : list (PlannedCluster * ClusterRuntime)) rows :
  plan_shape plan -> sublist (map fst picked) rows -> rows ≡ₚ plan_Clusters plan ->
  NoDup (map (fun pc => planned_ClusterID pc.1) picked).
Proof.
  intros Hs Hsub Hp. rewrite <- (map_map fst planned_ClusterID).
  eapply sublist_NoDup; [|apply (fmap_sublist planned_ClusterID _ _ Hsub)].
  rewrite Hp. apply shape_ids, Hs.
Qed.

Lemma picked_rows plan (picked : list (PlannedCluster * ClusterRuntime)) rows :
  sublist (map fst picked) rows -> rows ≡ₚ plan_Clusters plan ->
  Forall (fun pc => pc.1 ∈ plan_Clusters plan) picked.
Proof.
  intros Hsub Hp. apply Forall_forall. intros pc Hpc. rewrite <- Hp.
  eapply elem_of_sublist; [|exact Hsub]. apply list_elem_of_fmap. by exists pc.
Qed.

Section rollback_outcome.
Context `{External}.
Context (input : EvaluateInput) (cs : list ClusterRuntime) (d0 : Decision).
#[local] Abbreviation snapshot := (input_Snapshot input).
#[local] Abbreviation plan := (snapshot_Plan (input_Snapshot input)).
#[local] Abbreviation now := (input_Now input).
Context (Hchecked : checked (input_Snapshot input) cs) (Hfresh : fresh d0).
Set Default Proof Using "Type*".

Definition rolled_back (d : Decision) : Prop :=
  let slots := Z.of_N (MaxConcurrent (plan_Strategy plan)) - count rolling_back cs in
  let spare := Cohorts.amountLimit (MaxUnavailable (plan_Strategy plan)) (len cs) -
               count rollback_at_risk cs in
  (slots <= 0 /\ d = set_blocked d0 BlockConcurrency) \/
  exists picked new b, 0 < slots /\
    NoDup (map (fun pc => planned_ClusterID pc.1) picked) /\
    Forall (fun pc => pc.1 ∈ plan_Clusters plan) picked /\
    Forall2 (rolled_back_as input cs) picked new /\
    d = set_blocked (set_slices d0 [] new) b /\
    len new <= slots /\
    (count (fun pc => runtime_Available pc.2) picked = 0 \/
     count (fun pc => runtime_Available pc.2) picked <= spare) /\
    (new = [] -> b = BlockNone -> exists c, c ∈ cs /\ rolling_back c = true).

Definition rollback_outcome (d : Decision) : Prop :=
  ((exists p c, row_of snapshot p c /\ rollback_broken plan now p c) /\
   exists code, setRolloutTransition d0 snapshot RolloutRollbackFailed code = Ok d) \/
  ((forall p c, row_of snapshot p c -> ~ rollback_broken plan now p c) /\
   (((forall c, c ∈ cs -> to_roll_back c = false) /\
     setRolloutTransition d0 snapshot RolloutRolledBack "rollback_completed" = Ok d) \/
    ((exists c, c ∈ cs /\ to_roll_back c = true) /\ rolled_back d))).

Lemma release_rollbacks_inv d tally :
  (forall p c, p ∈ plan_Clusters plan -> at_index cs (planned_Order p) = Ok c ->
     ~ rollback_broken plan now p c) ->
  tally = {| tally_rollbackTargets := count runtime_EverReleased cs;
             tally_complete := count (fun c => runtime_EverReleased c && negb (to_roll_back c)) cs;
             tally_reserved := count rolling_back cs; tally_atRisk := count rollback_at_risk cs |} ->
  release_rollbacks input cs d0 tally = Ok d ->
  ((forall c, c ∈ cs -> to_roll_back c = false) /\
     setRolloutTransition d0 snapshot RolloutRolledBack "rollback_completed" = Ok d) \/
  ((exists c, c ∈ cs /\ to_roll_back c = true) /\ rolled_back d).
Proof.
  destruct Hfresh as [Hf1 Hf2 Hf3 Hf4]. intros Hnb -> Hr. unfold release_rollbacks in Hr.
  cbn [tally_rollbackTargets tally_complete tally_reserved tally_atRisk] in Hr.
  rewrite tally_targets in Hr.
  set (done := count (fun c => runtime_EverReleased c && negb (to_roll_back c)) cs) in *.
  pose proof (count_nonneg (fun c => runtime_EverReleased c && negb (to_roll_back c)) cs).
  pose proof (count_nonneg to_roll_back cs) as Htodo.
  destruct (_ || _)%bool eqn:Hdone.
  { left. split; [|done]. apply count_zero.
    apply orb_true_iff in Hdone as [Hd|Hd]; bool_props; unfold done in *; lia. }
  right. bool_props.
  assert (Hex : exists c, c ∈ cs /\ to_roll_back c = true).
  { destruct (existsb to_roll_back cs) eqn:E.
    - apply existsb_exists in E as (c & Hc & ?). exists c. by rewrite list_elem_of_In.
    - assert (count to_roll_back cs = 0); [|lia]. apply count_zero. intros c Hc.
      destruct (to_roll_back c) eqn:Et; [|done].
      assert (existsb to_roll_back cs = true); [|congruence].
      apply existsb_exists. exists c. by rewrite <- list_elem_of_In. }
  split; [done|]. unfold rolled_back.
  destruct (Z.leb_spec (Z.of_N (MaxConcurrent (plan_Strategy plan)) - count rolling_back cs) 0) as [Hs|Hs].
  { left. by injection Hr as <-. }
  right. apply res_bind_Ok in Hr as (fl & Hloop & Hr).
  apply rollback_rows_spec in Hloop as
    (st' & picked & new & -> & Hsub & Hpick & (b & Hd & Hb) & Hsl & Hpos & Hrisk & Hle); cbn in *; [|lia|].
  2: { intros p c Hp. apply Hnb. by rewrite sort_slice_elem_of in Hp. }
  injection Hr as <-. rewrite Hf2, Hf3 in Hd. exists picked, new, b. split_and!; try done; try lia.
  - by eapply picked_NoDup; [apply Hchecked|exact Hsub|apply sort_slice_Permutation].
  - eapply picked_rows; [exact Hsub|apply sort_slice_Permutation].
  - intros Hn Hbn. destruct (Hb Hn Hbn Hs) as [_ Hall]. destruct Hex as (c & Hc & Htrb).
    destruct (checked_cluster _ _ _ Hchecked Hc) as (p & Hp & Hpc). exists c. split; [done|].
    unfold rolling_back. rewrite (Hall p c) by (done || by rewrite sort_slice_elem_of).
    unfold to_roll_back in Htrb. bool_props. rewrite bool_decide_true by done.
    by match goal with He : runtime_EverReleased c = true |- _ => rewrite He end.
Qed.

Lemma evaluateRollback_inv d : evaluateRollback input cs d0 = Ok d -> rollback_outcome d.
Proof.
  unfold evaluateRollback, rollback_outcome. rewrite res_bind_Ok.
  intros (fl & Htally%tally_spec & Hr). destruct fl as [d'|tally].
  - injection Hr as <-. destruct Htally as [(p & c & Hp & Hc & Hb) Hset]. left. split; [|done].
    exists p, c. by rewrite <- (checked_row _ _ _ _ Hchecked Hp).
  - destruct Htally as [Hnb (ds & H2 & ->)]. apply (checked_rows_eq _ _ _ Hchecked) in H2 as ->.
    rewrite tally_foldl in Hr. cbn in Hr. right. split.
    + intros p c Hrow. assert (Hp : p ∈ plan_Clusters plan) by apply Hrow.
      apply (Hnb p c Hp). by apply (checked_row _ _ _ _ Hchecked Hp).
    + by apply (release_rollbacks_inv d _ Hnb eq_refl).
Qed.
End rollback_outcome.
End SchedulerFacts.
