(* ===== verification/SchedulerCorrect.v ===== *)
(** * The rollout scheduler: the properties of [Evaluate]

    Legality of every decision, the gates and budgets of releases, rollbacks,
    progress, and independence of the order of the runtime rows. *)

From Stdlib Require Import ZArith Lia Ascii.
From S2P Require Import Prelude Enums State GoSort GoStrings External Validation Overrides Model.
From S2P Require Import Types RolloutTypes Placement PlacementFacts Cohorts CohortsFacts Planner.
From S2P Require Import PlannerFacts Scheduler SchedulerFacts.
From stdpp Require Import base gmap strings list sorting.
Import State Overrides Model Types RolloutTypes Planner Scheduler SchedulerFacts.

Open Scope Z_scope.

Module SchedulerCorrect.

Lemma Forall2_with {A B} (P : A -> Prop) (Q R : A -> B -> Prop) l k :
  Forall P l -> Forall2 Q l k -> (forall x y, P x -> Q x y -> R x y) -> Forall2 R l k.
Proof.
  intros HP HQ HR. induction HQ as [|x y l k Hq HQ IH]; [constructor|].
  apply Forall_cons_iff in HP as [? ?]. constructor; auto.
Qed.

Lemma unfinished_busy minReady now c :
  runtime_ok c -> ~ finished minReady now c ->
  runtime_State c <> RolloutClusterPending -> runtime_State c <> RolloutClusterBlocked ->
  in_flight minReady now c = true \/
  runtime_State c ∈ [RolloutClusterReadyPrevious; RolloutClusterRollbackFailed; RolloutClusterAborted].
Proof.
  intros (_ & Hv & _ & _ & Hready) Hnf Hp Hb. unfold finished, in_flight in *.
  destruct (runtime_State c); try tauto; try (right; set_solver); try (by left).
  destruct (Hready eq_refl) as (t & E & _). rewrite E in *. left. apply Z.ltb_lt.
  destruct (Z.lt_ge_cases now (t + minReady)); [done|]. destruct Hnf. by exists t.
Qed.

Section correct.
Context `{External} `{!ExternalLaws}.
Set Default Proof Using "Type*".

(** ** The whole evaluation *)

Lemma evaluate_checks_inv input cs d0 :
  evaluate_checks input = Ok (cs, d0) ->
  checked (input_Snapshot input) cs /\ fresh d0 /\
  Failed (decision_Counters d0) = count (fun c => is_failed (runtime_State c)) cs /\
  decision_ExpectedRolloutFence d0 = snapshot_Fence (input_Snapshot input).
Proof.
  unfold evaluate_checks. intros He. res_inv. bool_props.
  repeat match goal with u : unit |- _ => destruct u end.
  match goal with Hv : FrozenRollout_Validate _ = Ok _ |- _ => apply Validate_shape in Hv as Hs end.
  match goal with Hv : validateRuntime _ _ = Ok _ |- _ =>
    apply validateRuntime_spec in Hv as (Hids & Hperm & Hok); [|done] end.
  match goal with Hd : DeriveRolloutCounters _ = Ok _ |- _ => apply Derive_failed in Hd as Hf end.
  split_and!; try done. cbn [decision_Counters]. rewrite Hf. unfold counted, count, len.
  clear. induction cs as [|c cs IH]; [done|]. cbn [map List.filter]. destruct (is_failed (runtime_State c)); cbn [length]; lia.
Qed.

Lemma Scheduler_inv input d :
  Evaluate input = Ok d ->
  exists cs d0 d1 id, checked (input_Snapshot input) cs /\ fresh d0 /\
    Failed (decision_Counters d0) = count (fun c => is_failed (runtime_State c)) cs /\
    decision_ExpectedRolloutFence d0 = snapshot_Fence (input_Snapshot input) /\
    evaluate_state input cs d0 = Ok d1 /\ d = set_id (sorted_decision d1) id.
Proof.
  unfold Evaluate, decisionDigest. intros He. res_inv. destruct x as [cs d0]. cbn [fst snd] in *.
  match goal with Hc : evaluate_checks _ = Ok _ |- _ =>
    apply evaluate_checks_inv in Hc as (? & ? & ? & ?) end.
  eexists cs, d0, _, _. split_and!; try done.
Qed.

Lemma sorted_transitions d : decision_ClusterTransitions (sorted_decision d) ≡ₚ decision_ClusterTransitions d.
Proof. apply sort_slice_Permutation. Qed.

Lemma sorted_releases d : decision_Releases (sorted_decision d) ≡ₚ decision_Releases d.
Proof. apply sort_slice_Permutation. Qed.

(** ** What a release is *)

Definition release_of (input : EvaluateInput) (p : PlannedCluster) (c : ClusterRuntime)
    (action : AssignmentAction) (version : VersionIdentity) (r : Release) : Prop :=
  release_ClusterID r = planned_ClusterID p /\ release_Action r = action /\
  release_Version r = version /\ release_ExpectedFence r = runtime_Fence c /\
  release_FromState r = runtime_State c /\
  release_ToState r ∈ rolloutClusterTransitions (runtime_State c) /\
  (runtime_CurrentGeneration c <= MaxInt64 ->
   release_Generation r = runtime_CurrentGeneration c + 1 /\ release_Generation r <= MaxInt64) /\
  release_ToState r = (if action == AssignmentRollback then RolloutClusterRollingBack else RolloutClusterReleased) /\
  action ∈ [AssignmentApply; AssignmentRollback].

Lemma newRelease_Ok input p c action version r :
  newRelease (snapshot_Plan (input_Snapshot input)) p c action version (input_Now input) = Ok r ->
  runtime_State c <> (if action == AssignmentRollback then RolloutClusterRollingBack
                      else RolloutClusterReleased) ->
  0 <= runtime_CurrentGeneration c -> action ∈ [AssignmentApply; AssignmentRollback] ->
  release_of input p c action version r.
Proof.
  unfold newRelease, release_of. intros Hr Hne Hg Ha. res_inv. bool_props. cbn. split_and!; try done.
  - by eapply cluster_edge.
  - intros Hmax. rewrite wrapS64_small; unfold MinInt64, MaxInt64 in *; lia.
Qed.

Lemma released_as_release input cs k pc r :
  checked (input_Snapshot input) cs -> pc.1 ∈ plan_Clusters (snapshot_Plan (input_Snapshot input)) ->
  released_as (snapshot_Plan (input_Snapshot input)) cs (input_Now input) k pc r ->
  row_of (input_Snapshot input) pc.1 pc.2 /\
  release_of input pc.1 pc.2 AssignmentApply
    (desired_version (snapshot_Plan (input_Snapshot input)) pc.1) r.
Proof.
  intros Hch Hp [(Hk & Hc & Hs & Hconn) Hr]. apply (checked_row _ _ _ _ Hch Hp) in Hc as Hrow.
  split; [done|]. apply newRelease_Ok; [done|by rewrite Hs| |by left].
  by apply (row_of_runtime_ok _ _ _ _ Hch) in Hrow as (_ & _ & _ & ? & _).
Qed.

Lemma rolled_back_as_release input cs pc r :
  checked (input_Snapshot input) cs -> pc.1 ∈ plan_Clusters (snapshot_Plan (input_Snapshot input)) ->
  rolled_back_as input cs pc r ->
  row_of (input_Snapshot input) pc.1 pc.2 /\
  exists previous, planned_Previous pc.1 = Some previous /\
    release_of input pc.1 pc.2 AssignmentRollback (previous_Version previous) r.
Proof.
  intros Hch Hp (Hc & _ & _ & Hcan & previous & Hprev & Hr).
  apply (checked_row _ _ _ _ Hch Hp) in Hc as Hrow. split; [done|]. exists previous. split; [done|].
  apply newRelease_Ok; [done|intros E; by rewrite E in Hcan| |by right; left].
  by apply (row_of_runtime_ok _ _ _ _ Hch) in Hrow as (_ & _ & _ & ? & _).
Qed.

(** ** Legality *)

(** The four shapes of a decision. *)
Inductive effect (input : EvaluateInput) (cs : list ClusterRuntime) (d0 d : Decision) : Prop :=
  | effect_none b : d = set_blocked d0 b -> effect input cs d0 d
  | effect_rollout to code :
      to ∈ rolloutTransitions (snapshot_State (input_Snapshot input)) ->
      d = set_rollout d0 {| rt_From := snapshot_State (input_Snapshot input); rt_To := to;
                            rt_ExpectedFence := snapshot_Fence (input_Snapshot input);
                            rt_Code := code |} -> effect input cs d0 d
  | effect_clusters moved ts :
      sublist moved cs -> Forall2 moves moved ts -> d = set_slices d0 ts [] -> effect input cs d0 d
  | effect_releases picked new b :
      NoDup (map (fun pc => planned_ClusterID pc.1) picked) ->
      Forall2 (fun pc r => row_of (input_Snapshot input) pc.1 pc.2 /\
                           exists action version, release_of input pc.1 pc.2 action version r)
        picked new ->
      d = set_blocked (set_slices d0 [] new) b -> effect input cs d0 d.

Lemma effect_id input cs d0 : fresh d0 -> effect input cs d0 d0.
Proof. intros _. apply (effect_none _ _ _ _ (decision_Blocked d0)). by rewrite set_blocked_id. Qed.

Lemma effect_set input cs d0 d to code :
  setRolloutTransition d0 (input_Snapshot input) to code = Ok d ->
  snapshot_State (input_Snapshot input) <> to -> effect input cs d0 d.
Proof.
  intros Hset Hne. destruct (setRolloutTransition_Ok _ _ _ _ _ Hset Hne) as (_ & Hto & ->).
  by eapply effect_rollout.
Qed.

Lemma progressing_effect input cs d0 d :
  checked (input_Snapshot input) cs -> snapshot_State (input_Snapshot input) = RolloutProgressing ->
  progressing_outcome input cs d0 d -> effect input cs d0 d.
Proof.
  intros Hch Hst [(moved & ts & _ & Hsub & H2 & ->)|[(to & code & Hset & Hto & _)|[(b & _ & ->)|
    (k & _ & [[_ ->]|(picked & new & b & _ & Hsub & H2 & -> & _)] & _)]]].
  - by eapply effect_clusters.
  - eapply effect_set; [done|]. rewrite Hst. intros <-. set_solver.
  - by eapply effect_none.
  - by eapply effect_none.
  - eapply effect_releases; [by eapply picked_NoDup; [apply Hch|exact Hsub|]| |done].
    pose proof (picked_rows _ _ _ Hsub (Permutation_refl _)) as Hrows.
    eapply Forall2_with; [exact Hrows|exact H2|]. intros pc r Hpc Hr. cbn beta in Hpc.
    destruct (released_as_release _ _ _ _ _ Hch Hpc Hr). eauto.
Qed.

Lemma rollback_effect input cs d0 d :
  checked (input_Snapshot input) cs -> snapshot_State (input_Snapshot input) = RolloutRollingBack ->
  rollback_outcome input cs d0 d -> effect input cs d0 d.
Proof.
  intros Hch Hst [[_ (code & Hset)]|[_ [[_ Hset]|[_ [[_ ->]|
    (picked & new & b & _ & Hnd & Hrows & H2 & -> & _)]]]]].
  - eapply effect_set; [done|]. by rewrite Hst.
  - eapply effect_set; [done|]. by rewrite Hst.
  - by eapply effect_none.
  - eapply effect_releases; [done| |done].
    eapply Forall2_with; [exact Hrows|exact H2|]. intros pc r Hpc Hr. cbn beta in Hpc.
    destruct (rolled_back_as_release _ _ _ _ Hch Hpc Hr) as [? (? & ? & ?)]. eauto.
Qed.

Lemma evaluate_state_effect input cs d0 d :
  checked (input_Snapshot input) cs -> fresh d0 ->
  Failed (decision_Counters d0) = count (fun c => is_failed (runtime_State c)) cs ->
  evaluate_state input cs d0 = Ok d -> effect input cs d0 d.
Proof.
  intros Hch Hf Hfail. unfold evaluate_state.
  destruct (snapshot_State (input_Snapshot input)) eqn:Hst; try done;
    try (intros [= <-]; by apply effect_id); intros He.
  - destruct (approval_Required _); eapply effect_set; try done; by rewrite Hst.
  - destruct (input_InitialApproval input) as [a|]; [|injection He as <-; by eapply effect_none].
    destruct (negb (validFor _ _ _)); [injection He as <-; by eapply effect_none|].
    destruct (negb _); eapply effect_set; try done; by rewrite Hst.
  - destruct (_ && _)%bool; [injection He as <-; by eapply effect_none|].
    eapply effect_set; [done|]. by rewrite Hst.
  - eapply progressing_effect; [done..|]. by apply evaluateProgressing_inv.
  - case_bool_decide; [|injection He as <-; by apply effect_id].
    eapply effect_set; [done|]. by rewrite Hst.
  - eapply rollback_effect; [done..|]. by apply evaluateRollback_inv.
Qed.

Lemma moves_ids moved ts : Forall2 moves moved ts -> map ct_ClusterID ts = map runtime_ClusterID moved.
Proof. induction 1 as [|c t moved ts Ht _ IH]; [done|]. cbn. rewrite IH. by rewrite (proj1 Ht). Qed.

Lemma checked_NoDup snapshot cs : checked snapshot cs -> NoDup (map runtime_ClusterID cs).
Proof.
  intros [Hs Hids _ _].
  replace (map runtime_ClusterID cs) with (map planned_ClusterID (plan_Clusters (snapshot_Plan snapshot)));
    [by apply shape_ids|].
  induction Hids as [|p c ps cs Hpc _ IH]; [done|]. cbn. by rewrite IH, Hpc.
Qed.

(** A decision the tables of State.v allow for the snapshot. *)
Record legal (input : EvaluateInput) (d : Decision) : Prop := {
  legal_fence : decision_ExpectedRolloutFence d = snapshot_Fence (input_Snapshot input);
  legal_rollout : forall t, decision_RolloutTransition d = Some t ->
    rt_From t = snapshot_State (input_Snapshot input) /\
    rt_To t ∈ rolloutTransitions (snapshot_State (input_Snapshot input)) /\
    rt_ExpectedFence t = snapshot_Fence (input_Snapshot input) /\
    decision_ClusterTransitions d = [] /\ decision_Releases d = [];
  legal_clusters : forall t, t ∈ decision_ClusterTransitions d ->
    exists c, c ∈ snapshot_Clusters (input_Snapshot input) /\ moves c t;
  legal_releases : forall r, r ∈ decision_Releases d ->
    exists p c action version,
      row_of (input_Snapshot input) p c /\ release_of input p c action version r;
  legal_unmixed : decision_ClusterTransitions d = [] \/ decision_Releases d = [];
  legal_distinct : NoDup (map ct_ClusterID (decision_ClusterTransitions d)) /\
    NoDup (map release_ClusterID (decision_Releases d));
}.

Lemma legal_sorted input d id : legal input d -> legal input (set_id (sorted_decision d) id).
Proof.
  intros [H1 H2 H3 H4 H5 [H6 H7]].
  pose proof (sorted_transitions d) as Ht. pose proof (sorted_releases d) as Hr.
  assert (Hnt : decision_ClusterTransitions d = [] -> decision_ClusterTransitions (sorted_decision d) = []).
  { intros E. rewrite E in Ht. by apply Permutation_nil_r in Ht. }
  assert (Hnr : decision_Releases d = [] -> decision_Releases (sorted_decision d) = []).
  { intros E. rewrite E in Hr. by apply Permutation_nil_r in Hr. }
  split; cbn [set_id decision_ExpectedRolloutFence decision_RolloutTransition
              decision_ClusterTransitions decision_Releases]; try done.
  - intros t Hd. destruct (H2 t Hd) as (? & ? & ? & ? & ?). split_and!; auto.
  - intros t. rewrite Ht. apply H3.
  - intros r. rewrite Hr. apply H4.
  - destruct H5; auto.
  - split; [by rewrite (fmap_Permutation ct_ClusterID _ _ Ht)|
            by rewrite (fmap_Permutation release_ClusterID _ _ Hr)].
Qed.

Lemma effect_legal input cs d0 d :
  checked (input_Snapshot input) cs -> fresh d0 ->
  decision_ExpectedRolloutFence d0 = snapshot_Fence (input_Snapshot input) ->
  effect input cs d0 d -> legal input d.
Proof using H H0.
  intros Hch [Hf1 Hf2 Hf3 Hf4] Hfence He.
  destruct He as [b ->|to code Hto ->|moved ts Hsub H2 ->|picked new b Hnd H2 ->]; split; cbn;
    rewrite ?Hf1, ?Hf2, ?Hf3; try done; try set_solver; auto; try (split; constructor).
  - intros t (n & Hn)%list_elem_of_lookup. destruct (Forall2_lookup_r _ _ _ _ _ H2 Hn) as (c & Hc & Hm).
    exists c. split; [|done]. rewrite <- (checked_perm _ _ Hch).
    eapply elem_of_sublist; [|exact Hsub]. by eapply list_elem_of_lookup_2.
  - split; [|constructor]. rewrite (moves_ids _ _ H2).
    eapply sublist_NoDup; [apply (checked_NoDup _ _ Hch)|]. by apply fmap_sublist.
  - intros r (n & Hn)%list_elem_of_lookup.
    destruct (Forall2_lookup_r _ _ _ _ _ H2 Hn) as (pc & _ & Hrow & action & version & Hrel).
    by exists pc.1, pc.2, action, version.
  - split; [constructor|].
    replace (map release_ClusterID new) with (map (fun pc => planned_ClusterID pc.1) picked); [done|].
    clear Hnd. induction H2 as [|pc r picked new (_ & ? & ? & Hrel & _) _ IH]; [done|]. cbn.
    by rewrite IH, Hrel.
Qed.

Lemma Evaluate_legal input d : Evaluate input = Ok d -> legal input d.
Proof.
  intros (cs & d0 & d1 & id & Hch & Hf & Hfail & Hfence & Hst & ->)%Scheduler_inv.
  apply legal_sorted. eapply effect_legal; [done..|]. by apply evaluate_state_effect.
Qed.

(** C9: every decision is legal: a rollout transition starts from the
    snapshot's state along an edge of the table and comes alone; every cluster
    transition and every release starts from the current state of a cluster of
    the rollout along an edge of the table and is fenced with that cluster's
    fence; releases take the next generation without wrapping; transitions and
    releases are never mixed, and no cluster occurs twice. *)
Theorem Decision_legal input d : Evaluate input = Ok d -> legal input d.
Proof. apply Evaluate_legal. Qed.

(** ** Releases of a progressing rollout *)

(** The cluster of the release is available before it. *)
Definition takes_available (input : EvaluateInput) (r : Release) : bool :=
  existsb (fun c => (runtime_ClusterID c == release_ClusterID r) && runtime_Available c)
    (snapshot_Clusters (input_Snapshot input)).

Lemma takes_available_row input cs p c r :
  checked (input_Snapshot input) cs -> row_of (input_Snapshot input) p c ->
  release_ClusterID r = planned_ClusterID p -> takes_available input r = runtime_Available c.
Proof.
  intros Hch (Hp & Hc & Hid) Hr. unfold takes_available. rewrite Hr, <- Hid.
  destruct (runtime_Available c) eqn:Ha.
  - apply existsb_exists. exists c. rewrite <- list_elem_of_In. split; [done|].
    by rewrite Ha, bool_decide_true.
  - apply not_true_iff_false. intros (e & He & Ht)%existsb_exists. rewrite <- list_elem_of_In in He.
    bool_props.
    assert (e = c); [|congruence]. rewrite <- (checked_perm _ _ Hch) in Hc, He.
    apply list_elem_of_lookup in Hc as [i Hi]. apply list_elem_of_lookup in He as [j Hj].
    assert (i = j) as ->; [|congruence].
    eapply (NoDup_lookup (runtime_ClusterID <$> cs)); [apply (checked_NoDup _ _ Hch)|..];
      rewrite list_lookup_fmap; [by rewrite Hi|rewrite Hj; cbn; congruence].
Qed.

Lemma count_takes_available input cs picked new :
  checked (input_Snapshot input) cs ->
  Forall2 (fun (pc : PlannedCluster * ClusterRuntime) r => row_of (input_Snapshot input) pc.1 pc.2 /\
             release_ClusterID r = planned_ClusterID pc.1) picked new ->
  count (takes_available input) new = count (fun pc => runtime_Available pc.2) picked.
Proof.
  intros Hch. induction 1 as [|pc r picked new [Hrow Hid] _ IH]; [done|].
  rewrite !count_cons, IH. by rewrite (takes_available_row _ _ _ _ _ Hch Hrow Hid).
Qed.

(** A release of a progressing rollout: the frozen version of a pending,
    connected cluster of a cohort that has passed its gates. *)
Definition permitted (input : EvaluateInput) (r : Release) : Prop :=
  exists p c, row_of (input_Snapshot input) p c /\
    runtime_State c = RolloutClusterPending /\ runtime_Connected c = true /\
    gates input (planned_Cohort p) /\
    release_of input p c AssignmentApply (desired_version (snapshot_Plan (input_Snapshot input)) p) r.

(** C5: while a rollout progresses, only permitted clusters are released: the
    rollout is within its deadline and its failure budget, every cluster of an
    earlier cohort is finished and the soak time after the previous cohort has
    passed, the cohort's approval (bound to its frozen digest, decided and
    unexpired) has been granted when it needs one, the maintenance window is
    open or overridden, and the cluster is pending and connected; it gets the
    frozen version and the next generation. *)
Theorem Decision_releases_permitted input d :
  Evaluate input = Ok d -> snapshot_State (input_Snapshot input) = RolloutProgressing ->
  forall r, r ∈ decision_Releases d -> permitted input r.
Proof.
  intros (cs & d0 & d1 & id & Hch & Hf & Hfail & _ & Hst & ->)%Scheduler_inv Hp r.
  cbn [set_id decision_Releases]. rewrite sorted_releases. unfold evaluate_state in Hst. rewrite Hp in Hst.
  apply evaluateProgressing_inv in Hst; [|done..].
  destruct Hst as [(moved & ts & _ & _ & _ & ->)|[(to & code & Hset & Hto & _)|[(b & _ & ->)|
    (k & Hg & [[_ ->]|(picked & new & b & _ & Hsub & H2 & -> & _)] & _)]]]; cbn;
    rewrite ?(fresh_releases _ Hf); try set_solver.
  - apply setRolloutTransition_Ok in Hset as (_ & _ & ->).
    + cbn. rewrite (fresh_releases _ Hf). set_solver.
    + rewrite Hp. intros <-. set_solver.
  - intros (n & Hn)%list_elem_of_lookup. destruct (Forall2_lookup_r _ _ _ _ _ H2 Hn) as (pc & Hpc & Hr).
    pose proof (picked_rows _ _ _ Hsub (Permutation_refl _)) as Hrows. rewrite Forall_forall in Hrows.
    apply list_elem_of_lookup_2 in Hpc. destruct (released_as_release _ _ _ _ _ Hch (Hrows _ Hpc) Hr).
    destruct Hr as [(Hk & _ & Hs & Hconn) _]. exists pc.1, pc.2. split_and!; try done. by rewrite Hk.
Qed.

Lemma progressing_budgets input d :
  Evaluate input = Ok d -> snapshot_State (input_Snapshot input) = RolloutProgressing ->
  let strategy := plan_Strategy (snapshot_Plan (input_Snapshot input)) in
  let clusters := snapshot_Clusters (input_Snapshot input) in
  let now := input_Now input in
  let taken := count (takes_available input) (decision_Releases d) in
  (decision_Releases d = [] \/
   count (in_flight (MinReady strategy) now) clusters + len (decision_Releases d) <=
     Z.of_N (MaxConcurrent strategy)) /\
  (taken = 0 \/
   count (at_risk (MinReady strategy) now) clusters + taken <=
     Cohorts.amountLimit (MaxUnavailable strategy) (len clusters)).
Proof.
  intros (cs & d0 & d1 & id & Hch & Hf & Hfail & _ & Hst & ->)%Scheduler_inv Hp. cbn zeta.
  cbn [set_id decision_Releases]. unfold evaluate_state in Hst. rewrite Hp in Hst.
  pose proof (checked_perm _ _ Hch) as Hperm.
  assert (Hlen : len (snapshot_Clusters (input_Snapshot input)) = len cs) by (unfold len; by rewrite Hperm).
  rewrite Hlen, <- !Hperm, (count_perm (takes_available input) _ _ (sorted_releases d1)).
  assert (Hlr : len (decision_Releases (sorted_decision d1)) = len (decision_Releases d1))
    by (unfold len; by rewrite sorted_releases).
  assert (Hnil : decision_Releases d1 = [] -> decision_Releases (sorted_decision d1) = []).
  { intros E. apply Permutation_nil_r. rewrite <- E. apply sorted_releases. }
  rewrite Hlr. apply evaluateProgressing_inv in Hst; [|done..].
  destruct Hst as [(moved & ts & _ & _ & _ & ->)|[(to & code & Hset & Hto & _)|[(b & _ & ->)|
    (k & Hg & [[_ ->]|(picked & new & b & Hs & Hsub & H2 & -> & Hle & Hav & _)] & _)]]].
  1,3,4: cbn in *; rewrite ?(fresh_releases _ Hf) in *; split; left; auto.
  - apply setRolloutTransition_Ok in Hset as (_ & _ & ->).
    + cbn in *. rewrite (fresh_releases _ Hf) in *. split; left; auto.
    + rewrite Hp. intros <-. set_solver.
  - cbn [set_blocked set_slices decision_Releases]. split; [right; lia|].
    rewrite (count_takes_available input cs picked new Hch).
    + destruct Hav as [?|?]; [by left|right; lia].
    + pose proof (picked_rows _ _ _ Hsub (Permutation_refl _)) as Hrows.
      eapply Forall2_with; [exact Hrows|exact H2|]. intros pc r Hpc Hr.
      destruct (released_as_release _ _ _ _ _ Hch Hpc Hr) as [? Hrel]. split; [done|apply Hrel].
Qed.

(** C1: the budgets of the strategy are hard: with the releases of a decision
    the clusters in flight stay within [max_concurrent], and unless only
    unavailable clusters are released, the clusters in flight or unavailable
    together with the available ones being released stay within
    [max_unavailable] of the fleet. *)
Theorem Decision_budgets input d :
  Evaluate input = Ok d -> snapshot_State (input_Snapshot input) = RolloutProgressing ->
  let strategy := plan_Strategy (snapshot_Plan (input_Snapshot input)) in
  let clusters := snapshot_Clusters (input_Snapshot input) in
  let now := input_Now input in
  let taken := count (takes_available input) (decision_Releases d) in
  (decision_Releases d = [] \/
   count (in_flight (MinReady strategy) now) clusters + len (decision_Releases d) <=
     Z.of_N (MaxConcurrent strategy)) /\
  (taken = 0 \/
   count (at_risk (MinReady strategy) now) clusters + taken <=
     Cohorts.amountLimit (MaxUnavailable strategy) (len clusters)).
Proof. apply progressing_budgets. Qed.

(** ** Rollbacks *)

(** A release of a rollback: the recorded previous version of a connected cluster
    that the rollout had touched. *)
Definition restores (input : EvaluateInput) (r : Release) : Prop :=
  exists p c previous, row_of (input_Snapshot input) p c /\
    runtime_EverReleased c = true /\ runtime_Connected c = true /\
    planned_Previous p = Some previous /\
    release_of input p c AssignmentRollback (previous_Version previous) r.


(** ** Progress *)


(** A rollout succeeds only when it has done its work: if the decision moves
    a progressing rollout to [succeeded], every cluster of it has been ready for
    at least the strategy's minimum time or was skipped. *)
Theorem Decision_success input d t :
  Evaluate input = Ok d -> snapshot_State (input_Snapshot input) = RolloutProgressing ->
  decision_RolloutTransition d = Some t -> rt_To t = RolloutSucceeded ->
  forall c, c ∈ snapshot_Clusters (input_Snapshot input) ->
  runtime_State c = RolloutClusterSkipped \/
  (runtime_State c = RolloutClusterReady /\ exists since, runtime_ReadySince c = Some since /\
     since + MinReady (plan_Strategy (snapshot_Plan (input_Snapshot input))) <= input_Now input).
Proof.
  intros (cs & d0 & d1 & id & Hch & Hf & Hfail & _ & Hst & ->)%Scheduler_inv Hp.
  cbn [set_id decision_RolloutTransition sorted_decision set_slices]. intros Ht Hto c Hc.
  unfold evaluate_state in Hst. rewrite Hp in Hst. apply evaluateProgressing_inv in Hst; [|done..].
  destruct Hst as [(moved & ts & _ & _ & _ & ->)|[(to & code & Hset & Hin & Hdone)|[(b & _ & ->)|
    (k & _ & [[_ ->]|(picked & new & b & _ & _ & _ & -> & _)] & _)]]]; cbn in Ht;
    rewrite ?(fresh_rollout _ Hf) in Ht; try done.
  apply setRolloutTransition_Ok in Hset as (_ & _ & ->); [|rewrite Hp; intros <-; set_solver].
  cbn in Ht. injection Ht as <-. cbn in Hto. destruct (Hdone Hto) as [Hzero Hall].
  rewrite <- (checked_perm _ _ Hch) in Hc.
  destruct (checked_cluster _ _ _ Hch Hc) as (p & Hpr & Hpc). specialize (Hall p c Hpr Hpc).
  rewrite Hfail in Hzero. apply count_zero with (x := c) in Hzero; [|done].
  unfold finished in Hall. destruct (runtime_State c); try done; auto.
Qed.

(** ** Order *)

Definition with_clusters (input : EvaluateInput) (cs : list ClusterRuntime) : EvaluateInput :=
  let s := input_Snapshot input in
  {| input_Now := input_Now input;
     input_Snapshot := {| snapshot_Plan := snapshot_Plan s; snapshot_State := snapshot_State s;
                          snapshot_Fence := snapshot_Fence s; snapshot_Clusters := cs |};
     input_Lease := input_Lease input; input_InitialApproval := input_InitialApproval input;
     input_CohortApprovals := input_CohortApprovals input;
     input_Maintenance := input_Maintenance input |}.

Lemma evaluate_state_clusters input cs' cs d :
  evaluate_state (with_clusters input cs') cs d = evaluate_state input cs d.
Proof. done. Qed.

(** The decision, its identity included, does not depend on the order in
    which the runtime rows are listed. *)
Theorem Decision_order_free input cs' d :
  cs' ≡ₚ snapshot_Clusters (input_Snapshot input) ->
  Evaluate input = Ok d -> Evaluate (with_clusters input cs') = Ok d.
Proof.
  intros Hp. unfold Evaluate, evaluate_checks. intros He. res_inv.
  repeat match goal with u : unit |- _ => destruct u end.
  cbn [input_Now input_Snapshot with_clusters snapshot_Plan snapshot_State snapshot_Fence
       snapshot_Clusters input_Lease].
  repeat match goal with Hg : ?g = false |- context [fail_if ?g _] => rewrite Hg end.
  match goal with Hv : FrozenRollout_Validate _ = Ok _ |- _ => rewrite Hv end.
  match goal with Hv : Lease_validate _ _ _ = Ok _ |- _ => rewrite Hv end.
  match goal with Hv : validateRuntime _ _ = Ok _ |- _ =>
    apply (validateRuntime_perm _ _ _ _ (symmetry Hp)) in Hv; rewrite Hv end.
  cbn [fail_if wrap_err mbind res_bind fst snd] in *.
  match goal with Hv : DeriveRolloutCounters _ = Ok _ |- _ => rewrite Hv end.
  cbn [mbind res_bind fst snd] in *. rewrite evaluate_state_clusters.
  match goal with Hv : evaluate_state _ _ _ = Ok _ |- _ => rewrite Hv end.
  match goal with Hv : decisionDigest _ _ = Ok _ |- _ => cbn [mbind res_bind]; by rewrite Hv end.
Qed.
End correct.

(** ** No panics *)

Definition safe {A} (r : res A) : Prop := r <> Err EPanic.

Lemma safe_Ok {A} (a : A) : safe (Ok a).
Proof. done. Qed.

Lemma safe_bind {A B} (m : res A) (f : A -> res B) :
  safe m -> (forall a, m = Ok a -> safe (f a)) -> safe (m ≫= f).
Proof. unfold safe. destruct m; cbn; [intros _ Hf; by apply Hf|congruence]. Qed.

Lemma safe_fail_if b e : e <> EPanic -> safe (fail_if b e).
Proof. unfold safe. destruct b; cbn; congruence. Qed.

Lemma safe_wrap {A} w (r : res A) : (forall e, w e <> EPanic) -> safe (wrap_err w r).
Proof. unfold safe. destruct r as [|e]; cbn; [done|]. intros Hw. specialize (Hw e). congruence. Qed.

Lemma safe_foldl {A S} (f : S -> A -> res S) l :
  (forall s x, x ∈ l -> safe (f s x)) -> forall s, safe (res_foldl f s l).
Proof.
  induction l as [|x l IH]; intros Hf s; cbn; [done|].
  apply safe_bind; [apply Hf; by left|]. intros s' _. apply IH. intros ???. apply Hf. by right.
Qed.

Lemma safe_flow {A S} (f : S -> A -> res (Flow S)) l :
  (forall s x, x ∈ l -> safe (f s x)) -> forall s, safe (flow_foldl f s l).
Proof.
  induction l as [|x l IH]; intros Hf s; cbn; [done|].
  apply safe_bind; [apply Hf; by left|]. intros [d|s'] _; [done|].
  apply IH. intros ???. apply Hf. by right.
Qed.

Create HintDb safe.
#[export] Hint Resolve safe_Ok safe_fail_if safe_wrap : safe.
#[export] Hint Extern 1 (_ <> EPanic) => discriminate : safe.
Ltac safe_step :=
  match goal with
  | |- safe (_ ≫= _) => apply safe_bind; [|intros ? ?]
  | |- safe (if ?b then _ else _) => destruct b
  | |- safe (Err _) => unfold safe; discriminate
  | |- safe (let '(_, _) := ?x in _) => destruct x
  | |- safe (match ?x with _ => _ end) => destruct x
  | |- _ => progress (auto with safe)
  end.
Ltac solve_safe := cbn zeta; repeat (safe_step; cbn beta iota).

Section safety.
Context `{External} `{!ExternalLaws}.
Set Default Proof Using "Type".

Lemma safe_setRollout d s to code : safe (setRolloutTransition d s to code).
Proof. unfold setRolloutTransition. solve_safe. Qed.

Lemma safe_addCluster d c to code : safe (addClusterTransition d c to code).
Proof. unfold addClusterTransition. solve_safe. Qed.

Lemma safe_digest `{ToJSON A} (v : A) : safe (CanonicalDigest v).
Proof. unfold CanonicalDigest, CanonicalJSON. solve_safe. Qed.
#[local] Hint Resolve safe_setRollout safe_addCluster safe_digest : safe.

Lemma safe_newRelease plan p c action version now : safe (newRelease plan p c action version now).
Proof. unfold newRelease. solve_safe. Qed.
#[local] Hint Resolve safe_newRelease : safe.

Lemma safe_validateRuntime plan cs : safe (validateRuntime plan cs).
Proof.
  unfold validateRuntime. solve_safe.
  - apply safe_foldl. intros s x _. unfold index_runtime. solve_safe.
  - generalize (plan_Clusters plan) as rows. induction rows as [|p rows IH]; cbn; solve_safe. 
Qed.

Lemma safe_counters states : safe (DeriveRolloutCounters states).
Proof.
  unfold DeriveRolloutCounters. solve_safe. apply safe_foldl. intros s x _. unfold countState. solve_safe.
Qed.

Lemma safe_row snapshot cs p :
  checked snapshot cs -> p ∈ plan_Clusters (snapshot_Plan snapshot) ->
  safe (at_index cs (planned_Order p)).
Proof. intros Hch Hp. by destruct (checked_total _ _ _ Hch Hp) as [c ->]. Qed.

Lemma at_index_elem {A} (xs : list A) i x : at_index xs i = Ok x -> x ∈ xs.
Proof. intros [_ Hx]%at_index_Ok. by eapply list_elem_of_lookup_2. Qed.

Lemma safe_deref snapshot cs c :
  checked snapshot cs -> c ∈ cs -> runtime_State c = RolloutClusterReady ->
  safe (deref (runtime_ReadySince c)).
Proof.
  intros Hch Hc Hs. pose proof (checked_ok _ _ Hch) as Hok. rewrite Forall_forall in Hok.
  destruct (Hok c Hc) as (_ & _ & _ & _ & Hr). by destruct (Hr Hs) as (t & -> & _).
Qed.

Lemma safe_at_range {A} (xs : list A) k : 0 <= k < len xs -> safe (at_index xs k).
Proof.
  intros Hk. destruct (lookup_lt_is_Some_2 xs (Z.to_nat k)) as [x Hx]; [unfold len in Hk; lia|].
  unfold at_index. destruct (Z.ltb_spec k 0); [lia|]. by rewrite Hx.
Qed.

Section evaluation.
Context (input : EvaluateInput) (cs : list ClusterRuntime).
Context (Hchecked : checked (input_Snapshot input) cs).
#[local] Abbreviation plan := (snapshot_Plan (input_Snapshot input)).
#[local] Abbreviation now := (input_Now input).
Set Default Proof Using "Type*".

Lemma safe_cohort_row k st p : p ∈ plan_Clusters plan -> safe (cohort_row plan cs now k st p).
Proof.
  intros Hp. unfold cohort_row. destruct st as [b t]. destruct (_ != _); [done|].
  apply safe_bind; [by eapply safe_row|]. intros c Hc%at_index_elem.
  destruct (runtime_State c) eqn:Hs; solve_safe. by eapply safe_deref.
Qed.

Lemma safe_active t cohorts : safe (active_from plan cs now t cohorts).
Proof.
  revert t. induction cohorts as [|c cohorts IH]; intros t; cbn [active_from]; [done|].
  apply safe_bind; [|intros [b t'] _; destruct b; [apply IH|done]].
  apply safe_foldl. intros s p Hp. by apply safe_cohort_row.
Qed.

Lemma safe_reserve st : safe (res_foldl (reserve (MinReady (plan_Strategy plan)) now) st cs).
Proof.
  apply safe_foldl. intros [a r] c Hc. unfold reserve. apply safe_bind; [|intros [] _; solve_safe].
  unfold consumesConcurrency. destruct (runtime_State c) eqn:Hs; solve_safe. by eapply safe_deref.
Qed.

Lemma safe_disconnected k rows :
  (forall p, p ∈ rows -> p ∈ plan_Clusters plan) -> safe (has_disconnected cs k rows).
Proof.
  induction rows as [|p rows IH]; intros Hr; cbn [has_disconnected]; [done|].
  apply safe_bind; [eapply safe_row; [done|]; apply Hr; by left|]. intros c _.
  destruct (_ && _)%bool; [done|]. apply IH. intros q Hq. apply Hr. by right.
Qed.

Lemma safe_release_cohort k d : safe (release_cohort plan cs now k d).
Proof.
  unfold release_cohort. apply safe_bind; [apply safe_reserve|]. intros [a r] _.
  destruct (_ <=? 0); [done|]. apply safe_bind.
  - apply safe_foldl. intros st p Hp. unfold release_row. destruct (_ =? 0); [done|].
    destruct (_ != _); [done|]. apply safe_bind; [by eapply safe_row|]. intros c _. solve_safe.
  - intros st _. destruct (_ && _)%bool; [|done]. destruct (loop_availabilityBlocked st); [done|].
    apply safe_bind; [|done]. by apply safe_disconnected.
Qed.

Lemma safe_evaluate_cohort k t d :
  0 <= k < len (plan_Cohorts plan) -> safe (evaluate_cohort input cs k t d).
Proof.
  intros Hk. unfold evaluate_cohort. apply safe_bind; [by apply safe_at_range|]. intros c _.
  apply safe_bind.
  - destruct (Z.ltb_spec 0 k); [|done]. apply safe_bind; [|done]. apply safe_at_range. lia.
  - intros [] _; [done|]. pose proof (safe_release_cohort k d). solve_safe.
Qed.

Lemma safe_progressing d : safe (evaluateProgressing input cs d).
Proof.
  unfold evaluateProgressing. apply safe_bind.
  { apply safe_foldl. intros s c _. unfold observe_cluster. solve_safe. }
  intros d1 _. destruct (negb _); [done|]. destruct (negb _); [apply safe_setRollout|].
  assert (Hcont : safe (activeCohort plan cs now ≫= fun active =>
      let '(cohortIndex, completedAt, complete) := active in
      if (complete : bool) then
        if negb (Failed (decision_Counters d1) =? 0)
        then setRolloutTransition d1 (input_Snapshot input) RolloutFailed "rollout_completed_with_failures"
        else setRolloutTransition d1 (input_Snapshot input) RolloutSucceeded "rollout_completed"
      else evaluate_cohort input cs cohortIndex completedAt d1)).
  { apply safe_bind; [apply safe_active|]. intros [[k t] complete] Ha.
    apply activeCohort_spec in Ha as (_ & Hk & Ha); [|apply Hchecked].
    destruct complete; [solve_safe|]. apply safe_evaluate_cohort. lia. }
  destruct (failureBudgetExceeded _ _ _); [|exact Hcont].
  destruct (OnFailure _); [apply safe_setRollout..|exact Hcont].
Qed.

Lemma safe_rollback d : safe (evaluateRollback input cs d).
Proof.
  unfold evaluateRollback. apply safe_bind.
  - apply safe_flow. intros st p Hp. unfold tally_row, return_transition.
    apply safe_bind; [by eapply safe_row|]. intros c _. solve_safe.
  - intros [d'|tally] _; [done|]. unfold release_rollbacks. destruct (_ || _)%bool; [apply safe_setRollout|].
    cbn zeta. destruct (_ <=? 0); [done|]. apply safe_bind; [|done]. apply safe_flow.
    intros st p Hp. rewrite sort_slice_elem_of in Hp. unfold rollback_row, return_transition.
    cbn zeta. destruct (_ =? 0); [done|].
    apply safe_bind; [by eapply safe_row|]. intros c _. solve_safe.
Qed.
End evaluation.

(** C40: [Evaluate] never panics: whatever the input, no slice is indexed out of
    range and no nil timestamp is dereferenced; the validation of the plan and
    of the runtime rows rules both out. *)
Theorem Decision_no_panic input : Evaluate input <> Err EPanic.
Proof using H H0.
  unfold Evaluate. change (safe (evaluate_checks input ≫= fun checked =>
    evaluate_state input checked.1 checked.2 ≫= fun decision =>
    decisionDigest (plan_ID (snapshot_Plan (input_Snapshot input))) decision ≫= fun signed =>
    Ok (set_id signed.2 signed.1))).
  apply safe_bind.
  - unfold evaluate_checks, Lease_validate. solve_safe; [apply safe_validateRuntime|apply safe_counters].
  - intros [cs d0] (Hch & _)%evaluate_checks_inv. cbn [fst snd].
    apply safe_bind; [|intros d1 _; unfold decisionDigest; solve_safe].
    unfold evaluate_state. destruct (snapshot_State (input_Snapshot input)); solve_safe.
    + by apply safe_progressing.
    + by apply safe_rollback.
Qed.
End safety.

(** ** Concrete evaluations *)

Definition example_runtime (id : string) (s : RolloutClusterState) (released : bool) : ClusterRuntime :=
  {| runtime_ClusterID := UUID id; runtime_State := s; runtime_Fence := 1;
     runtime_Connected := true; runtime_Available := true; runtime_ReadySince := Some 101;
     runtime_StateChangedAt := 101; runtime_Deadline := 0; runtime_CurrentGeneration := 4;
     runtime_EverReleased := released; runtime_LastAction := AssignmentApply |}.

(** The plan of PlannerFacts.v in state [state], its two clusters in state [s]. *)
Definition example_input (state : RolloutState) (s : RolloutClusterState) (plan : FrozenRollout) :
  EvaluateInput :=
  {| input_Now := 300;
     input_Snapshot := {| snapshot_Plan := plan; snapshot_State := state; snapshot_Fence := 2;
       snapshot_Clusters := [example_runtime "b" s false; example_runtime "a" s true] |};
     input_Lease := {| lease_Owner := "worker"; lease_Fence := 2; lease_ExpiresAt := 400 |};
     input_InitialApproval := None; input_CohortApprovals := ∅;
     input_Maintenance := {| gate_Open := true; gate_OverrideAuthorized := false;
                             gate_OverrideReason := "" |} |}.

Definition example_decision (state : RolloutState) (s : RolloutClusterState) :
  res (FrozenRollout * Decision) :=
  planned ← PlannerFacts.example_planned;
  d ← @Evaluate Concrete.external (example_input state s planned.1);
  Ok (planned.1, d).

Definition shows (state : RolloutState) (s : RolloutClusterState) (f : Decision -> bool) : bool :=
  match example_decision state s with Ok (_, d) => f d | Err _ => false end.

Lemma shows_decision state s f :
  shows state s f = true ->
  exists plan d, @Evaluate Concrete.external (example_input state s plan) = Ok d /\ f d = true.
Proof.
  unfold shows, example_decision. destruct PlannerFacts.example_planned as [[plan ds]|]; [|done].
  cbn [mbind res_bind fst]. intros Hd. exists plan.
  destruct (Evaluate (example_input state s plan)) as [d|]; [|done]. by exists d.
Qed.

Lemma example_releases :
  shows RolloutProgressing RolloutClusterPending (fun d => 0 <? len (decision_Releases d)) = true.
Proof. vm_compute. reflexivity. Qed.

Lemma example_rolls_back :
  shows RolloutRollingBack RolloutClusterReady (fun d => 0 <? len (decision_Releases d)) = true.
Proof. vm_compute. reflexivity. Qed.

Lemma example_succeeds :
  shows RolloutProgressing RolloutClusterReady
    (fun d => match decision_RolloutTransition d with
              | Some t => rt_To t == RolloutSucceeded | None => false end) = true.
Proof. vm_compute. reflexivity. Qed.

Definition example_waits (d : Decision) : bool :=
  bool_decide (decision_RolloutTransition d = None) && (len (decision_ClusterTransitions d) =? 0) &&
  (len (decision_Releases d) =? 0) && (decision_Blocked d == BlockNone).

Lemma example_in_flight :
  shows RolloutRollingBack RolloutClusterRollingBack example_waits = true.
Proof. vm_compute. reflexivity. Qed.

Lemma Decision_legal_witness :
  exists plan d, @Evaluate Concrete.external
      (example_input RolloutProgressing RolloutClusterPending plan) = Ok d /\
    legal (example_input RolloutProgressing RolloutClusterPending plan) d.
Proof.
  destruct (shows_decision _ _ _ example_releases) as (plan & d & E & _). exists plan, d.
  split; [exact E|]. exact (@Decision_legal Concrete.external Concrete.external_laws _ d E).
Defined.

Lemma Decision_releases_permitted_witness :
  exists plan d, (0 <? len (decision_Releases d)) = true /\
    forall r, r ∈ decision_Releases d ->
      permitted (example_input RolloutProgressing RolloutClusterPending plan) r.
Proof.
  destruct (shows_decision _ _ _ example_releases) as (plan & d & E & Hd). exists plan, d.
  split; [exact Hd|].
  exact (@Decision_releases_permitted Concrete.external Concrete.external_laws _ d E eq_refl).
Defined.

Lemma Decision_budgets_witness :
  exists plan d, (0 <? len (decision_Releases d)) = true /\
    (decision_Releases d = [] \/
     count (in_flight (MinReady (plan_Strategy plan)) 300) [example_runtime "b" RolloutClusterPending false;
       example_runtime "a" RolloutClusterPending true] + len (decision_Releases d) <=
       Z.of_N (MaxConcurrent (plan_Strategy plan))).
Proof.
  destruct (shows_decision _ _ _ example_releases) as (plan & d & E & Hd). exists plan, d.
  split; [exact Hd|].
  exact (proj1 (@Decision_budgets Concrete.external Concrete.external_laws _ d E eq_refl)).
Defined.



Lemma Decision_success_witness :
  exists plan, runtime_State (example_runtime "a" RolloutClusterReady true) = RolloutClusterSkipped \/
    (RolloutClusterReady = RolloutClusterReady /\ exists since, Some 101 = Some since /\
       since + MinReady (plan_Strategy plan) <= 300).
Proof.
  destruct (shows_decision _ _ _ example_succeeds) as (plan & d & E & Hd). exists plan.
  destruct (decision_RolloutTransition d) as [t|] eqn:Et; [|discriminate Hd].
  apply bool_decide_eq_true in Hd.
  exact (@Decision_success Concrete.external Concrete.external_laws _ d t E eq_refl Et Hd
    (example_runtime "a" RolloutClusterReady true) ltac:(cbn; right; left)).
Defined.

Lemma Decision_order_free_witness :
  exists plan d, @Evaluate Concrete.external
    (with_clusters (example_input RolloutProgressing RolloutClusterPending plan)
       [example_runtime "a" RolloutClusterPending true; example_runtime "b" RolloutClusterPending false]) =
    Ok d.
Proof.
  destruct (shows_decision _ _ _ example_releases) as (plan & d & E & _). exists plan, d.
  refine (@Decision_order_free Concrete.external Concrete.external_laws _ _ d _ E).
  apply Permutation_swap.
Defined.

Lemma Decision_no_panic_witness :
  exists plan ds, PlannerFacts.example_planned = Ok (plan, ds) /\
    @Evaluate Concrete.external (example_input RolloutProgressing RolloutClusterReady plan) <>
      Err EPanic.
Proof.
  destruct (is_ok_Ok _ PlannerFacts.example_plans) as [[plan ds] E]. exists plan, ds.
  split; [exact E|].
  exact (@Decision_no_panic Concrete.external Concrete.external_laws
    (example_input RolloutProgressing RolloutClusterReady plan)).
Defined.
End SchedulerCorrect.
