(* ===== verification/Base64.v ===== *)
(** * encoding/base64

    [StdEncoding.EncodeToString] and [StdEncoding.DecodeString] of the Go
    standard library: padded, newlines ignored when decoding, unused bits of the
    last digit not checked.  [RawURLEncoding] has its own two last digits and no
    padding.  Decoding what was encoded gives it back, in both. *)

From Stdlib Require Import ZArith NArith Lia Ascii.
From S2P Require Import Prelude GoStrings.
From stdpp Require Import base strings list.

Open Scope N_scope.

Module Base64.

(** The alphabet: A-Z, a-z, 0-9, +, /. *)
Definition encode_digit (d : N) : ascii :=
  ascii_of_N (if d <? 26 then 65 + d
              else if d <? 52 then 97 + (d - 26)
              else if d <? 62 then 48 + (d - 52)
              else if d =? 62 then 43 else 47).

Definition decode_digit (c : ascii) : option N :=
  let n := N_of_ascii c in
  if (65 <=? n) && (n <=? 90) then Some (n - 65)
  else if (97 <=? n) && (n <=? 122) then Some (n - 97 + 26)
  else if (48 <=? n) && (n <=? 57) then Some (n - 48 + 52)
  else if n =? 43 then Some 62
  else if n =? 47 then Some 63
  else None.

Definition pad : ascii := ascii_of_N 61.

(** [EncodeToString]: three bytes make four digits. *)
Fixpoint encode (s : string) : string :=
  match s with
  | String a (String b (String c rest)) =>
      let v := byte_val a * 65536 + byte_val b * 256 + byte_val c in
      String (encode_digit (v / 262144)) (String (encode_digit (v / 4096 mod 64))
        (String (encode_digit (v / 64 mod 64)) (String (encode_digit (v mod 64)) (encode rest))))
  | String a (String b EmptyString) =>
      let v := byte_val a * 65536 + byte_val b * 256 in
      String (encode_digit (v / 262144)) (String (encode_digit (v / 4096 mod 64))
        (String (encode_digit (v / 64 mod 64)) (String pad EmptyString)))
  | String a EmptyString =>
      let v := byte_val a * 65536 in
      String (encode_digit (v / 262144)) (String (encode_digit (v / 4096 mod 64))
        (String pad (String pad EmptyString)))
  | EmptyString => EmptyString
  end.

(** Line breaks are skipped wherever they are. *)
Fixpoint strip_newlines (s : string) : string :=
  match s with
  | EmptyString => EmptyString
  | String c rest =>
      if (byte_val c =? 10) || (byte_val c =? 13) then strip_newlines rest
      else String c (strip_newlines rest)
  end.

(** Groups of four digits; only the last one may be padded. *)
Fixpoint decode_groups (s : string) : option string :=
  match s with
  | EmptyString => Some EmptyString
  | String a (String b (String c (String d rest))) =>
      x ← decode_digit a; y ← decode_digit b;
      if c == pad then
        if (d == pad) && (rest == "") then
          Some (String (ascii_of_N ((x * 64 + y) / 16)) EmptyString)
        else None
      else
        z ← decode_digit c;
        let v2 := x * 4096 + y * 64 + z in
        if d == pad then
          if rest == "" then
            Some (String (ascii_of_N (v2 / 1024)) (String (ascii_of_N (v2 / 4 mod 256)) EmptyString))
          else None
        else
          w ← decode_digit d;
          let v := v2 * 64 + w in
          out ← decode_groups rest;
          Some (String (ascii_of_N (v / 65536)) (String (ascii_of_N (v / 256 mod 256))
            (String (ascii_of_N (v mod 256)) out)))
  | _ => None
  end.

Definition decode (s : string) : option string := decode_groups (strip_newlines s).

(** ** Round trip *)

(** A digit is no padding and no line break, and decodes to itself. *)
Lemma digit_facts d :
  d < 64 ->
  decode_digit (encode_digit d) = Some d /\ encode_digit d <> pad /\
  (byte_val (encode_digit d) =? 10) || (byte_val (encode_digit d) =? 13) = false.
Proof.
  intros Hd. rewrite <- (N2Nat.id d). assert (Hn : (N.to_nat d < 64)%nat) by lia. clear Hd.
  revert Hn. generalize (N.to_nat d). clear d. intros n Hn.
  do 64 (destruct n as [|n]; [split; [reflexivity | split; [discriminate | reflexivity]]|]). lia.
Qed.

Lemma byte_val_of_N n : n < 256 -> byte_val (ascii_of_N n) = n.
Proof. intros. by apply N_ascii_embedding. Qed.

Lemma byte_back n c : n = byte_val c -> ascii_of_N n = c.
Proof. intros ->. apply ascii_N_embedding. Qed.

(** Induction three bytes at a time. *)
Lemma string_ind3 (P : string -> Prop) :
  P "" -> (forall a, P (String a "")) -> (forall a b, P (String a (String b ""))) ->
  (forall a b c s, P s -> P (String a (String b (String c s)))) -> forall s, P s.
Proof.
  intros H0 H1 H2 H3. fix IH 1. intros [|a [|b [|c s]]]; [apply H0|apply H1|apply H2|].
  apply H3. apply IH.
Qed.

Lemma strip_digit d s :
  d < 64 -> strip_newlines (String (encode_digit d) s) = String (encode_digit d) (strip_newlines s).
Proof. intros Hd. cbn [strip_newlines]. by rewrite (proj2 (proj2 (digit_facts d Hd))). Qed.

Lemma top_digit v : v < 16777216 -> v / 262144 < 64.
Proof. intros. apply N.Div0.div_lt_upper_bound; lia. Qed.

Lemma low_digit v : v mod 64 < 64.
Proof. by apply N.mod_lt. Qed.

Ltac digit_bounds :=
  repeat match goal with
  | c : ascii |- _ => lazymatch goal with
      | H : byte_val c < 256 |- _ => fail
      | _ => pose proof (byte_val_bound c)
      end
  end;
  solve [apply low_digit | apply top_digit; lia].

Lemma strip_encode s : strip_newlines (encode s) = encode s.
Proof.
  induction s as [|a|a b|a b c s IH] using string_ind3; cbn [encode]; [done|..];
    repeat rewrite strip_digit by digit_bounds; [done | done | by rewrite IH].
Qed.

(** The digits of a value put together again. *)
Lemma join_two v : v / 262144 * 64 + v / 4096 mod 64 = v / 4096.
Proof.
  change 262144 with (4096 * 64). rewrite <- N.Div0.div_div.
  pose proof (N.div_mod (v / 4096) 64 ltac:(done)). lia.
Qed.

Lemma join_three v : v / 262144 * 4096 + v / 4096 mod 64 * 64 + v / 64 mod 64 = v / 64.
Proof.
  pose proof (join_two v) as H2. change 4096 with (64 * 64) in H2 at 2.
  rewrite <- N.Div0.div_div in H2. pose proof (N.div_mod (v / 64) 64 ltac:(done)). lia.
Qed.

Lemma join_four v :
  (v / 262144 * 4096 + v / 4096 mod 64 * 64 + v / 64 mod 64) * 64 + v mod 64 = v.
Proof. rewrite join_three. pose proof (N.div_mod v 64 ltac:(done)). lia. Qed.

Lemma digit_not_pad d : d < 64 -> bool_decide (encode_digit d = pad) = false.
Proof. intros Hd. apply bool_decide_eq_false, (digit_facts d Hd). Qed.

(** The bytes of a value. *)
Lemma bytes_of_value a b c v :
  a < 256 -> b < 256 -> c < 256 -> v = a * 65536 + b * 256 + c ->
  v / 65536 = a /\ v / 256 mod 256 = b /\ v mod 256 = c.
Proof.
  intros Ha Hb Hc ->.
  assert (Hm : (a * 65536 + b * 256 + c) / 256 = a * 256 + b).
  { symmetry. apply (N.div_unique _ _ _ c); lia. }
  split; [symmetry; apply (N.div_unique _ _ _ (b * 256 + c)); lia|]. rewrite Hm. split.
  - symmetry. apply (N.mod_unique _ _ a); lia.
  - symmetry. apply (N.mod_unique _ _ (a * 256 + b)); lia.
Qed.

Ltac decode_digits :=
  repeat first
  [ rewrite (fun d H => proj1 (digit_facts d H)) by digit_bounds
  | rewrite digit_not_pad by digit_bounds
  | progress cbn [mbind option_bind andb]
  | rewrite bool_decide_true by done ].

Lemma decode_encode_groups s : decode_groups (encode s) = Some s.
Proof.
  induction s as [|a|a b|a b c s IH] using string_ind3; cbn [encode decode_groups]; [done|..].
  - decode_digits. rewrite join_two, N.Div0.div_div. do 2 f_equal. apply byte_back.
    apply (bytes_of_value (byte_val a) 0 0); try apply byte_val_bound; lia.
  - decode_digits. rewrite join_three, !N.Div0.div_div.
    destruct (bytes_of_value (byte_val a) (byte_val b) 0 (byte_val a * 65536 + byte_val b * 256))
      as (Ha & Hb & _); try apply byte_val_bound; [lia..|].
    do 2 f_equal; [by apply byte_back|]. f_equal. by apply byte_back.
  - decode_digits. rewrite IH. decode_digits. rewrite join_four.
    destruct (bytes_of_value (byte_val a) (byte_val b) (byte_val c)
      (byte_val a * 65536 + byte_val b * 256 + byte_val c)) as (Ha & Hb & Hc);
      try apply byte_val_bound; [done|].
    do 2 f_equal; [by apply byte_back|]. f_equal; [by apply byte_back|]. f_equal. by apply byte_back.
Qed.

(** Decoding an encoded text gives it back. *)
Lemma decode_encode s : decode (encode s) = Some s.
Proof. unfold decode. by rewrite strip_encode, decode_encode_groups. Qed.

(** ** [RawURLEncoding]: the last two digits are - and _, and nothing pads *)

Definition encode_url_digit (d : N) : ascii :=
  if d =? 62 then "-"%char else if d =? 63 then "_"%char else encode_digit d.

Definition decode_url_digit (c : ascii) : option N :=
  if c == "-"%char then Some 62 else if c == "_"%char then Some 63
  else if (c == "+"%char) || (c == "/"%char) then None else decode_digit c.

Fixpoint encode_url (s : string) : string :=
  match s with
  | String a (String b (String c rest)) =>
      let v := byte_val a * 65536 + byte_val b * 256 + byte_val c in
      String (encode_url_digit (v / 262144)) (String (encode_url_digit (v / 4096 mod 64))
        (String (encode_url_digit (v / 64 mod 64)) (String (encode_url_digit (v mod 64)) (encode_url rest))))
  | String a (String b EmptyString) =>
      let v := byte_val a * 65536 + byte_val b * 256 in
      String (encode_url_digit (v / 262144)) (String (encode_url_digit (v / 4096 mod 64))
        (String (encode_url_digit (v / 64 mod 64)) EmptyString))
  | String a EmptyString =>
      let v := byte_val a * 65536 in
      String (encode_url_digit (v / 262144)) (String (encode_url_digit (v / 4096 mod 64)) EmptyString)
  | EmptyString => EmptyString
  end.

(** Groups of four digits; the last one may be of two or three. *)
Fixpoint decode_url_groups (s : string) : option string :=
  match s with
  | EmptyString => Some EmptyString
  | String a (String b EmptyString) =>
      x ← decode_url_digit a; y ← decode_url_digit b;
      Some (String (ascii_of_N ((x * 64 + y) / 16)) EmptyString)
  | String a (String b (String c EmptyString)) =>
      x ← decode_url_digit a; y ← decode_url_digit b; z ← decode_url_digit c;
      let v := x * 4096 + y * 64 + z in
      Some (String (ascii_of_N (v / 1024)) (String (ascii_of_N (v / 4 mod 256)) EmptyString))
  | String a (String b (String c (String d rest))) =>
      x ← decode_url_digit a; y ← decode_url_digit b; z ← decode_url_digit c; w ← decode_url_digit d;
      let v := (x * 4096 + y * 64 + z) * 64 + w in
      out ← decode_url_groups rest;
      Some (String (ascii_of_N (v / 65536)) (String (ascii_of_N (v / 256 mod 256))
        (String (ascii_of_N (v mod 256)) out)))
  | String _ EmptyString => None
  end.

Definition decode_url (s : string) : option string := decode_url_groups (strip_newlines s).

(** A digit of the alphabet decodes to itself, is no line break and no dot. *)
Definition url_digit (c : ascii) : bool :=
  in_range "A"%char "Z"%char c || in_range "a"%char "z"%char c || in_range "0"%char "9"%char c ||
  (c == "-"%char) || (c == "_"%char).

Lemma url_digit_facts d :
  d < 64 ->
  decode_url_digit (encode_url_digit d) = Some d /\ url_digit (encode_url_digit d) = true /\
  (byte_val (encode_url_digit d) =? 10) || (byte_val (encode_url_digit d) =? 13) = false.
Proof.
  intros Hd. rewrite <- (N2Nat.id d). assert (Hn : (N.to_nat d < 64)%nat) by lia. clear Hd.
  revert Hn. generalize (N.to_nat d). clear d. intros n Hn.
  do 64 (destruct n as [|n]; [split; [reflexivity | split; reflexivity]|]). lia.
Qed.

Lemma strip_url_digit d s :
  d < 64 -> strip_newlines (String (encode_url_digit d) s) = String (encode_url_digit d) (strip_newlines s).
Proof. intros Hd. cbn [strip_newlines]. by rewrite (proj2 (proj2 (url_digit_facts d Hd))). Qed.

Lemma strip_encode_url s : strip_newlines (encode_url s) = encode_url s.
Proof.
  induction s as [|a|a b|a b c s IH] using string_ind3; cbn [encode_url]; [done|..];
    repeat rewrite strip_url_digit by digit_bounds; [done | done | by rewrite IH].
Qed.

Lemma encode_url_digits s : string_forallb url_digit (encode_url s) = true.
Proof.
  induction s as [|a|a b|a b c s IH] using string_ind3; cbn [encode_url string_forallb]; [done|..];
    repeat rewrite (fun d H => proj1 (proj2 (url_digit_facts d H))) by digit_bounds; [done | done | by rewrite IH].
Qed.

(** Three bytes make four digits, the last one or two make two or three. *)
Lemma encode_url_length s : (3 * String.length (encode_url s) <= 4 * String.length s + 2)%nat.
Proof.
  induction s as [|a|a b|a b c s IH] using string_ind3; cbn [encode_url String.length]; lia.
Qed.

Ltac decode_url_digits :=
  repeat first
  [ rewrite (fun d H => proj1 (url_digit_facts d H)) by digit_bounds
  | progress cbn [mbind option_bind] ].

Lemma decode_encode_url_groups s : decode_url_groups (encode_url s) = Some s.
Proof.
  induction s as [|a|a b|a b c s IH] using string_ind3; cbn [encode_url decode_url_groups]; [done|..].
  - decode_url_digits. rewrite join_two, N.Div0.div_div. do 2 f_equal. apply byte_back.
    apply (bytes_of_value (byte_val a) 0 0); try apply byte_val_bound; lia.
  - decode_url_digits. rewrite join_three, !N.Div0.div_div.
    destruct (bytes_of_value (byte_val a) (byte_val b) 0 (byte_val a * 65536 + byte_val b * 256))
      as (Ha & Hb & _); try apply byte_val_bound; [lia..|].
    do 2 f_equal; [by apply byte_back|]. f_equal. by apply byte_back.
  - decode_url_digits. rewrite IH. decode_url_digits. rewrite join_four.
    destruct (bytes_of_value (byte_val a) (byte_val b) (byte_val c)
      (byte_val a * 65536 + byte_val b * 256 + byte_val c)) as (Ha & Hb & Hc);
      try apply byte_val_bound; [done|].
    do 2 f_equal; [by apply byte_back|]. f_equal; [by apply byte_back|]. f_equal. by apply byte_back.
Qed.

Lemma decode_encode_url s : decode_url (encode_url s) = Some s.
Proof. unfold decode_url. by rewrite strip_encode_url, decode_encode_url_groups. Qed.
End Base64.
