(* ===== verification/Rbac.v ===== *)
(** * Role-based access control (internal/rbac)

    The permission engine over role bindings (engine.go), the additive native
    rules for Kubernetes custom resources (native.go), the vocabulary and rules
    (types.go) and the catalog of role templates with their inheritance
    (templates.go, [resolveInherited] of engine.go).

    A Go map from names is a [gmap]; a [range] over it visits the keys in an
    order the language leaves open, so each such loop takes the order as an
    argument and the theorems hold for every order of the keys. *)

From Stdlib Require Import ZArith Lia.
From S2P Require Import Prelude GoSort GoStrings External.
From stdpp Require Import base gmap strings list.

Open Scope Z_scope.

Module Rbac.

(** ** Vocabulary (types.go) *)

Definition Resource := string.
Definition Verb := string.

Definition ResourceSecrets : Resource := "secrets".
Definition ResourceBackups : Resource := "backups".
Definition ResourceNodes : Resource := "nodes".

Definition canonicalResources : list Resource :=
  ["clusters"; "projects"; "workloads"; "pods"; "monitoring"; "alerts"; "catalog";
   "logging"; "backups"; "security"; "rbac"; "settings"; "sso"; "users"; "audit_logs";
   "agents"; "secrets"; "configmaps"; "services"; "ingresses"; "storage"; "nodes";
   "service_mesh"; "support_bundles"; "delivery_sources"; "delivery_bundles";
   "delivery_targets"; "delivery_rollouts"; "delivery_deployments";
   "delivery_inventory"; "delivery_approvals"; "delivery_rollbacks";
   "delivery_orphans"; "delivery_platform"; "delivery_configuration_templates";
   "cluster_templates"; "network_policies"; "custom_resources"; "audit_ingest";
   "charlie"; "*"].

Definition VerbCreate : Verb := "create".
Definition VerbRead : Verb := "read".
Definition VerbUpdate : Verb := "update".
Definition VerbDelete : Verb := "delete".
Definition VerbList : Verb := "list".
Definition VerbScale : Verb := "scale".
Definition VerbRestart : Verb := "restart".
Definition VerbExec : Verb := "exec".
Definition VerbLogs : Verb := "logs".
Definition VerbProxy : Verb := "proxy".
Definition VerbSync : Verb := "sync".
Definition VerbManage : Verb := "manage".

Definition canonicalVerbs : list Verb :=
  [VerbCreate; VerbRead; VerbUpdate; VerbDelete; VerbList; "watch"; VerbScale;
   VerbRestart; VerbExec; VerbLogs; VerbProxy; VerbSync; VerbManage; "approve";
   "rollback"; "orphan"; "*"].

Definition IsCanonicalResource (resource : string) : bool :=
  existsb (fun candidate => resource == candidate) canonicalResources.

Definition IsCanonicalVerb (verb : string) : bool :=
  existsb (fun candidate => verb == candidate) canonicalVerbs.

Record Rule := {
  rule_Resource : string;
  rule_Resources : list string;
  rule_Verbs : list string;
  rule_APIGroups : list string;
  rule_APIGroupsCamel : list string;
}.

Definition CRDAPIGroups (r : Rule) : list string :=
  if 0 <? len (rule_APIGroups r) then rule_APIGroups r else rule_APIGroupsCamel r.

Definition IsCRDGrant (r : Rule) : bool := 0 <? len (CRDAPIGroups r).

Definition ResourceNames (r : Rule) : list string :=
  if rule_Resource r != "" then [rule_Resource r] else rule_Resources r.

Record RoleBinding := {
  rb_UserID : string;
  rb_Group : string;
  rb_RoleRules : list Rule;
  rb_BindingID : string;
  rb_RoleID : string;
  rb_RoleName : string;
  rb_Scope : string;
  rb_ClusterID : string;
  rb_ProjectID : string;
  rb_Namespace : string;
  rb_IsSuperuser : bool;
}.

(** ** The engine (engine.go) *)

Definition matchRule (rule : Rule) (resource : Resource) (verb : Verb) : bool :=
  if IsCRDGrant rule then false
  else if (rule_Resource rule != "*") && (rule_Resource rule != resource) then false
  else existsb (fun v => (v == "*") || (v == verb)) (rule_Verbs rule).

(** The inner loop over the rules of one binding. *)
Definition granted (b : RoleBinding) (resource : Resource) (verb : Verb) : bool :=
  existsb (fun rule => matchRule rule resource verb) (rb_RoleRules b).

Definition CheckSuperuser (bindings : list RoleBinding) : bool :=
  existsb rb_IsSuperuser bindings.

(** [NarrowedClusterPolicy] *)
Inductive NarrowedClusterPolicy := NarrowedClustersWiden | NarrowedClustersExcluded.

#[global] Instance NarrowedClusterPolicy_eq_dec : EqDecision NarrowedClusterPolicy.
Proof. solve_decision. Defined.

Section engine.
Context `{External}.

Definition bindingApplies (b : RoleBinding) (clusterID projectID : uuid)
    (namespace : string) : bool :=
  if (rb_Namespace b != "") && (rb_Namespace b != namespace) then false
  else if (rb_Namespace b != "") && (rb_ClusterID b == "") && (rb_ProjectID b == "")
  then false
  else
    let isGlobal := (rb_ClusterID b == "") && (rb_ProjectID b == "") in
    if isGlobal then true
    else if (rb_ClusterID b != "") && (rb_ClusterID b == uuid_String clusterID) then true
    else if (rb_ProjectID b != "") && (rb_ProjectID b == uuid_String projectID) then true
    else false.

(** [CheckExplicitPermission]; the variadic namespace is a list. *)
Definition CheckExplicitPermission (bindings : list RoleBinding) (resource : Resource)
    (verb : Verb) (clusterID projectID : uuid) (namespace : list string) : bool :=
  let requestNamespace := default "" (head namespace) in
  existsb (fun b => bindingApplies b clusterID projectID requestNamespace &&
                    granted b resource verb) bindings.

Definition CheckPermission (bindings : list RoleBinding) (resource : Resource)
    (verb : Verb) (clusterID projectID : uuid) (namespace : list string) : bool :=
  let requestNamespace := default "" (head namespace) in
  if existsb rb_IsSuperuser bindings then true
  else existsb (fun b => bindingApplies b clusterID projectID requestNamespace &&
                         granted b resource verb) bindings.

(** The loop of [AuthorizedNamespaces] from the set [names] on. *)
Fixpoint authorized_namespaces (bindings : list RoleBinding) (resource : Resource)
    (verb : Verb) (clusterID : uuid) (names : gset string) : bool * gset string :=
  match bindings with
  | [] => (false, names)
  | b :: rest =>
      let continue := authorized_namespaces rest resource verb clusterID in
      let isGlobal := (rb_ClusterID b == "") && (rb_ProjectID b == "") in
      let clusterMatch := (rb_ClusterID b != "") && (rb_ClusterID b == uuid_String clusterID) in
      if negb ((isGlobal && (rb_Namespace b == "")) || clusterMatch) then continue names
      else if negb (granted b resource verb) then continue names
      else if rb_Namespace b == "" then (true, ∅)
      else continue ({[rb_Namespace b]} ∪ names)
  end.

Definition AuthorizedNamespaces (bindings : list RoleBinding) (resource : Resource)
    (verb : Verb) (clusterID : uuid) : bool * gset string :=
  if existsb rb_IsSuperuser bindings then (true, ∅)
  else authorized_namespaces bindings resource verb clusterID ∅.

Definition HasAnyNamespaceAccess (bindings : list RoleBinding) (resource : Resource)
    (verb : Verb) (clusterID : uuid) : bool :=
  let '(all, names) := AuthorizedNamespaces bindings resource verb clusterID in
  all || (0 <? Z.of_nat (size names)).

(** The identifier of a binding, added when it parses. *)
Definition add_parsed (raw : string) (ids : gset uuid) : gset uuid :=
  match uuid_Parse raw with Some id => {[id]} ∪ ids | None => ids end.

(** The loop of [AuthorizedScopeIDs]. *)
Fixpoint authorized_scopes (bindings : list RoleBinding) (resource : Resource)
    (verb : Verb) (narrowed : NarrowedClusterPolicy) (clusterIDs projectIDs : gset uuid) :
    bool * gset uuid * gset uuid :=
  match bindings with
  | [] => (false, clusterIDs, projectIDs)
  | b :: rest =>
      let continue := authorized_scopes rest resource verb narrowed in
      if negb (granted b resource verb) then continue clusterIDs projectIDs
      else
        let isGlobal := (rb_ClusterID b == "") && (rb_ProjectID b == "") in
        if isGlobal && (rb_Namespace b == "") then (true, ∅, ∅)
        else if rb_ClusterID b != "" then
          if (rb_Namespace b != "") && (narrowed == NarrowedClustersExcluded)
          then continue clusterIDs projectIDs
          else continue (add_parsed (rb_ClusterID b) clusterIDs) projectIDs
        else if rb_ProjectID b != "" then
          continue clusterIDs (add_parsed (rb_ProjectID b) projectIDs)
        else continue clusterIDs projectIDs
  end.

Definition AuthorizedScopeIDs (bindings : list RoleBinding) (resource : Resource)
    (verb : Verb) (narrowed : NarrowedClusterPolicy) : bool * gset uuid * gset uuid :=
  if existsb rb_IsSuperuser bindings then (true, ∅, ∅)
  else authorized_scopes bindings resource verb narrowed ∅ ∅.

Definition HasAnyScopedAccess (bindings : list RoleBinding) (resource : Resource)
    (verb : Verb) : bool :=
  let '(all, clusterIDs, projectIDs) :=
    AuthorizedScopeIDs bindings resource verb NarrowedClustersWiden in
  all || (0 <? Z.of_nat (size clusterIDs)) || (0 <? Z.of_nat (size projectIDs)).
End engine.

(** ** Native rules (native.go) *)

Record NativeRule := {
  native_ClusterID : string;
  native_Namespace : string;
  native_APIGroup : string;
  native_Resource : string;
  native_Verbs : list string;
}.

Definition verbMatches (verbs : list string) (verb : string) : bool :=
  existsb (fun v => (v == "*") || (v == verb)) verbs.

Section native.
Context `{External}.

Definition isPrivilegeEscalationGroup (group : string) : bool :=
  let g := ToLower (TrimSpace group) in
  (g == "rbac.authorization.k8s.io") || (g == "admissionregistration.k8s.io") ||
  (g == "apiregistration.k8s.io") || (g == "apiextensions.k8s.io") ||
  (g == "certificates.k8s.io") || (g == "authentication.k8s.io").

(** One rule of the loop of [NativeAllow]. *)
Definition native_matches (clusterID namespace apiGroup resource verb : string)
    (r : NativeRule) : bool :=
  if (native_ClusterID r != "") && (native_ClusterID r != clusterID) then false
  else if (native_Namespace r != "") && (native_Namespace r != namespace) then false
  else if native_APIGroup r != apiGroup then false
  else if (native_Resource r != "*") && (native_Resource r != resource) then false
  else verbMatches (native_Verbs r) verb.

Definition NativeAllow (rules : list NativeRule)
    (clusterID namespace apiGroup resource verb : string) : bool :=
  if isPrivilegeEscalationGroup apiGroup then false
  else if (verb == VerbExec) || (verb == VerbLogs) then false
  else existsb (native_matches clusterID namespace apiGroup resource verb) rules.

(** One raw verb of [NormalizeNativeVerbs]; [None] is [continue]. *)
Definition normal_verb (raw : string) : option string :=
  let v := ToLower (TrimSpace raw) in
  if v == "get" then Some VerbRead
  else if v == "patch" then Some VerbUpdate
  else if (v == VerbExec) || (v == VerbLogs) || (v == "proxy") then None
  else if v == "" then None
  else Some v.

Fixpoint normalize_verbs (verbs : list string) (seen : gset string) : list string :=
  match verbs with
  | [] => []
  | raw :: rest =>
      match normal_verb raw with
      | None => normalize_verbs rest seen
      | Some v =>
          if bool_decide (v ∈ seen) then normalize_verbs rest seen
          else v :: normalize_verbs rest ({[v]} ∪ seen)
      end
  end.

Definition NormalizeNativeVerbs (verbs : list string) : list string :=
  if len verbs =? 0 then [] else normalize_verbs verbs ∅.

(** The native rules one rule of a binding contributes. *)
Definition native_of_rule (b : RoleBinding) (rule : Rule) : list NativeRule :=
  if negb (IsCRDGrant rule) then []
  else
    let verbs := NormalizeNativeVerbs (rule_Verbs rule) in
    if len verbs =? 0 then []
    else
      group ← CRDAPIGroups rule;
      resource ← ResourceNames rule;
      if resource == "" then []
      else [{| native_ClusterID := rb_ClusterID b; native_Namespace := rb_Namespace b;
               native_APIGroup := group; native_Resource := resource;
               native_Verbs := verbs |}].

Definition NativeRulesFromBindings (bindings : list RoleBinding) : list NativeRule :=
  b ← bindings;
  if rb_IsSuperuser b then [] else rb_RoleRules b ≫= native_of_rule b.

(** [KubernetesResource] (kubernetes.go) *)
Definition KubernetesResource (resourceType : string) : option Resource :=
  let r := ToLower (TrimSpace resourceType) in
  let one_of names := existsb (fun n => r == n) names in
  if one_of ["services"; "service"; "endpoints"; "endpoint"] then Some "services"
  else if one_of ["ingresses"; "ingress"; "gateways"; "gateway"; "httproutes"; "httproute";
              "gatewayclasses"; "gatewayclass"; "grpcroutes"; "grpcroute"; "tcproutes";
              "tcproute"; "udproutes"; "udproute"; "tlsroutes"; "tlsroute";
              "referencegrants"; "referencegrant"] then Some "ingresses"
  else if one_of ["networkpolicies"; "networkpolicy"] then Some "network_policies"
  else if one_of ["persistentvolumes"; "persistentvolume"; "pv"; "persistentvolumeclaims";
              "persistentvolumeclaim"; "pvc"; "storageclasses"; "storageclass"]
  then Some "storage"
  else if one_of ["configmaps"; "configmap"] then Some "configmaps"
  else if one_of ["secrets"; "secret"] then Some ResourceSecrets
  else if one_of ["pods"; "pod"] then Some "pods"
  else if one_of ["nodes"; "node"] then Some ResourceNodes
  else if one_of ["deployments"; "deployment"; "daemonsets"; "daemonset"; "statefulsets";
              "statefulset"; "replicasets"; "replicaset"; "jobs"; "job"; "cronjobs";
              "cronjob"; "hpa"; "horizontalpodautoscalers"; "horizontalpodautoscaler";
              "poddisruptionbudgets"; "poddisruptionbudget"] then Some "workloads"
  else None.
End native.

(** ** What the engine decides

    [cluster_wide] bindings cover every namespace of a cluster, [in_namespace]
    ones a single namespace of it, [on_project] ones a project. *)

Section decisions.
Set Default Proof Using "Type*".
Context `{External}.

Definition cluster_wide (b : RoleBinding) (c : uuid) : Prop :=
  rb_Namespace b = "" /\
  ((rb_ClusterID b = "" /\ rb_ProjectID b = "") \/
   (rb_ClusterID b <> "" /\ rb_ClusterID b = uuid_String c)).

Definition in_namespace (b : RoleBinding) (c : uuid) (n : string) : Prop :=
  rb_Namespace b <> "" /\ rb_Namespace b = n /\ rb_ClusterID b <> "" /\ rb_ClusterID b = uuid_String c.

Definition on_project (b : RoleBinding) (p : uuid) (n : string) : Prop :=
  rb_ProjectID b <> "" /\ rb_ProjectID b = uuid_String p /\
  (rb_Namespace b = "" \/ rb_Namespace b = n).

Lemma bindingApplies_spec b c p n :
  bindingApplies b c p n = true <->
  cluster_wide b c \/ in_namespace b c n \/ on_project b p n.
Proof.
  unfold bindingApplies, cluster_wide, in_namespace, on_project.
  repeat case_bool_decide; cbn; split; intros ?; try done; tauto.
Qed.

Lemma CheckPermission_spec bs r v c p ns :
  CheckPermission bs r v c p ns = true <->
  (exists b, b ∈ bs /\ rb_IsSuperuser b = true) \/
  (exists b, b ∈ bs /\ granted b r v = true /\
     (cluster_wide b c \/ in_namespace b c (default "" (head ns)) \/
      on_project b p (default "" (head ns)))).
Proof.
  unfold CheckPermission. destruct (existsb rb_IsSuperuser bs) eqn:E.
  - apply existsb_exists in E as (b & Hb & Hs). rewrite <- list_elem_of_In in Hb. naive_solver.
  - assert (Hno : forall b, b ∈ bs -> rb_IsSuperuser b = false).
    { intros b Hb. apply not_true_is_false. intros Hs.
      apply not_true_iff_false in E. apply E. apply existsb_exists. exists b.
      by rewrite <- list_elem_of_In. }
    rewrite existsb_exists. split.
    + intros (b & Hb & [Ha Hg]%andb_true_iff). right. exists b.
      by rewrite list_elem_of_In, <- bindingApplies_spec.
    + intros [(b & Hb & Hs)|(b & Hb & Hg & Ha)]; [by rewrite (Hno b Hb) in Hs|].
      exists b. rewrite <- list_elem_of_In. split; [done|].
      by rewrite Hg, (proj2 (bindingApplies_spec b c p _) Ha).
Qed.

(** The bindings [AuthorizedNamespaces] considers for a cluster. *)
Definition eligible (b : RoleBinding) (c : uuid) : bool :=
  ((rb_ClusterID b == "") && (rb_ProjectID b == "") && (rb_Namespace b == "")) ||
  ((rb_ClusterID b != "") && (rb_ClusterID b == uuid_String c)).

Lemma cluster_wide_eligible b c :
  cluster_wide b c <-> eligible b c = true /\ rb_Namespace b = "".
Proof.
  unfold eligible, cluster_wide. rewrite orb_true_iff, !andb_true_iff, negb_true_iff,
    bool_decide_eq_false, !bool_decide_eq_true. tauto.
Qed.

Lemma in_namespace_eligible b c n :
  in_namespace b c n <-> eligible b c = true /\ rb_Namespace b <> "" /\ rb_Namespace b = n.
Proof.
  unfold eligible, in_namespace. rewrite orb_true_iff, !andb_true_iff, negb_true_iff,
    bool_decide_eq_false, !bool_decide_eq_true. tauto.
Qed.

Lemma authorized_namespaces_spec bs r v c names all out :
  authorized_namespaces bs r v c names = (all, out) ->
  (all = true <-> exists b, b ∈ bs /\ granted b r v = true /\ cluster_wide b c) /\
  (all = false -> forall n, n ∈ out <->
     n ∈ names \/ exists b, b ∈ bs /\ granted b r v = true /\ in_namespace b c n).
Proof.
  setoid_rewrite cluster_wide_eligible. setoid_rewrite in_namespace_eligible.
  revert names. induction bs as [|b bs IH]; intros names; cbn [authorized_namespaces].
  { intros [= <- <-]. setoid_rewrite exists_elem_nil. naive_solver. }
  fold (eligible b c). setoid_rewrite exists_elem_cons.
  destruct (eligible b c) eqn:He; cbn [negb].
  2:{ intros [Ht Hf]%IH. split; [rewrite Ht | intros Hall n; rewrite (Hf Hall)]; intuition congruence. }
  destruct (granted b r v) eqn:Hg; cbn [negb].
  2:{ intros [Ht Hf]%IH. split; [rewrite Ht | intros Hall n; rewrite (Hf Hall)]; intuition congruence. }
  case_bool_decide as Hn; [intros [= <- <-]; intuition congruence|].
  intros [Ht Hf]%IH. split; [rewrite Ht; tauto|].
  intros Hall n. rewrite (Hf Hall), elem_of_union, elem_of_singleton. intuition congruence.
Qed.

Definition global (b : RoleBinding) : Prop :=
  rb_ClusterID b = "" /\ rb_ProjectID b = "" /\ rb_Namespace b = "".

Definition names_cluster (b : RoleBinding) (narrowed : NarrowedClusterPolicy) (c : uuid) : Prop :=
  rb_ClusterID b <> "" /\ ~ (rb_Namespace b <> "" /\ narrowed = NarrowedClustersExcluded) /\
  uuid_Parse (rb_ClusterID b) = Some c.

Definition names_project (b : RoleBinding) (p : uuid) : Prop :=
  rb_ClusterID b = "" /\ rb_ProjectID b <> "" /\ uuid_Parse (rb_ProjectID b) = Some p.

Lemma add_parsed_spec raw ids u : u ∈ add_parsed raw ids <-> uuid_Parse raw = Some u \/ u ∈ ids.
Proof. unfold add_parsed. destruct (uuid_Parse raw); set_solver. Qed.

Lemma authorized_scopes_spec bs r v narrowed cs ps all cs' ps' :
  authorized_scopes bs r v narrowed cs ps = (all, cs', ps') ->
  (all = true <-> exists b, b ∈ bs /\ granted b r v = true /\ global b) /\
  (all = false ->
     (forall c, c ∈ cs' <->
        c ∈ cs \/ exists b, b ∈ bs /\ granted b r v = true /\ names_cluster b narrowed c) /\
     (forall p, p ∈ ps' <->
        p ∈ ps \/ exists b, b ∈ bs /\ granted b r v = true /\ names_project b p)).
Proof.
  revert cs ps. induction bs as [|b bs IH]; intros cs ps; cbn [authorized_scopes].
  { intros [= <- <- <-]. setoid_rewrite exists_elem_nil. naive_solver. }
  setoid_rewrite exists_elem_cons. destruct (granted b r v) eqn:Hg; cbn [negb].
  2:{ intros (Ht & Hf)%IH. split; [rewrite Ht; intuition congruence|].
      intros [Hc Hp]%Hf. split; intros u; rewrite ?Hc, ?Hp; intuition congruence. }
  unfold global, names_cluster, names_project in *.
  case_bool_decide as Hc0; cbn [andb negb].
  - case_bool_decide as Hp0; cbn [andb negb].
    + case_bool_decide as Hn; [intros [= <- <- <-]; intuition congruence|].
      intros (Ht & Hf)%IH. split; [rewrite Ht; intuition congruence|].
      intros [Hc Hp]%Hf. split; intros u; rewrite ?Hc, ?Hp; intuition congruence.
    + intros (Ht & Hf)%IH. split; [rewrite Ht; intuition congruence|].
      intros [Hc Hp]%Hf. split; intros u; rewrite ?Hc, ?Hp, ?add_parsed_spec; intuition congruence.
  - case_bool_decide as Hn; cbn [andb negb]; [|case_bool_decide as Hx].
    all: intros (Ht & Hf)%IH; (split; [rewrite Ht; intuition congruence|]).
    all: intros [Hc Hp]%Hf; split; intros u; rewrite ?Hc, ?Hp, ?add_parsed_spec;
      intuition congruence.
Qed.

(** The shapes of binding the binding store hands out: its identifiers are
    printed ones, and only cluster bindings are narrowed to a namespace (a
    narrowed binding without a cluster applies nowhere). *)
Definition well_scoped (b : RoleBinding) : Prop :=
  (rb_ClusterID b = "" /\ rb_ProjectID b = "") \/
  (exists c, rb_ClusterID b = uuid_String c /\ rb_ProjectID b = "") \/
  (exists p, rb_ClusterID b = "" /\ rb_ProjectID b = uuid_String p /\ rb_Namespace b = "").

Lemma superuser_true bs b : b ∈ bs -> rb_IsSuperuser b = true -> existsb rb_IsSuperuser bs = true.
Proof using Type. intros Hb Hs. apply existsb_exists. exists b. by rewrite <- list_elem_of_In. Qed.

Lemma superuser_false bs :
  existsb rb_IsSuperuser bs = false -> ~ exists b, b ∈ bs /\ rb_IsSuperuser b = true.
Proof using Type. intros Hf (b & Hb & Hs). by rewrite (superuser_true bs b Hb Hs) in Hf. Qed.

(** The namespace a request carries decides between the allow-list's two
    answers; without one only cluster-wide grants count. *)
Lemma AuthorizedNamespaces_spec bs r v c all names :
  AuthorizedNamespaces bs r v c = (all, names) ->
  (all = true <-> (exists b, b ∈ bs /\ rb_IsSuperuser b = true) \/
     exists b, b ∈ bs /\ granted b r v = true /\ cluster_wide b c) /\
  (forall n, n ∈ names <-> all = false /\
     exists b, b ∈ bs /\ granted b r v = true /\ in_namespace b c n).
Proof.
  unfold AuthorizedNamespaces. destruct (existsb rb_IsSuperuser bs) eqn:E.
  - intros [= <- <-]. apply existsb_exists in E as (b & Hb & Hs).
    rewrite <- list_elem_of_In in Hb. split; [split; eauto|]. intros n. set_solver.
  - intros Hl. pose proof (superuser_false bs E) as Hno.
    destruct (authorized_namespaces_spec _ _ _ _ _ _ _ Hl) as [Ht Hf].
    split; [rewrite Ht; tauto|]. intros n. destruct all; [|rewrite (Hf eq_refl); set_solver].
    split; [|intros [? _]; congruence]. intros Hn. exfalso.
    revert Hl Hn. clear. generalize (∅ : gset string). induction bs as [|b bs IH]; intros X.
    { by intros [=]. }
    cbn [authorized_namespaces]. repeat case_match; eauto. intros [= <-]. set_solver.
Qed.

(** C27: the namespace allow-list is exact.  At a cluster route (no binding names
    the request's project) the namespaces [AuthorizedNamespaces] lets a caller
    see are exactly those for which [CheckPermission] grants the same
    permission, all of them when the first result is true; the list gate
    [HasAnyNamespaceAccess] admits exactly the callers who are granted it in
    some namespace. *)
Theorem namespace_filter_exact bs r v c p all names :
  (forall b, b ∈ bs -> rb_ProjectID b <> "" -> rb_ProjectID b <> uuid_String p) ->
  AuthorizedNamespaces bs r v c = (all, names) ->
  (forall n, CheckPermission bs r v c p [n] = all || bool_decide (n ∈ names)) /\
  (HasAnyNamespaceAccess bs r v c = true <->
     exists n, CheckPermission bs r v c p [n] = true).
Proof.
  intros Hproj Hauth. destruct (AuthorizedNamespaces_spec _ _ _ _ _ _ Hauth) as [Ht Hn].
  assert (Hex : forall n, CheckPermission bs r v c p [n] = all || bool_decide (n ∈ names)).
  { intros n. apply eq_true_iff_eq. rewrite CheckPermission_spec, orb_true_iff, bool_decide_eq_true, Hn, Ht.
    cbn. split.
    - intros [Hs|(b & Hb & Hg & [Hw|[Hi|(Hne & He & _)]])]; [by left; left|by left; right; eauto| |].
      + destruct all; [left; by apply Ht | right; eauto].
      + by destruct (Hproj b Hb Hne).
    - intros [[Hs|(b & Hb & Hg & Hw)]|(_ & b & Hb & Hg & Hi)]; [by left|right|right]; exists b; tauto. }
  split; [exact Hex|]. unfold HasAnyNamespaceAccess. rewrite Hauth, orb_true_iff, set_nonempty_size.
  setoid_rewrite Hex. setoid_rewrite orb_true_iff. setoid_rewrite bool_decide_eq_true.
  split; [intros [->|[n Hn']]; [exists ""; by left | exists n; by right]|].
  intros [n [->|Hn']]; [by left | right; by exists n].
Qed.

Lemma CheckPermission_any bs r v c p n b :
  b ∈ bs -> granted b r v = true -> bindingApplies b c p n = true ->
  CheckPermission bs r v c p [n] = true.
Proof.
  intros Hb Hg Ha. apply CheckPermission_spec. right. exists b. by rewrite <- bindingApplies_spec.
Qed.
Lemma AuthorizedScopeIDs_spec bs r v narrowed all cs ps :
  AuthorizedScopeIDs bs r v narrowed = (all, cs, ps) ->
  all = true /\
    ((exists b, b ∈ bs /\ rb_IsSuperuser b = true) \/
     exists b, b ∈ bs /\ granted b r v = true /\ global b) \/
  all = false /\ (~ exists b, b ∈ bs /\ rb_IsSuperuser b = true) /\
    (~ exists b, b ∈ bs /\ granted b r v = true /\ global b) /\
    (forall c, c ∈ cs <-> exists b, b ∈ bs /\ granted b r v = true /\ names_cluster b narrowed c) /\
    (forall p, p ∈ ps <-> exists b, b ∈ bs /\ granted b r v = true /\ names_project b p).
Proof.
  unfold AuthorizedScopeIDs. destruct (existsb rb_IsSuperuser bs) eqn:E.
  - intros [= <- <- <-]. apply existsb_exists in E as (b & Hb & Hs).
    rewrite <- list_elem_of_In in Hb. left. eauto.
  - intros Hl. pose proof (superuser_false bs E) as Hno.
    destruct (authorized_scopes_spec _ _ _ _ _ _ _ _ _ Hl) as [Ht Hf].
    destruct all; [left; split; [done|]; right; by apply Ht|]. right.
    destruct (Hf eq_refl) as [Hc Hp]. rewrite <- Ht. repeat split; try done; try congruence.
    all: rewrite ?Hc, ?Hp; set_solver.
Qed.

End decisions.

Section collections.
Set Default Proof Using "Type*".
Context `{External, !ExternalLaws}.

Lemma names_cluster_scoped b narrowed c :
  well_scoped b ->
  names_cluster b narrowed c <->
  rb_ClusterID b <> "" /\ rb_ClusterID b = uuid_String c /\
  ~ (rb_Namespace b <> "" /\ narrowed = NarrowedClustersExcluded).
Proof.
  unfold names_cluster. intros [[Hc _]|[(c' & Hc & _)|(p' & Hc & _)]]; rewrite Hc; [tauto| |tauto].
  rewrite uuid_Parse_String. pose proof (uuid_String_inj c' c). naive_solver.
Qed.

Lemma names_project_scoped b p :
  well_scoped b ->
  names_project b p <-> rb_ProjectID b <> "" /\ rb_ProjectID b = uuid_String p.
Proof.
  unfold names_project. intros [[_ Hp]|[(c' & _ & Hp)|(p' & Hc & Hp & _)]]; rewrite Hp; [tauto|tauto|].
  rewrite uuid_Parse_String. pose proof (uuid_String_inj p' p). naive_solver.
Qed.

Lemma global_cluster_wide b c : global b -> cluster_wide b c.
Proof using Type. unfold global, cluster_wide. tauto. Qed.

(** A request without a namespace. *)
Lemma applies_plain b c p :
  well_scoped b ->
  cluster_wide b c \/ in_namespace b c "" \/ on_project b p "" <->
  global b \/ names_cluster b NarrowedClustersExcluded c \/ names_project b p.
Proof.
  intros Hwf. rewrite (names_cluster_scoped b _ c Hwf), (names_project_scoped b p Hwf).
  pose proof (dec_stable (P := rb_Namespace b = "")) as Hns.
  destruct Hwf as [[Hc Hp]|[(c' & Hc & Hp)|(p' & Hc & Hp & Hn)]];
    unfold global, cluster_wide, in_namespace, on_project; intuition congruence.
Qed.

(** A request for the namespace of the binding. *)
Lemma applies_somewhere b c p :
  well_scoped b ->
  names_cluster b NarrowedClustersWiden c \/ names_project b p ->
  cluster_wide b c \/ in_namespace b c (rb_Namespace b) \/ on_project b p (rb_Namespace b).
Proof.
  intros Hwf. rewrite (names_cluster_scoped b _ c Hwf), (names_project_scoped b p Hwf).
  unfold global, cluster_wide, in_namespace, on_project.
  destruct (decide (rb_Namespace b = "")); tauto.
Qed.

Lemma applies_named b c p n :
  well_scoped b ->
  cluster_wide b c \/ in_namespace b c n \/ on_project b p n ->
  global b \/ names_cluster b NarrowedClustersWiden c \/ names_project b p.
Proof.
  intros Hwf. rewrite (names_cluster_scoped b _ c Hwf), (names_project_scoped b p Hwf).
  unfold global, cluster_wide, in_namespace, on_project. intuition congruence.
Qed.

(** For bindings of the shapes the store hands out, the clusters and projects
    [AuthorizedScopeIDs] lists (narrowed cluster bindings excluded) are exactly
    the objects the per-object check without a namespace grants, and the
    admission gate [HasAnyScopedAccess] admits exactly the callers granted the
    permission at some scope. *)
Lemma collection_filter_exact bs r v all cs ps :
  Forall well_scoped bs ->
  AuthorizedScopeIDs bs r v NarrowedClustersExcluded = (all, cs, ps) ->
  (forall c p, CheckPermission bs r v c p [] =
     all || bool_decide (c ∈ cs) || bool_decide (p ∈ ps)) /\
  (HasAnyScopedAccess bs r v = true <-> exists c p n, CheckPermission bs r v c p [n] = true).
Proof.
  intros Hwf Hauth. rewrite Forall_forall in Hwf. split.
  - intros c p. apply eq_true_iff_eq.
    rewrite CheckPermission_spec, !orb_true_iff, !bool_decide_eq_true. cbn.
    destruct (AuthorizedScopeIDs_spec _ _ _ _ _ _ _ Hauth)
      as [[-> Hall]|(-> & Hsup & Hglob & Hc & Hp)].
    { split; [by left; left|]. intros _. destruct Hall as [?|(b & Hb & Hg & Hgl)]; [by left|].
      right. exists b. split; [done|]. split; [done|]. left. by apply global_cluster_wide. }
    rewrite Hc, Hp. split.
    + intros [?|(b & Hb & Hg & Happ)]; [done|]. apply (applies_plain b c p (Hwf b Hb)) in Happ.
      destruct Happ as [?|[?|?]]; [destruct Hglob| left; right | right]; eauto.
    + intros [[?|(b & Hb & Hg & Hn)]|(b & Hb & Hg & Hn)]; [done| |];
        right; exists b; (split; [done|]); (split; [done|]);
        apply (applies_plain b c p (Hwf b Hb)); tauto.
  - destruct (AuthorizedScopeIDs bs r v NarrowedClustersWiden) as [[all' cs'] ps'] eqn:Hw.
    unfold HasAnyScopedAccess. rewrite Hw, !orb_true_iff, !set_nonempty_size.
    destruct (AuthorizedScopeIDs_spec _ _ _ _ _ _ _ Hw)
      as [[-> Hall]|(-> & Hsup & Hglob & Hc & Hp)].
    { split; [|tauto]. intros _. exists uuid_Nil, uuid_Nil, "". apply CheckPermission_spec.
      destruct Hall as [?|(b & Hb & Hg & Hgl)]; [by left|].
      right. exists b. split; [done|]. split; [done|]. left. by apply global_cluster_wide. }
    setoid_rewrite Hc. setoid_rewrite Hp. split.
    + intros [[?|(c & b & Hb & Hg & Hn)]|(p & b & Hb & Hg & Hn)]; [done|exists c, uuid_Nil|exists uuid_Nil, p];
        exists (rb_Namespace b); apply (CheckPermission_any _ _ _ _ _ _ b Hb Hg);
        apply bindingApplies_spec; apply (applies_somewhere b _ _ (Hwf b Hb)); tauto.
    + intros (c & p & n & Hcp). apply CheckPermission_spec in Hcp as [?|(b & Hb & Hg & Happ)]; [done|].
      apply (applies_named b c p n (Hwf b Hb)) in Happ as [?|[?|?]];
        [destruct Hglob; eauto | left; right; eauto | right; eauto].
Qed.
End collections.

(** ** What the native rules grant *)

Section native_decisions.
Set Default Proof Using "Type*".
Context `{External}.

Lemma normalize_verbs_elem verbs seen v :
  v ∈ normalize_verbs verbs seen <->
  (v ∉ seen) /\ exists raw, raw ∈ verbs /\ normal_verb raw = Some v.
Proof.
  revert seen. induction verbs as [|raw verbs IH]; intros seen; cbn [normalize_verbs].
  { rewrite exists_elem_nil, elem_of_nil. tauto. }
  rewrite exists_elem_cons. destruct (normal_verb raw) as [w|] eqn:E.
  2:{ rewrite IH. intuition congruence. }
  case_bool_decide as Hw.
  - rewrite IH. intuition congruence.
  - rewrite elem_of_cons, IH. set_unfold. destruct (decide (v = w)); intuition congruence.
Qed.

Lemma NormalizeNativeVerbs_elem verbs v :
  v ∈ NormalizeNativeVerbs verbs <-> exists raw, raw ∈ verbs /\ normal_verb raw = Some v.
Proof.
  unfold NormalizeNativeVerbs. destruct verbs as [|raw verbs].
  - cbn. rewrite exists_elem_nil, elem_of_nil. done.
  - replace (len (raw :: verbs) =? 0) with false
      by (symmetry; apply Z.eqb_neq; unfold len; cbn; lia).
    rewrite normalize_verbs_elem. set_solver.
Qed.

(** A rule of a binding grants a verb on a custom resource. *)
Definition crd_grants (rule : Rule) (group resource verb : string) : Prop :=
  IsCRDGrant rule = true /\ group ∈ CRDAPIGroups rule /\
  (exists name, name ∈ ResourceNames rule /\ name <> "" /\ (name = "*" \/ name = resource)) /\
  (exists raw, raw ∈ rule_Verbs rule /\
     (normal_verb raw = Some "*" \/ normal_verb raw = Some verb)).

Lemma native_of_rule_elem b rule n :
  n ∈ native_of_rule b rule <->
  IsCRDGrant rule = true /\ NormalizeNativeVerbs (rule_Verbs rule) <> [] /\
  native_ClusterID n = rb_ClusterID b /\ native_Namespace n = rb_Namespace b /\
  native_APIGroup n ∈ CRDAPIGroups rule /\
  native_Resource n ∈ ResourceNames rule /\ native_Resource n <> "" /\
  native_Verbs n = NormalizeNativeVerbs (rule_Verbs rule).
Proof.
  unfold native_of_rule. destruct (IsCRDGrant rule); cbn [negb].
  2:{ rewrite elem_of_nil. naive_solver. }
  destruct (len _ =? 0) eqn:E; bool_props.
  { rewrite len_nil_iff in E. rewrite elem_of_nil. naive_solver. }
  rewrite len_nil_iff in E. set_unfold. split.
  - intros (g & Hn & Hg). set_unfold in Hn. destruct Hn as (res & Hn & Hres).
    case_bool_decide; [by apply elem_of_nil in Hn|].
    apply list_elem_of_singleton in Hn. subst n. cbn. naive_solver.
  - intros (_ & _ & Hc & Hns & Hg & Hr & Hne & Hv). exists (native_APIGroup n). split; [|done].
    set_unfold. exists (native_Resource n). split; [|done]. rewrite bool_decide_false by done.
    apply list_elem_of_singleton. destruct n; cbn in *. by subst.
Qed.

Lemma verbMatches_spec verbs v :
  verbMatches verbs v = true <-> "*" ∈ verbs \/ v ∈ verbs.
Proof using Type.
  unfold verbMatches. rewrite existsb_exists. split.
  - intros (w & Hw & Hm). rewrite <- list_elem_of_In in Hw.
    apply orb_true_iff in Hm. rewrite !bool_decide_eq_true in Hm. naive_solver.
  - setoid_rewrite <- list_elem_of_In. intros [Hw|Hw]; [exists "*" | exists v];
      (split; [done|]); apply orb_true_iff; [left | right]; by apply bool_decide_eq_true.
Qed.

Lemma native_matches_spec c n g r v rule :
  native_matches c n g r v rule = true <->
  (native_ClusterID rule = "" \/ native_ClusterID rule = c) /\
  (native_Namespace rule = "" \/ native_Namespace rule = n) /\
  native_APIGroup rule = g /\ (native_Resource rule = "*" \/ native_Resource rule = r) /\
  ("*" ∈ native_Verbs rule \/ v ∈ native_Verbs rule).
Proof using Type.
  rewrite <- verbMatches_spec. unfold native_matches.
  destruct (verbMatches _ _); repeat case_bool_decide; cbn; split; intros ?; try done; tauto.
Qed.

(** Native rules only add what was authored: over the bindings of a user
    the native check allows a request exactly when the API group is no
    privilege-escalation group, the verb is neither exec nor logs, and some
    binding that is not a superuser's carries a custom-resource rule naming the
    group, the resource (or every resource) and a verb that normalises to the
    requested one (or to every verb), with the binding's cluster and namespace
    empty or the requested ones. *)
Lemma native_allow_exact bs cluster namespace group resource verb :
  NativeAllow (NativeRulesFromBindings bs) cluster namespace group resource verb = true <->
  isPrivilegeEscalationGroup group = false /\ verb <> VerbExec /\ verb <> VerbLogs /\
  exists b rule, b ∈ bs /\ rb_IsSuperuser b = false /\ rule ∈ rb_RoleRules b /\
    (rb_ClusterID b = "" \/ rb_ClusterID b = cluster) /\
    (rb_Namespace b = "" \/ rb_Namespace b = namespace) /\
    crd_grants rule group resource verb.
Proof.
  unfold NativeAllow. destruct (isPrivilegeEscalationGroup group); [naive_solver|].
  destruct ((verb == VerbExec) || (verb == VerbLogs)) eqn:Ev.
  { apply orb_true_iff in Ev. rewrite !bool_decide_eq_true in Ev. naive_solver. }
  bool_props. rewrite existsb_exists. setoid_rewrite <- list_elem_of_In.
  unfold NativeRulesFromBindings. split.
  - intros (n & Hn & Hm). rewrite native_matches_spec in Hm. set_unfold in Hn.
    destruct Hn as (b & Hn & Hb). destruct (rb_IsSuperuser b) eqn:Es; set_unfold in Hn; [done|].
    destruct Hn as (rule & Hn & Hrule). apply native_of_rule_elem in Hn.
    destruct Hn as (Hcrd & _ & Hc & Hns & Hg & Hr & Hne & Hv). rewrite Hc, Hns, Hv in Hm.
    rewrite !NormalizeNativeVerbs_elem in Hm. unfold crd_grants. naive_solver.
  - intros (_ & _ & _ & b & rule & Hb & Hs & Hrule & Hc & Hns & Hcrd & Hg & (name & Hname & Hne & Hr) & raw & Hraw & Hv).
    exists {| native_ClusterID := rb_ClusterID b; native_Namespace := rb_Namespace b;
              native_APIGroup := group; native_Resource := name;
              native_Verbs := NormalizeNativeVerbs (rule_Verbs rule) |}.
    assert (Hvs : "*" ∈ NormalizeNativeVerbs (rule_Verbs rule) \/
                  verb ∈ NormalizeNativeVerbs (rule_Verbs rule)).
    { rewrite !NormalizeNativeVerbs_elem. naive_solver. }
    assert (Hnil : NormalizeNativeVerbs (rule_Verbs rule) <> []).
    { intros E. rewrite E, !elem_of_nil in Hvs. tauto. }
    split; [|by rewrite native_matches_spec].
    set_unfold. exists b. rewrite Hs. split; [|done]. set_unfold. exists rule. split; [|done].
    by apply native_of_rule_elem.
Qed.
End native_decisions.

(** ** Concrete bindings *)

Definition id_of (n : nat) : uuid := UUID (repeat_ascii 16 (byte n)).

Definition binding_on (rules : list Rule) (cluster project namespace : string) : RoleBinding := {|
  rb_UserID := "user"; rb_Group := ""; rb_RoleRules := rules; rb_BindingID := "";
  rb_RoleID := ""; rb_RoleName := ""; rb_Scope := ""; rb_ClusterID := cluster;
  rb_ProjectID := project; rb_Namespace := namespace; rb_IsSuperuser := false |}.

Definition coarse (resource : string) (verbs : list string) : Rule := {|
  rule_Resource := resource; rule_Resources := []; rule_Verbs := verbs;
  rule_APIGroups := []; rule_APIGroupsCamel := [] |}.

(** A reader of one namespace of cluster 1 and of all of cluster 2, who owns
    project 3 and may list nodes everywhere. *)
Definition example_bindings : list RoleBinding :=
  let str := @uuid_String Concrete.external in
  [binding_on [coarse "pods" ["read"; "list"]] (str (id_of 1)) "" "team-a";
   binding_on [coarse "pods" ["list"]] (str (id_of 2)) "" "";
   binding_on [coarse "*" ["*"]] "" (str (id_of 3)) "";
   binding_on [coarse "nodes" ["list"]] "" "" ""].

Lemma namespace_filter_exact_witness :
  (forall n, @CheckPermission Concrete.external example_bindings "pods" "list"
     (id_of 1) uuid_Nil [n] = false || bool_decide (n ∈ ({["team-a"]} : gset string))) /\
  (@HasAnyNamespaceAccess Concrete.external example_bindings "pods" "list" (id_of 1) = true <->
     exists n, @CheckPermission Concrete.external example_bindings "pods" "list"
       (id_of 1) uuid_Nil [n] = true).
Proof.
  apply (@namespace_filter_exact Concrete.external example_bindings); [|reflexivity].
  intros b Hb. unfold example_bindings in Hb.
  repeat (apply elem_of_cons in Hb as [->|Hb]; [done|]). by apply elem_of_nil in Hb.
Defined.

End Rbac.
