(* ===== verification/RoleTemplatesFacts.v ===== *)
(** * Correctness of the role-template catalog

    Flattening inheritance terminates, rejects exactly the unknown, cross-scope
    and cyclic references, and gives every template the permissions declared by
    itself and its ancestors, with their provenance; the result does not depend
    on the order in which Go ranges over the map. *)

From Stdlib Require Import ZArith Lia Relations Sorted.
From S2P Require Import Prelude GoSort GoStrings External Rbac RoleTemplates.
From stdpp Require Import base gmap strings list relations sorting.
Import Rbac RoleTemplates.

Open Scope Z_scope.

Module RoleTemplatesFacts.

(** ** Adding grants by key *)

Definition keys (gs : list EffectiveGrant) : list string := grant_key <$> gs.

Definition index_ok (acc : gset string * list EffectiveGrant) : Prop :=
  (forall k, k ∈ acc.1 <-> k ∈ keys acc.2) /\ NoDup (keys acc.2).

Lemma index_ok_empty : index_ok (∅, []).
Proof. split; cbn; [set_solver | constructor]. Qed.

Lemma add_ok acc g : index_ok acc -> index_ok (add acc g).
Proof.
  destruct acc as [idx gs]. intros [Hi Hn]. cbn. case_bool_decide as Hk; [by split|].
  unfold index_ok, keys in *. cbn in *. rewrite fmap_app. split.
  - intros k. rewrite elem_of_union, elem_of_app, Hi. set_solver.
  - apply NoDup_app. split; [done|]. split; [|repeat constructor; set_solver].
    intros k Hk1 Hk2. set_solver.
Qed.

(** What the loop over [add] keeps of [l]: the first grant of every new key. *)
Lemma add_fold l acc :
  index_ok acc ->
  index_ok (foldl add acc l) /\
  (forall x, x ∈ acc.2 -> x ∈ (foldl add acc l).2) /\
  (forall x, x ∈ (foldl add acc l).2 -> x ∈ acc.2 \/ (x ∈ l /\ grant_key x ∉ keys acc.2)) /\
  (forall x, x ∈ l -> grant_key x ∈ keys (foldl add acc l).2).
Proof.
  revert acc. induction l as [|g l IH]; intros acc Hok; cbn [foldl].
  { split; [done|]. set_solver. }
  destruct (IH _ (add_ok acc g Hok)) as (H1 & H2 & H3 & H4).
  destruct acc as [idx gs]. destruct Hok as [Hi Hn]. cbn [add fst snd] in *.
  case_bool_decide as Hk; cbn [fst snd] in *.
  - repeat split; try done; try apply H1; [set_solver|].
    intros x [->|Hx]%elem_of_cons; [|by apply H4]. apply Hi in Hk.
    unfold keys in *. apply list_elem_of_fmap in Hk as (y & -> & Hy). apply list_elem_of_fmap. eauto.
  - unfold keys in *. setoid_rewrite fmap_app in H3. repeat split; try done; try apply H1.
    + intros x Hx. apply H2. set_solver.
    + intros x [Hx|[Hx Hkx]]%H3; [|set_solver]. apply elem_of_app in Hx as [?|?]; [by left|].
      assert (x = g) as -> by set_solver. right. rewrite <- Hi. set_solver.
    + intros x [->|Hx]%elem_of_cons; [|by apply H4]. apply list_elem_of_fmap. exists g.
      split; [done|]. apply H2. set_solver.
Qed.

(** ** The flattened set as a relation

    [flat byName h n g]: [g] is the flattened set of template [n], whose
    ancestors lie at most [h] levels up. *)

Definition inherited_grants (parents : list string) (pgs : list (list EffectiveGrant)) :
    list EffectiveGrant := concat (zip_with (fun p pg => inherit p <$> pg) parents pgs).

Definition flatten (t : Template) (pgs : list (list EffectiveGrant)) : list EffectiveGrant :=
  sortEffectiveGrants
    (foldl add (foldl add (∅, []) (direct_grants t)) (inherited_grants (template_Inherits t) pgs)).2.

Fixpoint flat (byName : gmap string Template) (h : nat) (n : string) (g : list EffectiveGrant) : Prop :=
  match h with
  | O => False
  | S h => exists t pgs, byName !! n = Some t /\
      Forall2 (fun m pg => flat byName h m pg) (template_Inherits t) pgs /\ g = flatten t pgs
  end.

Definition flattened (byName : gmap string Template) (n : string) (g : list EffectiveGrant) : Prop :=
  exists h, flat byName h n g.

Lemma res_foldl_ext {A S} (f g : S -> A -> res S) s l :
  (forall s x, f s x = g s x) -> res_foldl f s l = res_foldl g s l.
Proof.
  intros Hfg. revert s. induction l as [|x l IH]; intros s; cbn [res_foldl]; [done|].
  rewrite Hfg. destruct (g s x); cbn; auto.
Qed.

(** The declarations [resolve] reads: the rules and the parents. *)
Definition declarations (t : Template) : list Rule * list string :=
  (template_Rules t, template_Inherits t).

Lemma resolve_ext (m1 m2 : gmap string Template) fuel memo name path :
  (forall n, declarations <$> m1 !! n = declarations <$> m2 !! n) ->
  resolve fuel m1 memo name path = resolve fuel m2 memo name path.
Proof.
  intros Hd. revert memo name path. induction fuel as [|fuel IH]; intros memo name path; [done|].
  cbn [resolve]. destruct (memo !! name); [done|]. case_bool_decide; [done|].
  assert (Ht : declarations (default zero_Template (m1 !! name)) =
               declarations (default zero_Template (m2 !! name))).
  { specialize (Hd name). destruct (m1 !! name), (m2 !! name); cbn in *; congruence. }
  injection Ht as Hr Hi. unfold direct_grants. rewrite Hr, Hi. f_equal. apply res_foldl_ext.
  intros [acc memo'] p. by rewrite IH.
Qed.

Section graph.
Context (byName : gmap string Template).

Lemma flat_S h n g : flat byName h n g -> flat byName (S h) n g.
Proof.
  revert n g. induction h as [|h IH]; intros n g; [done|].
  intros (t & pgs & Ht & Hp & ->). exists t, pgs. split; [done|]. split; [|done].
  eapply Forall2_impl; [exact Hp|]. apply IH.
Qed.

Lemma flat_mono h h' n g : (h <= h')%nat -> flat byName h n g -> flat byName h' n g.
Proof. induction 1; [done|]. intros ?. apply flat_S. auto. Qed.

Lemma flat_functional h h' n g g' : flat byName h n g -> flat byName h' n g' -> g = g'.
Proof.
  revert h' n g g'. induction h as [|h IH]; intros [|h'] n g g'; try done.
  intros (t & pgs & Ht & Hp & ->) (t' & pgs' & Ht' & Hp' & ->).
  assert (t' = t) as -> by congruence. f_equal. clear Ht Ht'. revert pgs' Hp'.
  induction Hp as [|m pg ms pgs Hm _ IHp]; intros pgs' Hp'; inversion Hp'; subst; [done|].
  f_equal; [by eapply IH | by apply IHp].
Qed.

Lemma flattened_functional n g g' : flattened byName n g -> flattened byName n g' -> g = g'.
Proof. intros [h Hh] [h' Hh']. by eapply flat_functional. Qed.

(** Flattened parents give a flattened template. *)
Lemma flattened_intro n t pgs :
  byName !! n = Some t -> Forall2 (flattened byName) (template_Inherits t) pgs ->
  flattened byName n (flatten t pgs).
Proof.
  intros Ht Hp.
  assert (exists h, Forall2 (fun m pg => flat byName h m pg) (template_Inherits t) pgs) as [h Hh].
  { clear Ht. induction Hp as [|m pg ms pgs [h1 Hm] _ [h2 IH]]; [by exists O|].
    exists (max h1 h2). constructor; [eapply flat_mono; [|done]; lia|].
    eapply Forall2_impl; [exact IH|]. intros ??. apply flat_mono. lia. }
  exists (S h), t, pgs. done.
Qed.

(** ** The inheritance graph *)

(** [m] is a declared parent of [n]. *)
Definition parent_of (n m : string) : Prop :=
  exists t, byName !! n = Some t /\ m ∈ template_Inherits t.

Definition references_ok : Prop :=
  forall n t m, byName !! n = Some t -> m ∈ template_Inherits t ->
    exists p, byName !! m = Some p /\ template_Scope p = template_Scope t.

Definition acyclic : Prop := forall n, ~ tc parent_of n n.

Lemma flat_parent h n g m :
  flat byName (S h) n g -> parent_of n m -> exists g', flat byName h m g'.
Proof.
  intros (t & pgs & Ht & Hp & _) (t' & Ht' & Hm). assert (t' = t) as -> by congruence.
  apply list_elem_of_lookup in Hm as [i Hi].
  destruct (Forall2_lookup_l _ _ _ _ _ Hp Hi) as (pg & _ & Hf). eauto.
Qed.

Lemma flat_ancestor h n g m :
  flat byName h n g -> tc parent_of n m -> exists h' g', (h' < h)%nat /\ flat byName h' m g'.
Proof.
  intros Hf Htc. revert h g Hf. induction Htc as [n m Hp|n k m Hp _ IH]; intros [|h] g Hf; try done.
  - destruct (flat_parent h n g m Hf Hp) as [g' Hg']. exists h, g'. split; [lia | done].
  - destruct (flat_parent h n g k Hf Hp) as [g' Hg'].
    destruct (IH _ _ Hg') as (h' & g'' & Hlt & Hg''). exists h', g''. split; [lia | done].
Qed.

Lemma flat_acyclic h n g : flat byName h n g -> ~ tc parent_of n n.
Proof.
  revert g. induction h as [h IH] using lt_wf_ind. intros g Hf Htc.
  destruct (flat_ancestor h n g n Hf Htc) as (h' & g' & Hlt & Hf'). by eapply (IH h' Hlt).
Qed.

(** ** [resolve] *)

Definition memo_ok (memo : Memo) : Prop :=
  forall n g, memo !! n = Some g -> flattened byName n g.

(** What a call promises: the flattened set, or an error that shows a cycle. *)
Definition resolved (n : string) (r : res (list EffectiveGrant * Memo)) : Prop :=
  match r with
  | Ok (g, memo) => flattened byName n g /\ memo_ok memo
  | Err e => e <> EFuel /\ ~ acyclic
  end.

Lemma resolve_parents (call : Memo -> string -> res (list EffectiveGrant * Memo)) ps acc memo :
  (forall m memo, m ∈ ps -> memo_ok memo -> resolved m (call memo m)) ->
  memo_ok memo ->
  match res_foldl (fun '(acc, memo) parent =>
          '(pg, memo) ← call memo parent;
          Ok (foldl add acc (inherit parent <$> pg), memo)) (acc, memo) ps with
  | Ok (acc', memo') => memo_ok memo' /\ exists pgs,
      Forall2 (flattened byName) ps pgs /\ acc' = foldl add acc (inherited_grants ps pgs)
  | Err e => e <> EFuel /\ ~ acyclic
  end.
Proof.
  revert acc memo. induction ps as [|p ps IH]; intros acc memo Hcall Hmemo; cbn [res_foldl].
  { split; [done|]. exists []. done. }
  pose proof (Hcall p memo ltac:(left) Hmemo) as Hp.
  destruct (call memo p) as [[pg memo1]|e]; cbn in *; [|done]. destruct Hp as [Hpg Hm1].
  assert (Hc : forall m memo, m ∈ ps -> memo_ok memo -> resolved m (call memo m)).
  { intros ???. apply Hcall. by right. }
  specialize (IH (foldl add acc (inherit p <$> pg)) memo1 Hc Hm1).
  destruct (res_foldl _ _ ps) as [[acc' memo']|e]; [|done].
  destruct IH as (Hm' & pgs & Hpgs & ->). split; [done|]. exists (pg :: pgs).
  split; [by constructor|]. unfold inherited_grants. cbn. by rewrite foldl_app.
Qed.

Lemma path_bound path :
  NoDup path -> (forall m, m ∈ path -> is_Some (byName !! m)) -> (length path <= size byName)%nat.
Proof.
  intros Hnd Hin. rewrite <- (size_dom (D := gset string)).
  rewrite <- (size_list_to_set (C := gset string) path Hnd). apply subseteq_size.
  intros m Hm%elem_of_list_to_set. by apply elem_of_dom, Hin.
Qed.

Lemma resolve_spec (Href : references_ok) fuel memo name path :
  memo_ok memo -> is_Some (byName !! name) -> NoDup path ->
  (forall m, m ∈ path -> is_Some (byName !! m) /\ tc parent_of m name) ->
  (S (size byName) <= fuel + length path)%nat ->
  resolved name (resolve fuel byName memo name path).
Proof.
  revert memo name path. induction fuel as [|fuel IH]; intros memo name path Hmemo Hin Hnd Hpath Hfuel.
  { pose proof (path_bound path Hnd (fun m Hm => proj1 (Hpath m Hm))). lia. }
  cbn [resolve]. destruct (memo !! name) as [g|] eqn:Em; [split; [by apply Hmemo | done]|].
  case_bool_decide as Hcyc.
  { split; [done|]. intros Ha. apply (Ha name). by apply Hpath. }
  destruct Hin as [t Ht]. rewrite Ht. cbn [default].
  pose proof (resolve_parents (fun memo m => resolve fuel byName memo m (path ++ [name]))
    (template_Inherits t) (foldl add (∅, []) (direct_grants t)) memo) as Hloop.
  match type of Hloop with ?A -> _ => assert A as HA end.
  { intros m memo' Hm Hmemo'. assert (Hpm : parent_of name m) by (by exists t). apply IH; try done.
    - destruct (Href name t m Ht Hm) as (p & Hp & _). by exists p.
    - apply NoDup_app. split; [done|]. split; [set_solver | repeat constructor; set_solver].
    - intros k [Hk|Hk]%elem_of_app; [|assert (k = name) as -> by set_solver].
      + destruct (Hpath k Hk) as [? ?]. split; [done|]. eapply tc_r; done.
      + split; [by exists t | by constructor].
    - rewrite length_app. cbn. lia. }
  specialize (Hloop HA Hmemo). destruct (res_foldl _ _ _) as [[acc memo']|e]; cbn; [|done].
  destruct Hloop as (Hm' & pgs & Hpgs & ->).
  assert (Hf : flattened byName name (flatten t pgs)) by (by apply flattened_intro).
  split; [done|]. intros n g. destruct (decide (n = name)) as [->|Hne].
  - rewrite lookup_insert_eq. by intros [= <-].
  - rewrite lookup_insert_ne by done. apply Hm'.
Qed.

(** ** The final loop

    [progress seen cur]: the templates of [seen] carry their flattened grants,
    the others are as they were. *)

Definition progress (seen : list string) (cur : gmap string Template) : Prop :=
  forall n, match byName !! n with
            | None => cur !! n = None
            | Some t => if decide (n ∈ seen)
                        then exists g, flattened byName n g /\ cur !! n = Some (with_grants t g)
                        else cur !! n = Some t
            end.

Lemma progress_declarations seen cur n :
  progress seen cur -> declarations <$> cur !! n = declarations <$> byName !! n.
Proof.
  intros Hp. specialize (Hp n). destruct (byName !! n) as [t|]; [|by rewrite Hp].
  case_decide; [destruct Hp as (g & _ & ->) | rewrite Hp]; done.
Qed.

Lemma progress_step seen cur name t g :
  byName !! name = Some t -> flattened byName name g -> progress seen cur ->
  progress (name :: seen) (<[name := with_grants (default zero_Template (cur !! name)) g]> cur).
Proof.
  intros Ht Hg Hp n. pose proof (Hp n) as Hn. destruct (decide (n = name)) as [->|Hne].
  - rewrite Ht in *. rewrite decide_True by (by left). exists g. split; [done|].
    rewrite lookup_insert_eq. case_decide; [destruct Hn as (g0 & _ & ->) | rewrite Hn]; done.
  - rewrite lookup_insert_ne by done. destruct (byName !! n); [|done].
    destruct (decide (n ∈ seen)).
    + by rewrite decide_True by (by right).
    + by rewrite decide_False by set_solver.
Qed.

Lemma resolve_loop (Href : references_ok) l seen cur memo :
  (forall n, n ∈ l -> is_Some (byName !! n)) -> progress seen cur -> memo_ok memo ->
  match res_foldl (resolve_step (S (size byName))) (cur, memo) l with
  | Ok (cur', _) => progress (rev l ++ seen) cur'
  | Err e => e <> EFuel /\ ~ acyclic
  end.
Proof.
  revert seen cur memo. induction l as [|n l IH]; intros seen cur memo Hl Hp Hm; cbn [res_foldl]; [done|].
  destruct (Hl n ltac:(left)) as [t Ht].
  assert (Hr : resolved n (resolve (S (size byName)) byName memo n [])).
  { apply resolve_spec; try done; [constructor | set_solver | cbn; lia]. }
  assert (Hstep : resolve_step (S (size byName)) (cur, memo) n =
    '(g, memo) ← resolve (S (size byName)) byName memo n [];
    Ok (<[n := with_grants (default zero_Template (cur !! n)) g]> cur, memo)).
  { unfold resolve_step. rewrite (resolve_ext cur byName); [done|].
    intros k. by eapply progress_declarations. }
  rewrite Hstep. clear Hstep.
  destruct (resolve _ byName memo n []) as [[g memo']|e]; [|done]. cbn [mbind res_bind].
  destruct Hr as [Hg Hm']. cbn [rev]. rewrite <- (assoc_L (++)).
  apply (IH (n :: seen)); [intros ??; apply Hl; by right| |done]. by eapply progress_step.
Qed.

Lemma map_keys_elem n : n ∈ (map_to_list byName).*1 <-> is_Some (byName !! n).
Proof.
  rewrite list_elem_of_fmap. split.
  - intros ([k t] & -> & Hk%elem_of_map_to_list). by exists t.
  - intros [t Ht]. exists (n, t). by rewrite elem_of_map_to_list.
Qed.

Lemma check_references_text order e :
  res_iter (check_references byName) order = Err e -> e <> EFuel.
Proof.
  intros (n & _ & Hn)%res_iter_Err. apply res_iter_Err in Hn as (m & _ & Hm).
  unfold check_parent, fail_if in Hm. repeat case_match; naive_solver.
Qed.

Lemma check_references_ok order :
  order ≡ₚ (map_to_list byName).*1 ->
  is_ok (res_iter (check_references byName) order) = true <-> references_ok.
Proof.
  intros Ho.
  assert (Hin : forall n, n ∈ order <-> is_Some (byName !! n)).
  { intros n. rewrite Ho. apply map_keys_elem. }
  assert (Hiff : res_iter (check_references byName) order = Ok tt <-> references_ok).
  { rewrite res_iter_Ok, Forall_forall. unfold check_references, references_ok. split.
    - intros Hall n t m Ht Hm. specialize (Hall n (proj2 (Hin n) (mk_is_Some _ _ Ht))).
      rewrite Ht in Hall. cbn in Hall. rewrite res_iter_Ok, Forall_forall in Hall.
      specialize (Hall m Hm). unfold check_parent in Hall. destruct (byName !! m) as [p|]; [|done].
      apply fail_if_Ok in Hall. bool_props. eauto.
    - intros Href n Hn. apply Hin in Hn as [t Ht]. rewrite Ht. cbn. apply res_iter_Ok, Forall_forall.
      intros m Hm. destruct (Href n t m Ht Hm) as (p & Hp & Hs). unfold check_parent. rewrite Hp.
      apply fail_if_Ok. by rewrite bool_decide_true. }
  rewrite <- Hiff. destruct (res_iter _ order) as [[]|]; cbn; split; congruence.
Qed.

(** ** The permissions of a flattened template *)

(** Template [n] declares the permission in its own rules. *)
Definition declares (n r v : string) : Prop :=
  exists t rule, byName !! n = Some t /\ rule ∈ template_Rules t /\
    rule_Resource rule = r /\ v ∈ rule_Verbs rule.

Definition nul_free (s : string) : bool := string_forallb (fun c => c != zero_byte) s.

(** No resource name contains the separator of the keys. *)
Definition plain_resources : Prop := forall n r v, declares n r v -> nul_free r = true.

(** The contract of [EffectiveGrants]: strictly ordered by resource and verb;
    every grant is declared by the template it is attributed to, the template
    itself or a proper ancestor; every declaration of the template and its
    ancestors is there; direct declarations win. *)
Record grants_of (n : string) (g : list EffectiveGrant) : Prop := {
  grants_sorted : StronglySorted (fun a b =>
    lex_lt str_lt str_lt (grant_sort_key a) (grant_sort_key b) = true) g;
  grants_sound : forall x, x ∈ g ->
    if grant_Inherited x
    then tc parent_of n (grant_InheritedFrom x) /\
         declares (grant_InheritedFrom x) (grant_Resource x) (grant_Verb x)
    else grant_InheritedFrom x = "" /\ declares n (grant_Resource x) (grant_Verb x);
  grants_complete : forall d r v, rtc parent_of n d -> declares d r v ->
    exists x, x ∈ g /\ grant_Resource x = r /\ grant_Verb x = v;
  grants_direct : forall x, x ∈ g -> declares n (grant_Resource x) (grant_Verb x) ->
    grant_Inherited x = false;
}.

Lemma key_inj r1 v1 r2 v2 :
  nul_free r1 = true -> nul_free r2 = true ->
  r1 +:+ String zero_byte v1 = r2 +:+ String zero_byte v2 -> r1 = r2 /\ v1 = v2.
Proof.
  unfold nul_free. revert r2. induction r1 as [|c r1 IH]; intros [|d r2] H1 H2 E; cbn in *.
  - split; [done|]. by injection E.
  - injection E as E1 E2. subst d. by rewrite bool_decide_true in H2.
  - injection E as E1 E2. subst c. by rewrite bool_decide_true in H1.
  - injection E as E1 E2. apply andb_true_iff in H1 as [_ H1], H2 as [_ H2].
    destruct (IH r2 H1 H2 E2). by subst.
Qed.

Lemma direct_grants_elem n t x :
  byName !! n = Some t ->
  x ∈ direct_grants t <->
  grant_Inherited x = false /\ grant_InheritedFrom x = "" /\
  declares n (grant_Resource x) (grant_Verb x).
Proof.
  intros Ht. unfold direct_grants, declares. rewrite list_elem_of_bind. split.
  - intros (rule & Hx & Hr). apply list_elem_of_fmap in Hx as (v & -> & Hv). cbn. eauto 10.
  - intros (Hi & Hf & t' & rule & Ht' & Hr & Hres & Hv). assert (t' = t) as -> by congruence.
    exists rule. split; [|done]. apply list_elem_of_fmap. exists (grant_Verb x). split; [|done].
    destruct x; cbn in *. by subst.
Qed.

Lemma inherited_grants_elem ms pgs x :
  x ∈ inherited_grants ms pgs <->
  exists i m pg y, ms !! i = Some m /\ pgs !! i = Some pg /\ y ∈ pg /\ x = inherit m y.
Proof.
  unfold inherited_grants. rewrite list_elem_of_In, in_concat. split.
  - intros (l & Hl & Hx). rewrite <- list_elem_of_In in Hl. rewrite <- list_elem_of_In in Hx.
    apply elem_of_lookup_zip_with in Hl as (i & m & pg & -> & Hm & Hpg).
    apply list_elem_of_fmap in Hx as (y & -> & Hy). eauto 10.
  - intros (i & m & pg & y & Hm & Hpg & Hy & ->). exists (inherit m <$> pg).
    rewrite <- !list_elem_of_In. split; [|apply list_elem_of_fmap; eauto].
    apply elem_of_lookup_zip_with. eauto 10.
Qed.

(** The grants of a template before sorting: direct ones, then inherited ones
    with a new key. *)
Section flatten.
Context (n : string) (t : Template) (pgs : list (list EffectiveGrant)) (Ht : byName !! n = Some t).

Let direct := (foldl add (∅, []) (direct_grants t)).
Let inherited := inherited_grants (template_Inherits t) pgs.

Lemma flatten_index : index_ok direct /\ index_ok (foldl add direct inherited).
Proof.
  pose proof (proj1 (add_fold (direct_grants t) (∅, []) index_ok_empty)) as Hd.
  split; [done|]. apply (add_fold inherited direct Hd).
Qed.

Lemma flatten_sorted :
  StronglySorted (fun a b => lex_lt str_lt str_lt (grant_sort_key a) (grant_sort_key b) = true)
    (flatten t pgs).
Proof.
  destruct flatten_index as [_ [_ Hnd]].
  apply (sort_slice_strict grant_sort_key (lex_lt str_lt str_lt)).
  apply (NoDup_fmap_1 (fun p => p.1 +:+ String zero_byte p.2)). by rewrite <- list_fmap_compose.
Qed.

Lemma flatten_direct x : x ∈ direct_grants t -> grant_key x ∈ keys direct.2.
Proof. apply (add_fold (direct_grants t) (∅, []) index_ok_empty). Qed.

Lemma flatten_elem x :
  x ∈ flatten t pgs ->
  x ∈ direct_grants t \/ x ∈ inherited /\ grant_key x ∉ keys direct.2.
Proof.
  unfold flatten, sortEffectiveGrants. rewrite sort_slice_elem_of. fold direct inherited.
  destruct (add_fold inherited direct (proj1 flatten_index)) as (_ & _ & Hx & _).
  intros [Hd|Hi]%Hx; [left|by right].
  destruct (add_fold (direct_grants t) (∅, []) index_ok_empty) as (_ & _ & Hd' & _).
  destruct (Hd' x Hd) as [?%elem_of_nil|[? _]]; done.
Qed.

Lemma flatten_key x :
  x ∈ direct_grants t \/ x ∈ inherited ->
  exists y, y ∈ flatten t pgs /\ grant_key y = grant_key x.
Proof.
  intros Hx. enough (grant_key x ∈ keys (foldl add direct inherited).2) as Hk.
  { apply list_elem_of_fmap in Hk as (y & -> & Hy). exists y. split; [|done].
    unfold flatten, sortEffectiveGrants. by rewrite sort_slice_elem_of. }
  destruct (add_fold inherited direct (proj1 flatten_index)) as (_ & Hk & _ & Hi).
  destruct Hx as [Hx|Hx]; [|by apply Hi]. apply flatten_direct in Hx.
  apply list_elem_of_fmap in Hx as (y & -> & Hy). apply list_elem_of_fmap. eauto.
Qed.
End flatten.

Lemma flat_sound h n g x :
  flat byName h n g -> x ∈ g ->
  if grant_Inherited x
  then tc parent_of n (grant_InheritedFrom x) /\
       declares (grant_InheritedFrom x) (grant_Resource x) (grant_Verb x)
  else grant_InheritedFrom x = "" /\ declares n (grant_Resource x) (grant_Verb x).
Proof.
  revert n g x. induction h as [|h IH]; [done|].
  intros n g x (t & pgs & Ht & Hp & ->) Hx.
  apply flatten_elem in Hx as [Hx|[Hx _]].
  - apply (direct_grants_elem n t x Ht) in Hx as (-> & -> & Hd). done.
  - apply inherited_grants_elem in Hx as (i & m & pg & y & Hm & Hpg & Hy & ->).
    assert (Hf : flat byName h m pg) by (exact (Forall2_lookup_lr _ _ _ _ _ _ Hp Hm Hpg)).
    assert (Hnm : parent_of n m) by (exists t; eauto using list_elem_of_lookup_2).
    specialize (IH m pg y Hf Hy). cbn. destruct (grant_Inherited y).
    + destruct IH as [Htc Hd]. split; [by eapply tc_l | done].
    + destruct IH as [_ Hd]. split; [by constructor | done].
Qed.

Lemma flat_complete (Hplain : plain_resources) h n g d r v :
  flat byName h n g -> rtc parent_of n d -> declares d r v ->
  exists x, x ∈ g /\ grant_Resource x = r /\ grant_Verb x = v.
Proof.
  revert n g. induction h as [|h IH]; [done|]. intros n g Hf Hr Hd.
  pose proof Hf as (t & pgs & Ht & Hp & Eg).
  enough (exists z, (z ∈ direct_grants t \/ z ∈ inherited_grants (template_Inherits t) pgs) /\
    grant_Resource z = r /\ grant_Verb z = v) as (z & Hz & Hzr & Hzv).
  { apply flatten_key in Hz as (x & Hx & Hk). rewrite <- Eg in Hx. exists x. split; [done|].
    pose proof (flat_sound _ _ _ _ Hf Hx) as Hs. unfold grant_key in Hk. rewrite Hzr, Hzv in Hk.
    apply key_inj in Hk; [done| |by eapply Hplain].
    destruct (grant_Inherited x); destruct Hs as [_ Hs]; by eapply Hplain. }
  inversion Hr as [|? m ? Hnm Hmd]; subst.
  - exists (direct_grant r v). split; [|done]. left. by apply (direct_grants_elem d t _ Ht).
  - destruct Hnm as (t' & Ht' & Hm). assert (t' = t) as -> by congruence.
    apply list_elem_of_lookup in Hm as [i Hi].
    destruct (Forall2_lookup_l _ _ _ _ _ Hp Hi) as (pg & Hpg & Hfm).
    destruct (IH m pg Hfm Hmd Hd) as (y & Hy & Hyr & Hyv). exists (inherit m y).
    split; [|done]. right. apply inherited_grants_elem. eauto 10.
Qed.

Lemma flat_direct h n g x :
  flat byName h n g -> x ∈ g -> declares n (grant_Resource x) (grant_Verb x) ->
  grant_Inherited x = false.
Proof.
  destruct h as [|h]; [done|]. intros (t & pgs & Ht & Hp & ->) Hx Hd.
  apply flatten_elem in Hx as [Hx|[_ Hx]]; [by apply (direct_grants_elem n t x Ht)|].
  destruct Hx. change (grant_key x) with (grant_key (direct_grant (grant_Resource x) (grant_Verb x))).
  apply flatten_direct. by apply (direct_grants_elem n t _ Ht).
Qed.

Lemma flattened_grants (Hplain : plain_resources) n g : flattened byName n g -> grants_of n g.
Proof.
  intros [h Hf]. split.
  - destruct h as [|h]; [done|]. destruct Hf as (t & pgs & _ & _ & ->). apply flatten_sorted.
  - intros x. by apply (flat_sound h).
  - intros d r v. by apply (flat_complete Hplain h).
  - intros x. by apply (flat_direct h).
Qed.
End graph.

Lemma resolveInherited_cases order1 order2 byName :
  order1 ≡ₚ (map_to_list byName).*1 -> order2 ≡ₚ (map_to_list byName).*1 ->
  match resolveInherited order1 order2 byName with
  | Err e => e <> EFuel /\ ~ (references_ok byName /\ acyclic byName)
  | Ok result =>
      references_ok byName /\ acyclic byName /\
      (forall n, byName !! n = None -> result !! n = None) /\
      (forall n t, byName !! n = Some t -> exists g,
         result !! n = Some (with_grants t g) /\ flattened byName n g)
  end.
Proof.
  intros Ho1 Ho2. unfold resolveInherited.
  pose proof (check_references_ok byName order1 Ho1) as Hrefs.
  destruct (res_iter _ order1) as [[]|e] eqn:E1; cbn in *.
  2:{ split; [by eapply check_references_text|]. intros [Hr _]. by apply Hrefs in Hr. }
  assert (Href : references_ok byName) by (by apply Hrefs).
  assert (Hkeys : forall n, n ∈ order2 <-> is_Some (byName !! n)).
  { intros n. rewrite Ho2. apply map_keys_elem. }
  pose proof (resolve_loop byName Href order2 [] byName ∅ (fun n => proj1 (Hkeys n))) as Hloop.
  match type of Hloop with ?A -> _ => assert A as HA end.
  { intros n. destruct (byName !! n); [|done]. by rewrite decide_False by apply not_elem_of_nil. }
  specialize (Hloop HA ltac:(intros ??; by rewrite lookup_empty)).
  destruct (res_foldl _ _ order2) as [[result memo]|e]; cbn; [|naive_solver].
  rewrite app_nil_r in Hloop.
  assert (Hall : forall n t, byName !! n = Some t -> exists g,
    result !! n = Some (with_grants t g) /\ flattened byName n g).
  { intros n t Ht. specialize (Hloop n). rewrite Ht, decide_True in Hloop; [naive_solver|].
    rewrite list_elem_of_In, <- in_rev, <- list_elem_of_In. apply Hkeys. by exists t. }
  split; [done|]. split; [|split].
  - intros n Htc. assert (exists t, byName !! n = Some t) as [t Ht].
    { inversion Htc as [? ? (t & ? & _)|? ? ? (t & ? & _)]; eauto. }
    destruct (Hall n t Ht) as (g & _ & h & Hf). by apply (flat_acyclic byName h n g Hf).
  - intros n Hn. specialize (Hloop n). by rewrite Hn in Hloop.
  - exact Hall.
Qed.

Lemma resolveInherited_flat order1 order2 byName result :
  order1 ≡ₚ (map_to_list byName).*1 -> order2 ≡ₚ (map_to_list byName).*1 ->
  resolveInherited order1 order2 byName = Ok result ->
  (forall n, byName !! n = None -> result !! n = None) /\
  (forall n t, byName !! n = Some t -> exists g,
     result !! n = Some (with_grants t g) /\ flattened byName n g).
Proof.
  intros Ho1 Ho2 H. pose proof (resolveInherited_cases order1 order2 byName Ho1 Ho2) as Hc.
  rewrite H in Hc. tauto.
Qed.

(** C32: flattening role-template inheritance is correct and terminates.  For
    every order in which the two loops range over the templates,
    [resolveInherited] either fails, and then some reference is unknown or
    crosses scopes or the inheritance is cyclic, never because the recursion
    ran out of its bound; or it succeeds, and then there is no such defect and
    every template keeps its fields and gets exactly the permissions declared
    by itself and its ancestors, attributed to the template that declares them,
    direct declarations first. *)
Theorem resolveInherited_spec order1 order2 byName :
  order1 ≡ₚ (map_to_list byName).*1 -> order2 ≡ₚ (map_to_list byName).*1 ->
  plain_resources byName ->
  match resolveInherited order1 order2 byName with
  | Err e => e <> EFuel /\ ~ (references_ok byName /\ acyclic byName)
  | Ok result =>
      references_ok byName /\ acyclic byName /\
      (forall n, byName !! n = None -> result !! n = None) /\
      (forall n t, byName !! n = Some t -> exists g,
         result !! n = Some (with_grants t g) /\ grants_of byName n g)
  end.
Proof.
  intros Ho1 Ho2 Hplain. pose proof (resolveInherited_cases order1 order2 byName Ho1 Ho2) as Hc.
  destruct (resolveInherited order1 order2 byName) as [result|e]; [|done].
  destruct Hc as (Hr & Ha & Hn & Hs). repeat (split; [done|]). intros n t Ht.
  destruct (Hs n t Ht) as (g & Hg & Hf). exists g. split; [done|]. by apply flattened_grants.
Qed.

(** The flattened catalog does not depend on the orders of the loops. *)
Lemma resolveInherited_order_free order1 order2 order1' order2' byName result result' :
  order1 ≡ₚ (map_to_list byName).*1 -> order2 ≡ₚ (map_to_list byName).*1 ->
  order1' ≡ₚ (map_to_list byName).*1 -> order2' ≡ₚ (map_to_list byName).*1 ->
  resolveInherited order1 order2 byName = Ok result ->
  resolveInherited order1' order2' byName = Ok result' -> result = result'.
Proof.
  intros Ho1 Ho2 Ho1' Ho2' H1 H2.
  destruct (resolveInherited_flat _ _ _ _ Ho1 Ho2 H1) as [Hn1 Hs1].
  destruct (resolveInherited_flat _ _ _ _ Ho1' Ho2' H2) as [Hn2 Hs2].
  apply map_eq. intros n. destruct (byName !! n) as [t|] eqn:E; [|by rewrite (Hn1 n E), (Hn2 n E)].
  destruct (Hs1 n t E) as (g & -> & Hg). destruct (Hs2 n t E) as (g' & -> & Hg').
  by rewrite (flattened_functional _ _ _ _ Hg Hg').
Qed.

(** ** Grouping the grants into rules *)

(** The permissions of a rule list, one pair per verb. *)
Definition expand (rules : list Rule) : list (string * string) :=
  rule ← rules; pair (rule_Resource rule) <$> rule_Verbs rule.

Definition expand_groups (m : gmap string (list string)) (order : list string) :
    list (string * string) := res ← order; pair res <$> default [] (m !! res).

Lemma expand_groups_insert m order r vs :
  r ∉ order -> expand_groups (<[r := vs]> m) order = expand_groups m order.
Proof.
  unfold expand_groups. induction order as [|o order IH]; [done|].
  intros [Hne Hr]%not_elem_of_cons. rewrite !bind_cons, IH by done. by rewrite lookup_insert_ne.
Qed.

Definition resource_le (a b : EffectiveGrant) : Prop :=
  str_lt (grant_Resource b) (grant_Resource a) = false.

(** The invariant of the grouping loop over grants ordered by resource: the
    groups hold the grants seen so far, the last group is the one of the last
    grant. *)
Record grouped (gs : list EffectiveGrant) (acc : gmap string (list string) * list string) : Prop := {
  grouped_expand : expand_groups acc.1 acc.2 = grant_sort_key <$> gs;
  grouped_nodup : NoDup acc.2;
  grouped_dom : forall r, r ∈ acc.2 <-> is_Some (acc.1 !! r);
  grouped_from : forall r, r ∈ acc.2 -> exists x, x ∈ gs /\ grant_Resource x = r;
  grouped_last : last acc.2 = grant_Resource <$> last gs;
}.

Lemma elem_of_snoc {A} (l : list A) x y : y ∈ l ++ [x] <-> y ∈ l \/ y = x.
Proof. by rewrite elem_of_app, list_elem_of_singleton. Qed.

Lemma NoDup_snoc {A} (l : list A) x : NoDup (l ++ [x]) <-> NoDup l /\ x ∉ l.
Proof.
  rewrite NoDup_app. split.
  - intros (Hl & Hx & _). split; [done|]. intros Hin. apply (Hx x Hin). by left.
  - intros [Hl Hx]. split; [done|]. split; [|apply NoDup_singleton].
    intros y Hy ->%list_elem_of_singleton. done.
Qed.

(** A resource seen before is the one of the last group. *)
Lemma grouped_current gs acc x :
  StronglySorted resource_le (gs ++ [x]) -> grouped gs acc -> grant_Resource x ∈ acc.2 ->
  exists o, acc.2 = o ++ [grant_Resource x].
Proof.
  intros Hs [_ _ _ Hfrom Hlast] Hin. destruct (Hfrom _ Hin) as (y & Hy & Hyx).
  destruct gs as [|z gs _] using rev_ind; [by apply elem_of_nil in Hy|].
  rewrite last_snoc in Hlast. cbn in Hlast. apply last_Some in Hlast as [o Ho]. exists o.
  rewrite Ho. do 2 f_equal.
  assert (Hzx : resource_le z x).
  { apply (StronglySorted_app_1_elem_of resource_le (gs ++ [z]) [x]); [done| |by left].
    apply elem_of_snoc. by right. }
  assert (Hyz : y = z \/ resource_le y z).
  { apply elem_of_snoc in Hy as [Hy|Hy]; [right|by left].
    apply (StronglySorted_app_1_elem_of resource_le gs ([z] ++ [x])); [|done|by left].
    by rewrite (assoc_L (++)). }
  unfold resource_le in *. destruct Hyz as [->|Hyz]; [done|]. rewrite Hyx in Hyz.
  by apply st_total.
Qed.

Lemma grouped_step gs acc x :
  StronglySorted resource_le (gs ++ [x]) -> grouped gs acc -> grouped (gs ++ [x]) (group_grant acc x).
Proof.
  intros Hs Hg. pose proof (grouped_current gs acc x Hs Hg) as Hcur. clear Hs.
  destruct acc as [m order]. destruct Hg as [He Hn Hd Hf Hl]. cbn [fst snd] in *. unfold group_grant.
  assert (Hf' : forall r, r ∈ order \/ r = grant_Resource x ->
    exists y, y ∈ gs ++ [x] /\ grant_Resource y = r).
  { intros r [(y & Hy & Hr)%Hf| ->]; [exists y | exists x]; rewrite elem_of_snoc; auto. }
  assert (Hd' : forall vs r, is_Some (<[grant_Resource x := vs]> m !! r) <->
    r ∈ order \/ r = grant_Resource x).
  { intros vs r. rewrite lookup_insert_is_Some, <- Hd.
    destruct (decide (r = grant_Resource x)); intuition congruence. }
  destruct (m !! grant_Resource x) as [vs|] eqn:Em.
  - destruct Hcur as [o ->]; [apply Hd; by eexists|]. apply NoDup_snoc in Hn as [Hn Hno].
    split; cbn [fst snd default].
    + rewrite fmap_app, <- He. unfold expand_groups. rewrite !bind_app, <- (assoc_L (++)).
      f_equal; [by apply expand_groups_insert|]. cbn.
      rewrite lookup_insert_eq, Em. cbn. rewrite fmap_app, app_nil_r. by rewrite app_nil_r.
    + by apply NoDup_snoc.
    + intros r. rewrite Hd', elem_of_snoc. tauto.
    + intros r Hr. apply Hf'. by left.
    + by rewrite !last_snoc.
  - assert (Hni : grant_Resource x ∉ order).
    { intros [? Hx]%Hd. congruence. }
    split; cbn [fst snd default].
    + rewrite fmap_app, <- He. unfold expand_groups. rewrite bind_app. f_equal.
      * by apply expand_groups_insert.
      * cbn. by rewrite lookup_insert_eq.
    + by apply NoDup_snoc.
    + intros r. by rewrite Hd', elem_of_snoc.
    + intros r Hr. apply Hf'. by apply elem_of_snoc.
    + by rewrite !last_snoc.
Qed.

Lemma grouped_fold gs : StronglySorted resource_le gs -> grouped gs (foldl group_grant (∅, []) gs).
Proof.
  induction gs as [|x gs IH] using rev_ind; intros Hs.
  { split; cbn; [done | apply NoDup_nil_2 | | |done]; intros r; rewrite elem_of_nil; [|done].
    rewrite lookup_empty. split; [done | by intros []]. }
  rewrite foldl_snoc. apply grouped_step; [done|]. apply IH.
  by apply StronglySorted_app_1_l in Hs.
Qed.

Lemma lex_resource_le gs :
  StronglySorted (fun a b => lex_lt str_lt str_lt (grant_sort_key a) (grant_sort_key b) = true) gs ->
  StronglySorted resource_le gs.
Proof.
  induction 1 as [|x gs _ IH Hall]; constructor; [done|]. eapply Forall_impl; [exact Hall|].
  intros y Hxy. unfold lex_lt, resource_le in *. cbn in *. case_bool_decide as E; cbn in *.
  - rewrite E. apply st_irrefl.
  - destruct (str_lt (grant_Resource y) (grant_Resource x)) eqn:Hyx; [|done].
    pose proof (st_trans _ _ _ Hxy Hyx). by rewrite st_irrefl in *.
Qed.

(** Grouping and expanding give the grants back. *)
Lemma EffectiveRules_expand t :
  template_effectiveGrants t <> [] ->
  StronglySorted resource_le (template_effectiveGrants t) ->
  expand (EffectiveRules t) = grant_sort_key <$> template_effectiveGrants t.
Proof.
  intros Hne Hs. unfold EffectiveRules. destruct (len _ =? 0) eqn:E; bool_props.
  { by rewrite len_nil_iff in E. }
  pose proof (grouped_fold _ Hs) as Hg. destruct (foldl _ _ _) as [m order].
  destruct Hg as [He _ _ _ _]. rewrite <- He. cbn [fst snd]. clear.
  unfold expand, expand_groups. induction order as [|o order IH]; [done|].
  rewrite fmap_cons, !bind_cons, IH. done.
Qed.

(** ** The engine over flattened rules *)

Definition permits (perms : list (string * string)) (r v : string) : Prop :=
  exists res verb, (res, verb) ∈ perms /\ (res = "*" \/ res = r) /\ (verb = "*" \/ verb = v).

Lemma matchRule_coarse rule r v :
  IsCRDGrant rule = false ->
  matchRule rule r v = true <-> permits (pair (rule_Resource rule) <$> rule_Verbs rule) r v.
Proof.
  intros Hc. unfold matchRule, permits. rewrite Hc. split.
  - destruct (_ && _) eqn:E; [done|]. intros (w & Hw & Hm)%existsb_exists.
    rewrite <- list_elem_of_In in Hw. exists (rule_Resource rule), w.
    split; [apply list_elem_of_fmap; eauto|]. apply orb_true_iff in Hm.
    apply andb_false_iff in E. rewrite !negb_false_iff, !bool_decide_eq_true in E.
    by rewrite !bool_decide_eq_true in Hm.
  - intros (res & verb & Hin & Hr & Hv). apply list_elem_of_fmap in Hin as (w & [= -> ->] & Hw).
    destruct (_ && _) eqn:E; [bool_props; tauto|]. apply existsb_exists. exists w.
    rewrite <- list_elem_of_In. split; [done|]. apply orb_true_iff. by rewrite !bool_decide_eq_true.
Qed.

Lemma rules_permit rules r v :
  Forall (fun rule => IsCRDGrant rule = false) rules ->
  existsb (fun rule => matchRule rule r v) rules = true <-> permits (expand rules) r v.
Proof.
  intros Hall. rewrite existsb_exists. split.
  - intros (rule & Hin & Hm). rewrite <- list_elem_of_In in Hin.
    rewrite Forall_forall in Hall. apply matchRule_coarse in Hm as (res & verb & Hp & Hrv); [|auto].
    exists res, verb. split; [|done]. apply list_elem_of_bind. eauto.
  - intros (res & verb & Hp & Hrv). apply list_elem_of_bind in Hp as (rule & Hp & Hin).
    exists rule. rewrite <- list_elem_of_In. split; [done|]. rewrite Forall_forall in Hall.
    apply matchRule_coarse; [auto|]. by exists res, verb.
Qed.

Lemma EffectiveRules_coarse t :
  template_effectiveGrants t <> [] -> Forall (fun rule => IsCRDGrant rule = false) (EffectiveRules t).
Proof.
  intros Hne. unfold EffectiveRules. destruct (len _ =? 0) eqn:E; bool_props.
  { by rewrite len_nil_iff in E. }
  destruct (foldl _ _ _) as [m order]. apply Forall_fmap, Forall_true. done.
Qed.

(** What the rules of a flattened template grant is what it or an ancestor
    declares. *)
Lemma flattened_rules_permit byName n t r v :
  grants_of byName n (template_effectiveGrants t) -> template_effectiveGrants t <> [] ->
  existsb (fun rule => matchRule rule r v) (EffectiveRules t) = true <->
  exists d res verb, rtc (parent_of byName) n d /\ declares byName d res verb /\
    (res = "*" \/ res = r) /\ (verb = "*" \/ verb = v).
Proof.
  intros Hg Hne. rewrite (rules_permit _ _ _ (EffectiveRules_coarse t Hne)).
  rewrite EffectiveRules_expand by (done || apply lex_resource_le, Hg).
  unfold permits. split.
  - intros (res & verb & Hin & Hrv). apply list_elem_of_fmap in Hin as (x & [= -> ->] & Hx).
    pose proof (grants_sound _ _ _ Hg x Hx) as Hs. destruct (grant_Inherited x).
    + destruct Hs as [Htc Hd]. do 3 eexists. split; [by apply tc_rtc | eauto].
    + destruct Hs as [_ Hd]. do 3 eexists. split; [by apply rtc_refl | eauto].
  - intros (d & res & verb & Hr & Hd & Hrv).
    destruct (grants_complete _ _ _ Hg d res verb Hr Hd) as (x & Hx & <- & <-).
    do 2 eexists. split; [|exact Hrv]. apply list_elem_of_fmap. by exists x.
Qed.

(** ** The loaded catalog *)

(** The checks every loaded template has passed. *)
Record template_ok (n : string) (t : Template) : Prop := {
  ok_name : template_Name t = n /\ n <> "";
  ok_scope : IsValidScope (template_Scope t) = true;
  ok_risk : isValidRiskLevel (template_RiskLevel t) = true;
  ok_managed : template_SystemManaged t = true;
  ok_nonempty : template_Rules t <> [];
  ok_rules : forall rule, rule ∈ template_Rules t -> rule_Resource rule <> "" /\ rule_Verbs rule <> [];
}.

Lemma template_ok_grants n t g : template_ok n t -> template_ok n (with_grants t g).
Proof. by intros []. Qed.

Lemma load_entry_ok yaml byName e byName' :
  (forall n t, byName !! n = Some t -> template_ok n t) ->
  load_entry yaml byName e = Ok byName' ->
  forall n t, byName' !! n = Some t -> template_ok n t.
Proof.
  intros Hok. unfold load_entry. destruct (entry_IsDir e); [by intros [= <-]|].
  destruct (negb _); [by intros [= <-]|]. destruct (entry_Data e) as [d|]; [cbn|done].
  destruct (yaml d) as [t0|]; [cbn|done]. intros H. res_inv. bool_props.
  match goal with H : res_iter _ _ = _ |- _ => rename H into Hrules end.
  match goal with H : len _ <> 0 |- _ => rename H into Hlen end.
  intros n t. destruct (decide (n = template_Name t0)) as [->|Hne].
  2:{ rewrite lookup_insert_ne by done. apply Hok. }
  cbn. rewrite lookup_insert_eq. intros [= <-]. split; cbn; try done.
  - rewrite len_nil_iff in Hlen. done.
  - intros rule Hin. rewrite res_iter_Ok, Forall_forall in Hrules.
    specialize (Hrules rule Hin). unfold check_rule in Hrules. res_inv. bool_props.
    by rewrite len_nil_iff in *.
Qed.

(** Maps with the same declarations have the same inheritance graph. *)
Section same_declarations.
Context (m1 m2 : gmap string Template)
  (Hsame : forall n, declarations <$> m1 !! n = declarations <$> m2 !! n).

Lemma same_template n t :
  m1 !! n = Some t -> exists t', m2 !! n = Some t' /\
    template_Rules t' = template_Rules t /\ template_Inherits t' = template_Inherits t.
Proof using Hsame.
  intros Ht. specialize (Hsame n). rewrite Ht in Hsame. destruct (m2 !! n) as [t'|]; [|done].
  injection Hsame as Hr Hi. eauto.
Qed.

Lemma same_parents a b : parent_of m1 a b -> parent_of m2 a b.
Proof using Hsame.
  intros (t & Ht & Hb). destruct (same_template a t Ht) as (t' & Ht' & _ & Hi).
  exists t'. by rewrite Hi.
Qed.

Lemma same_declares n r v : declares m1 n r v -> declares m2 n r v.
Proof using Hsame.
  intros (t & rule & Ht & Hr & Hrest). destruct (same_template n t Ht) as (t' & Ht' & Hr' & _).
  exists t', rule. by rewrite Hr'.
Qed.

Lemma same_permissions n (P : string -> string -> Prop) :
  (exists d res verb, rtc (parent_of m1) n d /\ declares m1 d res verb /\ P res verb) ->
  exists d res verb, rtc (parent_of m2) n d /\ declares m2 d res verb /\ P res verb.
Proof using Hsame.
  intros (d & res & verb & Hr & Hd & HP). exists d, res, verb.
  split; [|split; [by apply same_declares | done]].
  eapply rtc_subrel; [|exact Hr]. intros ??. apply same_parents.
Qed.
End same_declarations.

Definition catalog_key (t : Template) : Z * string := (scopeOrder (template_Scope t), template_Name t).

Lemma template_less_key a b :
  IsValidScope (template_Scope a) = true -> IsValidScope (template_Scope b) = true ->
  template_less a b = by_key catalog_key (lex_lt Z.ltb str_lt) a b.
Proof.
  unfold IsValidScope, template_less, by_key, lex_lt, catalog_key, scopeOrder. cbn.
  rewrite !orb_true_iff, !bool_decide_eq_true. intros [[->| ->]| ->] [[->| ->]| ->]; reflexivity.
Qed.

(** The templates of the catalog in its order. *)
Lemma catalog_order (m : gmap string Template) order :
  (forall n t, m !! n = Some t -> template_ok n t) -> order ≡ₚ (map_to_list m).*1 ->
  let l := sort_slice template_less ((fun n => default zero_Template (m !! n)) <$> order) in
  (forall t, t ∈ l <-> m !! template_Name t = Some t) /\
  StronglySorted (fun a b => lex_lt Z.ltb str_lt (catalog_key a) (catalog_key b) = true) l.
Proof.
  intros Hok Ho. cbv zeta. set (f := fun n => default zero_Template (m !! n)).
  assert (Hin : forall t, t ∈ f <$> order <-> m !! template_Name t = Some t).
  { intros t. rewrite list_elem_of_fmap. split.
    - intros (n & -> & Hn). rewrite Ho in Hn. apply map_keys_elem in Hn as [t' Ht'].
      unfold f. rewrite Ht'. cbn. by destruct (ok_name _ _ (Hok n t' Ht')) as [-> _].
    - intros Ht. exists (template_Name t). unfold f. rewrite Ht. split; [done|].
      rewrite Ho. apply map_keys_elem. by exists t. }
  split; [intros t; by rewrite sort_slice_elem_of|].
  rewrite (sort_slice_ext_on template_less (by_key catalog_key (lex_lt Z.ltb str_lt))).
  2:{ intros a b Ha%Hin Hb%Hin. apply template_less_key; by eapply ok_scope, Hok. }
  apply sort_slice_strict; [apply _|].
  assert (Hnames : template_Name <$> (f <$> order) = order).
  { rewrite <- list_fmap_compose. transitivity (id <$> order); [|by rewrite list_fmap_id].
    apply list_fmap_ext. intros i n Hn. cbn. apply list_elem_of_lookup_2 in Hn. rewrite Ho in Hn.
    apply map_keys_elem in Hn as [t Ht]. unfold f. rewrite Ht. apply (Hok n t Ht). }
  apply (NoDup_fmap_1 snd). rewrite <- list_fmap_compose.
  change (NoDup (template_Name <$> (f <$> order))). rewrite Hnames, Ho. apply NoDup_fst_map_to_list.
Qed.

Section result.
Context (byName result : gmap string Template)
  (Hnone : forall n, byName !! n = None -> result !! n = None)
  (Hsome : forall n t, byName !! n = Some t -> exists g,
     result !! n = Some (with_grants t g) /\ flattened byName n g).

Lemma result_templates n t :
  result !! n = Some t ->
  exists t0 g, byName !! n = Some t0 /\ t = with_grants t0 g /\ flattened byName n g.
Proof using Hnone Hsome.
  intros Ht. destruct (byName !! n) as [t0|] eqn:E; [|by rewrite (Hnone n E) in Ht].
  destruct (Hsome n t0 E) as (g & Hr & Hf). exists t0, g. split; [done|]. split; [congruence | done].
Qed.

Lemma result_declarations n : declarations <$> byName !! n = declarations <$> result !! n.
Proof using Hnone Hsome.
  destruct (byName !! n) as [t0|] eqn:E; [|by rewrite (Hnone n E)].
  by destruct (Hsome n t0 E) as (g & -> & _).
Qed.
End result.

Lemma template_ok_declares byName n t :
  byName !! n = Some t -> template_ok n t -> exists r v, declares byName n r v.
Proof.
  intros Ht [_ _ _ _ Hne Hrules]. destruct (template_Rules t) as [|rule rules] eqn:E; [done|].
  destruct (Hrules rule) as [_ Hv]; [by left|]. destruct (rule_Verbs rule) as [|v vs] eqn:Ev; [done|].
  exists (rule_Resource rule), v, t, rule. rewrite E, Ev.
  split; [done|]. split; [by left|]. split; [done | by left].
Qed.

(** The loaded catalog is well formed and its rules mean what inheritance
    says.  When loading succeeds every template is named, has a valid scope and
    risk level and complete rules; the catalog lists each template once, by
    scope and then by name; and the permission engine, run on a template's
    [EffectiveRules], grants exactly what the template or one of its ancestors
    declares. *)
Theorem loadCatalogFrom_spec yaml entries o1 o2 o3 cat :
  (forall m, o1 m ≡ₚ (map_to_list m).*1) -> (forall m, o2 m ≡ₚ (map_to_list m).*1) ->
  (forall m, o3 m ≡ₚ (map_to_list m).*1) ->
  loadCatalogFrom yaml entries o1 o2 o3 = Ok cat ->
  (forall n t, Get cat n = Some t -> template_ok n t) /\
  (forall t, t ∈ All cat <-> Get cat (template_Name t) = Some t) /\
  StronglySorted (fun a b => lex_lt Z.ltb str_lt (catalog_key a) (catalog_key b) = true) (All cat) /\
  (plain_resources (catalog_byName cat) -> forall n t r v, Get cat n = Some t ->
     existsb (fun rule => matchRule rule r v) (EffectiveRules t) = true <->
     exists d res verb, rtc (parent_of (catalog_byName cat)) n d /\
       declares (catalog_byName cat) d res verb /\
       (res = "*" \/ res = r) /\ (verb = "*" \/ verb = v)).
Proof.
  intros Ho1 Ho2 Ho3. unfold loadCatalogFrom. intros H. res_inv.
  match goal with H : res_foldl _ _ _ = Ok ?m |- _ => rename H into Hload, m into byName end.
  match goal with H : resolveInherited _ _ _ = Ok ?m |- _ => rename H into Hres, m into result end.
  assert (Hok : forall n t, byName !! n = Some t -> template_ok n t).
  { refine (res_foldl_inv _ (fun m => forall n t, m !! n = Some t -> template_ok n t) _ _ _ _ _ Hload).
    - intros m e m' _. apply load_entry_ok.
    - intros n t. by rewrite lookup_empty. }
  destruct (resolveInherited_flat _ _ _ _ (Ho1 byName) (Ho2 byName) Hres) as [Hnone Hsome].
  pose proof (result_templates byName result Hnone Hsome) as Hback.
  assert (Hok' : forall n t, result !! n = Some t -> template_ok n t).
  { intros n t (t0 & g & Ht0 & -> & _)%Hback. apply template_ok_grants. auto. }
  split; [exact Hok'|]. destruct (catalog_order result (o3 result) Hok' (Ho3 result)) as [Hin Hsort].
  split; [exact Hin|]. split; [exact Hsort|]. cbn [catalog_byName]. intros Hplain n t r v Ht.
  pose proof (result_declarations byName result Hnone Hsome) as Hsame.
  destruct (Hback n t Ht) as (t0 & g & Ht0 & -> & Hf).
  assert (Hplain0 : plain_resources byName).
  { intros d res verb Hd. eapply Hplain. by apply (same_declares byName result). }
  pose proof (flattened_grants byName Hplain0 n g Hf) as Hg.
  rewrite (flattened_rules_permit byName n (with_grants t0 g)); [|done|].
  - split; apply (same_permissions _ _) with (P := fun res verb =>
      (res = "*" \/ res = r) /\ (verb = "*" \/ verb = v)); [exact Hsame|].
    intros k. symmetry. apply Hsame.
  - cbn. intros ->. destruct (template_ok_declares byName n t0 Ht0 (Hok n t0 Ht0)) as (res & verb & Hd).
    destruct (grants_complete _ _ _ Hg n res verb (rtc_refl _ _) Hd) as (y & Hy & _).
    by apply elem_of_nil in Hy.
Qed.

(** ** A concrete catalog

    A viewer, an editor that inherits from it and an owner that inherits from
    the editor, read from three files next to one that is no template. *)

Definition example_template (name : string) (parents : list string) (rules : list Rule) : Template := {|
  template_Name := name; template_DisplayName := ""; template_Description := "";
  template_Scope := ScopeProject; template_RiskLevel := ""; template_Inherits := parents;
  template_SystemManaged := false; template_Category := ""; template_Rules := rules;
  template_effectiveGrants := [] |}.

Definition example_yaml (data : string) : option Template :=
  if data == "viewer" then Some (example_template "viewer" [] [coarse "pods" ["list"; "read"]])
  else if data == "editor"
  then Some (example_template "editor" ["viewer"] [coarse "pods" ["update"; "read"]])
  else if data == "owner" then Some (example_template "owner" ["editor"] [coarse "secrets" ["read"]])
  else None.

Definition example_entries : list DirEntry :=
  [{| entry_Name := "owner.yaml"; entry_IsDir := false; entry_Data := Some "owner" |};
   {| entry_Name := "editor.yaml"; entry_IsDir := false; entry_Data := Some "editor" |};
   {| entry_Name := "notes.txt"; entry_IsDir := false; entry_Data := None |};
   {| entry_Name := "viewer.yaml"; entry_IsDir := false; entry_Data := Some "viewer" |}].

Definition map_order (m : gmap string Template) : list string := (map_to_list m).*1.

Definition example_catalog : res Catalog :=
  loadCatalogFrom example_yaml (Ok example_entries) map_order map_order map_order.

Lemma example_loads : is_ok example_catalog = true.
Proof. vm_compute. reflexivity. Qed.

Definition example_owner_grants : list EffectiveGrant :=
  match example_catalog with
  | Ok cat => match Get cat "owner" with Some t => EffectiveGrants t | None => [] end
  | Err _ => []
  end.

Lemma example_owner :
  example_owner_grants =
  [{| grant_Resource := "pods"; grant_Verb := "list"; grant_Inherited := true;
      grant_InheritedFrom := "viewer" |};
   {| grant_Resource := "pods"; grant_Verb := "read"; grant_Inherited := true;
      grant_InheritedFrom := "editor" |};
   {| grant_Resource := "pods"; grant_Verb := "update"; grant_Inherited := true;
      grant_InheritedFrom := "editor" |};
   {| grant_Resource := "secrets"; grant_Verb := "read"; grant_Inherited := false;
      grant_InheritedFrom := "" |}].
Proof. vm_compute. reflexivity. Qed.

Lemma loadCatalogFrom_spec_witness : exists cat, example_catalog = Ok cat /\
  forall t, t ∈ All cat <-> Get cat (template_Name t) = Some t.
Proof.
  destruct (is_ok_Ok _ example_loads) as [cat E]. exists cat. split; [exact E|].
  assert (Ho : forall m : gmap string Template, map_order m ≡ₚ (map_to_list m).*1) by done.
  exact (proj1 (proj2 (loadCatalogFrom_spec _ _ _ _ _ _ Ho Ho Ho E))).
Defined.

(** Two templates that inherit from each other, and the example's three. *)
Definition example_cycle : gmap string Template :=
  <["a" := example_template "a" ["b"] [coarse "pods" ["read"]]]>
  (<["b" := example_template "b" ["a"] [coarse "nodes" ["list"]]]> ∅).

Lemma example_cycle_plain : plain_resources example_cycle.
Proof.
  intros n r v (t & rule & Ht & Hr & <- & _). revert Ht. unfold example_cycle.
  rewrite !lookup_insert_Some, lookup_empty. intros [[_ <-]|[_ [[_ <-]|[_ ?]]]]; [| |done];
    cbn in Hr; apply list_elem_of_singleton in Hr as ->; reflexivity.
Qed.

Lemma resolveInherited_spec_witness :
  match resolveInherited (map_order example_cycle) (map_order example_cycle) example_cycle with
  | Err e => e <> EFuel /\ ~ (references_ok example_cycle /\ acyclic example_cycle)
  | Ok _ => False
  end.
Proof.
  pose proof (resolveInherited_spec (map_order example_cycle) (map_order example_cycle)
    example_cycle (Permutation_refl _) (Permutation_refl _) example_cycle_plain) as Hspec.
  assert (Hbad : is_ok (resolveInherited (map_order example_cycle) (map_order example_cycle)
    example_cycle) = false) by (vm_compute; reflexivity).
  destruct (resolveInherited _ _ example_cycle) as [result|e]; [discriminate Hbad | exact Hspec].
Defined.
End RoleTemplatesFacts.
