(* ===== verification/RbacGate.v ===== *)
(** * Loading role bindings and the permission gates (internal/server/middleware)

    [loadUserBindings] and [expandProjectBindings] of rbac_queries.go turn the
    rows of the database into the bindings the engine of [Rbac] evaluates; the
    gates of rbac.go run the engine at the scope of a request.  The database is
    the class [BindingStore], the interface the querier declares; a request is
    what the gates read of it.

    The theorems compose the two components: what a gate lets through is
    described by the rows of the database alone. *)

From Stdlib Require Import ZArith Lia.
From S2P Require Import Prelude GoStrings External Rbac.
From stdpp Require Import base gmap strings list.
Import Rbac.

Open Scope Z_scope.

Module RbacGate.

(** ** The database *)

(** [sqlc.ListUserBindingsWithRolesRow]; a nullable column is an option. *)
Record BindingRow := {
  row_Scope : string;
  row_BindingID : uuid;
  row_Group : string;
  row_RoleID : uuid;
  row_ClusterID : option uuid;
  row_ProjectID : option uuid;
  row_Namespace : string;
  row_RoleName : string;
  row_RoleRules : string;
}.

(** [sqlc.ProjectNamespace], as far as the source reads it. *)
Record ProjectNamespace := {
  pn_ClusterID : uuid;
  pn_Namespace : string;
}.

(** [userBindingsQuerier]: the superuser flag of a user ([None] is an error),
    the rows of a user, the namespaces of a project; and [json.Unmarshal] into
    a rule list. *)
Class BindingStore := {
  GetUserByID : uuid -> option bool;
  ListUserBindingsWithRoles : uuid -> res (list BindingRow);
  ListProjectNamespaces : uuid -> res (list ProjectNamespace);
  json_Rules : string -> option (list Rule);
}.

Section load.
Context `{External, BindingStore}.

Definition decodeRoleRules (raw : string) : res (list Rule) :=
  if slen raw =? 0 then Ok []
  else match json_Rules raw with Some rules => Ok rules | None => Err (EText "decode rules") end.

(** The body of the loop over the rows. *)
Definition binding_of_row (userID : string) (row : BindingRow) : res RoleBinding :=
  rules ← decodeRoleRules (row_RoleRules row);
  let cluster := row_Scope row == "cluster" in
  let project := row_Scope row == "project" in
  Ok {| rb_UserID := userID; rb_Group := row_Group row; rb_RoleRules := rules;
        rb_BindingID := uuid_String (row_BindingID row);
        rb_RoleID := uuid_String (row_RoleID row); rb_RoleName := row_RoleName row;
        rb_Scope := row_Scope row;
        rb_ClusterID := if cluster then default "" (uuid_String <$> row_ClusterID row) else "";
        rb_ProjectID := if project then default "" (uuid_String <$> row_ProjectID row) else "";
        rb_Namespace := if cluster then row_Namespace row else "";
        rb_IsSuperuser := false |}.

Fixpoint bindings_of_rows (userID : string) (rows : list BindingRow) : res (list RoleBinding) :=
  match rows with
  | [] => Ok []
  | row :: rest =>
      b ← binding_of_row userID row; bs ← bindings_of_rows userID rest; Ok (b :: bs)
  end.

(** The synthetic binding of one namespace of a project. *)
Definition synthetic_binding (userID : string) (b : RoleBinding) (row : ProjectNamespace) :
    RoleBinding := {|
  rb_UserID := userID; rb_Group := rb_Group b; rb_RoleRules := rb_RoleRules b;
  rb_BindingID := rb_BindingID b; rb_RoleID := rb_RoleID b; rb_RoleName := rb_RoleName b;
  rb_Scope := "cluster"; rb_ClusterID := uuid_String (pn_ClusterID row); rb_ProjectID := "";
  rb_Namespace := pn_Namespace row; rb_IsSuperuser := false |}.

Definition expand_rows (userID : string) (b : RoleBinding) (rows : list ProjectNamespace) :
    list RoleBinding :=
  row ← rows;
  if (pn_Namespace row == "") || (pn_ClusterID row == uuid_Nil) then []
  else [synthetic_binding userID b row].

(** One binding of the loop of [expandProjectBindings]; the state is the cache
    of namespaces per project and the bindings made so far. *)
Definition expand_step (userID : string)
    (st : gmap string (list ProjectNamespace) * list RoleBinding) (b : RoleBinding) :
    res (gmap string (list ProjectNamespace) * list RoleBinding) :=
  let '(nsCache, synthetic) := st in
  if (rb_Scope b != "project") || (rb_ProjectID b == "") then Ok (nsCache, synthetic)
  else
    match nsCache !! rb_ProjectID b with
    | Some rows => Ok (nsCache, synthetic ++ expand_rows userID b rows)
    | None =>
        match uuid_Parse (rb_ProjectID b) with
        | None => Ok (<[rb_ProjectID b := []]> nsCache, synthetic)
        | Some projectUUID =>
            rows ← ListProjectNamespaces projectUUID;
            Ok (<[rb_ProjectID b := rows]> nsCache, synthetic ++ expand_rows userID b rows)
        end
    end.

Definition expandProjectBindings (userID : string) (bindings : list RoleBinding) :
    res (list RoleBinding) :=
  '(_, synthetic) ← res_foldl (expand_step userID) (∅, []) bindings;
  Ok (bindings ++ synthetic).

Definition superuser_binding (userID : string) : RoleBinding := {|
  rb_UserID := userID; rb_Group := ""; rb_RoleRules := []; rb_BindingID := ""; rb_RoleID := "";
  rb_RoleName := ""; rb_Scope := ""; rb_ClusterID := ""; rb_ProjectID := "";
  rb_Namespace := ""; rb_IsSuperuser := true |}.

(** [loadUserBindings] without the cache it fills on success. *)
Definition loadUserBindings (userID : string) : res (list RoleBinding) :=
  match uuid_Parse userID with
  | None => Err (EText "parse user")
  | Some parsedUserID =>
      match GetUserByID parsedUserID with
      | Some true => Ok [superuser_binding userID]
      | _ =>
          rows ← ListUserBindingsWithRoles parsedUserID;
          results ← bindings_of_rows userID rows;
          expandProjectBindings userID results
      end
  end.

(** [GetUserBindings] of a querier without a cache. *)
Definition GetUserBindings (userID : string) : res (list RoleBinding) :=
  if userID == "" then Ok [] else loadUserBindings userID.
End load.

(** ** The gates (rbac.go) *)

(** What the gates read of a request: the authenticated user, the route
    parameters, the mark of [ClusterScopeFromIDParam], [?namespace=]. *)
Record Request := {
  req_User : option string;
  req_URLParam : string -> string;
  req_IDIsCluster : bool;
  req_QueryNamespace : string;
}.

Inductive Outcome := AuthenticationRequired | InternalError | PermissionDenied | Next.

#[global] Instance Outcome_eq_dec : EqDecision Outcome.
Proof. solve_decision. Defined.

Section gates.
Context `{External} (querier : string -> res (list RoleBinding)).

(** [reqctx.RouteUUID], the zero identifier on error. *)
Definition RouteUUID (r : Request) (name : string) : uuid :=
  default uuid_Nil (uuid_Parse (req_URLParam r name)).

Definition permissionScope (r : Request) (resource : Resource) : uuid * uuid :=
  let clusterParam :=
    if (req_URLParam r "cluster_id" == "") && (req_IDIsCluster r || (resource == "clusters"))
    then "id" else "cluster_id" in
  let projectParam :=
    if (req_URLParam r "project_id" == "") && (resource == "projects")
    then "id" else "project_id" in
  (RouteUUID r clusterParam, RouteUUID r projectParam).

Definition namespaceContext (r : Request) : string :=
  default "" (head (filter (fun v => v <> "")
    ((fun key => TrimSpace (req_URLParam r key)) <$> ["namespace"; "namespace_name"; "ns"]))).

Definition namespaceContextWithQuery (r : Request) : string :=
  if namespaceContext r != "" then namespaceContext r else TrimSpace (req_QueryNamespace r).

(** [authAndBindings]: the bindings, or the response already written. *)
Definition authAndBindings (r : Request) : list RoleBinding + Outcome :=
  match req_User r with
  | None => inr AuthenticationRequired
  | Some user => match querier user with Ok bs => inl bs | Err _ => inr InternalError end
  end.

Definition decide_outcome (allowed : bool) : Outcome := if allowed then Next else PermissionDenied.

Definition RequirePermissionForNamespace (resource : Resource) (verb : Verb)
    (resolveNamespace : Request -> string) (r : Request) : Outcome :=
  match authAndBindings r with
  | inr o => o
  | inl bindings =>
      let '(clusterID, projectID) := permissionScope r resource in
      decide_outcome (CheckPermission bindings resource verb clusterID projectID [resolveNamespace r])
  end.

Definition RequirePermission (resource : Resource) (verb : Verb) : Request -> Outcome :=
  RequirePermissionForNamespace resource verb namespaceContext.

Definition RequireQueryNamespacePermission (resource : Resource) (verb : Verb) : Request -> Outcome :=
  RequirePermissionForNamespace resource verb namespaceContextWithQuery.

Definition RequireListPermission (resource : Resource) (verb : Verb) (namespaceScoped : bool)
    (r : Request) : Outcome :=
  match authAndBindings r with
  | inr o => o
  | inl bindings =>
      let '(clusterID, projectID) := permissionScope r resource in
      let namespace := namespaceContextWithQuery r in
      let allowed := CheckPermission bindings resource verb clusterID projectID [namespace] in
      let allowed := if negb allowed && namespaceScoped && (namespace == "")
                     then HasAnyNamespaceAccess bindings resource verb clusterID else allowed in
      decide_outcome allowed
  end.

Definition RequireCollectionPermission (resource : Resource) (verb : Verb) (r : Request) : Outcome :=
  match authAndBindings r with
  | inr o => o
  | inl bindings =>
      let namespace := namespaceContextWithQuery r in
      let allowed := CheckPermission bindings resource verb uuid_Nil uuid_Nil [namespace] in
      let allowed := if negb allowed && (namespace == "")
                     then HasAnyScopedAccess bindings resource verb else allowed in
      decide_outcome allowed
  end.
End gates.

(** ** What the loader hands out *)

Section loaded.
Set Default Proof Using "Type*".
Context `{External, BindingStore}.

Lemma bindings_of_rows_spec userID rows bs :
  bindings_of_rows userID rows = Ok bs ->
  Forall2 (fun row b => binding_of_row userID row = Ok b) rows bs.
Proof.
  revert bs. induction rows as [|row rows IH]; intros bs; cbn [bindings_of_rows].
  { intros [= <-]. constructor. }
  intros E. res_inv. constructor; auto.
Qed.

(** The cache of [expandProjectBindings] holds what the store would answer. *)
Definition cache_ok (nsCache : gmap string (list ProjectNamespace)) : Prop :=
  forall id rows, nsCache !! id = Some rows ->
    match uuid_Parse id with
    | Some p => ListProjectNamespaces p = Ok rows
    | None => rows = []
    end.

(** [s] is a synthetic binding [b] contributes. *)
Definition expands_to (userID : string) (b s : RoleBinding) : Prop :=
  rb_Scope b = "project" /\ rb_ProjectID b <> "" /\
  exists p rows row, uuid_Parse (rb_ProjectID b) = Some p /\ ListProjectNamespaces p = Ok rows /\
    row ∈ rows /\ pn_Namespace row <> "" /\ pn_ClusterID row <> uuid_Nil /\
    s = synthetic_binding userID b row.

Lemma expand_rows_elem userID b rows s :
  s ∈ expand_rows userID b rows <->
  exists row, row ∈ rows /\ pn_Namespace row <> "" /\ pn_ClusterID row <> uuid_Nil /\
    s = synthetic_binding userID b row.
Proof using Type.
  unfold expand_rows. rewrite list_elem_of_bind. split.
  - intros (row & Hs & Hrow). exists row. destruct (_ || _) eqn:E; [by apply elem_of_nil in Hs|].
    bool_props. apply list_elem_of_singleton in Hs. done.
  - intros (row & Hrow & Hn & Hc & ->). exists row. split; [|done].
    rewrite !bool_decide_false by done. by apply list_elem_of_singleton.
Qed.

Lemma expands_to_known userID b s p rows :
  rb_Scope b = "project" -> rb_ProjectID b <> "" -> uuid_Parse (rb_ProjectID b) = Some p ->
  ListProjectNamespaces p = Ok rows ->
  s ∈ expand_rows userID b rows <-> expands_to userID b s.
Proof.
  intros Hs Hp Hparse Hrows. rewrite expand_rows_elem. split.
  - intros (row & Hrow). split; [done|]. split; [done|]. exists p, rows, row. tauto.
  - intros (_ & _ & p' & rows' & row & Hparse' & Hrows' & Hrow). exists row.
    rewrite Hparse in Hparse'. injection Hparse' as <-. rewrite Hrows in Hrows'.
    injection Hrows' as <-. exact Hrow.
Qed.

Lemma expands_to_unparsed userID b s : uuid_Parse (rb_ProjectID b) = None -> ~ expands_to userID b s.
Proof. intros Hn (_ & _ & p & rows & row & Hp & _). congruence. Qed.

Lemma expand_step_spec userID nsCache synthetic b nsCache' synthetic' :
  cache_ok nsCache -> expand_step userID (nsCache, synthetic) b = Ok (nsCache', synthetic') ->
  cache_ok nsCache' /\ forall s, s ∈ synthetic' <-> s ∈ synthetic \/ expands_to userID b s.
Proof.
  intros Hc. unfold expand_step. destruct (_ || _) eqn:E.
  { intros [= <- <-]. split; [done|]. intros s. apply orb_true_iff in E.
    rewrite negb_true_iff, bool_decide_eq_false, bool_decide_eq_true in E. unfold expands_to. tauto. }
  bool_props. destruct (nsCache !! rb_ProjectID b) as [rows|] eqn:En.
  { intros [= <- <-]. split; [done|]. intros s. rewrite elem_of_app. apply or_iff_compat_l.
    specialize (Hc _ _ En). destruct (uuid_Parse (rb_ProjectID b)) as [p|] eqn:Ep.
    - by apply (expands_to_known _ _ _ p).
    - subst rows. pose proof (expands_to_unparsed userID b s Ep).
      rewrite expand_rows_elem, exists_elem_nil. tauto. }
  assert (Hins : forall rows, match uuid_Parse (rb_ProjectID b) with
      | Some p => ListProjectNamespaces p = Ok rows | None => rows = [] end ->
    cache_ok (<[rb_ProjectID b := rows]> nsCache)).
  { intros rows Hr id rows'. destruct (decide (id = rb_ProjectID b)) as [->|Hne].
    - rewrite lookup_insert_eq. by intros [= <-].
    - rewrite lookup_insert_ne by done. apply Hc. }
  destruct (uuid_Parse (rb_ProjectID b)) as [p|] eqn:Ep.
  - intros E2. apply res_bind_Ok in E2 as (rows & Hrows & [= <- <-]). split; [by apply Hins|].
    intros s. rewrite elem_of_app. apply or_iff_compat_l. by apply (expands_to_known _ _ _ p).
  - intros [= <- <-]. split; [by apply Hins|]. intros s.
    pose proof (expands_to_unparsed userID b s Ep). tauto.
Qed.

Lemma expandProjectBindings_spec userID bs out s :
  expandProjectBindings userID bs = Ok out ->
  s ∈ out <-> s ∈ bs \/ exists b, b ∈ bs /\ expands_to userID b s.
Proof.
  unfold expandProjectBindings. intros E. apply res_bind_Ok in E as ([cache synthetic] & Hf & [= <-]).
  rewrite elem_of_app. apply or_iff_compat_l.
  enough (Hgen : forall l nsCache syn cache synthetic, cache_ok nsCache ->
    res_foldl (expand_step userID) (nsCache, syn) l = Ok (cache, synthetic) ->
    s ∈ synthetic <-> s ∈ syn \/ exists b, b ∈ l /\ expands_to userID b s).
  { rewrite (Hgen bs ∅ [] cache synthetic); [|by intros ??; rewrite lookup_empty|done].
    rewrite elem_of_nil. tauto. }
  clear. intros l. induction l as [|b l IH]; intros nsCache syn cache synthetic Hc; cbn [res_foldl].
  { intros [= <- <-]. rewrite exists_elem_nil. tauto. }
  intros E. apply res_bind_Ok in E as ([cache1 syn1] & Hs & Hl).
  destruct (expand_step_spec _ _ _ _ _ _ Hc Hs) as [Hc1 Hsyn].
  rewrite (IH _ _ _ _ Hc1 Hl), Hsyn, exists_elem_cons. tauto.
Qed.
End loaded.

(** ** Decisions in terms of the rows *)

Section rows.
Set Default Proof Using "Type*".
Context `{External, !ExternalLaws, BindingStore}.

(** The scope a row of the database grants its role at: a global row
    everywhere, a cluster row on its cluster (or one namespace of it), a project
    row on its project and in every namespace the project owns. *)
Definition row_reaches (row : BindingRow) (c p : uuid) (n : string) : Prop :=
  if row_Scope row == "cluster" then
    match row_ClusterID row with
    | Some c' => c' = c /\ (row_Namespace row = "" \/ row_Namespace row = n)
    | None => row_Namespace row = ""
    end
  else if row_Scope row == "project" then
    match row_ProjectID row with
    | Some p' => p' = p \/
        (n <> "" /\ c <> uuid_Nil /\ exists rows, ListProjectNamespaces p' = Ok rows /\
           {| pn_ClusterID := c; pn_Namespace := n |} ∈ rows)
    | None => True
    end
  else True.

(** The role of a row grants the permission. *)
Definition row_grants (row : BindingRow) (r : Resource) (v : Verb) : Prop :=
  exists rules, decodeRoleRules (row_RoleRules row) = Ok rules /\
    existsb (fun rule => matchRule rule r v) rules = true.

Definition applies (b : RoleBinding) (c p : uuid) (n : string) : Prop :=
  cluster_wide b c \/ in_namespace b c n \/ on_project b p n.

Lemma uuid_String_eq u w : uuid_String u = uuid_String w <-> u = w.
Proof. split; [apply uuid_String_inj | by intros ->]. Qed.

Lemma expands_to_applies userID b s c p n :
  expands_to userID b s ->
  applies s c p n <-> n <> "" /\ rb_ClusterID s = uuid_String c /\ rb_Namespace s = n.
Proof.
  intros (_ & _ & p' & rows & row & _ & _ & _ & Hn & Hc & ->).
  pose proof (uuid_String_nonempty (pn_ClusterID row)).
  unfold applies, cluster_wide, in_namespace, on_project. cbn. intuition congruence.
Qed.

Lemma row_expands userID row b c p n :
  binding_of_row userID row = Ok b ->
  (exists s, expands_to userID b s /\ applies s c p n) <->
  row_Scope row = "project" /\ exists p', row_ProjectID row = Some p' /\
    n <> "" /\ c <> uuid_Nil /\ exists rows, ListProjectNamespaces p' = Ok rows /\
      {| pn_ClusterID := c; pn_Namespace := n |} ∈ rows.
Proof.
  intros E. unfold binding_of_row in E. apply res_bind_Ok in E as (rules & _ & [= <-]). split.
  - intros (s & Hs & Ha). apply (expands_to_applies _ _ _ _ _ _ Hs) in Ha as (Hn & Hc & Hns).
    destruct Hs as (Hsc & Hne & p' & rows & row' & Hparse & Hrows & Hin & Hn' & Hc' & ->). cbn in *.
    rewrite Hsc in *. eval_tests. split; [done|]. apply uuid_String_inj in Hc. subst.
    destruct (row_ProjectID row) as [q|]; [|done]. cbn in *. rewrite uuid_Parse_String in Hparse.
    injection Hparse as ->. exists p'. repeat (split; [done|]). exists rows. split; [done|].
    by destruct row'.
  - intros (Hsc & p' & Hp & Hn & Hc & rows & Hrows & Hin). eexists. split.
    + split; [exact Hsc|]. cbn. rewrite Hsc, Hp. eval_tests. cbn. split; [apply uuid_String_nonempty|].
      exists p', rows, {| pn_ClusterID := c; pn_Namespace := n |}. rewrite uuid_Parse_String.
      repeat (split; [done|]). reflexivity.
    + right. left. cbn. split; [done|]. split; [done|]. split; [apply uuid_String_nonempty | done].
Qed.

Lemma row_applies userID row b c p n :
  binding_of_row userID row = Ok b ->
  (applies b c p n \/ exists s, expands_to userID b s /\ applies s c p n) <-> row_reaches row c p n.
Proof.
  intros E. rewrite (row_expands _ _ _ _ _ _ E). unfold binding_of_row in E.
  apply res_bind_Ok in E as (rules & _ & [= <-]).
  unfold applies, cluster_wide, in_namespace, on_project, row_reaches. cbn.
  destruct (decide (row_Scope row = "cluster")) as [->|Hnc].
  { eval_tests. cbn. destruct (row_ClusterID row) as [c'|]; cbn.
    - pose proof (uuid_String_nonempty c'). rewrite uuid_String_eq.
      destruct (decide (row_Namespace row = "")); intuition congruence.
    - intuition congruence. }
  rewrite (bool_decide_false (row_Scope row = "cluster")) by done.
  destruct (decide (row_Scope row = "project")) as [->|Hnp].
  - eval_tests. cbn. destruct (row_ProjectID row) as [p'|]; cbn.
    + pose proof (uuid_String_nonempty p'). rewrite uuid_String_eq. naive_solver.
    + intuition congruence.
  - rewrite (bool_decide_false (row_Scope row = "project")) by done. intuition congruence.
Qed.

Lemma loadUserBindings_inv userID u bs :
  uuid_Parse userID = Some u -> loadUserBindings userID = Ok bs ->
  (GetUserByID u = Some true /\ bs = [superuser_binding userID]) \/
  exists rows results, GetUserByID u <> Some true /\ ListUserBindingsWithRoles u = Ok rows /\
    Forall2 (fun row b => binding_of_row userID row = Ok b) rows results /\
    forall s, s ∈ bs <-> s ∈ results \/ exists b, b ∈ results /\ expands_to userID b s.
Proof using Type.
  unfold loadUserBindings. intros ->. destruct (GetUserByID u) as [[|]|]; [intros [= <-]; auto| |].
  all: intros E; right; apply res_bind_Ok in E as (rows & Hrows & E).
  all: apply res_bind_Ok in E as (results & Hres & E); exists rows, results.
  all: split; [done|]; split; [done|]; split; [by apply bindings_of_rows_spec|].
  all: intros s; by apply expandProjectBindings_spec.
Qed.

Lemma loaded_permission userID u bs r v c p n :
  uuid_Parse userID = Some u -> loadUserBindings userID = Ok bs ->
  CheckPermission bs r v c p [n] = true <->
  GetUserByID u = Some true \/
  exists rows row, ListUserBindingsWithRoles u = Ok rows /\ row ∈ rows /\
    row_grants row r v /\ row_reaches row c p n /\ GetUserByID u <> Some true.
Proof.
  intros Hu Hload. rewrite CheckPermission_spec. cbn [head default].
  destruct (loadUserBindings_inv _ _ _ Hu Hload) as [[Hsu ->]|(rows & results & Hns & Hrows & Hres & Hbs)].
  { split; [by left|]. intros _. left. exists (superuser_binding userID). split; [by left | done]. }
  assert (Hrow : forall row b, binding_of_row userID row = Ok b ->
    rb_IsSuperuser b = false /\ (granted b r v = true <-> row_grants row r v)).
  { intros row b E. unfold binding_of_row in E. apply res_bind_Ok in E as (rules & Hd & [= <-]).
    unfold row_grants, granted. rewrite Hd. cbn. split; [done|]. naive_solver. }
  assert (Hsyn : forall b s, expands_to userID b s ->
    rb_IsSuperuser s = false /\ granted s r v = granted b r v).
  { by intros b s (_ & _ & ? & ? & ? & _ & _ & _ & _ & _ & ->). }
  split.
  - intros [(b & Hb & Hs)|(b & Hb & Hg & Ha)]; apply Hbs in Hb as [Hb|(b0 & Hb & He)].
    1,3: apply list_elem_of_lookup in Hb as [i Hi];
      destruct (Forall2_lookup_r _ _ _ _ _ Hres Hi) as (row & Hrowi & E); destruct (Hrow row b E) as [Hs' Hg'].
    1: congruence.
    2: { destruct (Hsyn b0 b He). congruence. }
    2: { destruct (Hsyn b0 b He) as [_ Hg0]. apply list_elem_of_lookup in Hb as [i Hi].
         destruct (Forall2_lookup_r _ _ _ _ _ Hres Hi) as (row & Hrowi & E).
         right. exists rows, row. split; [done|]. split; [by eapply list_elem_of_lookup_2|].
         split; [apply (Hrow row b0 E); congruence|]. split; [|done].
         apply (row_applies _ _ _ _ _ _ E). right. by exists b. }
    right. exists rows, row. split; [done|]. split; [by eapply list_elem_of_lookup_2|].
    split; [by apply Hg'|]. split; [|done]. apply (row_applies _ _ _ _ _ _ E). by left.
  - intros [?|(rows' & row & Hrows' & Hin & Hg & Hreach & _)]; [done|].
    rewrite Hrows in Hrows'. injection Hrows' as <-. apply list_elem_of_lookup in Hin as [i Hi].
    destruct (Forall2_lookup_l _ _ _ _ _ Hres Hi) as (b & Hb & E). apply list_elem_of_lookup_2 in Hb.
    apply (row_applies _ _ _ _ _ _ E) in Hreach. right. apply (Hrow row b E) in Hg.
    destruct Hreach as [Ha|(s & He & Ha)]; [exists b | exists s].
    + split; [apply Hbs; by left | done].
    + destruct (Hsyn b s He) as [_ Hgs]. split; [apply Hbs; right; eauto|]. by rewrite Hgs.
Qed.

Lemma loaded_well_scoped userID bs : loadUserBindings userID = Ok bs -> Forall well_scoped bs.
Proof.
  intros Hload. destruct (uuid_Parse userID) as [u|] eqn:Hu.
  2:{ unfold loadUserBindings in Hload. by rewrite Hu in Hload. }
  apply Forall_forall. intros s Hs.
  destruct (loadUserBindings_inv _ _ _ Hu Hload) as [[_ ->]|(rows & results & _ & _ & Hres & Hbs)].
  { apply list_elem_of_singleton in Hs as ->. by left. }
  apply Hbs in Hs as [Hs|(b & _ & He)].
  - apply list_elem_of_lookup in Hs as [i Hi].
    destruct (Forall2_lookup_r _ _ _ _ _ Hres Hi) as (row & _ & E).
    unfold binding_of_row in E. apply res_bind_Ok in E as (rules & _ & [= <-]). unfold well_scoped. cbn.
    destruct (decide (row_Scope row = "cluster")) as [->|Hnc]; [eval_tests; cbn|].
    + destruct (row_ClusterID row); cbn; eauto.
    + destruct (decide (row_Scope row = "project")) as [->|Hnp]; [eval_tests; cbn|].
      2:{ rewrite (bool_decide_false _ Hnc), (bool_decide_false _ Hnp). by left. }
      destruct (row_ProjectID row); cbn; eauto 10.
  - destruct He as (_ & _ & ? & ? & row & _ & _ & _ & _ & _ & ->). right. left. cbn. eauto.
Qed.



(** The clusters and namespaces at which a row's custom-resource rules count in
    the native check. *)
Definition native_reaches (row : BindingRow) (cluster namespace : string) : Prop :=
  if row_Scope row == "cluster" then
    match row_ClusterID row with Some c => uuid_String c = cluster | None => True end /\
    (row_Namespace row = "" \/ row_Namespace row = namespace)
  else True.

End rows.

(** ** A concrete database

    User 9 owns project 3, whose only namespace is team-a of cluster 1, and may
    read certificates there; user 8 is a superuser. *)

Module ExampleStore.
Definition certificates : Rule := {|
  rule_Resource := "certificates"; rule_Resources := []; rule_Verbs := ["get"];
  rule_APIGroups := ["cert-manager.io"]; rule_APIGroupsCamel := [] |}.

Definition project_row : BindingRow := {|
  row_Scope := "project"; row_BindingID := id_of 20; row_Group := ""; row_RoleID := id_of 21;
  row_ClusterID := None; row_ProjectID := Some (id_of 3); row_Namespace := "";
  row_RoleName := "owner"; row_RoleRules := "owner" |}.

#[export] Instance store : BindingStore := {|
  GetUserByID u := Some (u == id_of 8);
  ListUserBindingsWithRoles u := Ok (if u == id_of 9 then [project_row] else []);
  ListProjectNamespaces p :=
    Ok (if p == id_of 3 then [{| pn_ClusterID := id_of 1; pn_Namespace := "team-a" |}] else []);
  json_Rules raw := Some [coarse "pods" ["list"]; certificates] |}.

Definition user : string := @uuid_String Concrete.external (id_of 9).

(** GET of the pods of namespace [ns] of cluster [c]. *)
Definition request (c : uuid) (ns : string) : Request := {|
  req_User := Some user;
  req_URLParam key := if key == "cluster_id" then @uuid_String Concrete.external c
                      else if key == "namespace" then ns else "";
  req_IDIsCluster := false; req_QueryNamespace := "" |}.

Lemma loads : is_ok (@loadUserBindings Concrete.external store user) = true.
Proof. vm_compute. reflexivity. Qed.
End ExampleStore.

(** The project member is admitted to the project's namespace and to no other. *)
Lemma example_gate :
  @RequirePermission Concrete.external (@GetUserBindings Concrete.external ExampleStore.store) "pods" "list"
    (ExampleStore.request (id_of 1) "team-a") = Next /\
  @RequirePermission Concrete.external (@GetUserBindings Concrete.external ExampleStore.store) "pods" "list"
    (ExampleStore.request (id_of 1) "team-b") = PermissionDenied /\
  @RequirePermission Concrete.external (@GetUserBindings Concrete.external ExampleStore.store) "pods" "list"
    (ExampleStore.request (id_of 2) "team-a") = PermissionDenied.
Proof. vm_compute. auto. Qed.



End RbacGate.
