(* ===== verification/RbacCache.v ===== *)
(** * The cache of role bindings (internal/server/middleware/rbac_cache.go)

    The TTL and LRU cache in front of the binding loader of [RbacGate], with its
    generation counter.  Every operation that runs under the mutex is one
    function on the cache; [Get] runs in up to two critical sections, so it is a
    read and the later eviction or LRU touch, which find the entry again by its
    identity, the pointer of the source.  The invalidation coordinator (other
    replicas) enters as its health.

    [step] interleaves those sections, the loads in flight of the querier
    (rbac_queries.go) and the transactions that change bindings. *)

From Stdlib Require Import ZArith Lia.
From S2P Require Import Prelude GoStrings Rbac.
From stdpp Require Import base gmap strings list relations.
Import Rbac.

Open Scope Z_scope.

Module RbacCache.

Definition second : duration := 1000000000.
Definition RBACCacheDefaultTTL : duration := 15 * second.
Definition RBACCacheDefaultCapacity : Z := 5000.
Definition RBACCacheDefaultMaxBindings : Z := 100000.

(** [rbacCacheEntry]; [entry_id] is the pointer. *)
Record rbacCacheEntry := {
  entry_id : nat;
  entry_bindings : list RoleBinding;
  entry_expiresAt : time;
  entry_lastBumpNanos : Z;
}.

(** [RBACCache]; the LRU list holds the users of the entries, most recently
    used first; [cache_next] is the next pointer. *)
Record RBACCache := {
  cache_generation : Z;
  cache_ttl : duration;
  cache_capacity : Z;
  cache_maxBindings : Z;
  cache_bindingCount : Z;
  cache_bumpInterval : duration;
  cache_entries : gmap string rbacCacheEntry;
  cache_lru : list string;
  cache_next : nat;
}.

Definition with_entries (c : RBACCache) (count : Z) (entries : gmap string rbacCacheEntry)
    (lru : list string) : RBACCache := {|
  cache_generation := cache_generation c; cache_ttl := cache_ttl c;
  cache_capacity := cache_capacity c; cache_maxBindings := cache_maxBindings c;
  cache_bindingCount := count; cache_bumpInterval := cache_bumpInterval c;
  cache_entries := entries; cache_lru := lru; cache_next := cache_next c |}.

Definition bump_generation (c : RBACCache) : RBACCache := {|
  cache_generation := wrapU64 (cache_generation c + 1); cache_ttl := cache_ttl c;
  cache_capacity := cache_capacity c; cache_maxBindings := cache_maxBindings c;
  cache_bindingCount := cache_bindingCount c; cache_bumpInterval := cache_bumpInterval c;
  cache_entries := cache_entries c; cache_lru := cache_lru c; cache_next := cache_next c |}.

Definition bump_next (c : RBACCache) : RBACCache := {|
  cache_generation := cache_generation c; cache_ttl := cache_ttl c;
  cache_capacity := cache_capacity c; cache_maxBindings := cache_maxBindings c;
  cache_bindingCount := cache_bindingCount c; cache_bumpInterval := cache_bumpInterval c;
  cache_entries := cache_entries c; cache_lru := cache_lru c; cache_next := S (cache_next c) |}.

Definition NewRBACCacheWithOptions (ttl : duration) (capacity : Z) : RBACCache :=
  let ttl := if ttl <=? 0 then RBACCacheDefaultTTL else ttl in
  let capacity := if capacity <=? 0 then RBACCacheDefaultCapacity else capacity in
  let bumpInterval := Z.quot ttl 8 in
  let bumpInterval := if bumpInterval <=? 0 then ttl else bumpInterval in
  {| cache_generation := 0; cache_ttl := ttl; cache_capacity := capacity;
     cache_maxBindings := RBACCacheDefaultMaxBindings; cache_bindingCount := 0;
     cache_bumpInterval := bumpInterval; cache_entries := ∅; cache_lru := []; cache_next := 0 |}.

(** [removeLocked] of the entry of a user. *)
Definition removeLocked (userID : string) (c : RBACCache) : RBACCache :=
  match cache_entries c !! userID with
  | None => c
  | Some entry =>
      let count := cache_bindingCount c - len (entry_bindings entry) in
      with_entries c (if count <? 0 then 0 else count) (delete userID (cache_entries c))
        (filter (fun u => u <> userID) (cache_lru c))
  end.

(** The condition of the loop of [evictLocked]. *)
Definition over_limit (c : RBACCache) : bool :=
  (cache_capacity c <? len (cache_lru c)) ||
  ((0 <? cache_maxBindings c) && (cache_maxBindings c <? cache_bindingCount c) &&
   (1 <? len (cache_lru c))).

Fixpoint evict_loop (fuel : nat) (c : RBACCache) : RBACCache :=
  match fuel with
  | O => c
  | S fuel =>
      if over_limit c then
        match last (cache_lru c) with
        | None => c
        | Some oldest => evict_loop fuel (removeLocked oldest c)
        end
      else c
  end.

Definition evictLocked (c : RBACCache) : RBACCache := evict_loop (S (length (cache_lru c))) c.

Definition move_to_front (userID : string) (lru : list string) : list string :=
  userID :: filter (fun u => u <> userID) lru.

(** [Put]; [healthy] is false when there is a coordinator and it is not
    healthy.  The expected generation is variadic. *)
Definition Put (now : time) (healthy : bool) (userID : string) (bindings : list RoleBinding)
    (expectedGeneration : option Z) (c : RBACCache) : RBACCache :=
  if userID == "" then c
  else if match expectedGeneration with
          | Some g => cache_generation c != g
          | None => false
          end then c
  else if negb healthy then c
  else
    match cache_entries c !! userID with
    | Some existing =>
        let entry := {| entry_id := entry_id existing; entry_bindings := bindings;
                        entry_expiresAt := now + cache_ttl c; entry_lastBumpNanos := now |} in
        evictLocked (with_entries c
          (cache_bindingCount c + (len bindings - len (entry_bindings existing)))
          (<[userID := entry]> (cache_entries c)) (move_to_front userID (cache_lru c)))
    | None =>
        let entry := {| entry_id := cache_next c; entry_bindings := bindings;
                        entry_expiresAt := now + cache_ttl c; entry_lastBumpNanos := now |} in
        evictLocked (with_entries (bump_next c) (cache_bindingCount c + len bindings)
          (<[userID := entry]> (cache_entries c)) (userID :: cache_lru c))
    end.

(** The first section of [Get]. *)
Inductive GetResult :=
  | GetMiss
  | GetExpired (id : nat)
  | GetHit (id : nat) (last : Z) (bindings : list RoleBinding).

Definition get_read (now : time) (healthy : bool) (userID : string) (c : RBACCache) : GetResult :=
  if userID == "" then GetMiss
  else if negb healthy then GetMiss
  else
    match cache_entries c !! userID with
    | None => GetMiss
    | Some entry =>
        if entry_expiresAt entry <? now then GetExpired (entry_id entry)
        else GetHit (entry_id entry) (entry_lastBumpNanos entry) (entry_bindings entry)
    end.

(** The entry of the user is still the one read before. *)
Definition still_there (userID : string) (id : nat) (c : RBACCache) : bool :=
  match cache_entries c !! userID with
  | Some cur => bool_decide (entry_id cur = id)
  | None => false
  end.

(** The second section after an expired entry. *)
Definition get_evict (userID : string) (id : nat) (c : RBACCache) : RBACCache :=
  if still_there userID id c then removeLocked userID c else c.

(** The amortised touch after a hit: the compare-and-swap of the entry's bump
    time (an entry no longer in the cache is unreachable) and the move. *)
Definition get_touch (now : time) (userID : string) (id : nat) (last : Z) (c : RBACCache) : RBACCache :=
  if cache_bumpInterval c <=? now - last then
    match cache_entries c !! userID with
    | Some entry =>
        if bool_decide (entry_id entry = id) && bool_decide (entry_lastBumpNanos entry = last) then
          let entry := {| entry_id := id; entry_bindings := entry_bindings entry;
                          entry_expiresAt := entry_expiresAt entry; entry_lastBumpNanos := now |} in
          with_entries c (cache_bindingCount c) (<[userID := entry]> (cache_entries c))
            (move_to_front userID (cache_lru c))
        else c
    | None => c
    end
  else c.

(** [Get] without interference between its sections. *)
Definition Get (now : time) (healthy : bool) (userID : string) (c : RBACCache) :
    option (list RoleBinding) * RBACCache :=
  match get_read now healthy userID c with
  | GetMiss => (None, c)
  | GetExpired id => (None, get_evict userID id c)
  | GetHit id last bindings => (Some bindings, get_touch now userID id last c)
  end.

Definition InvalidateRBACUserLocal (userID : string) (c : RBACCache) : RBACCache :=
  if userID == "" then c else removeLocked userID (bump_generation c).

Definition InvalidateRBACAllLocal (c : RBACCache) : RBACCache :=
  with_entries (bump_generation c) 0 ∅ [].

(** [SetInvalidationCoordinator] drops the entries; the generation stays. *)
Definition SetInvalidationCoordinator (c : RBACCache) : RBACCache := with_entries c 0 ∅ [].

Definition Len (c : RBACCache) : Z := len (cache_lru c).

(** ** The system around the cache

    [sys_db] is what a load would read for each user now; a user is dirty from
    the commit of a change of their bindings until the invalidation the
    mutation handler sends after it. *)

Record Load := {
  load_user : string;
  load_generation : Z;
  load_result : option (list RoleBinding);
}.

Record System := {
  sys_db : string -> list RoleBinding;
  sys_dirty : string -> bool;
  sys_cache : RBACCache;
  sys_loads : list Load;
}.

Definition set_cache (s : System) (c : RBACCache) : System := {|
  sys_db := sys_db s; sys_dirty := sys_dirty s; sys_cache := c; sys_loads := sys_loads s |}.

Definition set_loads (s : System) (loads : list Load) : System := {|
  sys_db := sys_db s; sys_dirty := sys_dirty s; sys_cache := sys_cache s; sys_loads := loads |}.

Definition boot (db : string -> list RoleBinding) (ttl : duration) (capacity : Z) : System := {|
  sys_db := db; sys_dirty _ := false;
  sys_cache := NewRBACCacheWithOptions ttl capacity; sys_loads := [] |}.

(** [GetUserBindings] reads the generation when it begins a load, and stores the
    result under it.  A load runs several queries: what it returns is the
    database's answer unless the user's bindings may have changed while it ran,
    that is unless the user is dirty or there was an invalidation since. *)
Inductive step : System -> System -> Prop :=
  | step_begin s u :
      step s (set_loads s (sys_loads s ++
        [{| load_user := u; load_generation := cache_generation (sys_cache s); load_result := None |}]))
  | step_read s i ld bs :
      sys_loads s !! i = Some ld ->
      (sys_dirty s (load_user ld) = false -> load_generation ld = cache_generation (sys_cache s) ->
         bs = sys_db s (load_user ld)) ->
      step s (set_loads s (<[i := {| load_user := load_user ld;
        load_generation := load_generation ld; load_result := Some bs |}]> (sys_loads s)))
  | step_store s i ld bs now healthy :
      sys_loads s !! i = Some ld -> load_result ld = Some bs ->
      step s (set_cache (set_loads s (delete i (sys_loads s)))
        (Put now healthy (load_user ld) bs (Some (load_generation ld)) (sys_cache s)))
  | step_abandon s i : step s (set_loads s (delete i (sys_loads s)))
  | step_evict s u id : step s (set_cache s (get_evict u id (sys_cache s)))
  | step_touch s now u id last : step s (set_cache s (get_touch now u id last (sys_cache s)))
  | step_commit s db dirty :
      (forall u, sys_dirty s u = true -> dirty u = true) ->
      (forall u, dirty u = false -> db u = sys_db s u) ->
      step s {| sys_db := db; sys_dirty := dirty; sys_cache := sys_cache s; sys_loads := sys_loads s |}
  | step_invalidate s u :
      u <> "" ->
      step s {| sys_db := sys_db s;
                sys_dirty w := if bool_decide (w = u) then false else sys_dirty s w;
                sys_cache := InvalidateRBACUserLocal u (sys_cache s); sys_loads := sys_loads s |}
  | step_invalidate_all s :
      step s {| sys_db := sys_db s; sys_dirty _ := false;
                sys_cache := InvalidateRBACAllLocal (sys_cache s); sys_loads := sys_loads s |}
  | step_coordinator s : step s (set_cache s (SetInvalidationCoordinator (sys_cache s))).

(** ** The shape of the cache *)

(** The bindings held in all entries. *)
Definition total (entries : gmap string rbacCacheEntry) : Z :=
  map_fold (fun _ e acc => len (entry_bindings e) + acc) 0 entries.

Lemma total_insert_fresh m u e :
  m !! u = None -> total (<[u := e]> m) = len (entry_bindings e) + total m.
Proof. intros Hu. unfold total. rewrite map_fold_insert_L; [done | intros; lia | done]. Qed.

Lemma total_delete m u e :
  m !! u = Some e -> total m = len (entry_bindings e) + total (delete u m).
Proof. intros Hu. unfold total. rewrite (map_fold_delete_L _ _ u e m); [done | intros; lia | done]. Qed.

Lemma total_nonneg m : 0 <= total m.
Proof.
  unfold total. apply (map_fold_weak_ind (fun r _ => 0 <= r)); [lia|].
  intros u e m' r _ Hr. pose proof (len_nonneg (entry_bindings e)). lia.
Qed.

Lemma total_insert m u e e' :
  m !! u = Some e -> total (<[u := e']> m) = total m - len (entry_bindings e) + len (entry_bindings e').
Proof.
  intros Hu. rewrite (total_delete m u e Hu). rewrite <- insert_delete_eq.
  rewrite total_insert_fresh by apply lookup_delete_eq. lia.
Qed.

Record cache_wf (c : RBACCache) : Prop := {
  wf_capacity : 0 < cache_capacity c;
  wf_nodup : NoDup (cache_lru c);
  wf_dom : forall u, u ∈ cache_lru c <-> is_Some (cache_entries c !! u);
  wf_count : cache_bindingCount c = total (cache_entries c);
}.

(** [over_limit] is the bound the cache promises. *)
Lemma over_limit_false c :
  over_limit c = false <->
  len (cache_lru c) <= cache_capacity c /\
  (cache_maxBindings c <= 0 \/ cache_bindingCount c <= cache_maxBindings c \/ len (cache_lru c) <= 1).
Proof.
  unfold over_limit. rewrite orb_false_iff, !andb_false_iff, !Z.ltb_ge. tauto.
Qed.

Lemma filter_neq_length (u : string) (l : list string) :
  NoDup l -> u ∈ l -> S (length (filter (fun w => w <> u) l)) = length l.
Proof.
  induction l as [|w l IH]; intros Hnd Hin; [by apply elem_of_nil in Hin|].
  apply NoDup_cons in Hnd as [Hw Hnd]. rewrite filter_cons. case_decide as Hd.
  - cbn. rewrite IH; [done|done|]. by apply elem_of_cons in Hin as [?|?]; [congruence|].
  - destruct (decide (w = u)) as [->|Hne]; [|by destruct Hd]. cbn. f_equal. f_equal.
    clear IH Hin Hd Hnd. induction l as [|x l IH]; [done|]. apply not_elem_of_cons in Hw as [Hx Hw].
    rewrite filter_cons, decide_True by done. f_equal. auto.
Qed.

Lemma filter_neq_elem (u w : string) (l : list string) : w ∈ filter (fun w => w <> u) l <-> w <> u /\ w ∈ l.
Proof. by rewrite list_elem_of_filter. Qed.

Lemma removeLocked_lookup u w c :
  cache_entries (removeLocked u c) !! w = if decide (w = u) then None else cache_entries c !! w.
Proof.
  unfold removeLocked. destruct (cache_entries c !! u) eqn:E; cbn.
  - case_decide; [subst; by rewrite lookup_delete_eq | by rewrite lookup_delete_ne].
  - case_decide; by subst.
Qed.

Lemma removeLocked_wf u c : cache_wf c -> cache_wf (removeLocked u c).
Proof.
  intros [Hcap Hnd Hdom Hcount]. split; [| |intros w; rewrite removeLocked_lookup|].
  all: unfold removeLocked; destruct (cache_entries c !! u) as [e|] eqn:E; cbn; try done.
  - by apply NoDup_filter.
  - rewrite filter_neq_elem, Hdom. case_decide; [|tauto]. split; [tauto|by intros [??]].
  - case_decide; [subst; by rewrite Hdom, E | done].
  - rewrite Hcount, (total_delete _ u e E). pose proof (total_nonneg (delete u (cache_entries c))).
    destruct (_ <? 0) eqn:El; bool_props; lia.
Qed.

Lemma removeLocked_length u c :
  cache_wf c -> u ∈ cache_lru c -> S (length (cache_lru (removeLocked u c))) = length (cache_lru c).
Proof.
  intros [_ Hnd Hdom _] Hin. unfold removeLocked. destruct (Hdom u) as [He _].
  destruct (He Hin) as [e E]. rewrite E. cbn. by apply filter_neq_length.
Qed.

Lemma evict_loop_spec fuel c :
  cache_wf c -> (length (cache_lru c) < fuel)%nat ->
  cache_wf (evict_loop fuel c) /\ over_limit (evict_loop fuel c) = false /\
  cache_generation (evict_loop fuel c) = cache_generation c /\
  forall u e, cache_entries (evict_loop fuel c) !! u = Some e -> cache_entries c !! u = Some e.
Proof.
  revert c. induction fuel as [|fuel IH]; intros c Hwf Hlen; [lia|]. cbn [evict_loop].
  destruct (over_limit c) eqn:Hover; [|done].
  destruct (last (cache_lru c)) as [oldest|] eqn:Hlast.
  2:{ apply last_None in Hlast. exfalso. apply not_false_iff_true in Hover. apply Hover.
      apply over_limit_false. rewrite Hlast. pose proof (wf_capacity c Hwf). unfold len. cbn. lia. }
  assert (Hin : oldest ∈ cache_lru c) by (by apply last_Some_elem_of).
  pose proof (removeLocked_length oldest c Hwf Hin).
  destruct (IH (removeLocked oldest c)) as (H1 & H2 & H3 & H4); [by apply removeLocked_wf | lia |].
  split; [done|]. split; [done|]. split.
  - rewrite H3. unfold removeLocked. by destruct (cache_entries c !! oldest).
  - intros u e He. apply H4 in He. rewrite removeLocked_lookup in He. by case_decide.
Qed.

Lemma evictLocked_spec c :
  cache_wf c ->
  cache_wf (evictLocked c) /\ over_limit (evictLocked c) = false /\
  cache_generation (evictLocked c) = cache_generation c /\
  forall u e, cache_entries (evictLocked c) !! u = Some e -> cache_entries c !! u = Some e.
Proof. intros Hwf. apply evict_loop_spec; [done | lia]. Qed.

(** A cache in its limits. *)
Definition cache_ok (c : RBACCache) : Prop := cache_wf c /\ over_limit c = false.

(** The bindings a cache would serve for a user. *)
Definition held (c : RBACCache) (u : string) : option (list RoleBinding) :=
  entry_bindings <$> cache_entries c !! u.

Lemma held_evict c u bs : cache_wf c -> held (evictLocked c) u = Some bs -> held c u = Some bs.
Proof.
  intros Hwf. unfold held. intros (e & He & ->)%fmap_Some.
  destruct (evictLocked_spec c Hwf) as (_ & _ & _ & Hsub). by rewrite (Hsub u e He).
Qed.

Lemma move_to_front_spec u l :
  NoDup l -> u ∈ l ->
  NoDup (move_to_front u l) /\ length (move_to_front u l) = length l /\
  forall w, w ∈ move_to_front u l <-> w ∈ l.
Proof.
  intros Hnd Hin. unfold move_to_front. split; [|split].
  - apply NoDup_cons. rewrite filter_neq_elem. split; [tauto | by apply NoDup_filter].
  - cbn. by apply filter_neq_length.
  - intros w. rewrite elem_of_cons, filter_neq_elem. destruct (decide (w = u)); naive_solver.
Qed.

(** Replacing the entry of a user and moving it to the front. *)
Lemma replace_wf c u e e' :
  cache_wf c -> cache_entries c !! u = Some e ->
  cache_wf (with_entries c (cache_bindingCount c + (len (entry_bindings e') - len (entry_bindings e)))
    (<[u := e']> (cache_entries c)) (move_to_front u (cache_lru c))).
Proof.
  intros [Hcap Hnd Hdom Hcount] He.
  destruct (move_to_front_spec u (cache_lru c) Hnd) as (Hnd' & _ & Hin'); [apply Hdom; by exists e|].
  split; cbn; try done.
  - intros w. rewrite Hin', Hdom, lookup_insert_is_Some. destruct (decide (w = u)) as [->|Hne].
    + rewrite He. split; [by left | by exists e].
    + split; [right; by split | by intros [?|[_ ?]]].
  - rewrite (total_insert _ u e e' He), Hcount. lia.
Qed.

Lemma insert_fresh_wf c u e :
  cache_wf c -> cache_entries c !! u = None ->
  cache_wf (with_entries (bump_next c) (cache_bindingCount c + len (entry_bindings e))
    (<[u := e]> (cache_entries c)) (u :: cache_lru c)).
Proof.
  intros [Hcap Hnd Hdom Hcount] He. split; cbn; try done.
  - apply NoDup_cons. split; [|done]. rewrite Hdom, He. by intros [].
  - intros w. rewrite elem_of_cons, Hdom, lookup_insert_is_Some. destruct (decide (w = u)); naive_solver.
  - rewrite total_insert_fresh by done. lia.
Qed.

(** Storing an entry and evicting down to the limits. *)
Lemma evict_inserted c c' u e :
  cache_wf c' -> cache_entries c' = <[u := e]> (cache_entries c) ->
  cache_ok (evictLocked c') /\ cache_generation (evictLocked c') = cache_generation c' /\
  forall w bs, held (evictLocked c') w = Some bs ->
    held c w = Some bs \/ (w = u /\ bs = entry_bindings e).
Proof.
  intros Hwf Hins. destruct (evictLocked_spec c' Hwf) as (H1 & H2 & H3 & _).
  split; [by split|]. split; [done|]. intros w bs Hw%held_evict; [|done].
  unfold held in *. rewrite Hins in Hw. destruct (decide (w = u)) as [->|Hne].
  - rewrite lookup_insert_eq in Hw. injection Hw as <-. by right.
  - rewrite lookup_insert_ne in Hw by done. by left.
Qed.

Lemma Put_spec now healthy u bs expected c :
  cache_ok c ->
  cache_ok (Put now healthy u bs expected c) /\
  cache_generation (Put now healthy u bs expected c) = cache_generation c /\
  forall w bs', held (Put now healthy u bs expected c) w = Some bs' ->
    held c w = Some bs' \/
    (w = u /\ bs' = bs /\ forall g, expected = Some g -> cache_generation c = g).
Proof.
  intros Hok. unfold Put. case_bool_decide; [by auto|].
  destruct (match expected with Some _ => _ | None => _ end) eqn:Hgen; [by auto|].
  destruct healthy; [cbn [negb]|by auto].
  assert (Hexp : forall g, expected = Some g -> cache_generation c = g).
  { intros g ->. by bool_props. }
  clear Hgen. destruct Hok as [Hwf _]. destruct (cache_entries c !! u) as [e|] eqn:He.
  - match goal with |- context [<[u := ?e']> _] => set (new := e') end.
    destruct (evict_inserted c _ u new (replace_wf c u e new Hwf He) eq_refl) as (H1 & H2 & H3).
    split; [exact H1|]. split; [exact H2|]. intros w bs' [?|[-> ->]]%H3; auto.
  - match goal with |- context [<[u := ?e']> _] => set (new := e') end.
    destruct (evict_inserted c _ u new (insert_fresh_wf c u new Hwf He) eq_refl) as (H1 & H2 & H3).
    split; [exact H1|]. split; [exact H2|]. intros w bs' [?|[-> ->]]%H3; auto.
Qed.

Lemma remove_ok u c : cache_ok c -> cache_ok (removeLocked u c).
Proof.
  intros [Hwf Hlim]. split; [by apply removeLocked_wf|]. apply over_limit_false in Hlim.
  destruct (cache_entries c !! u) as [e|] eqn:He; [|unfold removeLocked; rewrite He; by apply over_limit_false].
  pose proof (removeLocked_length u c Hwf) as Hl. rewrite (wf_dom c Hwf u), He in Hl.
  specialize (Hl ltac:(by exists e)). apply over_limit_false. unfold removeLocked in *. rewrite He in *.
  unfold len in *. cbn in *. pose proof (total_nonneg (cache_entries c)).
  rewrite (wf_count c Hwf) in *. destruct (_ <? 0) eqn:E; bool_props; lia.
Qed.

Lemma held_remove u c w bs : held (removeLocked u c) w = Some bs -> w <> u /\ held c w = Some bs.
Proof. unfold held. rewrite removeLocked_lookup. case_decide; [done|]. auto. Qed.

Lemma get_touch_spec now u id last c :
  cache_ok c ->
  cache_ok (get_touch now u id last c) /\
  cache_generation (get_touch now u id last c) = cache_generation c /\
  forall w, held (get_touch now u id last c) w = held c w.
Proof.
  intros Hok. unfold get_touch. destruct (_ <=? _); [|by auto].
  destruct (cache_entries c !! u) as [e|] eqn:He; [|by auto]. destruct (_ && _); [|by auto].
  match goal with |- context [<[u := ?e']> _] => set (new := e') end.
  destruct Hok as [Hwf Hlim]. split; [|split; [done|]].
  - pose proof (replace_wf c u e new Hwf He) as Hwf'.
    replace (cache_bindingCount c + _) with (cache_bindingCount c) in Hwf' by (cbn; lia).
    split; [exact Hwf'|]. rewrite over_limit_false in *. cbn.
    destruct (move_to_front_spec u (cache_lru c) (wf_nodup c Hwf)) as (_ & Hlen & _).
    { apply (wf_dom c Hwf). by exists e. }
    unfold len in *. by rewrite Hlen.
  - intros w. unfold held. cbn. destruct (decide (w = u)) as [->|Hne].
    + by rewrite lookup_insert_eq, He.
    + by rewrite lookup_insert_ne.
Qed.

Lemma cleared_ok c : 0 < cache_capacity c -> cache_ok (with_entries c 0 ∅ []).
Proof.
  intros Hcap. split; [split; cbn; try done; [constructor|]|].
  - intros u. rewrite lookup_empty, elem_of_nil. split; [done | by intros []].
  - apply over_limit_false. cbn. unfold len. cbn. lia.
Qed.

(** ** Coherence *)

(** After at most [n] steps: the cache is in its limits, generations have not
    wrapped, and everything the cache or a load of the current generation holds
    for a clean user is what the database says. *)
Record coherent (n : Z) (s : System) : Prop := {
  co_cache : cache_ok (sys_cache s);
  co_generation : 0 <= cache_generation (sys_cache s) <= n;
  co_older : forall ld, ld ∈ sys_loads s -> load_generation ld <= cache_generation (sys_cache s);
  co_held : forall u bs, sys_dirty s u = false -> held (sys_cache s) u = Some bs -> bs = sys_db s u;
  co_loads : forall ld bs, ld ∈ sys_loads s -> sys_dirty s (load_user ld) = false ->
    load_generation ld = cache_generation (sys_cache s) -> load_result ld = Some bs ->
    bs = sys_db s (load_user ld);
}.

Lemma coherent_mono n m s : n <= m -> coherent n s -> coherent m s.
Proof. intros Hle [H1 H2 H3 H4 H5]. split; try done. lia. Qed.

(** A change of the cache that keeps the generation and only drops bindings. *)
Lemma coherent_shrink n s c :
  coherent n s -> cache_ok c -> cache_generation c = cache_generation (sys_cache s) ->
  (forall u bs, held c u = Some bs -> held (sys_cache s) u = Some bs) ->
  coherent n (set_cache s c).
Proof.
  intros [H1 H2 H3 H4 H5] Hok Hg Hh. split; cbn; rewrite ?Hg; eauto.
Qed.

Lemma delete_elem {A} (l : list A) i x : x ∈ delete i l -> x ∈ l.
Proof. intros Hx. eapply elem_of_sublist; [exact Hx|]. apply sublist_delete. Qed.

Lemma coherent_fewer n s loads :
  coherent n s -> (forall ld, ld ∈ loads -> ld ∈ sys_loads s) -> coherent n (set_loads s loads).
Proof. intros [H1 H2 H3 H4 H5] Hsub. split; cbn; eauto. Qed.

(** An invalidation: a new generation, the entries of the users it cleans are
    gone. *)
Lemma coherent_invalidate n s dirty c :
  coherent n s -> n + 1 < 2 ^ 64 -> cache_ok c ->
  cache_generation c = wrapU64 (cache_generation (sys_cache s) + 1) ->
  (forall u bs, dirty u = false -> held c u = Some bs ->
     sys_dirty s u = false /\ held (sys_cache s) u = Some bs) ->
  coherent (n + 1) {| sys_db := sys_db s; sys_dirty := dirty; sys_cache := c; sys_loads := sys_loads s |}.
Proof.
  intros [H1 H2 H3 H4 H5] Hn Hok Hg Hh.
  rewrite wrapU64_small in Hg by (unfold MaxUint64; lia). split; cbn; rewrite ?Hg; try done.
  - lia.
  - intros ld Hld. specialize (H3 ld Hld). lia.
  - intros u bs Hd Hu. destruct (Hh u bs Hd Hu). eauto.
  - intros ld bs Hld _ Heq. specialize (H3 ld Hld). lia.
Qed.

(** Every load is an old one or a given one the invariant holds of. *)
Lemma coherent_load n s loads new :
  coherent n s -> (forall ld, ld ∈ loads -> ld ∈ sys_loads s \/ ld = new) ->
  load_generation new <= cache_generation (sys_cache s) ->
  (forall bs, sys_dirty s (load_user new) = false ->
     load_generation new = cache_generation (sys_cache s) -> load_result new = Some bs ->
     bs = sys_db s (load_user new)) ->
  coherent n (set_loads s loads).
Proof.
  intros [H1 H2 H3 H4 H5] Hin Hg Hnew. split; cbn; try done.
  - intros ld [?| ->]%Hin; auto.
  - intros ld bs [?| ->]%Hin; eauto.
Qed.

Lemma coherent_commit n s db dirty :
  coherent n s -> (forall u, sys_dirty s u = true -> dirty u = true) ->
  (forall u, dirty u = false -> db u = sys_db s u) ->
  coherent n {| sys_db := db; sys_dirty := dirty; sys_cache := sys_cache s; sys_loads := sys_loads s |}.
Proof.
  intros [H1 H2 H3 H4 H5] Hmono Hdb.
  assert (Hclean : forall u, dirty u = false -> sys_dirty s u = false).
  { intros u Hd. destruct (sys_dirty s u) eqn:E; [|done]. apply Hmono in E. congruence. }
  split; cbn; try done; intros u bs; [|intros Hld]; intros Hd; rewrite Hdb by done; eauto.
Qed.

Lemma coherent_put n s ld bs now healthy :
  coherent n s -> ld ∈ sys_loads s -> load_result ld = Some bs ->
  coherent n (set_cache s (Put now healthy (load_user ld) bs (Some (load_generation ld)) (sys_cache s))).
Proof.
  intros [H1 H2 H3 H4 H5] Hld Hres.
  destruct (Put_spec now healthy (load_user ld) bs (Some (load_generation ld)) (sys_cache s) H1)
    as (P1 & P2 & P3).
  split; cbn; rewrite ?P2; try done. intros u bs' Hd [Hu|(-> & -> & Hg)]%P3; [by eauto|].
  specialize (Hg _ eq_refl). eauto.
Qed.

Lemma step_coherent n s s' : coherent n s -> n + 1 < 2 ^ 64 -> step s s' -> coherent (n + 1) s'.
Proof.
  intros Hco Hn Hstep. pose proof (co_cache _ _ Hco) as Hok.
  destruct Hstep as [s u|s i ld bs Hi Hread|s i ld bs now healthy Hi Hres|s i|s u id|s now u id last
    |s db dirty Hmono Hdb|s u Hu|s|s].
  1-7,10: apply (coherent_mono n); [lia|].
  - eapply coherent_load; [done| | |].
    + intros ld. rewrite elem_of_app, list_elem_of_singleton. intros [?| ->]; [by left | by right].
    + done.
    + done.
  - eapply coherent_load; [done| | |].
    + intros ld' (j & Hj)%list_elem_of_lookup.
      apply list_lookup_insert_Some in Hj as [(_ & <- & _)|[_ Hj]]; [by right|].
      left. by eapply list_elem_of_lookup_2.
    + cbn. eapply (co_older _ _ Hco), list_elem_of_lookup_2, Hi.
    + cbn. intros bs' Hd Hg [= <-]. auto.
  - apply list_elem_of_lookup_2 in Hi.
    pose proof (coherent_put n s ld bs now healthy Hco Hi Hres) as Hput.
    apply (coherent_fewer n _ (delete i (sys_loads s))) in Hput; [exact Hput|].
    intros ld'. apply delete_elem.
  - apply coherent_fewer; [done|]. intros ld. apply delete_elem.
  - apply coherent_shrink; try done; unfold get_evict; destruct (still_there _ _ _); try done.
    + by apply remove_ok.
    + unfold removeLocked. by destruct (cache_entries _ !! _).
    + intros w bs [_ ?]%held_remove. done.
  - destruct (get_touch_spec now u id last (sys_cache s) Hok) as (P1 & P2 & P3).
    apply coherent_shrink; try done. intros w bs. by rewrite P3.
  - by apply coherent_commit.
  - apply coherent_shrink; try done. apply cleared_ok. apply Hok.
  - apply coherent_invalidate; try done; unfold InvalidateRBACUserLocal; rewrite bool_decide_false by done.
    + apply remove_ok. destruct Hok as [[??? Hc] ?]. split; [by split | done].
    + unfold removeLocked. by destruct (cache_entries _ !! _).
    + intros w bs Hd [Hne Hw]%held_remove. rewrite bool_decide_false in Hd by done. done.
  - apply coherent_invalidate; try done. apply cleared_ok. apply Hok.
Qed.

Lemma boot_coherent db ttl capacity : coherent 0 (boot db ttl capacity).
Proof.
  split; cbn; try done.
  - apply (cleared_ok (NewRBACCacheWithOptions ttl capacity)). cbn.
    unfold RBACCacheDefaultCapacity. destruct (capacity <=? 0) eqn:E; bool_props; lia.
  - by intros ld ?%elem_of_nil.
  - by intros ld bs ?%elem_of_nil.
Qed.

Lemma nsteps_coherent n k s s' :
  coherent k s -> nsteps step n s s' -> k + Z.of_nat n < 2 ^ 64 -> coherent (k + Z.of_nat n) s'.
Proof.
  intros Hco Hst. revert k Hco. induction Hst as [s|n s s1 s' Hstep _ IH]; intros k Hco Hk.
  - by rewrite Z.add_0_r.
  - replace (k + Z.of_nat (S n)) with (k + 1 + Z.of_nat n) by lia. apply IH; [|lia].
    apply (step_coherent k s); [done | lia | done].
Qed.

(** C7: cached permissions are never stale after an invalidation.  Whatever
    order loads, stores, evictions, touches, commits and invalidations
    interleave in (fewer than 2^64 steps, so that generations do not wrap), a
    user whose changes have all been invalidated is served from the cache
    exactly what the database holds, and a load of the current generation
    returns the same; a load begun before the invalidation can never bring the
    old bindings back.  The cache stays within its capacity and, unless it holds
    a single user, within the bound on bindings. *)
Theorem cache_coherent db ttl capacity n s :
  nsteps step n (boot db ttl capacity) s -> Z.of_nat n < 2 ^ 64 ->
  (forall u now healthy bs, sys_dirty s u = false ->
     (Get now healthy u (sys_cache s)).1 = Some bs -> bs = sys_db s u) /\
  (forall ld bs, ld ∈ sys_loads s -> sys_dirty s (load_user ld) = false ->
     load_generation ld = cache_generation (sys_cache s) -> load_result ld = Some bs ->
     bs = sys_db s (load_user ld)) /\
  Len (sys_cache s) <= cache_capacity (sys_cache s) /\
  (cache_maxBindings (sys_cache s) <= 0 \/
   total (cache_entries (sys_cache s)) <= cache_maxBindings (sys_cache s) \/
   Len (sys_cache s) <= 1).
Proof.
  intros Hst Hn. destruct (nsteps_coherent n 0 _ _ (boot_coherent db ttl capacity) Hst)
    as [[Hwf Hlim] _ _ Hheld Hloads]; [lia|].
  split; [|split; [exact Hloads|]].
  - intros u now healthy bs Hd Hg. apply (Hheld u bs Hd). unfold Get, get_read, held in *.
    case_bool_decide; [done|]. destruct healthy; [cbn [negb] in *|done].
    destruct (cache_entries (sys_cache s) !! u) as [e|]; [|done]. by destruct (_ <? _).
  - apply over_limit_false in Hlim. rewrite <- (wf_count _ Hwf). unfold Len. tauto.
Qed.

(** A load that began before a revocation stores its result after the
    invalidation: the cache refuses it. *)
Definition example_grant : list RoleBinding :=
  [binding_on [coarse "pods" ["list"]] "" "" ""].

Definition example_db (u : string) : list RoleBinding := if u == "user" then example_grant else [].

Definition example_load (g : Z) : Load :=
  {| load_user := "user"; load_generation := g; load_result := Some example_grant |}.

Definition example_state : System := {|
  sys_db _ := []; sys_dirty w := if bool_decide (w = "user") then false else w == "user";
  sys_cache := InvalidateRBACUserLocal "user" (sys_cache (boot example_db 0 0));
  sys_loads := [example_load 0] |}.

Definition example_final : System :=
  set_cache (set_loads example_state [])
    (Put 100 true "user" example_grant (Some 0) (sys_cache example_state)).

Lemma example_run : nsteps step 5 (boot example_db 0 0) example_final.
Proof.
  eapply nsteps_l; [apply (step_begin _ "user")|].
  eapply nsteps_l; [apply (step_read _ 0 {| load_user := "user"; load_generation := 0;
    load_result := None |} example_grant); done|].
  eapply nsteps_l; [apply (step_commit _ (fun _ => []) (fun w => w == "user"))|].
  - done.
  - intros u Hd. cbn. unfold example_db. by rewrite Hd.
  - eapply nsteps_l; [by apply (step_invalidate _ "user")|].
    eapply nsteps_l; [|apply nsteps_O].
    exact (step_store example_state 0 (example_load 0) example_grant 100 true eq_refl eq_refl).
Qed.

Lemma cache_coherent_witness :
  sys_dirty example_final "user" = false /\
  (forall u now healthy bs, sys_dirty example_final u = false ->
    (Get now healthy u (sys_cache example_final)).1 = Some bs -> bs = sys_db example_final u).
Proof.
  split; [reflexivity|].
  exact (proj1 (cache_coherent example_db 0 0 5 example_final example_run ltac:(lia))).
Defined.

(** A store of the current generation is served until it expires. *)
Lemma example_served :
  let c := Put 100 true "user" example_grant (Some 0) (NewRBACCacheWithOptions 0 0) in
  (Get 200 true "user" c).1 = Some example_grant /\
  (Get (101 + RBACCacheDefaultTTL) true "user" c).1 = None /\
  (Get 200 true "user" (sys_cache example_final)).1 = None.
Proof. vm_compute. auto. Qed.
End RbacCache.
