(* ===== verification/Maintenance.v ===== *)
(** * Maintenance windows (internal/maintenance/window.go)

    Decoding the rows of the database, the 30-second cache of the enabled
    windows, and the gate [IsBlocked] that every destructive operation passes.
    The time zone database and the cron library are parameters; the laws of
    [CronLaws] are the documented behaviour of [Schedule.Next]: the earliest
    activation strictly after its argument, on whole seconds, or nothing when
    there is none within the horizon the library searches (five years). *)

From Stdlib Require Import ZArith Lia.
From S2P Require Import Prelude GoStrings.
From stdpp Require Import base gmap strings list.

Open Scope Z_scope.

Module Maintenance.

Definition ModeBlackout : string := "blackout".
Definition ModePermitted : string := "permitted".
Definition OnBlockRefuse : string := "refuse".
Definition OnBlockDefer : string := "defer".

Definition KnownOperationTypes : list string :=
  ["cluster.delete"; "project.delete"; "tool.install"; "tool.upgrade"; "tool.uninstall";
   "helm.install"; "helm.uninstall"; "cluster_template.apply"; "charlie.action";
   "delivery.rollout"].

Definition second : duration := 1000000000.
Definition minute : duration := 60 * second.

Record Window := {
  window_ID : uuid;
  window_Name : string;
  window_Mode : string;
  window_CronOpen : string;
  window_DurationMinutes : Z;
  window_Timezone : string;
  window_ClusterSelector : gmap string string;
  window_OperationTypes : list string;
  window_OnBlock : string;
  window_Enabled : bool;
}.

(** [sqlc.MaintenanceWindow], as far as the source reads it. *)
Record WindowRow := {
  wrow_ID : uuid;
  wrow_Name : string;
  wrow_Mode : string;
  wrow_CronOpen : string;
  wrow_DurationMinutes : Z;
  wrow_Timezone : string;
  wrow_ClusterSelector : string;
  wrow_OperationTypes : string;
  wrow_OnBlock : string;
  wrow_Enabled : bool;
}.

(** ** Rows *)

Section rows.
(** [json.Unmarshal] into a map of strings and into a list of strings. *)
Context (json_Map : string -> option (gmap string string)) (json_List : string -> option (list string)).

Definition FromSQLC (row : WindowRow) : res Window :=
  sel ← (if (0 <? slen (wrow_ClusterSelector row)) && (wrow_ClusterSelector row != "{}") then
           match json_Map (wrow_ClusterSelector row) with
           | Some m => Ok m
           | None => Err (EText "decode cluster_selector for window %s: %w")
           end
         else Ok ∅);
  ops ← (if (0 <? slen (wrow_OperationTypes row)) && (wrow_OperationTypes row != "[]") then
           match json_List (wrow_OperationTypes row) with
           | Some l => Ok l
           | None => Err (EText "decode operation_types for window %s: %w")
           end
         else Ok []);
  Ok {| window_ID := wrow_ID row; window_Name := wrow_Name row; window_Mode := wrow_Mode row;
        window_CronOpen := wrow_CronOpen row; window_DurationMinutes := wrow_DurationMinutes row;
        window_Timezone := wrow_Timezone row; window_ClusterSelector := sel;
        window_OperationTypes := ops; window_OnBlock := wrow_OnBlock row;
        window_Enabled := wrow_Enabled row |}.

(** ** The cached evaluator *)

Record Evaluator := {
  ev_ttl : duration;
  ev_cached : list Window;
  ev_cachedAt : time;
}.

Definition NewEvaluator : Evaluator :=
  {| ev_ttl := 30 * second; ev_cached := []; ev_cachedAt := 0 |}.

(** The rows that decode. *)
Definition decode_rows (rows : list WindowRow) : list Window :=
  omap (fun row => match FromSQLC row with Ok w => Some w | Err _ => None end) rows.

Definition cache_fresh (e : Evaluator) (now : time) : bool :=
  (ev_cachedAt e != 0) && (now - ev_cachedAt e <? ev_ttl e).

(** [Windows]: the clock is read at the check under the read lock, at the one
    under the write lock and when the cache is filled; [query] is
    [ListEnabledMaintenanceWindows]. *)
Definition Windows (now1 now2 now3 : time) (query : res (list WindowRow)) (e : Evaluator) :
    res (list Window) * Evaluator :=
  if cache_fresh e now1 then (Ok (ev_cached e), e)
  else if cache_fresh e now2 then (Ok (ev_cached e), e)
  else
    match query with
    | Err err => (Err err, e)
    | Ok rows =>
        let out := decode_rows rows in
        (Ok out, {| ev_ttl := ev_ttl e; ev_cached := out; ev_cachedAt := now3 |})
    end.

Definition Invalidate (e : Evaluator) : Evaluator :=
  {| ev_ttl := ev_ttl e; ev_cached := []; ev_cachedAt := 0 |}.
End rows.

(** ** The gate *)

Definition appliesToOp (w : Window) (opType : string) : bool :=
  if len (window_OperationTypes w) =? 0 then true
  else existsb (fun t => t == opType) (window_OperationTypes w).

Definition appliesToCluster (w : Window) (clusterLabels : gmap string string) : bool :=
  if Z.of_nat (size (window_ClusterSelector w)) =? 0 then true
  else if Z.of_nat (size clusterLabels) =? 0 then false
  else forallb (fun '(k, v) => default "" (clusterLabels !! k) == v)
         (map_to_list (window_ClusterSelector w)).

(** github.com/robfig/cron/v3 and the time zone database: a parsed expression
    and the next activation after an instant in a location, [None] being the
    zero time. *)
Class Cron := {
  Location : Type;
  Schedule : Type;
  UTC : Location;
  LoadLocation : string -> option Location;
  cron_Parse : string -> option Schedule;
  cron_Next : Schedule -> Location -> time -> option time;
}.

(** [fires s loc t]: the expression has an activation at [t]. *)
Class CronLaws `{Cron} := {
  fires : Schedule -> Location -> time -> Prop;
  horizon : duration;
  next_fires : forall s loc t f, cron_Next s loc t = Some f -> fires s loc f;
  next_after : forall s loc t f, cron_Next s loc t = Some f -> t < f;
  next_first : forall s loc t f f', cron_Next s loc t = Some f -> fires s loc f' -> t < f' -> f <= f';
  next_second : forall s loc t f, cron_Next s loc t = Some f -> f mod second = 0;
  next_none : forall s loc t f, cron_Next s loc t = None -> fires s loc f -> t < f -> t + horizon < f;
}.

Section gate.
Context `{Cron}.

Definition loadLocation (name : string) : option Location :=
  if name == "" then Some UTC else LoadLocation name.

(** [time.Duration(w.DurationMinutes) * time.Minute] *)
Definition window_dur (w : Window) : duration := wrapS64 (window_DurationMinutes w * minute).

Definition IsActive (w : Window) (now : time) : res bool :=
  match loadLocation (window_Timezone w) with
  | None => Err (EText "load timezone %q: %w")
  | Some loc =>
      match cron_Parse (TrimSpace (window_CronOpen w)) with
      | None => Err (EText "parse cron %q: %w")
      | Some expr =>
          let dur := window_dur w in
          if dur <=? 0 then Ok false
          else match cron_Next expr loc (now - dur) with
               | None => Ok false
               | Some next => Ok (negb (now <? next))
               end
      end
  end.

(** The guards shared by the two passes of [IsBlocked]. *)
Definition considered (mode : string) (opType : string) (clusterLabels : gmap string string)
    (w : Window) : bool :=
  window_Enabled w && (window_Mode w == mode) && appliesToOp w opType &&
  appliesToCluster w clusterLabels.

Fixpoint blackout_pass (opType : string) (clusterLabels : gmap string string) (now : time)
    (windows : list Window) : option Window :=
  match windows with
  | [] => None
  | w :: rest =>
      let continue := blackout_pass opType clusterLabels now rest in
      if negb (considered ModeBlackout opType clusterLabels w) then continue
      else match IsActive w now with
           | Err _ => continue
           | Ok active => if active then Some w else continue
           end
  end.

(** [matched], [activeCount] and [firstInactive] of the second pass. *)
Record PermittedCount := {
  pc_matched : Z;
  pc_active : Z;
  pc_firstInactive : option Window;
}.

Definition permitted_step (opType : string) (clusterLabels : gmap string string) (now : time)
    (pc : PermittedCount) (w : Window) : PermittedCount :=
  if negb (considered ModePermitted opType clusterLabels w) then pc
  else match IsActive w now with
       | Err _ => pc
       | Ok true => {| pc_matched := pc_matched pc + 1; pc_active := pc_active pc + 1;
                       pc_firstInactive := pc_firstInactive pc |}
       | Ok false => {| pc_matched := pc_matched pc + 1; pc_active := pc_active pc;
                        pc_firstInactive := match pc_firstInactive pc with
                                            | None => Some w
                                            | Some x => Some x
                                            end |}
       end.

(** [IsBlocked]: whether the operation is blocked, and the window that says so. *)
Definition IsBlocked (windows : res (list Window)) (opType : string)
    (clusterLabels : gmap string string) (now : time) : res (bool * option Window) :=
  windows ← windows;
  match blackout_pass opType clusterLabels now windows with
  | Some w => Ok (true, Some w)
  | None =>
      let pc := foldl (permitted_step opType clusterLabels now)
                  {| pc_matched := 0; pc_active := 0; pc_firstInactive := None |} windows in
      if (0 <? pc_matched pc) && (pc_active pc =? 0) then Ok (true, pc_firstInactive pc)
      else Ok (false, None)
  end.

Definition NextOpen (w : Window) (now : time) : option time :=
  match loadLocation (window_Timezone w) with
  | None => None
  | Some loc =>
      match cron_Parse (TrimSpace (window_CronOpen w)) with
      | None => None
      | Some expr => cron_Next expr loc now
      end
  end.

(** The loop of [NextClose]: the last activation up to [now] after [cursor]. *)
Fixpoint last_open (fuel : nat) (expr : Schedule) (loc : Location) (now cursor : time)
    (lastOpen : option time) : res (option time) :=
  match fuel with
  | O => Err EFuel
  | S fuel =>
      match cron_Next expr loc cursor with
      | None => Ok lastOpen
      | Some next => if now <? next then Ok lastOpen
                     else last_open fuel expr loc now next (Some next)
      end
  end.

(** Activations lie on whole seconds, so the loop makes at most one step per
    second of the duration and two more. *)
Definition close_fuel (dur : duration) : nat := Z.to_nat (Z.max dur 0 / second + 2).

Definition NextClose (w : Window) (now : time) : res (option time) :=
  match loadLocation (window_Timezone w) with
  | None => Ok None
  | Some loc =>
      match cron_Parse (TrimSpace (window_CronOpen w)) with
      | None => Ok None
      | Some expr =>
          let dur := window_dur w in
          lastOpen ← last_open (close_fuel dur) expr loc now (now - dur) None;
          Ok (option_map (fun t => t + dur) lastOpen)
      end
  end.
End gate.

(** ** When a window is open *)

Section open.
Set Default Proof Using "Type*".
Context `{Cron, !CronLaws}.

(** Minutes whose duration fits in 64 bits and in the search of the library. *)
Definition sane (w : Window) : Prop :=
  MinInt64 <= window_DurationMinutes w * minute <= MaxInt64 /\
  window_DurationMinutes w * minute <= horizon.

(** Time zone and expression are readable. *)
Definition readable (w : Window) : Prop :=
  is_Some (loadLocation (window_Timezone w)) /\ is_Some (cron_Parse (TrimSpace (window_CronOpen w))).

(** The window has opened at [f] and has not closed yet. *)
Definition open_since (w : Window) (now f : time) : Prop :=
  exists loc expr, loadLocation (window_Timezone w) = Some loc /\
    cron_Parse (TrimSpace (window_CronOpen w)) = Some expr /\
    fires expr loc f /\ f <= now < f + window_DurationMinutes w * minute.

Definition is_open (w : Window) (now : time) : Prop := exists f, open_since w now f.

Lemma IsActive_spec w now :
  sane w ->
  match IsActive w now with
  | Ok active => readable w /\ (active = true <-> is_open w now)
  | Err _ => ~ readable w
  end.
Proof.
  intros [Hr Hh]. unfold IsActive, readable, is_open, open_since, window_dur.
  rewrite wrapS64_small by done. set (dur := window_DurationMinutes w * minute) in *.
  destruct (loadLocation (window_Timezone w)) as [loc|]; [|by intros [[? ?] _]].
  destruct (cron_Parse (TrimSpace (window_CronOpen w))) as [expr|]; [|by intros [_ [? ?]]].
  destruct (dur <=? 0) eqn:Ed; bool_props.
  { split; [by split; eexists|]. split; [done|]. intros (f & loc' & expr' & _ & _ & _ & ?). lia. }
  destruct (cron_Next expr loc (now - dur)) as [next|] eqn:En; (split; [by split; eexists|]).
  - rewrite negb_true_iff, Z.ltb_ge. split.
    + intros Hle. exists next, loc, expr. repeat (split; [done|]).
      split; [by eapply next_fires|]. apply next_after in En. lia.
    + intros (f & loc' & expr' & [= <-] & [= <-] & Hf & Hrange).
      pose proof (next_first _ _ _ _ f En Hf ltac:(lia)). lia.
  - split; [done|]. intros (f & loc' & expr' & [= <-] & [= <-] & Hf & Hrange).
    pose proof (next_none _ _ _ f En Hf ltac:(lia)). lia.
Qed.

Lemma blackout_pass_spec op labels now ws :
  Forall sane ws ->
  match blackout_pass op labels now ws with
  | Some w => w ∈ ws /\ considered ModeBlackout op labels w = true /\ is_open w now
  | None => forall w, w ∈ ws -> considered ModeBlackout op labels w = true -> ~ is_open w now
  end.
Proof.
  induction 1 as [|w ws Hw _ IH]; cbn [blackout_pass]; [by intros w ?%elem_of_nil|].
  pose proof (IsActive_spec w now Hw) as Ha.
  assert (Hskip : (considered ModeBlackout op labels w = true -> ~ is_open w now) ->
    match blackout_pass op labels now ws with
    | Some w0 => w0 ∈ w :: ws /\ considered ModeBlackout op labels w0 = true /\ is_open w0 now
    | None => forall w0, w0 ∈ w :: ws -> considered ModeBlackout op labels w0 = true -> ~ is_open w0 now
    end).
  { intros Hno. destruct (blackout_pass op labels now ws).
    - destruct IH as (? & ? & ?). split; [by right | done].
    - intros w0 [->|?]%elem_of_cons; auto. }
  destruct (considered ModeBlackout op labels w) eqn:Ec; cbn [negb]; [|apply Hskip; congruence].
  destruct (IsActive w now) as [[|]|]; [| |].
  - split; [by left|]. split; [done|]. by apply Ha.
  - apply Hskip. intros _ Ho. destruct Ha as [_ Ha]. by apply Ha in Ho.
  - apply Hskip. intros _ (f & loc & expr & Hl & Hp & _). apply Ha. split; by eexists.
Qed.

(** The windows the second pass counts. *)
Definition counted (op : string) (labels : gmap string string) (w : Window) : Prop :=
  considered ModePermitted op labels w = true /\ readable w.

Record counts (op : string) (labels : gmap string string) (now : time) (ws : list Window)
    (pc : PermittedCount) : Prop := {
  counts_active : 0 <= pc_active pc;
  counts_matched : 0 < pc_matched pc <-> exists w, w ∈ ws /\ counted op labels w;
  counts_open : pc_active pc <> 0 <-> exists w, w ∈ ws /\ counted op labels w /\ is_open w now;
  counts_nonneg : 0 <= pc_matched pc;
  counts_first : forall w, pc_firstInactive pc = Some w ->
    w ∈ ws /\ counted op labels w /\ ~ is_open w now;
  counts_some : pc_firstInactive pc = None ->
    forall w, w ∈ ws -> counted op labels w -> is_open w now;
}.

Lemma exists_snoc (P : Window -> Prop) ws w :
  (exists x, x ∈ ws ++ [w] /\ P x) <-> (exists x, x ∈ ws /\ P x) \/ P w.
Proof using Type.
  setoid_rewrite elem_of_app. setoid_rewrite list_elem_of_singleton. split.
  - intros (x & [Hx| ->] & HP); eauto.
  - intros [(x & Hx & HP)|HP]; eauto.
Qed.

(** A window that is not counted changes nothing. *)
Lemma counts_skip op labels now ws pc w :
  counts op labels now ws pc -> ~ counted op labels w -> counts op labels now (ws ++ [w]) pc.
Proof using Type.
  intros [H1 H2 H3 H4 H5 H6] Hno. split; try done.
  - rewrite exists_snoc. tauto.
  - rewrite exists_snoc. tauto.
  - intros x Hx. destruct (H5 x Hx) as (? & ? & ?). split; [|done]. apply elem_of_app. by left.
  - intros Hn x [Hx|Hx]%elem_of_app; [by apply H6|].
    apply list_elem_of_singleton in Hx as ->. by intros ?%Hno.
Qed.

Lemma counts_step op labels now ws pc w :
  sane w -> counts op labels now ws pc ->
  counts op labels now (ws ++ [w]) (permitted_step op labels now pc w).
Proof.
  intros Hw Hc. unfold permitted_step. pose proof (IsActive_spec w now Hw) as Ha.
  destruct (considered ModePermitted op labels w) eqn:Ec; cbn [negb].
  2:{ apply counts_skip; [done|]. unfold counted. rewrite Ec. by intros [? _]. }
  destruct (IsActive w now) as [active|].
  2:{ apply counts_skip; [done|]. by intros [_ ?]. }
  destruct Ha as [Hread Ha]. assert (Hcw : counted op labels w) by done.
  destruct Hc as [H1 H2 H3 H4 H5 H6].
  assert (Hfirst : forall x, pc_firstInactive pc = Some x ->
    x ∈ ws ++ [w] /\ counted op labels x /\ ~ is_open x now).
  { intros x Hx. destruct (H5 x Hx) as (? & ? & ?). split; [|done]. apply elem_of_app. by left. }
  destruct active; split; cbn; try lia; rewrite ?exists_snoc.
  - split; [by right | lia].
  - assert (is_open w now) by (by apply Ha). split; [by right | lia].
  - done.
  - intros Hn x [Hx|Hx]%elem_of_app; [by apply H6|].
    apply list_elem_of_singleton in Hx as ->. intros _. by apply Ha.
  - split; [by right | lia].
  - assert (~ is_open w now) by (by intros ?%Ha). rewrite H3. tauto.
  - intros x. destruct (pc_firstInactive pc) as [y|] eqn:Ey; [by auto|]. intros [= <-].
    split; [apply elem_of_app; right; by left|]. split; [done|]. by intros ?%Ha.
  - by destruct (pc_firstInactive pc).
Qed.

Lemma counts_fold op labels now ws :
  Forall sane ws ->
  counts op labels now ws (foldl (permitted_step op labels now)
    {| pc_matched := 0; pc_active := 0; pc_firstInactive := None |} ws).
Proof.
  induction ws as [|w ws IH] using rev_ind; intros Hs.
  - split; cbn; rewrite ?exists_elem_nil; try lia; [done|].
    by intros _ w ?%elem_of_nil.
  - apply Forall_app in Hs as [Hs Hw]. apply Forall_cons_iff in Hw as [Hw _].
    rewrite foldl_snoc. apply counts_step; [done | by apply IH].
Qed.

(** C31: the maintenance gate blocks exactly when it should.  An operation is
    blocked exactly when an enabled blackout window that covers it is open, or
    when some readable permitted window covers it and none of those is open;
    the window reported is one that blocks it.  A window is open from an
    activation of its cron expression, in its time zone, until its duration has
    passed: one look at the first activation after now minus the duration
    decides that. *)
Theorem IsBlocked_exact ws op labels now blocked w :
  Forall sane ws -> IsBlocked (Ok ws) op labels now = Ok (blocked, w) ->
  (blocked = true <->
     (exists x, x ∈ ws /\ considered ModeBlackout op labels x = true /\ is_open x now) \/
     ((exists x, x ∈ ws /\ counted op labels x) /\
      ~ exists x, x ∈ ws /\ counted op labels x /\ is_open x now)) /\
  match w with
  | Some x => blocked = true /\ x ∈ ws /\
      ((considered ModeBlackout op labels x = true /\ is_open x now) \/
       (counted op labels x /\ ~ is_open x now))
  | None => blocked = false
  end.
Proof.
  intros Hs. unfold IsBlocked. cbn [mbind res_bind].
  pose proof (blackout_pass_spec op labels now ws Hs) as Hb.
  destruct (blackout_pass op labels now ws) as [x|].
  { intros [= <- <-]. split; [split; [left; by exists x | done]|]. destruct Hb as (? & ? & ?). auto. }
  destruct (counts_fold op labels now ws Hs) as [H1 H2 H3 H4 H5 H6].
  set (pc := foldl _ _ ws) in *.
  assert (Hno : ~ exists x, x ∈ ws /\ considered ModeBlackout op labels x = true /\ is_open x now).
  { intros (x & Hx & Hc & Ho). by apply (Hb x). }
  destruct ((0 <? pc_matched pc) && (pc_active pc =? 0)) eqn:E.
  - bool_props. intros [= <- <-]. split.
    + split; [|done]. intros _. right. rewrite <- H2, <- H3. tauto.
    + destruct (pc_firstInactive pc) as [x|]; [destruct (H5 x eq_refl) as (? & ? & ?); auto|].
      assert (exists x, x ∈ ws /\ counted op labels x) as (x & Hx & Hc) by (by apply H2).
      assert (pc_active pc <> 0) by (apply H3; eauto). done.
  - intros [= <- <-]. split; [|done]. split; [done|]. rewrite <- H2, <- H3.
    intros [?|[Hm Ha]]; [done|]. apply andb_false_iff in E. rewrite Z.ltb_ge, Z.eqb_neq in E. lia.
Qed.

(** ** When an open window closes *)

(** [r] is the latest activation in the interval after [cursor], or [acc] when
    there is none. *)
Definition latest (expr : Schedule) (loc : Location) (now cursor : time) (acc r : option time) : Prop :=
  (r = acc /\ forall f, fires expr loc f -> ~ cursor < f <= now) \/
  exists f, r = Some f /\ fires expr loc f /\ cursor < f <= now /\
    forall f', fires expr loc f' -> cursor < f' <= now -> f' <= f.

Lemma latest_step expr loc now cursor next acc r :
  cron_Next expr loc cursor = Some next -> next <= now ->
  latest expr loc now next (Some next) r -> latest expr loc now cursor acc r.
Proof.
  intros En Hle Hl. pose proof (next_after _ _ _ _ En). right.
  assert (Hfirst : forall f, fires expr loc f -> cursor < f <= now -> f = next \/ next < f <= now).
  { intros f Hf Hr. pose proof (next_first _ _ _ _ f En Hf ltac:(lia)). lia. }
  destruct Hl as [[-> Hno]|(f & -> & Hf & Hr & Hmax)].
  - exists next. split; [done|]. split; [by eapply next_fires|]. split; [lia|].
    intros f' Hf' Hr'. destruct (Hfirst f' Hf' Hr') as [->|Hn]; [lia|]. by destruct (Hno f' Hf').
  - exists f. split; [done|]. split; [done|]. split; [lia|].
    intros f' Hf' Hr'. destruct (Hfirst f' Hf' Hr') as [->|Hn]; [lia|]. by apply Hmax.
Qed.

Lemma latest_stop expr loc now cursor acc :
  now <= cursor + horizon ->
  match cron_Next expr loc cursor with Some next => now < next | None => True end ->
  latest expr loc now cursor acc acc.
Proof.
  intros Hh Hn. left. split; [done|]. intros f Hf Hr.
  destruct (cron_Next expr loc cursor) as [next|] eqn:En.
  - pose proof (next_first _ _ _ _ f En Hf ltac:(lia)). lia.
  - pose proof (next_none _ _ _ f En Hf ltac:(lia)). lia.
Qed.

(** From a whole second on every step of the loop is at least a second long. *)
Lemma last_open_whole expr loc now fuel cursor acc :
  cursor mod second = 0 -> now <= cursor + horizon -> (0 < fuel)%nat ->
  now - cursor < Z.of_nat fuel * second ->
  exists r, last_open fuel expr loc now cursor acc = Ok r /\ latest expr loc now cursor acc r.
Proof.
  revert cursor acc. induction fuel as [|fuel IH]; intros cursor acc Hmod Hh Hf Hlen; [lia|].
  cbn [last_open]. pose proof (latest_stop expr loc now cursor acc Hh) as Hstop.
  destruct (cron_Next expr loc cursor) as [next|] eqn:En; [|by eauto].
  destruct (now <? next) eqn:El; bool_props; [by eauto|].
  pose proof (next_after _ _ _ _ En). pose proof (next_second _ _ _ _ En) as Hmod'.
  assert (Hsec : cursor + second <= next).
  { apply Z.mod_divide in Hmod as [a ->]; [|done]. apply Z.mod_divide in Hmod' as [b ->]; [|done].
    unfold second in *. lia. }
  unfold second in Hlen, Hsec.
  destruct (IH next (Some next) Hmod') as (r & Hr & Hl); [lia | lia | unfold second; lia |].
  exists r. split; [done|]. by eapply latest_step.
Qed.

Lemma last_open_spec expr loc now dur :
  dur <= horizon ->
  exists r, last_open (close_fuel dur) expr loc now (now - dur) None = Ok r /\
    latest expr loc now (now - dur) None r.
Proof.
  intros Hh. unfold close_fuel.
  assert (Hd : Z.max dur 0 < (Z.max dur 0 / second + 1) * second).
  { pose proof (Z.div_mod (Z.max dur 0) second ltac:(done)).
    pose proof (Z.mod_pos_bound (Z.max dur 0) second ltac:(done)). unfold second in *. lia. }
  assert (Hq : 0 <= Z.max dur 0 / second) by (apply Z.div_pos; [lia | done]).
  set (q := Z.max dur 0 / second) in *. replace (Z.to_nat (q + 2)) with (S (Z.to_nat (q + 1))) by lia.
  cbn [last_open]. pose proof (latest_stop expr loc now (now - dur) None ltac:(lia)) as Hstop.
  destruct (cron_Next expr loc (now - dur)) as [next|] eqn:En; [|by eauto].
  destruct (now <? next) eqn:El; bool_props; [by eauto|]. pose proof (next_after _ _ _ _ En).
  destruct (last_open_whole expr loc now (Z.to_nat (q + 1)) next (Some next)) as (r & Hr & Hl);
    [by eapply next_second | lia | lia | unfold second in *; lia |].
  exists r. split; [done|]. by eapply latest_step.
Qed.

(** The closing time of a window.  [NextClose] always returns: its loop ends
    within one step per second of the duration; the result is the end of the
    latest opening that is still running, and nothing exactly when the window
    is not open. *)
Theorem NextClose_exact w now :
  sane w ->
  match NextClose w now with
  | Err _ => False
  | Ok None => ~ is_open w now
  | Ok (Some t) => exists f, open_since w now f /\
      t = f + window_DurationMinutes w * minute /\ now < t /\
      forall f', open_since w now f' -> f' <= f
  end.
Proof.
  intros [Hr Hh]. unfold NextClose, is_open, open_since, window_dur.
  rewrite wrapS64_small by done. set (dur := window_DurationMinutes w * minute) in *.
  destruct (loadLocation (window_Timezone w)) as [loc|]; [|by intros (? & ? & ? & ? & _)].
  destruct (cron_Parse (TrimSpace (window_CronOpen w))) as [expr|]; [|by intros (? & ? & ? & _ & ? & _)].
  destruct (last_open_spec expr loc now dur Hh) as (r & -> & Hl). cbn.
  destruct Hl as [[-> Hno]|(f & -> & Hf & Hrange & Hmax)]; cbn.
  - intros (f & loc' & expr' & [= <-] & [= <-] & Hf & ?). apply (Hno f Hf). lia.
  - exists f. split; [exists loc, expr; repeat (split; [done|]); lia|]. split; [done|].
    split; [lia|]. intros f' (loc' & expr' & [= <-] & [= <-] & Hf' & ?). apply Hmax; [done | lia].
Qed.
End open.

(** ** A concrete schedule

    An expression that fires at every whole hour, in every zone. *)

Module Hourly.
Definition hour : duration := 3600 * second.

#[export] Instance cron : Cron := {|
  Location := string; Schedule := string; UTC := "UTC";
  LoadLocation name := Some name;
  cron_Parse text := if text == "" then None else Some text;
  cron_Next _ _ t := Some ((t / hour + 1) * hour) |}.

#[export] Instance cron_laws : CronLaws.
Proof.
  refine {| fires _ _ t := (exists k, t = k * hour)%Z; horizon := 5 * 366 * 24 * hour |}; cbn.
  - intros s loc t f [= <-]. by eexists.
  - intros s loc t f [= <-]. pose proof (Z.div_mod t hour ltac:(done)).
    pose proof (Z.mod_pos_bound t hour ltac:(done)). unfold hour, second in *. lia.
  - intros s loc t f f' [= <-] [k ->] Hlt. assert (t / hour < k); [|unfold hour, second in *; lia].
    apply Z.div_lt_upper_bound; [done|]. unfold hour, second in *. lia.
  - intros s loc t f [= <-]. unfold hour. rewrite Z.mul_assoc. apply Z.mod_mul. done.
  - done.
Defined.
End Hourly.
Import Hourly.

Definition example_window (mode : string) (minutes : Z) (labels : gmap string string) : Window := {|
  window_ID := uuid_Nil; window_Name := mode; window_Mode := mode; window_CronOpen := "0 * * * *";
  window_DurationMinutes := minutes; window_Timezone := ""; window_ClusterSelector := labels;
  window_OperationTypes := []; window_OnBlock := OnBlockRefuse; window_Enabled := true |}.

Definition example_windows : list Window :=
  [example_window ModeBlackout 10 (<["tier" := "prod"]> ∅); example_window ModePermitted 30 ∅].

Lemma example_sane : Forall (@sane Hourly.cron Hourly.cron_laws) example_windows.
Proof. repeat constructor; vm_compute; discriminate. Qed.

(** Five minutes past the hour: blacked out for production clusters, permitted
    for others; forty minutes past it nothing is permitted. *)
Definition at_minute (m : Z) : time := 500 * Hourly.hour + m * minute.

Lemma IsBlocked_exact_witness :
  true = true <->
  (exists x, x ∈ example_windows /\
     considered ModeBlackout "helm.install" ∅ x = true /\ is_open x (at_minute 40)) \/
  ((exists x, x ∈ example_windows /\ counted "helm.install" ∅ x) /\
   ~ exists x, x ∈ example_windows /\ counted "helm.install" ∅ x /\ is_open x (at_minute 40)).
Proof.
  exact (proj1 (@IsBlocked_exact Hourly.cron Hourly.cron_laws example_windows "helm.install" ∅
    (at_minute 40) true (Some (example_window ModePermitted 30 ∅)) example_sane eq_refl)).
Defined.

Lemma example_blocked :
  IsBlocked (Ok example_windows) "helm.install" (<["tier" := "prod"]> ∅) (at_minute 5) =
    Ok (true, Some (example_window ModeBlackout 10 (<["tier" := "prod"]> ∅))) /\
  IsBlocked (Ok example_windows) "helm.install" ∅ (at_minute 5) = Ok (false, None).
Proof. vm_compute. auto. Qed.

Lemma NextClose_exact_witness : exists f,
  open_since (example_window ModePermitted 30 ∅) (at_minute 5) f /\ at_minute 30 = f + 30 * minute.
Proof.
  pose proof (@NextClose_exact Hourly.cron Hourly.cron_laws (example_window ModePermitted 30 ∅)
    (at_minute 5)) as Hspec.
  assert (Hs : sane (example_window ModePermitted 30 ∅)) by (split; vm_compute; [split|]; discriminate).
  assert (Hn : NextClose (example_window ModePermitted 30 ∅) (at_minute 5) = Ok (Some (at_minute 30)))
    by (vm_compute; reflexivity).
  specialize (Hspec Hs). rewrite Hn in Hspec. destruct Hspec as (f & Hf & He & _).
  exists f. split; [exact Hf | exact He].
Defined.
End Maintenance.
