(* ===== verification/NsFilter.v ===== *)
(** * Namespace filtering of proxied Kubernetes responses (internal/tunnel/nsfilter.go)

    [applyNamespaceFilter] rewrites a buffered list response so that a
    namespace-scoped caller only receives items of their namespaces;
    [watchLineFilter] does the same for the newline-delimited events of a watch
    stream, whatever chunks the stream arrives in.  Decoding JSON text into an
    object is a parameter, encoding a tree is the one of [External]; a Go map of
    a decoded object is the list of its fields. *)

From Stdlib Require Import ZArith Lia.
From S2P Require Import Prelude GoStrings External Overrides Base64.
From stdpp Require Import base gmap strings list.
Import Overrides.

Open Scope Z_scope.

Module NsFilter.

Definition errNamespaceFilterForbidden : error :=
  EText "tunnel: k8s list response not filterable for namespace-scoped user".
Definition errWatchLineTooLong : error := EText "tunnel: watch event exceeds size limit".

(** [v, _ := m[k].(string)], empty when missing or no string. *)
Definition get_string (k : string) (fields : list (string * json)) : string :=
  match obj_get k fields with Some (JString s) => s | _ => "" end.

Definition itemNamespaceKey (item : list (string * json)) (kind : string) : option string :=
  match obj_get "metadata" item with
  | Some (JObject meta) =>
      let key := if kind == "NamespaceList" then "name" else "namespace" in
      match obj_get key meta with
      | Some (JString v) => if v == "" then None else Some v
      | _ => None
      end
  | _ => None
  end.

(** The test of one item of a list. *)
Definition keep_item (kind : string) (allowed : gset string) (raw : json) : bool :=
  match raw with
  | JObject item =>
      match itemNamespaceKey item kind with
      | Some ns => bool_decide (ns ∈ allowed)
      | None => false
      end
  | _ => false
  end.

Definition emptyListTree (obj : list (string * json)) (kind : string) : list (string * json) :=
  let out := [("kind", JString kind); ("items", JArray [])] in
  let out := match obj_get "apiVersion" obj with
             | Some (JString av) => obj_set "apiVersion" (JString av) out
             | _ => out
             end in
  match obj_get "metadata" obj with
  | Some md => obj_set "metadata" md out
  | None => obj_set "metadata" (JObject []) out
  end.

(** The object [filterK8sListByNamespace] encodes. *)
Definition filter_tree (obj : list (string * json)) (allowed : gset string) :
    res (list (string * json)) :=
  let kind := get_string "kind" obj in
  if kind == "" then Err errNamespaceFilterForbidden
  else match obj_get "items" obj with
       | Some (JArray items) =>
           if negb (HasSuffix kind "List") then Ok (emptyListTree obj kind)
           else Ok (obj_set "items" (JArray (List.filter (keep_item kind allowed) items)) obj)
       | _ => Ok (emptyListTree obj kind)
       end.

(** [protocol.K8sResponsePayload] *)
Record K8sResponsePayload := {
  resp_StatusCode : Z;
  resp_Headers : gmap string string;
  resp_Body : string;
}.

(** [strings.EqualFold(k, "Content-Length")]: no letter of the name has a
    non-ASCII case variant. *)
Definition is_content_length (k : string) : bool := string_map lower_byte k == "content-length".

Definition setContentLengthHeader (h : gmap string string) (n : Z) : gmap string string :=
  <["Content-Length" := itoa n]> (filter (fun kv => is_content_length kv.1 = false) h).

Section filter.
(** [json.Unmarshal] into a [map[string]any]; [null] gives the empty map. *)
Context `{External} (json_Object : string -> option (list (string * json))).

Definition filterK8sListByNamespace (bodyBytes : string) (allowed : gset string) : res string :=
  match json_Object bodyBytes with
  | None => Err errNamespaceFilterForbidden
  | Some obj =>
      tree ← filter_tree obj allowed;
      match json_Marshal (JObject tree) with
      | Some out => Ok out
      | None => Err (EText "marshal")
      end
  end.

Definition applyNamespaceFilter (resp : K8sResponsePayload) (allowed : gset string) :
    res K8sResponsePayload :=
  if negb (resp_StatusCode resp =? 0) &&
     ((resp_StatusCode resp <? 200) || (300 <=? resp_StatusCode resp))
  then Ok resp
  else
    bodyBytes ← (if resp_Body resp != "" then
                   match Base64.decode (resp_Body resp) with
                   | Some decoded => Ok decoded
                   | None => Err errNamespaceFilterForbidden
                   end
                 else Ok "");
    filtered ← filterK8sListByNamespace bodyBytes allowed;
    Ok {| resp_StatusCode := resp_StatusCode resp;
          resp_Headers := setContentLengthHeader (resp_Headers resp) (slen filtered);
          resp_Body := Base64.encode filtered |}.

(** ** Watch streams *)

(** [watchEventAllowed]; [None] is a decoding error. *)
Definition watchEventAllowed (body : string) (allowed : gset string) : option bool :=
  match json_Object body with
  | None => None
  | Some ev =>
      let typ := get_string "type" ev in
      if (typ == "BOOKMARK") || (typ == "ERROR") then Some true
      else match obj_get "object" ev with
           | Some (JObject obj) =>
               match obj_get "metadata" obj with
               | Some (JObject meta) =>
                   if get_string "kind" obj == "Namespace" then
                     let name := get_string "name" meta in
                     if name == "" then Some false else Some (bool_decide (name ∈ allowed))
                   else
                     let ns := get_string "namespace" meta in
                     if ns == "" then Some false else Some (bool_decide (ns ∈ allowed))
               | _ => Some false
               end
           | _ => Some false
           end
  end.

Definition watchLineMaxBytes : Z := 4 * 1024 * 1024.

Record watchLineFilter := {
  wf_allowed : gset string;
  wf_buf : string;
}.

Definition newWatchLineFilter (allowed : gset string) : watchLineFilter :=
  {| wf_allowed := allowed; wf_buf := "" |}.

Definition set_buf (f : watchLineFilter) (buf : string) : watchLineFilter :=
  {| wf_allowed := wf_allowed f; wf_buf := buf |}.

Definition keep (f : watchLineFilter) (line : string) : bool :=
  if slen line =? 0 then false
  else match watchEventAllowed line (wf_allowed f) with Some ok => ok | None => false end.

Definition newline : Ascii.ascii := byte 10.

(** [bytes.IndexByte(s, '\n')]: what is before the first newline and what is
    after it. *)
Fixpoint cut_newline (s : string) : option (string * string) :=
  match s with
  | EmptyString => None
  | String c rest =>
      if c == newline then Some ("", rest)
      else match cut_newline rest with
           | Some (line, after) => Some (String c line, after)
           | None => None
           end
  end.

(** The loop of [filter]: the output and the bytes from [start] on. *)
Fixpoint filter_loop (fuel : nat) (f : watchLineFilter) (buf out : string) : res (string * string) :=
  match fuel with
  | O => Err EFuel
  | S fuel =>
      match cut_newline buf with
      | None => Ok (out, buf)
      | Some (line, rest) =>
          if negb (keep f line) then filter_loop fuel f rest out
          else filter_loop fuel f rest (out +:+ line +:+ String newline "")
      end
  end.

(** [filter]: the output, the error and the filter after the chunk.  The loop
    consumes at least a byte per step. *)
Definition watch_filter (f : watchLineFilter) (chunk : string) :
    res (string * option error * watchLineFilter) :=
  let buf := wf_buf f +:+ chunk in
  '(out, rest) ← filter_loop (S (String.length buf)) f buf "";
  if watchLineMaxBytes <? slen rest then Ok (out, Some errWatchLineTooLong, set_buf f "")
  else Ok (out, None, set_buf f rest).

Definition flush (f : watchLineFilter) : string * watchLineFilter :=
  let line := wf_buf f in
  if negb (keep f line) then ("", set_buf f "")
  else (line +:+ String newline "", set_buf f "").

(** How the callers use the filter: chunk by chunk, ended by the first error,
    and a flush at the end of the stream. *)
Fixpoint watch_run (f : watchLineFilter) (chunks : list string) : res (string * option error) :=
  match chunks with
  | [] => Ok ((flush f).1, None)
  | chunk :: rest =>
      '(out, err, f) ← watch_filter f chunk;
      match err with
      | Some e => Ok (out, Some e)
      | None => '(out', err') ← watch_run f rest; Ok (out +:+ out', err')
      end
  end.
End filter.

(** ** Streams, line by line *)

(** The newline-separated pieces of a stream, the last one unterminated. *)
Definition lines (s : string) : list string := split_byte newline s.

Fixpoint render (ls : list string) : string :=
  match ls with [] => "" | l :: ls => l +:+ String newline "" +:+ render ls end.

Fixpoint concat_chunks (chunks : list string) : string :=
  match chunks with [] => "" | c :: cs => c +:+ concat_chunks cs end.

Lemma render_app l k : render (l ++ k) = render l +:+ render k.
Proof. induction l as [|x l IH]; [done|]. cbn [render app]. by rewrite IH, !app_assoc_str. Qed.

Lemma lines_nonempty s : lines s <> [].
Proof. unfold lines. destruct s as [|c s]; cbn; [done|]. by destruct (_ == _), (split_byte _ _). Qed.

Lemma lines_cons c s :
  lines (String c s) =
  if c == newline then "" :: lines s
  else match lines s with [] => [String c ""] | l :: ls => String c l :: ls end.
Proof. reflexivity. Qed.

Lemma cut_newline_spec s :
  match cut_newline s with
  | None => lines s = [s]
  | Some (line, rest) => lines s = line :: lines rest /\ (String.length rest < String.length s)%nat
  end.
Proof.
  induction s as [|c s IH]; [done|]. cbn [cut_newline]. rewrite lines_cons.
  case_bool_decide; [split; [done | cbn; lia]|].
  destruct (cut_newline s) as [[line rest]|]; [|by rewrite IH].
  destruct IH as [-> Hlen]. split; [done | cbn; lia].
Qed.

(** Splitting a stream in two only touches the piece at the cut. *)
Lemma lines_app s t c tail : lines s = c ++ [tail] -> lines (s +:+ t) = c ++ lines (tail +:+ t).
Proof.
  revert c tail. induction s as [|x s IH]; intros c tail.
  { intros E. destruct c as [|y [|z c]]; [by injection E as <- | done..]. }
  rewrite app_cons_str, !lines_cons. case_bool_decide as Hx.
  - destruct c as [|y c]; intros E.
    + injection E as _ E. by destruct (lines_nonempty s).
    + injection E as <- E. cbn. f_equal. by apply IH.
  - destruct (lines s) as [|l ls] eqn:El; [by destruct (lines_nonempty s)|].
    destruct c as [|y c]; intros E.
    + injection E as <- ->. rewrite app_cons_str, lines_cons, bool_decide_false by done.
      by rewrite (IH [] l eq_refl).
    + injection E as <- ->. by rewrite (IH (l :: c) tail eq_refl).
Qed.

Section stream.
Context `{External} (json_Object : string -> option (list (string * json))).

Lemma filter_loop_spec f fuel buf out :
  (String.length buf < fuel)%nat ->
  exists c tail, lines buf = c ++ [tail] /\ lines tail = [tail] /\
    filter_loop json_Object fuel f buf out =
      Ok (out +:+ render (List.filter (keep json_Object f) c), tail).
Proof.
  revert buf out. induction fuel as [|fuel IH]; intros buf out Hlen; [lia|]. cbn [filter_loop].
  pose proof (cut_newline_spec buf) as Hcut. destruct (cut_newline buf) as [[line rest]|].
  2:{ exists [], buf. by rewrite Hcut, app_nil_str. }
  destruct Hcut as [Hl Hrest].
  set (out' := if negb (keep json_Object f line) then out else out +:+ line +:+ String newline "").
  destruct (IH rest out' ltac:(lia)) as (c & tail & Hc & Ht & Hloop).
  exists (line :: c), tail. rewrite Hl, Hc. split; [done|]. split; [done|]. cbn [List.filter].
  subst out'. destruct (keep json_Object f line); cbn [negb] in *; [|done].
  rewrite Hloop. cbn [render]. by rewrite !app_assoc_str.
Qed.

(** One chunk: the complete lines of the carried-over bytes and the chunk are
    filtered, the unterminated rest is kept unless it is too long. *)
Lemma watch_filter_spec f chunk :
  exists c tail, lines (wf_buf f +:+ chunk) = c ++ [tail] /\ lines tail = [tail] /\
    watch_filter json_Object f chunk =
      Ok (render (List.filter (keep json_Object f) c),
          if watchLineMaxBytes <? slen tail then Some errWatchLineTooLong else None,
          set_buf f (if watchLineMaxBytes <? slen tail then "" else tail)).
Proof.
  destruct (filter_loop_spec f (S (String.length (wf_buf f +:+ chunk))) (wf_buf f +:+ chunk) "" ltac:(lia))
    as (c & tail & Hc & Ht & Hloop).
  exists c, tail. split; [done|]. split; [done|]. unfold watch_filter. rewrite Hloop.
  cbn [mbind res_bind]. by destruct (_ <? _).
Qed.

Lemma watch_run_spec f chunks :
  lines (wf_buf f) = [wf_buf f] ->
  exists out err, watch_run json_Object f chunks = Ok (out, err) /\
  match err with
  | None => out = render (List.filter (keep json_Object f) (lines (wf_buf f +:+ concat_chunks chunks)))
  | Some e => e = errWatchLineTooLong /\ exists k c tail,
      lines (wf_buf f +:+ concat_chunks (take k chunks)) = c ++ [tail] /\
      watchLineMaxBytes < slen tail /\ out = render (List.filter (keep json_Object f) c)
  end.
Proof.
  revert f. induction chunks as [|chunk chunks IH]; intros f Hbuf; cbn [watch_run].
  { eexists _, None. split; [done|]. cbn. rewrite app_nil_str, Hbuf. cbn. unfold flush.
    destruct (keep json_Object f (wf_buf f)); cbn; [|done]. by rewrite app_nil_str. }
  destruct (watch_filter_spec f chunk) as (c & tail & Hc & Ht & ->). cbn [mbind res_bind].
  destruct (watchLineMaxBytes <? slen tail) eqn:El; bool_props.
  { eexists _, (Some _). split; [done|]. split; [done|]. exists 1%nat, c, tail. cbn.
    by rewrite app_nil_str. }
  destruct (IH (set_buf f tail) Ht) as (out & err & Hrun & Hout). rewrite Hrun. cbn [mbind res_bind].
  exists (render (List.filter (keep json_Object f) c) +:+ out), err. split; [done|]. destruct err as [e|].
  - destruct Hout as (-> & k & c' & tail' & Hc' & Hlen & ->). split; [done|].
    exists (S k), (c ++ c'), tail'. cbn. rewrite <- app_assoc_str, (lines_app _ _ c tail Hc).
    cbn in Hc'. rewrite Hc', (assoc_L (++)). split; [done|]. split; [done|].
    rewrite List.filter_app, render_app. done.
  - rewrite Hout. cbn. rewrite <- app_assoc_str, (lines_app _ _ c tail Hc).
    by rewrite List.filter_app, render_app.
Qed.

End stream.

(** ** Lists *)

(** The items a namespace-scoped caller may see. *)
Definition item_allowed (kind : string) (allowed : gset string) (it : json) : Prop :=
  exists fields ns, it = JObject fields /\ itemNamespaceKey fields kind = Some ns /\ ns ∈ allowed.

Lemma keep_item_spec kind allowed it : keep_item kind allowed it = true <-> item_allowed kind allowed it.
Proof.
  unfold keep_item, item_allowed. split.
  - destruct it as [| | | | | | | |fields]; try done. destruct (itemNamespaceKey fields kind) as [ns|] eqn:E; [|done].
    intros ?%bool_decide_eq_true. eauto.
  - intros (fields & ns & -> & -> & Hin). by apply bool_decide_eq_true.
Qed.

(** The items the filter leaves of a decoded body. *)
Definition visible_items (obj : list (string * json)) (allowed : gset string) : list json :=
  let kind := get_string "kind" obj in
  match obj_get "items" obj with
  | Some (JArray items) => if HasSuffix kind "List" then List.filter (keep_item kind allowed) items else []
  | _ => []
  end.

Lemma emptyListTree_spec obj kind :
  obj_get "items" (emptyListTree obj kind) = Some (JArray []) /\
  get_string "kind" (emptyListTree obj kind) = kind.
Proof.
  unfold emptyListTree, get_string.
  destruct (obj_get "apiVersion" obj) as [[]|], (obj_get "metadata" obj); done.
Qed.

Lemma filter_tree_spec obj allowed tree :
  filter_tree obj allowed = Ok tree ->
  get_string "kind" obj <> "" /\ get_string "kind" tree = get_string "kind" obj /\
  obj_get "items" tree = Some (JArray (visible_items obj allowed)).
Proof.
  unfold filter_tree, visible_items. case_bool_decide as Hk; [done|].
  pose proof (emptyListTree_spec obj (get_string "kind" obj)) as [He1 He2].
  destruct (obj_get "items" obj) as [[| | | | | | |items|]|] eqn:Ei; try (by intros [= <-]).
  destruct (HasSuffix _ _); cbn [negb]; [|by intros [= <-]]. intros [= <-].
  split; [done|]. split; [unfold get_string; by rewrite obj_get_set|]. by rewrite obj_get_set.
Qed.

Lemma visible_items_allowed obj allowed it :
  it ∈ visible_items obj allowed -> item_allowed (get_string "kind" obj) allowed it.
Proof.
  unfold visible_items. destruct (obj_get "items" obj) as [[]|]; try (by intros ?%elem_of_nil).
  destruct (HasSuffix _ _); [|by intros ?%elem_of_nil].
  rewrite list_elem_of_In, filter_In. intros [_ Hk]. by apply keep_item_spec.
Qed.

Lemma content_length_unique h n k :
  is_content_length k = true -> k <> "Content-Length" -> setContentLengthHeader h n !! k = None.
Proof.
  intros Hk Hne. unfold setContentLengthHeader. rewrite lookup_insert_ne by done.
  apply map_lookup_filter_None_2. right. intros v _. cbn. by rewrite Hk.
Qed.


(** ** A concrete response and a concrete stream *)

Definition pod (ns : string) : json :=
  JObject [("metadata", JObject [("name", JString "web"); ("namespace", JString ns)])].

(** A decoder that knows one list and two events. *)
Definition example_object (text : string) : option (list (string * json)) :=
  if text == "pods" then
    Some [("kind", JString "PodList"); ("items", JArray [pod "team-a"; pod "team-b"; JNull])]
  else if text == "a" then Some [("type", JString "ADDED"); ("object", pod "team-a")]
  else if text == "b" then Some [("type", JString "ADDED"); ("object", pod "team-b")]
  else None.

Definition example_response : K8sResponsePayload := {|
  resp_StatusCode := 200; resp_Headers := <["content-length" := "4"]> ∅;
  resp_Body := Base64.encode "pods" |}.

Definition example_filtered : res K8sResponsePayload :=
  @applyNamespaceFilter Concrete.external example_object example_response {["team-a"]}.

Lemma example_filters : is_ok example_filtered = true.
Proof. vm_compute. reflexivity. Qed.


(** Two chunkings of one stream. *)
Lemma example_stream :
  let nl := String newline "" in
  let f := newWatchLineFilter {["team-a"]} in
  watch_run example_object f ["a" +:+ nl +:+ "b" +:+ nl +:+ "a"] =
    Ok ("a" +:+ nl +:+ "a" +:+ nl, None) /\
  watch_run example_object f ["a"; nl +:+ "b"; nl; ""; "a"] =
    Ok ("a" +:+ nl +:+ "a" +:+ nl, None).
Proof. vm_compute. auto. Qed.
End NsFilter.
