(* ===== verification/ConnectLimiter.v ===== *)
(** * The limiter of tunnel connects (internal/tunnel/connect_limiter.go)

    Failed connects are counted per source address in fixed windows that begin
    at the first failure; a success forgets the address, and a janitor drops
    windows that have passed.  Every operation runs under the mutex: it is one
    function of the clock and the limiter. *)

From Stdlib Require Import ZArith Lia.
From S2P Require Import Prelude GoStrings.
From stdpp Require Import base gmap strings list.

Open Scope Z_scope.

Module ConnectLimiter.

Definition minute : duration := 60 * 1000000000.

Record connectBucket := {
  bucket_failures : Z;
  bucket_resetAt : time;
}.

Record ConnectFailureLimiter := {
  limiter_buckets : gmap string connectBucket;
  limiter_limit : Z;
  limiter_window : duration;
}.

Definition NewConnectFailureLimiter (limit : Z) (window : duration) : ConnectFailureLimiter := {|
  limiter_buckets := ∅;
  limiter_limit := if limit <=? 0 then 50 else limit;
  limiter_window := if window <=? 0 then 5 * minute else window |}.

Definition set_buckets (l : ConnectFailureLimiter) (buckets : gmap string connectBucket) :
    ConnectFailureLimiter := {|
  limiter_buckets := buckets; limiter_limit := limiter_limit l; limiter_window := limiter_window l |}.

Definition Blocked (now : time) (key : string) (l : ConnectFailureLimiter) : bool * duration :=
  match limiter_buckets l !! key with
  | None => (false, 0)
  | Some bucket =>
      if negb (now <? bucket_resetAt bucket) then (false, 0)
      else if limiter_limit l <=? bucket_failures bucket then (true, bucket_resetAt bucket - now)
      else (false, 0)
  end.

Definition fresh_bucket (now : time) (l : ConnectFailureLimiter) : connectBucket :=
  {| bucket_failures := 1; bucket_resetAt := now + limiter_window l |}.

Definition Fail_ (now : time) (key : string) (l : ConnectFailureLimiter) : ConnectFailureLimiter :=
  match limiter_buckets l !! key with
  | None => set_buckets l (<[key := fresh_bucket now l]> (limiter_buckets l))
  | Some bucket =>
      if negb (now <? bucket_resetAt bucket)
      then set_buckets l (<[key := fresh_bucket now l]> (limiter_buckets l))
      else set_buckets l (<[key := {| bucket_failures := bucket_failures bucket + 1;
                                      bucket_resetAt := bucket_resetAt bucket |}]> (limiter_buckets l))
  end.

Definition Reset_ (key : string) (l : ConnectFailureLimiter) : ConnectFailureLimiter :=
  set_buckets l (delete key (limiter_buckets l)).

Definition live (now : time) (kb : string * connectBucket) : Prop := now < bucket_resetAt kb.2.

#[global] Instance live_dec now kb : Decision (live now kb).
Proof. unfold live. apply _. Defined.

(** [evictExpired]: how many buckets went, and the limiter without them. *)
Definition evictExpired (now : time) (l : ConnectFailureLimiter) : Z * ConnectFailureLimiter :=
  let kept := filter (live now) (limiter_buckets l) in
  (Z.of_nat (size (limiter_buckets l)) - Z.of_nat (size kept), set_buckets l kept).

(** ** Runs

    A connect handler (HandleWebSocket) asks [Blocked], goes on only when it is
    let through, and then records a failure, records a success or gives up
    before the token is looked at.  Handlers of one address run concurrently, so
    several may pass the check before one of them records its failure; at most
    [c] of them are in flight at a time.  A history lists the operations, newest
    first, with the times of a clock that does not go back. *)

Inductive Op :=
  | OpAdmit (key : string)
  | OpFail (key : string)
  | OpReset (key : string)
  | OpGiveUp (key : string)
  | OpEvict.

Definition apply_op (now : time) (op : Op) (l : ConnectFailureLimiter) : ConnectFailureLimiter :=
  match op with
  | OpAdmit _ | OpGiveUp _ => l
  | OpFail key => Fail_ now key l
  | OpReset key => Reset_ key l
  | OpEvict => (evictExpired now l).2
  end.

(** How an operation changes the number of handlers of [key] in flight. *)
Definition flight_change (key : string) (op : Op) : Z :=
  match op with
  | OpAdmit k => if k == key then 1 else 0
  | OpFail k | OpReset k | OpGiveUp k => if k == key then -1 else 0
  | OpEvict => 0
  end.

Fixpoint in_flight (key : string) (h : list (time * Op)) : Z :=
  match h with
  | [] => 0
  | (_, op) :: rest => in_flight key rest + flight_change key op
  end.

(** The times of the failures of a key since its last success, newest first. *)
Fixpoint failures (key : string) (h : list (time * Op)) : list time :=
  match h with
  | [] => []
  | (t, OpFail k) :: rest => if k == key then t :: failures key rest else failures key rest
  | (_, OpReset k) :: rest => if k == key then [] else failures key rest
  | _ :: rest => failures key rest
  end.

Inductive connects (limit : Z) (window : duration) (c : Z) :
    list (time * Op) -> time -> ConnectFailureLimiter -> Prop :=
  | connects_start now : connects limit window c [] now (NewConnectFailureLimiter limit window)
  | connects_op h now l now' op :
      connects limit window c h now l -> now <= now' ->
      (forall key, op = OpAdmit key -> (Blocked now' key l).1 = false) ->
      (forall key, 0 <= in_flight key ((now', op) :: h) <= c) ->
      connects limit window c ((now', op) :: h) now' (apply_op now' op l)
  | connects_wait h now l now' :
      connects limit window c h now l -> now <= now' -> connects limit window c h now' l.

(** ** The invariant

    The failures of a key are those of its current window, which began at [s],
    those of the window before, and older ones.  A missing bucket stands for a
    window that has passed.  [n] handlers are in flight; those that passed the
    check during the current window did so below the limit. *)

Record windows_ok (limit : Z) (window : duration) (c : Z) (now : time) (bucket : option connectBucket)
    (n : Z) (fs : list time) (s : time) (cur prev old : list time) : Prop := {
  wo_split : fs = cur ++ prev ++ old;
  wo_cur : len cur <= limit + c - 1;
  wo_prev : len prev <= limit + c - 1;
  wo_flight : now < s + window -> len cur + n <= limit + c - 1;
  wo_cur_in : Forall (fun t => s <= t < s + window) cur;
  wo_prev_before : Forall (fun t => t < s) prev;
  wo_old_before : Forall (fun t => t <= s - window) old;
  wo_started : s <= now;
  wo_bucket : match bucket with
              | Some b => bucket_failures b = len cur /\ bucket_resetAt b = s + window
              | None => s + window <= now
              end;
}.

Definition key_ok (limit : Z) (window : duration) (c : Z) (now : time) (l : ConnectFailureLimiter)
    (n : Z) (fs : list time) (key : string) : Prop :=
  exists s cur prev old, windows_ok limit window c now (limiter_buckets l !! key) n fs s cur prev old.

Section invariant.
Set Default Proof Using "Type*".
Context (limit : Z) (window : duration) (c : Z).
Context (Hlimit : 0 < limit) (Hwindow : 0 < window) (Hc : 0 < c).

(** A failure after the current window opens a new one. *)
Lemma windows_new now b n fs s cur prev old now' :
  windows_ok limit window c now b n fs s cur prev old -> now <= now' -> s + window <= now' ->
  n <= c ->
  windows_ok limit window c now' (Some {| bucket_failures := 1; bucket_resetAt := now' + window |})
    (n - 1) (now' :: fs) now' [now'] cur (prev ++ old).
Proof.
  intros [-> Hcur Hp Hn Hcb Hpb Hob Hs _] Hnow Hexp Hnc. split; try done.
  - unfold len. cbn. lia.
  - unfold len. cbn. lia.
  - constructor; [lia | constructor].
  - eapply Forall_impl; [exact Hcb|]. intros t Ht. cbn in Ht. lia.
  - apply Forall_app. split; (eapply Forall_impl; [eassumption|]); intros t Ht; cbn in Ht; lia.
Qed.

(** Time passes, and handlers that give up leave the flight. *)
Lemma windows_later now b n fs s cur prev old now' n' :
  windows_ok limit window c now b n fs s cur prev old -> now <= now' -> n' <= n ->
  windows_ok limit window c now' b n' fs s cur prev old.
Proof.
  intros [H1 H2 H3 H4 H5 H6 H7 H8 H9] Hnow Hn. split; try done; [lia | lia |]. destruct b; [done | lia].
Qed.

Lemma key_later now now' l n n' fs key :
  key_ok limit window c now l n fs key -> now <= now' -> n' <= n ->
  key_ok limit window c now' l n' fs key.
Proof.
  intros (s & cur & prev & old & Hok) Hnow Hn. exists s, cur, prev, old. by eapply windows_later.
Qed.

Lemma key_fail now now' l n fs key :
  limiter_window l = window -> key_ok limit window c now l n fs key -> now <= now' -> 1 <= n <= c ->
  key_ok limit window c now' (Fail_ now' key l) (n - 1) (now' :: fs) key.
Proof.
  intros Hw (s & cur & prev & old & Hok) Hnow Hn. unfold key_ok, Fail_, fresh_bucket in *.
  rewrite Hw in *. pose proof (wo_bucket _ _ _ _ _ _ _ _ _ _ _ Hok) as Hb.
  destruct (limiter_buckets l !! key) as [b|].
  2:{ exists now', [now'], cur, (prev ++ old). cbn. rewrite lookup_insert_eq.
      eapply windows_new; [exact Hok | done | lia | lia]. }
  destruct Hb as [Hf Hr]. destruct (now' <? bucket_resetAt b) eqn:El; cbn [negb] in *; bool_props.
  2:{ exists now', [now'], cur, (prev ++ old). cbn. rewrite lookup_insert_eq.
      eapply windows_new; [exact Hok | done | lia | lia]. }
  exists s, (now' :: cur), prev, old. cbn. rewrite lookup_insert_eq.
  destruct Hok as [H1 H2 H3 H4 H5 H6 H7 H8 H9].
  split; try done; cbn [bucket_failures bucket_resetAt]; unfold len in *; cbn [length]; try lia.
  - by rewrite H1.
  - constructor; [lia | done].
Qed.

(** A success forgets the address: the next failure begins anew. *)
Lemma key_empty now l n key :
  limiter_buckets l !! key = None -> n <= c -> key_ok limit window c now l n [] key.
Proof.
  intros Hb Hn. exists (now - window), [], [], []. rewrite Hb. split; try done; unfold len; cbn; lia.
Qed.

(** The janitor drops only windows that have passed. *)
Lemma key_evict now now' l n fs key :
  key_ok limit window c now l n fs key -> now <= now' ->
  key_ok limit window c now' (evictExpired now' l).2 n fs key.
Proof.
  intros (s & cur & prev & old & Hok) Hnow. exists s, cur, prev, old. cbn.
  pose proof (windows_later _ _ _ _ _ _ _ _ now' n Hok Hnow (Z.le_refl n)) as Hok'.
  destruct (limiter_buckets l !! key) as [b|] eqn:Eb.
  2:{ replace (filter _ _ !! key) with (@None connectBucket); [done|]. symmetry.
      apply map_lookup_filter_None. by left. }
  destruct (decide (live now' (key, b))) as [Hl|Hl].
  - replace (filter _ _ !! key) with (Some b); [done|]. symmetry. by apply map_lookup_filter_Some.
  - replace (filter _ _ !! key) with (@None connectBucket).
    + destruct Hok' as [H1 H2 H3 H4 H5 H6 H7 H8 [Hf Hr]]. split; try done. unfold live in Hl. cbn in Hl. lia.
    + symmetry. apply map_lookup_filter_None. right. intros b' Hb'. by simplify_eq.
Qed.

(** A handler passes the check only below the limit, or after the window. *)
Lemma key_admit now now' l n fs key :
  limiter_limit l = limit -> key_ok limit window c now l n fs key -> now <= now' -> n + 1 <= c ->
  (Blocked now' key l).1 = false -> key_ok limit window c now' l (n + 1) fs key.
Proof.
  intros Hl (s & cur & prev & old & Hok) Hnow Hn Hfree. exists s, cur, prev, old.
  destruct (windows_later _ _ _ _ _ _ _ _ now' n Hok Hnow (Z.le_refl n))
    as [H1 H2 H3 H4 H5 H6 H7 H8 H9].
  split; try done. intros Hin. unfold Blocked in Hfree. rewrite Hl in Hfree.
  destruct (limiter_buckets l !! key) as [b|]; [|lia]. destruct H9 as [Hf Hr].
  destruct (now' <? bucket_resetAt b) eqn:El; cbn in Hfree; bool_props; [|lia].
  destruct (limit <=? bucket_failures b) eqn:Ef; [done|]. bool_props. lia.
Qed.

(** An operation on another address changes nothing of this one. *)
Lemma key_other now now' l op n fs key :
  key_ok limit window c now l n fs key -> now <= now' ->
  match op with OpAdmit k | OpFail k | OpReset k | OpGiveUp k => k <> key | OpEvict => False end ->
  key_ok limit window c now' (apply_op now' op l) n fs key.
Proof.
  intros Hok Hnow Hop. apply (key_later _ now' _ _ n) in Hok; [|done|lia].
  destruct op as [k|k|k|k|]; unfold key_ok in *; cbn [apply_op].
  - exact Hok.
  - unfold Fail_. destruct (limiter_buckets l !! k); [case_match|]; cbn;
      by rewrite lookup_insert_ne by done.
  - cbn. by rewrite lookup_delete_ne by done.
  - exact Hok.
  - done.
Qed.

(** What holds of every run. *)
Lemma connects_ok h now l key :
  connects limit window c h now l ->
  limiter_limit l = limit /\ limiter_window l = window /\ in_flight key h <= c /\
  key_ok limit window c now l (in_flight key h) (failures key h) key.
Proof.
  induction 1 as [now | h now l now' op Hrun IH Hnow Hfree Hflight | h now l now' Hrun IH Hnow].
  - cbn. rewrite !(proj2 (Z.leb_gt _ _)) by done. split_and!; try done; [lia|].
    apply key_empty; [apply lookup_empty | lia].
  - destruct IH as (Hl & Hw & Hn & Hok). specialize (Hflight key). cbn [in_flight] in Hflight.
    split_and!; [by rewrite <- Hl; destruct op; cbn; unfold Fail_; repeat case_match
               | by rewrite <- Hw; destruct op; cbn; unfold Fail_; repeat case_match
               | cbn [in_flight]; lia |].
    cbn [in_flight]. destruct op as [k|k|k|k|]; cbn [flight_change failures] in *;
      try (destruct (k == key) eqn:Ek;
        [apply bool_decide_eq_true in Ek; subst k | apply bool_decide_eq_false in Ek;
         rewrite Z.add_0_r; by apply key_other with now]).
    + eapply key_admit; [done | exact Hok | done | lia | by apply Hfree].
    + apply key_fail with now; [done | done | done | lia].
    + apply key_empty; [apply lookup_delete_eq | lia].
    + apply key_later with now (in_flight key h); [done | done | lia].
    + rewrite Z.add_0_r. by apply key_evict with now.
  - destruct IH as (Hl & Hw & Hn & Hok). split_and!; try done. by eapply key_later.
Qed.
End invariant.

Definition recent (now : time) (window : duration) (fs : list time) : list time :=
  filter (fun t => now - window < t) fs.

Lemma recent_none now window fs : Forall (fun t => t <= now - window) fs -> recent now window fs = [].
Proof.
  unfold recent. induction 1 as [|t fs Ht Hfs IH]; [done|]. rewrite filter_cons_False by lia. exact IH.
Qed.

Lemma recent_all now window fs : Forall (fun t => now - window < t) fs -> recent now window fs = fs.
Proof.
  unfold recent. induction 1 as [|t fs Ht Hfs IH]; [done|]. rewrite filter_cons_True by lia. by rewrite IH.
Qed.


(** A failure late in one window and two early in the next: a limit of two lets
    three failures through within one window's length. *)
Definition example_history : list (time * Op) :=
  [(11, OpFail "a"); (11, OpAdmit "a"); (10, OpFail "a"); (10, OpAdmit "a"); (10, OpEvict);
   (9, OpFail "b"); (9, OpAdmit "b"); (9, OpFail "a"); (9, OpAdmit "a"); (0, OpFail "a"); (0, OpAdmit "a")].

Definition example_limiter : ConnectFailureLimiter :=
  foldr (fun top l => apply_op top.1 top.2 l) (NewConnectFailureLimiter 2 10) example_history.

Lemma example_connects : connects 2 10 1 example_history 12 example_limiter.
Proof.
  apply connects_wait with 11; [|done]. unfold example_limiter, example_history. cbn [foldr fst snd].
  repeat (eapply connects_op;
    [ | | intros key Hkey; inversion Hkey; subst; vm_compute; reflexivity
      | intros key; cbn [in_flight flight_change];
        destruct ("a" == key); destruct ("b" == key); lia ]).
  apply (connects_start 2 10 1 0).
  all: lia.
Qed.
End ConnectLimiter.
