(* ===== verification/Pagination.v ===== *)
(** * Collection pages (internal/pagination)

    The metadata of a page, the bound on legacy offsets, and the opaque cursors
    that continue a keyset page: the plain token of cursor.go and the signed token
    of signed_cursor.go, as bytes from the JSON document to the base64 text.  The
    identifiers' texts and SHA-256 are the parameters of External.v; HMAC is
    written out over the hash. *)

From Stdlib Require Import ZArith NArith Lia Ascii.
From S2P Require Import Prelude GoSort GoStrings Utf8 Strconv JsonText External Base64 GoTime JsonContract.
From stdpp Require Import base gmap strings list.
Import JsonText.

Open Scope Z_scope.

Module Pagination.

(** ** Page metadata (page.go) *)

Record Metadata := {
  meta_Total : option Z;
  meta_Limit : Z;
  meta_Offset : Z;
  meta_HasMore : bool;
  meta_NextOffset : option Z;
  meta_NextCursor : option string;
}.

Definition Uncounted (limit offset pageLen : Z) (hasMore : bool) : Metadata :=
  let more := hasMore && (0 <? pageLen) in
  {| meta_Total := None; meta_Limit := Z.max limit 1; meta_Offset := Z.max offset 0;
     meta_HasMore := more;
     meta_NextOffset := if more then Some (wrapS64 (Z.max offset 0 + pageLen)) else None;
     meta_NextCursor := None |}.

Definition with_total (count : Z) (m : Metadata) : Metadata :=
  {| meta_Total := Some count; meta_Limit := meta_Limit m; meta_Offset := meta_Offset m;
     meta_HasMore := meta_HasMore m; meta_NextOffset := meta_NextOffset m; meta_NextCursor := meta_NextCursor m |}.

Definition Exact (total limit offset pageLen : Z) : Metadata :=
  let count := Z.max total 0 in
  with_total count (Uncounted limit offset pageLen (wrapS64 (offset + pageLen) <? count)).

Definition FromPage (limit offset pageLen : Z) : Metadata :=
  Uncounted limit offset pageLen ((0 <? limit) && (limit <=? pageLen)).

Definition with_next (has : bool) (next : option Z) (token : option string) (m : Metadata) : Metadata :=
  {| meta_Total := meta_Total m; meta_Limit := meta_Limit m; meta_Offset := meta_Offset m;
     meta_HasMore := has; meta_NextOffset := next; meta_NextCursor := token |}.

(** cursor.go *)
Definition CursorPage (total limit seen pageLen : Z) (nextCursor : string) : Metadata :=
  let metadata := Exact total limit seen pageLen in
  if nextCursor != "" then with_next true (Some (wrapS64 (seen + pageLen))) (Some nextCursor) metadata
  else with_next false None (meta_NextCursor metadata) metadata.

Definition CursorUncounted (limit seen pageLen : Z) (nextCursor : string) : Metadata :=
  let metadata := Uncounted limit seen pageLen (nextCursor != "") in
  if nextCursor != "" then
    with_next true (Some (wrapS64 (meta_Offset metadata + pageLen))) (Some nextCursor) metadata
  else metadata.

(** ** Legacy offsets (request.go) *)

Definition MaxLegacyOffset : Z := 10000.
Definition ErrOffsetNotSupported : error := EText "offset exceeds the supported legacy pagination range".
Definition ErrRepeatedOffset : error := EText "offset must be one value".

Definition LegacyOffset (values : gmap string (list string)) : res Z :=
  match values !! "offset" with
  | None => Ok 0
  | Some [raw] =>
      match Strconv.ParseUint raw with
      | Strconv.NumRange => Err ErrOffsetNotSupported
      | Strconv.NumSyntax => Ok 0
      | Strconv.NumOk value => if MaxLegacyOffset <? value then Err ErrOffsetNotSupported else Ok value
      end
  | Some _ => Err ErrRepeatedOffset
  end.

(** ** Cursors (cursor.go) *)

Definition cursorVersion : Z := 1.
Definition maxCursorLength : Z := 1024.
Definition maxCursorSeen : Z := 1000000000.
Definition ErrInvalidCursor : error := EText "invalid pagination cursor".

Record Cursor := {
  cursor_Version : Z;
  cursor_Time : time;
  cursor_ID : uuid;
  cursor_Binding : string;
  cursor_Seen : Z;
  cursor_Text : option string;
  cursor_Group : option uuid;
  cursor_IssuedAt : Z;
}.

Definition zero_cursor : Cursor :=
  {| cursor_Version := 0; cursor_Time := 0; cursor_ID := uuid_Nil; cursor_Binding := ""; cursor_Seen := 0;
     cursor_Text := None; cursor_Group := None; cursor_IssuedAt := 0 |}.

Definition NewCursor (at_ : time) (id : uuid) (binding : string) (seen : Z) : Cursor :=
  {| cursor_Version := cursorVersion; cursor_Time := at_; cursor_ID := id; cursor_Binding := binding;
     cursor_Seen := seen; cursor_Text := None; cursor_Group := None; cursor_IssuedAt := 0 |}.

Definition validateCursor (cursor : Cursor) (binding : string) : res unit :=
  fail_if ((cursor_Version cursor != cursorVersion) || (cursor_Time cursor == 0) ||
    (cursor_Text cursor != None) || (cursor_Group cursor != None) || (cursor_IssuedAt cursor != 0) ||
    (cursor_ID cursor == uuid_Nil) || (cursor_Seen cursor <? 0) || (maxCursorSeen <? cursor_Seen cursor) ||
    (cursor_Binding cursor == "") || (cursor_Binding cursor != binding)) ErrInvalidCursor.

(** The setters of the fields. *)
Definition set_Version (c : Cursor) (v : Z) : Cursor :=
  {| cursor_Version := v; cursor_Time := cursor_Time c; cursor_ID := cursor_ID c; cursor_Binding := cursor_Binding c;
     cursor_Seen := cursor_Seen c; cursor_Text := cursor_Text c; cursor_Group := cursor_Group c;
     cursor_IssuedAt := cursor_IssuedAt c |}.
Definition set_Time (c : Cursor) (v : time) : Cursor :=
  {| cursor_Version := cursor_Version c; cursor_Time := v; cursor_ID := cursor_ID c; cursor_Binding := cursor_Binding c;
     cursor_Seen := cursor_Seen c; cursor_Text := cursor_Text c; cursor_Group := cursor_Group c;
     cursor_IssuedAt := cursor_IssuedAt c |}.
Definition set_ID (c : Cursor) (v : uuid) : Cursor :=
  {| cursor_Version := cursor_Version c; cursor_Time := cursor_Time c; cursor_ID := v; cursor_Binding := cursor_Binding c;
     cursor_Seen := cursor_Seen c; cursor_Text := cursor_Text c; cursor_Group := cursor_Group c;
     cursor_IssuedAt := cursor_IssuedAt c |}.
Definition set_Binding (c : Cursor) (v : string) : Cursor :=
  {| cursor_Version := cursor_Version c; cursor_Time := cursor_Time c; cursor_ID := cursor_ID c; cursor_Binding := v;
     cursor_Seen := cursor_Seen c; cursor_Text := cursor_Text c; cursor_Group := cursor_Group c;
     cursor_IssuedAt := cursor_IssuedAt c |}.
Definition set_Seen (c : Cursor) (v : Z) : Cursor :=
  {| cursor_Version := cursor_Version c; cursor_Time := cursor_Time c; cursor_ID := cursor_ID c;
     cursor_Binding := cursor_Binding c; cursor_Seen := v; cursor_Text := cursor_Text c;
     cursor_Group := cursor_Group c; cursor_IssuedAt := cursor_IssuedAt c |}.
Definition set_Text (c : Cursor) (v : option string) : Cursor :=
  {| cursor_Version := cursor_Version c; cursor_Time := cursor_Time c; cursor_ID := cursor_ID c;
     cursor_Binding := cursor_Binding c; cursor_Seen := cursor_Seen c; cursor_Text := v;
     cursor_Group := cursor_Group c; cursor_IssuedAt := cursor_IssuedAt c |}.
Definition set_Group (c : Cursor) (v : option uuid) : Cursor :=
  {| cursor_Version := cursor_Version c; cursor_Time := cursor_Time c; cursor_ID := cursor_ID c;
     cursor_Binding := cursor_Binding c; cursor_Seen := cursor_Seen c; cursor_Text := cursor_Text c;
     cursor_Group := v; cursor_IssuedAt := cursor_IssuedAt c |}.
Definition set_IssuedAt (c : Cursor) (v : Z) : Cursor :=
  {| cursor_Version := cursor_Version c; cursor_Time := cursor_Time c; cursor_ID := cursor_ID c;
     cursor_Binding := cursor_Binding c; cursor_Seen := cursor_Seen c; cursor_Text := cursor_Text c;
     cursor_Group := cursor_Group c; cursor_IssuedAt := v |}.

Section external.
Context `{External}.

(** [json.Marshal(cursor)]: the members in the order of the struct; a nil pointer
    and a zero issue time are left out. *)
Definition cursor_members (cursor : Cursor) (at_ : string) : list (string * value) :=
  [("v", VNumber (itoa (cursor_Version cursor)));
   ("t", VString at_);
   ("id", VString (quote (uuid_String (cursor_ID cursor))));
   ("b", VString (quote (cursor_Binding cursor)));
   ("n", VNumber (itoa (cursor_Seen cursor)))] ++
  match cursor_Text cursor with Some k => [("k", VString (quote k))] | None => [] end ++
  match cursor_Group cursor with Some g => [("g", VString (quote (uuid_String g)))] | None => [] end ++
  (if cursor_IssuedAt cursor == 0 then [] else [("iat", VNumber (itoa (cursor_IssuedAt cursor)))]).

Definition Marshal (cursor : Cursor) : option string :=
  at_ ← GoTime.format (cursor_Time cursor); Some (print (VObject (cursor_members cursor at_))).

(** The fields the plain token is read into, and those of [Cursor]. *)
Definition plain_fields : list (string * setter Cursor) :=
  [("v", set_int set_Version);
   ("t", set_raw GoTime.parse set_Time);
   ("id", set_text uuid_Parse set_ID);
   ("b", set_text Some set_Binding);
   ("n", set_int set_Seen)].

Definition cursor_fields : list (string * setter Cursor) :=
  plain_fields ++
  [("k", set_pointer Some set_Text);
   ("g", set_pointer uuid_Parse set_Group);
   ("iat", set_int set_IssuedAt)].

Definition EncodeCursor (cursor : Cursor) : res string :=
  validateCursor cursor (cursor_Binding cursor);;
  match Marshal cursor with
  | Some raw => Ok (Base64.encode_url raw)
  | None => Err (EText "encode cursor")
  end.

Definition DecodeCursor (value binding : string) : res Cursor :=
  fail_if ((value == "") || (maxCursorLength <? slen value)) ErrInvalidCursor;;
  match Base64.decode_url value with
  | None => Err ErrInvalidCursor
  | Some raw =>
      match parse_json raw ≫= decode_struct plain_fields zero_cursor with
      | None => Err ErrInvalidCursor
      | Some read =>
          let position := set_Version
            (NewCursor (cursor_Time read) (cursor_ID read) (cursor_Binding read) (cursor_Seen read)) (cursor_Version read) in
          validateCursor position binding;; Ok position
      end
  end.

(** The length-delimited text a binding is the digest of. *)
Fixpoint frames (values : list string) : string :=
  match values with
  | [] => ""
  | v :: vs => itoa (slen v) +:+ ":" +:+ v +:+ String (byte 10) "" +:+ frames vs
  end.

Definition Binding (values : list string) : string := hex_EncodeToString (sha256_Sum256 (frames values)).

Definition SortedUUIDs (values : list uuid) : string :=
  strings_Join "," (sort_slice str_lt (map uuid_String values)).

(** ** Signed cursors (signed_cursor.go) *)

Definition signedCursorPrefix : string := "p1.".
Definition signedCursorLifetime : duration := 2 * GoTime.Hour.
Definition maxSignedCursorPayload : Z := 2048.
Definition maxSignedCursorLength : Z := 4096.
Definition ErrCursorSigningUnavailable : error := EText "pagination signing authority unavailable".

(** crypto/hmac over SHA-256, whose block is of 64 bytes. *)
Definition xor_byte (k : N) (c : ascii) : ascii := ascii_of_N (N.lxor k (byte_val c)).

Definition hmac (key message : string) : string :=
  let key := if 64 <? slen key then sha256_Sum256 key else key in
  let key := key +:+ repeat_ascii (64 - String.length key) zero_byte in
  sha256_Sum256 (string_map (xor_byte 92) key +:+
    sha256_Sum256 (string_map (xor_byte 54) key +:+ message)).

(** The ring of keys of a codec; the clock is an argument of its methods. *)
Record CursorCodec := { codec_keys : list string }.

Definition derive (key : string) : string := hmac key "astronomer/pagination/key/v1".

Definition NewCursorCodec (authority : string) : res CursorCodec :=
  let keys := filter (fun k => k <> "") (map TrimSpace (split_byte ","%char authority)) in
  match keys with
  | [] => Err ErrCursorSigningUnavailable
  | _ => Ok {| codec_keys := map derive keys |}
  end.

Definition NewTextCursor (text : string) (id : uuid) (group : option uuid) (binding : string) (seen : Z) : Cursor :=
  {| cursor_Version := 2; cursor_Time := 0; cursor_ID := id; cursor_Binding := binding; cursor_Seen := seen;
     cursor_Text := Some text; cursor_Group := group; cursor_IssuedAt := 0 |}.

Definition validatePosition (cursor : Cursor) (binding : string) : res unit :=
  fail_if ((cursor_ID cursor == uuid_Nil) || (cursor_Binding cursor == "") || (cursor_Binding cursor != binding) ||
    (cursor_Seen cursor <? 0) || (maxCursorSeen <? cursor_Seen cursor)) ErrInvalidCursor;;
  if cursor_Version cursor == cursorVersion then
    fail_if ((cursor_Time cursor == 0) || (cursor_Text cursor != None) || (cursor_Group cursor != None)) ErrInvalidCursor
  else if cursor_Version cursor == 2 then
    match cursor_Text cursor with
    | None => Err ErrInvalidCursor
    | Some text =>
        fail_if (negb (Utf8.ValidString text) || (255 <? Utf8.RuneCount text) || (cursor_Time cursor != 0) ||
          (cursor_Group cursor == Some uuid_Nil)) ErrInvalidCursor
    end
  else Err ErrInvalidCursor.

Definition cursorMAC (key body : string) : string :=
  hmac key ("astronomer/pagination/token/v1" +:+ String (byte 10) "" +:+ body).

(** [codec] is nil or a ring; [now] is what its clock says. *)
Definition ring (codec : option CursorCodec) : list string :=
  match codec with Some c => codec_keys c | None => [] end.

Definition Encode (codec : option CursorCodec) (now : time) (cursor : Cursor) : res string :=
  match ring codec with
  | [] => Err ErrCursorSigningUnavailable
  | key :: _ =>
      validatePosition cursor (cursor_Binding cursor);;
      match Marshal (set_IssuedAt cursor (GoTime.Unix now)) with
      | None => Err ErrInvalidCursor
      | Some raw =>
          fail_if (maxSignedCursorPayload <? slen raw) ErrInvalidCursor;;
          let body := signedCursorPrefix +:+ Base64.encode_url raw in
          Ok (body +:+ "." +:+ Base64.encode_url (cursorMAC key body))
      end
  end.

(** The age of a cursor; a difference of times saturates far outside both bounds. *)
Definition fresh (now : time) (issuedAt : Z) : bool :=
  let issued := GoTime.OfUnix issuedAt in
  (0 <? issuedAt) && negb (now + GoTime.Minute <? issued) && negb (signedCursorLifetime <? now - issued).

Definition Decode (codec : option CursorCodec) (now : time) (token binding : string) : res Cursor :=
  match ring codec with
  | [] => Err ErrCursorSigningUnavailable
  | keys =>
      fail_if ((maxSignedCursorLength <? slen token) || negb (HasPrefix token signedCursorPrefix)) ErrInvalidCursor;;
      match split_byte "."%char token with
      | [p0; p1; p2] =>
          match Base64.decode_url p2 with
          | None => Err ErrInvalidCursor
          | Some signature =>
              fail_if (slen signature != 32) ErrInvalidCursor;;
              let body := p0 +:+ "." +:+ p1 in
              fail_if (negb (existsb (fun key => signature == cursorMAC key body) keys)) ErrInvalidCursor;;
              match Base64.decode_url p1 with
              | None => Err ErrInvalidCursor
              | Some raw =>
                  fail_if (maxSignedCursorPayload <? slen raw) ErrInvalidCursor;;
                  match JsonContract.Decode (decode_struct cursor_fields zero_cursor) raw with
                  | None => Err ErrInvalidCursor
                  | Some cursor =>
                      validatePosition cursor binding;;
                      fail_if (negb (fresh now (cursor_IssuedAt cursor))) ErrInvalidCursor;;
                      Ok cursor
                  end
              end
          end
      | _ => Err ErrInvalidCursor
      end
  end.
End external.
End Pagination.
