(* ===== verification/PaginationFacts.v ===== *)
(** * Cursors read back, and pages that cover a collection

    A position a codec signs is accepted by every codec whose ring still holds the
    key, for the binding it was made for and while it is fresh; nothing else is
    accepted.  A binding is a digest of its values that no other values share short
    of a collision of SHA-256.  A client that follows the offsets of counted pages
    sees every item once. *)

From Stdlib Require Import ZArith NArith Lia Ascii.
From S2P Require Import Prelude GoSort GoStrings Utf8 Strconv JsonText JsonTextFacts External Base64 GoTime.
From S2P Require Import JsonContract Pagination.
From stdpp Require Import base gmap strings list pretty.
Import Utf8 JsonText JsonTextFacts Pagination.

Open Scope Z_scope.

Module PaginationFacts.

(** ** Texts the encoder leaves alone *)

(** The bytes of hexadecimal digests and of identifiers. *)
Definition plain_byte (c : ascii) : bool := lower_alnum c || (c == "-"%char).

Lemma plain_quote_rune c : plain_byte c = true -> ascii_byte c = true /\ quote_rune (String c "") = String c "".
Proof.
  intros Hc. assert (Ha : ascii_byte c = true).
  { revert Hc. unfold plain_byte, lower_alnum, in_range, ascii_byte.
    rewrite !orb_true_iff, !andb_true_iff, !N.leb_le, bool_decide_eq_true, N.ltb_lt.
    intros [[[_ H]|[_ H]]| ->]; [..|done]; (eapply N.le_lt_trans; [exact H|]); done. }
  split; [done|]. revert Hc. revert c Ha.
  apply (ascii_cases (fun c => plain_byte c = true -> quote_rune (String c "") = String c "")).
  repeat apply List.Forall_cons; [done..|]. apply List.Forall_nil.
Qed.

Lemma plain_text s : string_forallb plain_byte s = true -> ValidString s = true /\ quote s = s.
Proof.
  intros Hs. split.
  - apply ascii_valid. induction s as [|c s IH]; [done|]. cbn [string_forallb] in *.
    apply andb_true_iff in Hs as [Hc Hs]. by rewrite (proj1 (plain_quote_rune c Hc)), IH.
  - unfold quote. induction s as [|c s IH]; [done|]. cbn [string_forallb] in Hs.
    apply andb_true_iff in Hs as [Hc Hs]. destruct (plain_quote_rune c Hc) as [Ha Hq].
    change (String c s) with (String c "" +:+ s). rewrite (starts_ascii c Ha). cbn [map text].
    by rewrite Hq, IH.
Qed.

Lemma lower_hex_plain s : string_forallb lower_hex s = true -> string_forallb plain_byte s = true.
Proof.
  induction s as [|c s IH]; [done|]. cbn [string_forallb]. intros [Hc Hs]%andb_true_iff. rewrite IH by done.
  rewrite andb_true_r. revert Hc. unfold lower_hex, plain_byte, lower_alnum, in_range.
  rewrite !orb_true_iff, !andb_true_iff, !N.leb_le. change (byte_val "f"%char) with 102%N.
  change (byte_val "z"%char) with 122%N. lia.
Qed.

(** ** Decimal lengths *)

Lemma pretty_go_length k x s :
  (x < 10 ^ N.of_nat k)%N -> (String.length (pretty_N_go x s) <= k + String.length s)%nat.
Proof.
  revert x s. induction k as [|k IH]; intros x s Hx.
  - assert (x = 0%N) as -> by (cbn in Hx; lia). rewrite pretty_N_go_0. lia.
  - destruct (decide (x = 0)%N) as [->|Hnz]; [rewrite pretty_N_go_0; lia|].
    rewrite pretty_N_go_step by lia. etrans; [apply IH|cbn; lia].
    apply N.Div0.div_lt_upper_bound. by rewrite Nat2N.inj_succ, N.pow_succ_r' in Hx.
Qed.

Lemma itoa_length k z : 0 <= z < 10 ^ Z.of_nat k -> (1 <= k)%nat -> (String.length (itoa z) <= k)%nat.
Proof.
  intros Hz Hk. destruct z as [|p|p]; [cbn; lia| |lia].
  change (itoa (Z.pos p)) with (pretty (N.pos p)). unfold pretty, pretty_N.
  destruct (decide _) as [|]; [done|]. etrans; [apply (pretty_go_length k)|cbn; lia].
  apply N2Z.inj_lt. rewrite N2Z.inj_pow, nat_N_Z. cbn [Z.of_N]. lia.
Qed.

Section external.
Context `{External}.

(** ** The document of a cursor *)

(** An identifier whose text is one the uuid package prints: plain, of at most 36
    bytes, and read back. *)
Definition legible (u : uuid) : Prop :=
  uuid_Parse (uuid_String u) = Some u /\ string_forallb plain_byte (uuid_String u) = true /\
  (String.length (uuid_String u) <= 36)%nat.

(** A cursor that the document loses nothing of. *)
Record storable (c : Cursor) : Prop := {
  storable_id : legible (cursor_ID c);
  storable_group : forall g, cursor_Group c = Some g -> legible g;
  storable_binding : ValidString (cursor_Binding c) = true;
  storable_text : forall k, cursor_Text c = Some k -> ValidString k = true;
  storable_version : 0 <= cursor_Version c < 10;
  storable_seen : 0 <= cursor_Seen c < 10 ^ 10;
  storable_issued : 0 <= cursor_IssuedAt c <= MaxInt64;
}.

Lemma legible_quote u : legible u ->
  raw_string (quote (uuid_String u)) /\ unquote (quote (uuid_String u)) = Some (uuid_String u).
Proof.
  intros (_ & Hp & _). destruct (plain_text _ Hp) as [Hv _]. split; [by apply quote_raw|by apply unquote_quote].
Qed.

Lemma ascii_raw s : string_forallb plain_byte s = true -> raw_string s.
Proof. intros Hs. destruct (plain_text s Hs) as [Hv <-]. by apply quote_raw. Qed.

(** The text of a time needs no escape. *)
Lemma format_raw t s : GoTime.format t = Some s -> raw_string s.
Proof.
  intros Hs%GoTime.format_bytes. apply verbatim_raw. induction s as [|c s IH]; [done|]. cbn [string_forallb] in *.
  apply andb_true_iff in Hs as [Hc Hs]. rewrite IH by done. rewrite andb_true_r. clear Hs IH.
  assert (Ha : ascii_byte c = true).
  { unfold GoTime.clock_byte, ContainsByte in Hc. cbn [string_existsb] in Hc.
    rewrite !orb_true_iff, !bool_decide_eq_true in Hc.
    destruct Hc as [Hc|Hc]; [|by repeat (destruct Hc as [<-|Hc])].
    unfold Strconv.digit, in_range in Hc. apply andb_true_iff in Hc as [_ Hc%N.leb_le].
    unfold ascii_byte. apply N.ltb_lt. eapply N.le_lt_trans; [exact Hc|done]. }
  revert Hc. revert c Ha. apply (ascii_cases (fun c => GoTime.clock_byte c = true -> verbatim c = true)).
  repeat apply List.Forall_cons; [done..|]. apply List.Forall_nil.
Qed.

Lemma members_written c at_ :
  storable c -> GoTime.format (cursor_Time c) = Some at_ -> written (VObject (cursor_members c at_)).
Proof.
  intros [Hid Hg Hb Hk _ _ _] Hf. constructor. unfold cursor_members.
  assert (Hname : forall s v, string_forallb plain_byte s = true -> written v ->
    raw_string (s, v).1 /\ written (s, v).2) by (intros s v Hs Hv; split; [by apply ascii_raw|done]).
  repeat (apply Forall_app; split); repeat apply Forall_cons_2; try apply Forall_nil_2;
    try (apply Hname; [done|constructor]).
  - by eapply format_raw.
  - by apply legible_quote.
  - by apply quote_raw.
  - destruct (cursor_Text c) as [k|]; [|done]. constructor; [|done].
    apply Hname; [done|]. constructor. by apply quote_raw, Hk.
  - destruct (cursor_Group c) as [g|]; [|done]. constructor; [|done].
    apply Hname; [done|]. constructor. by apply legible_quote, Hg.
  - destruct (_ == 0); [done|]. constructor; [|done]. apply Hname; [done|constructor].
Qed.

(** Reading one member. *)
Lemma set_members_cons {A} (fields : list (string * setter A)) a a' name v ms set :
  unquote name = Some name -> field_for fields name = Some set -> set a v = Some a' ->
  set_members fields a ((name, v) :: ms) = set_members fields a' ms.
Proof.
  intros Hn Hf Hs. cbn [set_members]. unfold set_member. cbn [fst snd]. rewrite Hn. cbn [mbind option_bind].
  rewrite Hf. cbn [mbind option_bind]. by rewrite Hs.
Qed.

Lemma read_int {A} (set : A -> Z -> A) a z :
  MinInt64 <= z <= MaxInt64 -> set_int set a (VNumber (itoa z)) = Some (set a z).
Proof. intros Hz. cbn [set_int]. by rewrite Strconv.ParseInt_itoa. Qed.

Lemma read_string {A} (set : A -> string -> A) a s :
  ValidString s = true -> set_text Some set a (VString (quote s)) = Some (set a s).
Proof. intros Hs. cbn [set_text]. by rewrite unquote_quote. Qed.

Lemma read_uuid {A} (set : A -> uuid -> A) a u :
  legible u -> set_text uuid_Parse set a (VString (quote (uuid_String u))) = Some (set a u).
Proof.
  intros Hu. cbn [set_text]. rewrite (proj2 (legible_quote u Hu)). cbn [mbind option_bind].
  by rewrite (proj1 Hu).
Qed.

Lemma read_string_pointer {A} (set : A -> option string -> A) a s :
  ValidString s = true -> set_pointer Some set a (VString (quote s)) = Some (set a (Some s)).
Proof. intros Hs. cbn [set_pointer]. by rewrite unquote_quote. Qed.

Lemma read_uuid_pointer {A} (set : A -> option uuid -> A) a u :
  legible u -> set_pointer uuid_Parse set a (VString (quote (uuid_String u))) = Some (set a (Some u)).
Proof.
  intros Hu. cbn [set_pointer]. rewrite (proj2 (legible_quote u Hu)). cbn [mbind option_bind].
  by rewrite (proj1 Hu).
Qed.

Lemma read_time {A} (set : A -> time -> A) a t s :
  GoTime.format t = Some s -> set_raw GoTime.parse set a (VString s) = Some (set a t).
Proof. intros Hs. cbn [set_raw]. by rewrite (GoTime.parse_format t s Hs). Qed.

Lemma plain_fields_found fields k set :
  fields = plain_fields \/ fields = cursor_fields -> In (k, set) plain_fields -> field_for fields k = Some set.
Proof.
  intros Hf Hin. unfold plain_fields in Hin. cbn [In] in Hin.
  repeat destruct Hin as [[= <- <-]|Hin]; [by destruct Hf as [->| ->]..|done].
Qed.

(** The five members of every cursor, under either list of fields. *)
Lemma plain_members_read fields c at_ ms :
  storable c -> GoTime.format (cursor_Time c) = Some at_ ->
  fields = plain_fields \/ fields = cursor_fields ->
  set_members fields zero_cursor (take 5 (cursor_members c at_) ++ ms) =
  set_members fields (set_Version (NewCursor (cursor_Time c) (cursor_ID c) (cursor_Binding c) (cursor_Seen c))
    (cursor_Version c)) ms.
Proof.
  intros [Hid Hg Hb Hk Hv Hs Hi] Hf Hfields.
  pose proof (fun k set => plain_fields_found fields k set Hfields) as Hin. unfold cursor_members. cbn [take app].
  erewrite set_members_cons; [|reflexivity|apply Hin; by left|apply read_int; unfold MinInt64, MaxInt64; lia].
  erewrite set_members_cons; [|reflexivity|apply Hin; right; by left|by apply read_time].
  erewrite set_members_cons; [|reflexivity|apply Hin; do 2 right; by left|by apply read_uuid].
  erewrite set_members_cons; [|reflexivity|apply Hin; do 3 right; by left|by apply read_string].
  erewrite set_members_cons; [|reflexivity|apply Hin; do 4 right; by left|apply read_int; unfold MinInt64, MaxInt64; lia].
  done.
Qed.

(** What is read from the document of a cursor is the cursor. *)
Lemma members_read c at_ :
  storable c -> GoTime.format (cursor_Time c) = Some at_ ->
  decode_struct cursor_fields zero_cursor (VObject (cursor_members c at_)) = Some c.
Proof.
  intros Hc Hf. cbn [decode_struct]. rewrite <- (take_drop 5 (cursor_members c at_)).
  rewrite plain_members_read by auto.
  destruct Hc as [_ Hg _ Hk _ _ Hi]. unfold cursor_members. cbn [drop app].
  destruct c as [v t id b n text group iat]. 
  cbn [cursor_Version cursor_Time cursor_ID cursor_Binding cursor_Seen cursor_Text cursor_Group cursor_IssuedAt] in *.
  assert (Htext : forall x ms, x = NewCursor t id b n -> set_members cursor_fields (set_Version x v)
    (match text with Some k => [("k", VString (quote k))] | None => [] end ++ ms) =
    set_members cursor_fields (set_Text (set_Version x v) text) ms).
  { intros x ms ->. destruct text as [k|]; [|done]. cbn [app]. erewrite set_members_cons; [done|reflexivity|reflexivity|].
    by apply read_string_pointer, Hk. }
  rewrite drop_0, Htext by done. clear Htext. destruct group as [g|].
  - cbn [app]. erewrite set_members_cons; [|reflexivity|reflexivity|by apply read_uuid_pointer, Hg].
    case_bool_decide as Hz; [by subst iat|].
    erewrite set_members_cons; [|reflexivity|reflexivity|apply read_int; unfold MinInt64, MaxInt64 in *; lia]. done.
  - cbn [app]. case_bool_decide as Hz; [by subst iat|].
    erewrite set_members_cons; [|reflexivity|reflexivity|apply read_int; unfold MinInt64, MaxInt64 in *; lia]. done.
Qed.

Lemma plain_read c at_ :
  storable c -> GoTime.format (cursor_Time c) = Some at_ ->
  cursor_Text c = None -> cursor_Group c = None -> cursor_IssuedAt c = 0 ->
  decode_struct plain_fields zero_cursor (VObject (cursor_members c at_)) = Some c.
Proof.
  intros Hc Hf Hk Hg Hi. cbn [decode_struct]. rewrite <- (take_drop 5 (cursor_members c at_)).
  rewrite plain_members_read by auto. unfold cursor_members. rewrite Hk, Hg, Hi.
  destruct c. cbn in *. by subst.
Qed.

(** The walk of jsoncontract accepts the document. *)
Lemma members_consumed c at_ : storable c -> JsonContract.consume 0 (VObject (cursor_members c at_)) = true.
Proof.
  intros [_ _ _ _ Hv Hs Hi].
  assert (Hnum : forall z d, 0 <= z <= MaxInt64 -> JsonContract.consume (S d) (VNumber (itoa z)) = (S d <=? 64)%nat).
  { intros z d Hz. cbn [JsonContract.consume]. rewrite JsonContract.itoa_fits by (unfold MinInt64, MaxInt64 in *; lia).
    apply andb_true_r. }
  cbn [JsonContract.consume]. apply andb_true_iff. split; [done|]. apply andb_true_iff. split.
  - apply bool_decide_eq_true. unfold cursor_members.
    destruct (cursor_Text c), (cursor_Group c), (cursor_IssuedAt c == 0);
      cbn [app map fst]; apply (bool_decide_unpack _); reflexivity.
  - apply forallb_forall. intros [k v] Hin. unfold cursor_members in Hin.
    assert (Hmax : 10 ^ 10 <= MaxInt64) by done.
    rewrite !in_app_iff in Hin. destruct Hin as [Hin|[Hin|[Hin|Hin]]].
    + cbn [In] in Hin. repeat destruct Hin as [[= <- <-]|Hin]; [by rewrite Hnum by lia|done|done|done|by rewrite Hnum by lia|done].
    + destruct (cursor_Text c); [|done]. by destruct Hin as [[= <- <-]|].
    + destruct (cursor_Group c); [|done]. by destruct Hin as [[= <- <-]|].
    + destruct (_ == 0); [done|]. destruct Hin as [[= <- <-]|]; [|done]. by rewrite Hnum.
Qed.

(** ** Lengths *)

Lemma quoted_length raw : String.length (quoted raw) = (String.length raw + 2)%nat.
Proof. unfold quoted. cbn [String.length]. rewrite length_app. cbn. lia. Qed.

(** A printed object is its members, with a byte more for each. *)
Fixpoint total (ms : list (string * value)) : nat :=
  match ms with [] => 0 | (k, v) :: ms => String.length k + String.length (print v) + 4 + total ms end.

Lemma total_app a b : total (a ++ b) = (total a + total b)%nat.
Proof. induction a as [|[k v] a IH]; [done|]. cbn [app total]. rewrite IH. lia. Qed.

Lemma object_length ms : (String.length (print (VObject ms)) <= total ms + 2)%nat.
Proof.
  cbn [print]. rewrite !length_app. cbn [String.length].
  assert (Hj : forall l, (String.length (join (map print_member l)) <= total l)%nat).
  { induction l as [|[k v] l IH]; [done|].
    assert (Hm : String.length (print_member (k, v)) = (String.length k + String.length (print v) + 3)%nat).
    { unfold print_member. cbn [fst snd]. rewrite !length_app, quoted_length. cbn. lia. }
    cbn [map total]. destruct l as [|m l]; [cbn [map join strings_Join]; lia|].
    rewrite join_cons by done. rewrite length_app. cbn [String.length]. lia. }
  assert (Hm : map (fun m : string * value => let '(k, x) := m in quoted k +:+ ":" +:+ print x) ms = map print_member ms).
  { apply map_ext. by intros []. }
  rewrite Hm. specialize (Hj ms). unfold join in Hj. lia.
Qed.

(** The documents of positions whose binding is a digest fit in a token. *)
Record bounded (c : Cursor) : Prop := {
  bounded_binding : string_forallb plain_byte (cursor_Binding c) = true;
  bounded_length : (String.length (cursor_Binding c) <= 64)%nat;
  bounded_text : forall k, cursor_Text c = Some k -> (length (runes k) <= 255)%nat;
}.

Lemma legible_length u : legible u -> (String.length (quote (uuid_String u)) <= 36)%nat.
Proof. intros (_ & Hp & Hl). by rewrite (proj2 (plain_text _ Hp)). Qed.

Lemma members_length c at_ :
  storable c -> bounded c -> GoTime.format (cursor_Time c) = Some at_ ->
  (String.length (print (VObject (cursor_members c at_))) <= 1800)%nat /\
  (cursor_Text c = None -> (String.length (print (VObject (cursor_members c at_))) <= 260)%nat).
Proof.
  intros [Hid Hg Hb Hk Hv Hs Hi] [Hp Hl Ht] Hf.
  pose proof (object_length (cursor_members c at_)) as Ho. revert Ho. unfold cursor_members. rewrite !total_app.
  pose proof (GoTime.format_length _ _ Hf). pose proof (legible_length _ Hid).
  pose proof (itoa_length 1 _ Hv ltac:(lia)). pose proof (itoa_length 10 _ Hs ltac:(lia)).
  assert ((String.length (itoa (cursor_IssuedAt c)) <= 19)%nat).
  { apply itoa_length; [|lia]. unfold MaxInt64 in Hi. assert (2 ^ 63 - 1 < 10 ^ Z.of_nat 19) by done. lia. }
  assert (Hlast : (total (if cursor_IssuedAt c == 0%Z then [] else [("iat", VNumber (itoa (cursor_IssuedAt c)))]) <= 26)%nat).
  { destruct (_ == 0); cbn [total print String.length]; lia. }
  assert (Hgroup : (total (match cursor_Group c with Some g => [("g", VString (quote (uuid_String g)))] | None => [] end) <= 43)%nat).
  { destruct (cursor_Group c) as [g|]; cbn [total print]; [|lia]. pose proof (legible_length g (Hg g eq_refl)).
    rewrite quoted_length. cbn. lia. }
  assert (Hfive : (total (take 5 (cursor_members c at_)) <= 180)%nat).
  { unfold cursor_members. cbn [take app total print String.length]. rewrite !quoted_length.
    rewrite (proj2 (plain_text _ Hp)), take_0. cbn [total]. lia. }
  unfold cursor_members in Hfive. cbn [take app] in Hfive. rewrite take_0 in Hfive. intros Ho. split.
  - assert ((total (match cursor_Text c with Some k => [("k", VString (quote k))] | None => [] end) <= 1537)%nat); [|lia].
    destruct (cursor_Text c) as [k|]; cbn [total print]; [|lia]. rewrite quoted_length.
    pose proof (quote_length k (Hk k eq_refl)). specialize (Ht k eq_refl). cbn. lia.
  - intros Hn. assert (total (match cursor_Text c with Some k => [("k", VString (quote k))] | None => [] end) = 0%nat)
      by (by rewrite Hn). lia.
Qed.

(** ** Tokens *)

Definition undotted (s : string) : bool := string_forallb (fun c => c != "."%char) s.

Lemma split_undotted w : undotted w = true -> split_byte "."%char w = [w].
Proof.
  induction w as [|c w IH]; [done|]. unfold undotted. cbn [string_forallb split_byte].
  intros [Hc%negb_true_iff Hw]%andb_true_iff. by rewrite Hc, IH.
Qed.

Lemma split_dot w s : undotted w = true -> split_byte "."%char (w +:+ "." +:+ s) = w :: split_byte "."%char s.
Proof.
  change ("." +:+ s) with (String "."%char s). induction w as [|c w IH].
  - intros _. change ("" +:+ ?x) with x. cbn [split_byte]. by rewrite bool_decide_true.
  - unfold undotted. cbn [string_forallb]. intros [Hc%negb_true_iff Hw]%andb_true_iff.
    rewrite app_cons_str. cbn [split_byte]. by rewrite Hc, IH.
Qed.

(** A text of three parts is the parts with dots between. *)
Lemma split_join w a l : split_byte "."%char w = a :: l ->
  undotted a = true /\ match l with [] => w = a | _ => exists s, w = a +:+ "." +:+ s /\ split_byte "."%char s = l end.
Proof.
  revert a l. induction w as [|c w IH]; intros a l; cbn [split_byte]; [by intros [= <- <-]|].
  case_bool_decide as Hc.
  - intros [= <- <-]. split; [done|]. subst c. destruct (split_byte _ w) as [|x xs] eqn:E; [|by exists w].
    exfalso. destruct w as [|d w]; [done|]. cbn [split_byte] in E. destruct (_ == _); [done|].
    by destruct (split_byte _ w).
  - destruct (split_byte _ w) as [|x xs] eqn:E.
    + exfalso. destruct w as [|d w]; [done|]. cbn [split_byte] in E. destruct (_ == _); [done|].
      by destruct (split_byte _ w).
    + intros [= <- <-]. destruct (IH x xs eq_refl) as [Hx Hl]. split.
      * unfold undotted in *. cbn [string_forallb]. rewrite Hx, bool_decide_false; done.
      * destruct xs as [|y ys]; [by rewrite Hl|]. destruct Hl as (s & -> & Hs). by exists s.
Qed.

Lemma split_three token p0 p1 p2 :
  split_byte "."%char token = [p0; p1; p2] <->
  token = p0 +:+ "." +:+ p1 +:+ "." +:+ p2 /\ undotted p0 = true /\ undotted p1 = true /\ undotted p2 = true.
Proof.
  split.
  - intros [H0 (s & -> & Hs)]%split_join. apply split_join in Hs as [H1 (u & -> & Hu)].
    by apply split_join in Hu as [H2 ->].
  - intros (-> & H0 & H1 & H2). by rewrite split_dot, split_dot, split_undotted.
Qed.

Lemma encoded_undotted s : undotted (Base64.encode_url s) = true.
Proof.
  pose proof (Base64.encode_url_digits s) as Hs. revert Hs. generalize (Base64.encode_url s). clear s.
  intros s. unfold undotted. induction s as [|c s IH]; [done|]. cbn [string_forallb].
  intros [Hc Hs]%andb_true_iff. rewrite IH by done. by rewrite bool_decide_false by (by intros ->).
Qed.

(** ** The clock *)

Lemma fresh_window now now' :
  0 < GoTime.Unix now -> GoTime.Unix now + GoTime.unixToInternal <= MaxInt64 ->
  now - GoTime.Minute <= now' <= now + signedCursorLifetime - GoTime.Second ->
  fresh now' (GoTime.Unix now) = true.
Proof.
  intros Hpos Hmax Hnow. unfold fresh, GoTime.OfUnix. rewrite wrapS64_small by (unfold MinInt64, GoTime.unixToInternal in *; lia).
  unfold GoTime.Unix in *. set (q := now / GoTime.Second) in *.
  pose proof (Z.div_mod now GoTime.Second ltac:(done)) as Hdm. fold q in Hdm.
  pose proof (Z.mod_pos_bound now GoTime.Second ltac:(done)) as Hm.
  replace (q - GoTime.unixToInternal + GoTime.unixToInternal) with q by lia.
  rewrite !andb_true_iff, !negb_true_iff, Z.ltb_lt, !Z.ltb_ge. lia.
Qed.

(** ** Positions *)

Definition position (c : Cursor) : Prop :=
  cursor_ID c <> uuid_Nil /\ cursor_Binding c <> "" /\ 0 <= cursor_Seen c <= maxCursorSeen /\
  (cursor_Version c = 1 /\ cursor_Time c <> 0 /\ cursor_Text c = None /\ cursor_Group c = None \/
   cursor_Version c = 2 /\ cursor_Time c = 0 /\ cursor_Group c <> Some uuid_Nil /\
   exists text, cursor_Text c = Some text /\ ValidString text = true /\ RuneCount text <= 255).

Lemma validatePosition_Ok c binding :
  validatePosition c binding = Ok tt <-> position c /\ cursor_Binding c = binding.
Proof.
  unfold validatePosition, position. split.
  - intros ([] & Hc & Hr)%res_bind_Ok. apply fail_if_Ok in Hc.
    rewrite !orb_false_iff, !bool_decide_eq_false, negb_false_iff, bool_decide_eq_true, !Z.ltb_ge in Hc.
    revert Hr. case_bool_decide as H1.
    + intros Hr%fail_if_Ok. rewrite !orb_false_iff, bool_decide_eq_false, !negb_false_iff, !bool_decide_eq_true in Hr. tauto.
    + case_bool_decide as H2; [|done]. destruct (cursor_Text c) as [text|]; [|done]. intros Hr%fail_if_Ok.
      rewrite !orb_false_iff, !negb_false_iff, Z.ltb_ge, bool_decide_eq_true, bool_decide_eq_false in Hr.
      split; [|tauto]. split_and!; try tauto. right. split_and!; try tauto. exists text. tauto.
  - intros [(Hid & Hb & Hs & Hk) Hbind]. apply res_bind_Ok. exists tt. split.
    + apply fail_if_Ok. rewrite !orb_false_iff, !bool_decide_eq_false, negb_false_iff, bool_decide_eq_true, !Z.ltb_ge. tauto.
    + destruct Hk as [(Hv & Ht & Hx & Hg)|(Hv & Ht & Hg & text & Hx & Hvalid & Hcount)]; rewrite Hv.
      * rewrite bool_decide_true by done. apply fail_if_Ok.
        rewrite !orb_false_iff, bool_decide_eq_false, !negb_false_iff, !bool_decide_eq_true. tauto.
      * rewrite bool_decide_false, bool_decide_true by done. rewrite Hx. apply fail_if_Ok.
        rewrite !orb_false_iff, !negb_false_iff, Z.ltb_ge, bool_decide_eq_true, bool_decide_eq_false. tauto.
Qed.

(** A token of a ring: three parts, the last of them the code of the others under
    one of the keys, the middle one a document of the position. *)
Definition issued_token (keys : list string) (token : string) (c : Cursor) : Prop :=
  exists p1 p2 raw key,
    token = signedCursorPrefix +:+ p1 +:+ "." +:+ p2 /\ undotted p1 = true /\ undotted p2 = true /\
    key ∈ keys /\ Base64.decode_url p2 = Some (cursorMAC key (signedCursorPrefix +:+ p1)) /\
    slen (cursorMAC key (signedCursorPrefix +:+ p1)) = 32 /\
    Base64.decode_url p1 = Some raw /\ slen raw <= maxSignedCursorPayload /\
    JsonContract.Decode (decode_struct cursor_fields zero_cursor) raw = Some c.

Lemma prefixed_parts token p0 p1 p2 :
  HasPrefix token signedCursorPrefix = true -> token = p0 +:+ "." +:+ p1 +:+ "." +:+ p2 ->
  undotted p0 = true -> p0 = "p1".
Proof.
  intros [rest ->]%HasPrefix_spec Ht H0. unfold signedCursorPrefix in Ht.
  assert (Hs : split_byte "."%char ("p1." +:+ rest) = "p1" :: split_byte "."%char rest) by done.
  rewrite Ht, split_dot in Hs by done. by injection Hs.
Qed.

Lemma existsb_key signature body keys :
  existsb (fun key => signature == cursorMAC key body) keys = true <-> exists key, key ∈ keys /\ signature = cursorMAC key body.
Proof.
  rewrite existsb_exists. split; intros (key & Hin & Hk); exists key.
  - split; [by apply list_elem_of_In|]. by apply bool_decide_eq_true in Hk.
  - split; [by apply list_elem_of_In|]. by apply bool_decide_eq_true.
Qed.

(** What [Decode] checks, step by step. *)
Lemma Decode_Ok codec now token binding c :
  Decode codec now token binding = Ok c <->
  slen token <= maxSignedCursorLength /\ issued_token (ring codec) token c /\
  position c /\ cursor_Binding c = binding /\ fresh now (cursor_IssuedAt c) = true.
Proof.
  unfold Decode. destruct (ring codec) as [|k0 ks] eqn:Hring.
  { split; [done|]. intros (_ & (p1 & p2 & raw & key & _ & _ & _ & Hk & _) & _). by apply elem_of_nil in Hk. }
  set (keys := k0 :: ks). clearbody keys. split.
  - intros ([] & [Hlen Hpre%negb_false_iff]%fail_if_Ok%orb_false_iff & Hd)%res_bind_Ok. apply Z.ltb_ge in Hlen.
    destruct (split_byte _ token) as [|p0 [|p1 [|p2 [|]]]] eqn:Hsplit; try done.
    apply split_three in Hsplit as (Ht & H0 & H1 & H2). pose proof (prefixed_parts _ _ _ _ Hpre Ht H0) as ->.
    destruct (Base64.decode_url p2) as [signature|] eqn:Hsig; [|done].
    apply res_bind_Ok in Hd as ([] & Hl%fail_if_Ok%negb_false_iff%bool_decide_eq_true & Hd).
    apply res_bind_Ok in Hd as ([] & Hk%fail_if_Ok%negb_false_iff & Hd).
    apply existsb_key in Hk as (key & Hk & ->). destruct (Base64.decode_url p1) as [raw|] eqn:Hraw; [|done].
    apply res_bind_Ok in Hd as ([] & Hr%fail_if_Ok%Z.ltb_ge & Hd).
    destruct (JsonContract.Decode _ raw) as [c'|] eqn:Hj; [|done].
    apply res_bind_Ok in Hd as ([] & [Hp Hb]%validatePosition_Ok & Hd).
    apply res_bind_Ok in Hd as ([] & Hf%fail_if_Ok%negb_false_iff & [= <-]).
    split_and!; [done| |done..]. exists p1, p2, raw, key. done.
  - intros (Hlen & (p1 & p2 & raw & key & Ht & H1 & H2 & Hk & Hsig & Hl & Hraw & Hr & Hj) & Hp & Hb & Hf).
    rewrite (proj2 (split_three token "p1" p1 p2)) by done.
    rewrite (proj2 (Z.ltb_ge _ _) Hlen). rewrite Ht at 1. rewrite HasPrefix_app. cbn [orb negb fail_if mbind res_bind].
    rewrite Hsig, Hl, bool_decide_true by done. cbn [negb fail_if mbind res_bind].
    rewrite (proj2 (existsb_key _ _ keys)) by (by exists key). cbn [negb fail_if mbind res_bind].
    rewrite Hraw, (proj2 (Z.ltb_ge _ _) Hr). cbn [fail_if mbind res_bind]. rewrite Hj.
    rewrite (proj2 (validatePosition_Ok c binding)) by done. cbn [mbind res_bind]. by rewrite Hf.
Qed.

Lemma Binding_digest values :
  (forall s, String.length (sha256_Sum256 s) = 32%nat) ->
  string_forallb plain_byte (Binding values) = true /\ String.length (Binding values) = 64%nat.
Proof. intros Hsha. unfold Binding. split; [apply lower_hex_plain, hex_lower|]. by rewrite hex_length, Hsha. Qed.

Lemma position_storable c issued :
  position c -> string_forallb plain_byte (cursor_Binding c) = true -> (String.length (cursor_Binding c) <= 64)%nat ->
  legible (cursor_ID c) -> (forall g, cursor_Group c = Some g -> legible g) -> 0 <= issued <= MaxInt64 ->
  storable (set_IssuedAt c issued) /\ bounded (set_IssuedAt c issued).
Proof.
  intros (_ & _ & Hs & Hk) Hb Hl Hid Hg Hi. unfold maxCursorSeen in Hs.
  assert (Htext : forall k, cursor_Text c = Some k -> ValidString k = true /\ (length (runes k) <= 255)%nat).
  { intros k Hx. destruct Hk as [(_ & _ & Hn & _)|(_ & _ & _ & text & Hx' & Hv & Hc)]; [by rewrite Hn in Hx|].
    rewrite Hx in Hx'. injection Hx' as <-. split; [done|]. unfold RuneCount, len in Hc. lia. }
  split; split; cbn; try done; try lia; try (intros k Hx; by apply Htext).
  by apply plain_text.
Qed.

Lemma cursorMAC_length key body :
  (forall s, String.length (sha256_Sum256 s) = 32%nat) -> String.length (cursorMAC key body) = 32%nat.
Proof. intros Hsha. apply Hsha. Qed.

(** A position that can be written gives a token, and what the token holds. *)
Lemma Encode_token codec key rest now c :
  (forall s, String.length (sha256_Sum256 s) = 32%nat) ->
  ring codec = key :: rest -> position c ->
  storable (set_IssuedAt c (GoTime.Unix now)) -> bounded (set_IssuedAt c (GoTime.Unix now)) ->
  GoTime.format (cursor_Time c) <> None ->
  exists token, Encode codec now c = Ok token /\ slen token <= maxSignedCursorLength /\
    forall keys, key ∈ keys -> issued_token keys token (set_IssuedAt c (GoTime.Unix now)).
Proof.
  intros Hsha Hring Hp Hs Hb Hf. destruct (GoTime.format (cursor_Time c)) as [at_|] eqn:Hat; [|done].
  set (c' := set_IssuedAt c (GoTime.Unix now)) in *. assert (Hat' : GoTime.format (cursor_Time c') = Some at_) by done.
  set (raw := print (VObject (cursor_members c' at_))).
  destruct (members_length c' at_ Hs Hb Hat') as [Hlen _]. fold raw in Hlen.
  set (body := signedCursorPrefix +:+ Base64.encode_url raw).
  exists (body +:+ "." +:+ Base64.encode_url (cursorMAC key body)). split_and!.
  - unfold Encode. rewrite Hring, (proj2 (validatePosition_Ok c (cursor_Binding c))) by done. cbn [mbind res_bind].
    unfold Marshal. fold c'. rewrite Hat'. cbn [mbind option_bind]. fold raw.
    assert (Hz : (maxSignedCursorPayload <? slen raw) = false).
    { apply Z.ltb_ge. unfold slen, maxSignedCursorPayload. lia. }
    by rewrite Hz.
  - unfold slen, maxSignedCursorLength, body. rewrite !length_app. cbn [String.length].
    pose proof (Base64.encode_url_length raw). pose proof (Base64.encode_url_length (cursorMAC key body)) as Hm.
    rewrite (cursorMAC_length key body Hsha) in Hm. fold body. change (size signedCursorPrefix) with 3%nat. lia.
  - intros keys Hk. exists (Base64.encode_url raw), (Base64.encode_url (cursorMAC key body)), raw, key.
    split_and!; [|apply encoded_undotted..|done|apply Base64.decode_encode_url| |apply Base64.decode_encode_url| |].
    + unfold body at 1. by rewrite app_assoc_str.
    + unfold slen. by rewrite cursorMAC_length.
    + unfold slen, maxSignedCursorPayload. lia.
    + unfold raw. rewrite JsonContract.Decode_print; [by apply members_read|by apply members_written|by apply members_consumed].
Qed.

(** C8: a codec accepts exactly the tokens of its ring.  Decoding a token for a
    binding gives a cursor if and only if the codec has keys, the token is at most
    4,096 bytes, it is the prefix and two more parts between dots of which the last
    decodes to the 32-byte code of the rest under one of the keys of the ring, the
    middle part decodes to a document of at most 2,048 bytes that reads as the
    cursor without an unknown, repeated or trailing member, the cursor is a position
    of one of the two kinds, its binding is the one asked for, and it was issued
    after the epoch, at most a minute ahead and at most two hours ago. *)
Theorem Decode_exact codec now token binding c :
  Decode codec now token binding = Ok c <->
  slen token <= maxSignedCursorLength /\ issued_token (ring codec) token c /\
  position c /\ cursor_Binding c = binding /\ fresh now (cursor_IssuedAt c) = true.
Proof. apply Decode_Ok. Qed.

(** C19: signed cursors survive the round trip and key rotation.  Take any position,
    either a time and an identifier or a text of up to 255 runes, an identifier and
    an optional group, whose binding is a [Binding] digest, whose identifiers print
    as the uuid package prints them and whose time has a four-digit year.  A codec
    with a key encodes it, and every codec whose ring still holds the signing key
    decodes the token for that binding to the same cursor with its issue time, at
    any moment from a minute before it was issued to a second short of two hours
    after. *)
Theorem Encode_Decode signer reader key rest now now' c values :
  (forall s, String.length (sha256_Sum256 s) = 32%nat) ->
  ring signer = key :: rest -> key ∈ ring reader ->
  position c -> cursor_Binding c = Binding values ->
  legible (cursor_ID c) -> (forall g, cursor_Group c = Some g -> legible g) ->
  GoTime.format (cursor_Time c) <> None ->
  0 < GoTime.Unix now -> GoTime.Unix now + GoTime.unixToInternal <= MaxInt64 ->
  now - GoTime.Minute <= now' <= now + signedCursorLifetime - GoTime.Second ->
  exists token, Encode signer now c = Ok token /\
    Decode reader now' token (cursor_Binding c) = Ok (set_IssuedAt c (GoTime.Unix now)).
Proof.
  intros Hsha Hring Hkey Hp Hbind Hid Hg Hf Hpos Hmax Hnow. destruct (Binding_digest values Hsha) as [Hd Hl].
  rewrite <- Hbind in Hd, Hl.
  destruct (position_storable c (GoTime.Unix now)) as [Hs Hb]; [done|done|lia|done|done| |].
  { unfold GoTime.unixToInternal in Hmax. lia. }
  destruct (Encode_token signer key rest now c Hsha Hring Hp Hs Hb Hf) as (token & He & Hlen & Ht).
  exists token. split; [done|]. apply Decode_Ok. split_and!; [done|by apply Ht|done|done|by apply fresh_window].
Qed.

(** The plain token of an unsigned position is read back as well. *)
Lemma EncodeCursor_DecodeCursor at_ id values seen :
  (forall s, String.length (sha256_Sum256 s) = 32%nat) ->
  let c := NewCursor at_ id (Binding values) seen in
  at_ <> 0 -> id <> uuid_Nil -> legible id -> 0 <= seen <= maxCursorSeen -> GoTime.format at_ <> None ->
  exists token, EncodeCursor c = Ok token /\ DecodeCursor token (Binding values) = Ok c.
Proof.
  intros Hsha c Hat Hnil Hid Hseen Hf. destruct (Binding_digest values Hsha) as [Hd Hl].
  assert (Hv : validateCursor c (Binding values) = Ok tt).
  { apply fail_if_Ok. unfold c. cbn [NewCursor cursor_Version cursor_Time cursor_Text cursor_Group cursor_IssuedAt
      cursor_ID cursor_Seen cursor_Binding]. rewrite !orb_false_iff, !negb_false_iff, !bool_decide_eq_false,
      !bool_decide_eq_true, !Z.ltb_ge. split_and!; try done; try lia. by intros He; rewrite He in Hl. }
  assert (Hs : storable c).
  { split; cbn; try done; try (unfold maxCursorSeen in Hseen; lia). by apply plain_text. }
  assert (Hb : bounded c) by (split; cbn; [done|lia|done]).
  destruct (GoTime.format at_) as [text|] eqn:Ht; [|done]. assert (Ht' : GoTime.format (cursor_Time c) = Some text) by done.
  set (raw := print (VObject (cursor_members c text))). destruct (members_length c text Hs Hb Ht') as [_ Hlen].
  specialize (Hlen eq_refl). fold raw in Hlen. exists (Base64.encode_url raw). split.
  - unfold EncodeCursor. change (cursor_Binding c) with (Binding values). rewrite Hv. cbn [mbind res_bind].
    unfold Marshal. by rewrite Ht'.
  - unfold DecodeCursor. assert (Hg : (Base64.encode_url raw == "") || (maxCursorLength <? slen (Base64.encode_url raw)) = false).
    { apply orb_false_iff. split; [by apply bool_decide_eq_false|]. apply Z.ltb_ge. unfold slen, maxCursorLength.
      pose proof (Base64.encode_url_length raw). lia. }
    rewrite Hg, Base64.decode_encode_url. cbn [fail_if mbind res_bind]. unfold raw.
    rewrite parse_json_print by (by apply members_written). cbn [mbind option_bind].
    rewrite plain_read by done. cbv zeta.
    change (set_Version _ (cursor_Version c)) with c. by rewrite Hv.
Qed.

(** ** Bindings *)

(** A number before a colon is read in one way. *)
Lemma itoa_colon a b x y : 0 <= a -> 0 <= b ->
  itoa a +:+ ":" +:+ x = itoa b +:+ ":" +:+ y -> itoa a = itoa b /\ x = y.
Proof.
  assert (Hd : forall z, 0 <= z -> string_forallb Strconv.digit (itoa z) = true).
  { intros z Hz. destruct z as [|p|p]; [done| |lia].
    destruct (Strconv.pretty_N_natural (N.pos p)) as [Hp|(c & ds & Hp & Hc & _ & Hds)].
    - change (itoa (Z.pos p)) with (pretty (N.pos p)). by rewrite Hp.
    - change (itoa (Z.pos p)) with (pretty (N.pos p)). rewrite Hp. cbn [string_forallb]. by rewrite Hc. }
  intros Ha%Hd Hb%Hd. revert Ha Hb. generalize (itoa a) (itoa b). clear a b Hd. intros s t.
  change (":" +:+ ?z) with (String ":"%char z). revert t.
  induction s as [|c s IH]; intros [|d t]; cbn [string_forallb]; rewrite ?app_cons_str; rewrite ?andb_true_iff.
  - by intros _ _ [= <-].
  - intros _ [Hd _] [= <- _]. done.
  - intros [Hc _] _ [= -> _]. done.
  - intros [_ Hs] [_ Ht] [= <- He]. destruct (IH t Hs Ht He) as [-> ->]. done.
Qed.

Lemma append_same_length a b x y : String.length a = String.length b -> a +:+ x = b +:+ y -> a = b /\ x = y.
Proof.
  revert b. induction a as [|c a IH]; intros [|d b]; cbn [String.length]; [intros _ He; exact (conj eq_refl He)|lia|lia|].
  rewrite !app_cons_str. intros [= Hl] [= <- He]. by destruct (IH b Hl He) as [-> ->].
Qed.

(** The framing of the values is injective. *)
Lemma frames_inj vs ws : frames vs = frames ws -> vs = ws.
Proof.
  revert ws. induction vs as [|v vs IH]; intros [|w ws]; [done|..]; cbn [frames].
  - intros He. destruct (itoa_head (slen w)) as (c & r & Hc & _). by rewrite Hc in He.
  - intros He. destruct (itoa_head (slen v)) as (c & r & Hc & _). by rewrite Hc in He.
  - intros [Hi He]%itoa_colon; [|unfold slen; lia..].
    assert (Hl : slen v = slen w).
    { clear -Hi. destruct (decide (slen v = slen w)); [done|]. by apply (inj pretty) in Hi. }
    apply append_same_length in He as [-> He]; [|unfold slen in Hl; lia].
    apply append_same_length in He as [_ He]; [|done]. f_equal. by apply IH.
Qed.

(** A binding stands for its values.  The digest of one list of values is the
    digest of another only if the lists are equal, entry by entry, or the two
    framed texts are a collision of SHA-256: lengths before the values keep the
    boundaries apart, so that no scope, filter or sort can be moved from one value
    into the next. *)
Theorem Binding_injective vs ws :
  Binding vs = Binding ws <->
  vs = ws \/ frames vs <> frames ws /\ sha256_Sum256 (frames vs) = sha256_Sum256 (frames ws).
Proof.
  unfold Binding. split.
  - intros He%hex_inj. destruct (decide (frames vs = frames ws)) as [Hf|Hf]; [left; by apply frames_inj|by right].
  - intros [->|[_ ->]]; done.
Qed.
End external.

(** ** Offset pages *)

(** The page of a collection at an offset, and a client that asks for the first
    page and then for the offset each answer gives. *)
Definition page_at {A} (items : list A) (limit offset : Z) : list A :=
  take (Z.to_nat limit) (drop (Z.to_nat offset) items).

Fixpoint walk {A} (fuel : nat) (meta : Z -> Z -> Metadata) (items : list A) (limit offset : Z) : option (list A) :=
  match fuel with
  | O => None
  | S fuel =>
      let page := page_at items limit offset in
      match meta_NextOffset (meta offset (len page)) with
      | None => Some page
      | Some next => rest ← walk fuel meta items limit next; Some (page ++ rest)
      end
  end.

(** Metadata that offers the end of the page, unless the page was the last. *)
Definition continues {A} (meta : Z -> Z -> Metadata) (items : list A) (limit : Z) : Prop := forall offset,
  0 <= offset <= len items -> let pageLen := len (page_at items limit offset) in
  0 < pageLen /\ meta_NextOffset (meta offset pageLen) = Some (offset + pageLen) \/
  len items <= offset + pageLen /\ meta_NextOffset (meta offset pageLen) = None.

Lemma page_length {A} (items : list A) limit offset :
  1 <= limit -> 0 <= offset <= len items -> len (page_at items limit offset) = Z.min limit (len items - offset).
Proof. unfold page_at, len. rewrite length_take, length_drop. lia. Qed.

Lemma walk_drop {A} fuel meta (items : list A) limit offset :
  continues meta items limit -> 1 <= limit -> 0 <= offset <= len items ->
  len items - offset < Z.of_nat fuel ->
  walk fuel meta items limit offset = Some (drop (Z.to_nat offset) items).
Proof.
  intros Hm Hlimit. revert offset. induction fuel as [|fuel IH]; intros offset Ho Hf; [lia|]. cbn [walk].
  pose proof (page_length items limit offset Hlimit Ho) as Hl.
  destruct (Hm offset Ho) as [[Hpos Hn]|[Hend Hn]]; cbn zeta in *; rewrite Hn.
  - rewrite IH by lia. cbn [mbind option_bind]. f_equal. rewrite Hl. unfold page_at.
    rewrite <- (take_drop (Z.to_nat limit) (drop (Z.to_nat offset) items)) at 2. f_equal. rewrite drop_drop.
    unfold len in *. destruct (decide (limit <= Z.of_nat (length items) - offset)) as [Hle|Hgt].
    + f_equal. lia.
    + rewrite !drop_ge; [done|lia..].
  - f_equal. unfold page_at. apply take_ge. rewrite length_drop. unfold len in *. lia.
Qed.

Lemma Exact_continues {A} (items : list A) limit :
  1 <= limit -> len items <= MaxInt64 -> continues (Exact (len items) limit) items limit.
Proof.
  intros Hlimit Hmax offset Ho. cbn zeta. rewrite page_length by done. unfold Exact, Uncounted.
  cbn [with_total meta_NextOffset]. rewrite !(Z.max_l _ 0), wrapS64_small by (unfold MinInt64; lia).
  destruct (_ <? len items) eqn:E1, (0 <? _) eqn:E2; cbn [andb]; rewrite ?Z.ltb_lt, ?Z.ltb_ge in *; [left|right..]; (split; [lia|done]) || lia.
Qed.

Lemma FromPage_continues {A} (items : list A) limit :
  1 <= limit -> len items <= MaxInt64 -> continues (FromPage limit) items limit.
Proof.
  intros Hlimit Hmax offset Ho. cbn zeta. rewrite page_length by done. unfold FromPage, Uncounted.
  cbn [meta_NextOffset]. rewrite !(Z.max_l _ 0), wrapS64_small by (unfold MinInt64; lia).
  destruct (0 <? limit) eqn:E1, (limit <=? _) eqn:E2, (0 <? Z.min _ _) eqn:E3; cbn [andb];
    rewrite ?Z.ltb_lt, ?Z.ltb_ge, ?Z.leb_le, ?Z.leb_gt in *; [left|right..]; (split; [lia|done]) || lia.
Qed.


(** A legacy offset is the one that was sent, or an error: never a smaller one. *)
Lemma LegacyOffset_sent n :
  0 <= n <= MaxUint64 ->
  LegacyOffset {["offset" := [itoa n]]} = if n <=? MaxLegacyOffset then Ok n else Err ErrOffsetNotSupported.
Proof.
  intros Hn. unfold LegacyOffset. rewrite lookup_singleton_eq.
  assert (Hp : Strconv.ParseUint (itoa n) = Strconv.NumOk n).
  { destruct n as [|p|p]; [done| |lia]. apply (Strconv.ParseUint_pretty (N.pos p)). apply Hn. }
  rewrite Hp, Z.ltb_antisym. by destruct (n <=? MaxLegacyOffset).
Qed.

(** The scope of a set of identifiers does not depend on their order. *)
Lemma SortedUUIDs_order_free `{External} ids ids' : ids ≡ₚ ids' -> SortedUUIDs ids = SortedUUIDs ids'.
Proof.
  intros Hp. unfold SortedUUIDs. f_equal.
  apply (sort_slice_unique id str_lt); [by intros x y _ _|by rewrite Hp].
Qed.

(** ** Examples *)

Definition example_codec (keys : list string) : option CursorCodec := Some {| codec_keys := keys |}.
Definition example_now : time := GoTime.OfUnix 1791586800.
Definition example_binding : list string := ["actor1"; "project1"; "name:asc,id:asc"; "search=literal"].
Definition example_id : uuid := UUID "0a1b2c3d-0000-4000-8000".
#[local] Existing Instance Concrete.external.

Definition example_cursor : Cursor :=
  NewTextCursor "same-name" example_id (Some example_id) (Binding example_binding) 20.

(** A token signed before a rotation, read after it with the ring of both keys. *)
Lemma Encode_Decode_witness :
  exists token,
    Encode (example_codec ["old"]) example_now example_cursor = Ok token /\
    Decode (example_codec ["new"; "old"]) (example_now + GoTime.Hour) token (Binding example_binding) =
      Ok (set_IssuedAt example_cursor 1791586800).
Proof.
  assert (Hid : legible example_id) by (split_and!; [done|done|by apply Nat.leb_le]).
  apply (Encode_Decode (example_codec ["old"]) (example_codec ["new"; "old"]) "old" [] example_now
    (example_now + GoTime.Hour) example_cursor example_binding).
  - intros s. apply Concrete.digits_length.
  - reflexivity.
  - right. left.
  - split_and!; [done|done|discriminate|discriminate|right]. split_and!; [done|done|done|]. by exists "same-name".
  - reflexivity.
  - exact Hid.
  - intros g [= <-]. exact Hid.
  - discriminate.
  - reflexivity.
  - discriminate.
  - split; discriminate.
Defined.


(** Tampering and a removed key are refused, as is another binding. *)
Lemma example_refused :
  match Encode (example_codec ["old"]) example_now example_cursor with
  | Ok token =>
      Decode (example_codec ["new"]) example_now token (Binding example_binding) = Err ErrInvalidCursor /\
      Decode (example_codec ["old"]) example_now token (Binding ["actor2"]) = Err ErrInvalidCursor /\
      Decode (example_codec ["old"]) example_now (token +:+ ".extra") (Binding example_binding) = Err ErrInvalidCursor /\
      DecodeCursor token (Binding example_binding) = Err ErrInvalidCursor
  | Err _ => False
  end.
Proof. vm_compute. split_and!; reflexivity. Qed.
End PaginationFacts.
