(* ===== verification/AsyncOp.v ===== *)
(** * Idempotent asynchronous operations (internal/delivery/asyncop/receipt.go)

    A mutation reserves a key in the scope of its actor, operation and target,
    does its work and attaches a receipt to the key, all in one transaction; a
    retry finds the receipt.  The table of keys is a finite map: the statements
    of internal/db/sqlc/operation_idempotency_ext.sql.go act on one row of it.
    The response column holds the envelope that was stored, or [None] for a text
    that is none. *)

From Stdlib Require Import ZArith Lia.
From S2P Require Import Prelude GoStrings Utf8 External Validation Model.
From stdpp Require Import base gmap strings list.
Import Model.
Import Utf8.

Module AsyncOp.

(** ** Control characters (unicode.IsControl) *)

(** U+0000..U+001F, U+007F and, as the byte 0xC2 and a second one, U+0080..U+009F. *)
Fixpoint has_control (s : string) : bool :=
  match s with
  | EmptyString => false
  | String a r =>
      control_byte a ||
      match r with
      | String b _ => (a == byte 194) && in_range (byte 128) (byte 159) b
      | EmptyString => false
      end || has_control r
  end.

(** ** Data *)

Definition MaxIdempotencyKeyBytes : Z := 128.

Definition ErrConflict : error := EText "delivery idempotency key identifies a different request".
Definition ErrCorrupt : error := EText "delivery idempotency receipt is incomplete or invalid".

Record Receipt := {
  receipt_OperationID : uuid;
  receipt_Operation : string;
  receipt_Resource : string;
  receipt_ResourceID : uuid;
  receipt_ProjectID : uuid;
  receipt_Status : string;
  receipt_StatusURL : string;
  receipt_AcceptedAt : time;
}.

Record ClaimRequest := {
  request_ActorID : uuid;
  request_ProjectID : uuid;
  request_Operation : string;
  request_Resource : string;
  request_TargetID : uuid;
  request_IdempotencyKey : string;
  request_RequestDigest : string;
  request_OperationTable : string;
}.

(** [claim_Receipt] is the zero receipt unless [claim_Replay]. *)
Record Claim := {
  claim_Scope : string;
  claim_IdempotencyKey : string;
  claim_RequestDigest : string;
  claim_OperationTable : string;
  claim_Receipt : option Receipt;
}.

Definition claim_Replay (c : Claim) : bool := bool_decide (is_Some (claim_Receipt c)).

Record persistedEnvelope := {
  persisted_RequestDigest : string;
  persisted_Receipt : Receipt;
}.

(** A row of operation_idempotency_keys, under its scope and key. *)
Record KeyRow := {
  key_OperationTable : string;
  key_OperationID : option uuid;
  key_Response : option persistedEnvelope;
}.

Abbreviation Keys := (gmap (string * string) KeyRow).

(** ** The statements *)

Definition ReserveOperationIdempotencyKey (keys : Keys) (scope key : string) : KeyRow * Keys :=
  match keys !! (scope, key) with
  | Some row => (row, keys)
  | None =>
      let row := {| key_OperationTable := ""; key_OperationID := None; key_Response := None |} in
      (row, <[(scope, key) := row]> keys)
  end.

(** The update returns no row ([pgx.ErrNoRows]) when the key is taken by another
    operation. *)
Definition AttachOperationIdempotencyKey (keys : Keys) (scope key table : string) (operation : uuid)
    (response : persistedEnvelope) : res Keys :=
  match keys !! (scope, key) with
  | None => Err (EText "no rows in result set")
  | Some row =>
      if bool_decide (key_OperationID row = None \/ key_OperationID row = Some operation)
      then Ok (<[(scope, key) := {| key_OperationTable := table; key_OperationID := Some operation;
                                    key_Response := Some response |}]> keys)
      else Err (EText "no rows in result set")
  end.

Definition ValidateKey (key : string) : res unit :=
  fail_if ((key == "") || negb (key == TrimSpace key) || (MaxIdempotencyKeyBytes <? slen key)%Z ||
           negb (ValidString key) || has_control key)
    (EText "Idempotency-Key must be 1 through %d printable UTF-8 bytes without surrounding whitespace").

Section asyncop.
Context `{External}.

(** [Digest] *)
Definition operation_digest `{ToJSON A} (value : A) : res string := CanonicalDigest value.

Definition claim_scope (request : ClaimRequest) : string :=
  strings_Join ":" ["delivery"; "actor:" +:+ uuid_String (request_ActorID request);
                    "operation:" +:+ request_Operation request;
                    "target:" +:+ uuid_String (request_TargetID request)].

#[local] Arguments claim_scope : simpl never.

Definition incomplete (request : ClaimRequest) : bool :=
  (request_ActorID request == uuid_Nil) || (request_ProjectID request == uuid_Nil) ||
  (request_TargetID request == uuid_Nil) || (TrimSpace (request_Operation request) == "") ||
  (TrimSpace (request_Resource request) == "") || (TrimSpace (request_OperationTable request) == "") ||
  (TrimSpace (request_RequestDigest request) == "").

(** The persisted envelope belongs to the request. *)
Definition envelope_matches (request : ClaimRequest) (e : persistedEnvelope) : bool :=
  let r := persisted_Receipt e in
  negb ((persisted_RequestDigest e == "") || (receipt_OperationID r == uuid_Nil) ||
        (receipt_StatusURL r == "") || negb (receipt_Operation r == request_Operation request) ||
        negb (receipt_Resource r == request_Resource request) ||
        negb (receipt_ResourceID r == request_TargetID request) ||
        negb (receipt_ProjectID r == request_ProjectID request) || negb (receipt_Status r == "accepted")).

(** The part of [ClaimKey] after the reservation. *)
Definition claim_row (request : ClaimRequest) (row : KeyRow) : res Claim :=
  let claim receipt := {|
    claim_Scope := claim_scope request; claim_IdempotencyKey := request_IdempotencyKey request;
    claim_RequestDigest := request_RequestDigest request;
    claim_OperationTable := request_OperationTable request; claim_Receipt := receipt |} in
  match key_OperationID row with
  | None => Ok (claim None)
  | Some _ =>
      fail_if (negb (key_OperationTable row == request_OperationTable request)) ErrConflict;;
      match key_Response row with
      | None => Err ErrCorrupt
      | Some e =>
          fail_if (negb (envelope_matches request e)) ErrCorrupt;;
          fail_if (negb (persisted_RequestDigest e == request_RequestDigest request)) ErrConflict;;
          Ok (claim (Some (persisted_Receipt e)))
      end
  end.

Definition ClaimKey (keys : Keys) (request : ClaimRequest) : res (Claim * Keys) :=
  fail_if (incomplete request) ErrCorrupt;;
  ValidateKey (request_IdempotencyKey request);;
  let reserved := ReserveOperationIdempotencyKey keys (claim_scope request)
                    (request_IdempotencyKey request) in
  claim ← claim_row request reserved.1;
  Ok (claim, reserved.2).

Definition Attach (keys : Keys) (claim : Claim) (receipt : Receipt) : res Keys :=
  fail_if (claim_Replay claim || (claim_Scope claim == "") || (claim_IdempotencyKey claim == "") ||
           (claim_RequestDigest claim == "") || (claim_OperationTable claim == "") ||
           (receipt_OperationID receipt == uuid_Nil) || (receipt_StatusURL receipt == "")) ErrCorrupt;;
  AttachOperationIdempotencyKey keys (claim_Scope claim) (claim_IdempotencyKey claim)
    (claim_OperationTable claim) (receipt_OperationID receipt)
    {| persisted_RequestDigest := claim_RequestDigest claim; persisted_Receipt := receipt |}.

Definition NewReceipt (operationID : uuid) (operation resource : string) (resourceID projectID : uuid)
    (statusURL : string) (acceptedAt : time) : Receipt := {|
  receipt_OperationID := operationID; receipt_Operation := operation; receipt_Resource := resource;
  receipt_ResourceID := resourceID; receipt_ProjectID := projectID; receipt_Status := "accepted";
  receipt_StatusURL := statusURL; receipt_AcceptedAt := acceptedAt |}.

(** ** What the keys promise *)

(** A key with a receipt stays as it is. *)
Definition keeps_receipts (keys keys' : Keys) : Prop :=
  forall k row, keys !! k = Some row -> key_OperationID row <> None -> keys' !! k = Some row.

(** The key of a request holds this receipt for this digest. *)
Definition settled (keys : Keys) (request : ClaimRequest) (receipt : Receipt) : Prop :=
  keys !! (claim_scope request, request_IdempotencyKey request) = Some {|
    key_OperationTable := request_OperationTable request;
    key_OperationID := Some (receipt_OperationID receipt);
    key_Response := Some {| persisted_RequestDigest := request_RequestDigest request;
                            persisted_Receipt := receipt |} |}.

Lemma keeps_receipts_refl keys : keeps_receipts keys keys.
Proof. by intros k row. Qed.

Lemma keeps_receipts_trans k1 k2 k3 :
  keeps_receipts k1 k2 -> keeps_receipts k2 k3 -> keeps_receipts k1 k3.
Proof. intros H1 H2 k row Hk Ho. apply H2; [by apply H1 | done]. Qed.

Lemma settled_kept keys keys' request receipt :
  keeps_receipts keys keys' -> settled keys request receipt -> settled keys' request receipt.
Proof. intros Hk Hs. apply Hk; [exact Hs | done]. Qed.

(** A claim that is no replay leaves its key without an operation. *)
Lemma ClaimKey_fresh keys request claim keys' :
  ClaimKey keys request = Ok (claim, keys') -> claim_Receipt claim = None ->
  keeps_receipts keys keys' /\
  claim = {| claim_Scope := claim_scope request; claim_IdempotencyKey := request_IdempotencyKey request;
             claim_RequestDigest := request_RequestDigest request;
             claim_OperationTable := request_OperationTable request; claim_Receipt := None |} /\
  exists row, keys' !! (claim_scope request, request_IdempotencyKey request) = Some row /\
    key_OperationID row = None.
Proof.
  unfold ClaimKey, ReserveOperationIdempotencyKey, claim_row. intros E Hc. res_inv.
  destruct (keys !! (claim_scope request, request_IdempotencyKey request)) as [row|] eqn:Ek; cbn in *.
  - destruct (key_OperationID row) as [op|] eqn:Eo; [|].
    + destruct (key_Response row); res_inv; simplify_eq; done.
    + simplify_eq. split_and!; [apply keeps_receipts_refl | done | by exists row].
  - simplify_eq. split_and!; [| done | eexists; split; [apply lookup_insert_eq | done]].
    intros k row Hk Ho. rewrite lookup_insert_ne; [done|]. congruence.
Qed.

(** Attaching a receipt to a fresh claim settles the key and changes no other. *)
Lemma Attach_settles keys request claim keys1 receipt keys2 :
  ClaimKey keys request = Ok (claim, keys1) -> claim_Receipt claim = None ->
  Attach keys1 claim receipt = Ok keys2 ->
  keeps_receipts keys keys2 /\ settled keys2 request receipt /\
  keys !! (claim_scope request, request_IdempotencyKey request) ≫= key_OperationID = None.
Proof.
  intros Hc Hn Ha. destruct (ClaimKey_fresh _ _ _ _ Hc Hn) as (Hk & -> & row & Hrow & Hop).
  unfold Attach, AttachOperationIdempotencyKey in Ha. cbn in Ha. res_inv. rewrite Hrow in Ha.
  rewrite bool_decide_true in Ha by (by left). simplify_eq. split_and!.
  - apply (keeps_receipts_trans _ keys1); [done|]. intros k r Hkr Hor.
    rewrite lookup_insert_ne; [done|]. intros <-. rewrite Hrow in Hkr. by simplify_eq.
  - unfold settled. apply lookup_insert_eq.
  - destruct (keys !! _) as [r|] eqn:Er; [|done]. cbn. destruct (key_OperationID r) eqn:Eo; [|done].
    rewrite (Hk _ _ Er) in Hrow by congruence. by simplify_eq.
Qed.

Definition receipt_for (request : ClaimRequest) (receipt : Receipt) : Prop :=
  receipt_Operation receipt = request_Operation request /\
  receipt_Resource receipt = request_Resource request /\
  receipt_ResourceID receipt = request_TargetID request /\
  receipt_ProjectID receipt = request_ProjectID request /\
  receipt_Status receipt = "accepted" /\ receipt_OperationID receipt <> uuid_Nil /\
  receipt_StatusURL receipt <> "".

Lemma Attach_receipt keys claim receipt keys' :
  Attach keys claim receipt = Ok keys' ->
  receipt_OperationID receipt <> uuid_Nil /\ receipt_StatusURL receipt <> "".
Proof. unfold Attach. intros E. res_inv. bool_props. done. Qed.

(** A free key is claimed, and a receipt can be attached to the claim. *)
Lemma ClaimKey_free keys request receipt :
  incomplete request = false -> ValidateKey (request_IdempotencyKey request) = Ok tt ->
  keys !! (claim_scope request, request_IdempotencyKey request) ≫= key_OperationID = None ->
  receipt_OperationID receipt <> uuid_Nil -> receipt_StatusURL receipt <> "" ->
  exists claim keys1 keys2, ClaimKey keys request = Ok (claim, keys1) /\ claim_Receipt claim = None /\
    Attach keys1 claim receipt = Ok keys2.
Proof.
  intros Hi Hv Hfree Hid Hurl. unfold ClaimKey, ReserveOperationIdempotencyKey. rewrite Hi, Hv. cbn.
  assert (Hc : request_IdempotencyKey request <> "" /\ request_RequestDigest request <> "" /\
               request_OperationTable request <> "").
  { split_and!; intros Hx; unfold ValidateKey, incomplete in *; rewrite Hx in *; by rewrite ?orb_true_r in *. }
  destruct Hc as (Hk & Hd & Ht). destruct (keys !! _) as [row|] eqn:Ek; cbn in Hfree |- *;
    unfold claim_row; rewrite ?Hfree; cbn; do 3 eexists; (split_and!; [done|done|]);
    unfold Attach, AttachOperationIdempotencyKey, claim_Replay; cbn; rewrite ?Ek, ?lookup_insert_eq; cbn;
    rewrite ?Hfree; repeat first [rewrite bool_decide_false by done | rewrite bool_decide_true by auto]; done.
Qed.

Lemma ClaimKey_complete keys request claim keys' :
  ClaimKey keys request = Ok (claim, keys') -> incomplete request = false.
Proof. unfold ClaimKey. intros E. by res_inv. Qed.

(** A settled key answers the same request with its receipt, and changes nothing. *)
Lemma ClaimKey_replay keys request receipt :
  incomplete request = false -> ValidateKey (request_IdempotencyKey request) = Ok tt ->
  settled keys request receipt -> receipt_for request receipt ->
  exists claim, ClaimKey keys request = Ok (claim, keys) /\ claim_Receipt claim = Some receipt.
Proof.
  intros Hi Hv Hs (H1 & H2 & H3 & H4 & H5 & H6 & H7).
  unfold ClaimKey, ReserveOperationIdempotencyKey. rewrite Hi, Hv. cbn. rewrite Hs. cbn.
  assert (Hd : request_RequestDigest request <> "").
  { intros Hd. unfold incomplete in Hi. rewrite Hd in Hi. bool_props. done. }
  unfold claim_row, envelope_matches. cbn. rewrite H1, H2, H3, H4, H5.
  repeat first [rewrite bool_decide_true by done | rewrite bool_decide_false by done]. cbn.
  eexists. split; reflexivity.
Qed.

(** A replay returns what the key holds for this request. *)
Lemma ClaimKey_replayed keys request claim keys' receipt :
  ClaimKey keys request = Ok (claim, keys') -> claim_Receipt claim = Some receipt ->
  exists row, keys !! (claim_scope request, request_IdempotencyKey request) = Some row /\
    key_OperationID row <> None /\ receipt_for request receipt /\
    key_Response row = Some {| persisted_RequestDigest := request_RequestDigest request;
                               persisted_Receipt := receipt |}.
Proof.
  unfold ClaimKey, ReserveOperationIdempotencyKey, claim_row. intros E Hc. res_inv.
  destruct (keys !! (claim_scope request, request_IdempotencyKey request)) as [row|]; cbn in *;
    [|by simplify_eq]. exists row.
  destruct (key_OperationID row); [|by simplify_eq]. destruct (key_Response row) as [[d r]|]; [|by res_inv].
  res_inv. simplify_eq. cbn in *. simplify_eq. unfold envelope_matches in *. cbn in *. bool_props.
  unfold receipt_for. split_and!; done || (by subst).
Qed.

(** A settled key refuses a request with another digest. *)
Lemma ClaimKey_conflict keys request receipt digest :
  settled keys request receipt -> receipt_for request receipt ->
  request_RequestDigest request <> "" -> request_RequestDigest request <> digest ->
  forall claim keys', ClaimKey keys {|
    request_ActorID := request_ActorID request; request_ProjectID := request_ProjectID request;
    request_Operation := request_Operation request; request_Resource := request_Resource request;
    request_TargetID := request_TargetID request;
    request_IdempotencyKey := request_IdempotencyKey request; request_RequestDigest := digest;
    request_OperationTable := request_OperationTable request |} <> Ok (claim, keys').
Proof.
  intros Hs Hr Hd Hne claim keys' E. unfold ClaimKey, ReserveOperationIdempotencyKey in E. res_inv.
  cbn in *. rewrite Hs in *. cbn in *. unfold claim_row in *. cbn in *. res_inv. bool_props. done.
Qed.
End asyncop.
End AsyncOp.
