(* ===== verification/DeliveryProtocol.v ===== *)
(** * Delivery status on the wire (pkg/protocol/delivery.go, delivery_observation.go)

    The report an agent sends of its deployments and controllers: the documents,
    their JSON form, the semantic digest by which unchanged reports are
    recognised, and the validation every report passes before it is read.
    Instants stand for times: the zone a time was written in is not kept. *)

From Stdlib Require Import ZArith Lia Ascii.
From S2P Require Import Prelude Enums GoSort GoStrings External Validation Types.
From stdpp Require Import base gmap strings list.

Open Scope Z_scope.

Module DeliveryProtocol.

Definition DeliveryProtocolVersion : string := "2.0".
Definition MaxDeliveryStatusMessageBytes : Z := 4 * 1024.
Definition MaxDeliveryStatusDeployments : Z := 10000.
Definition MaxDeliveryConditions : Z := 64.
Definition MaxDeliveryInventoryEntries : Z := 64.

(** ** Documents *)

Record DeliveryObservation := {
  obs_State : string;
  obs_ObservedAt : option time;
}.

Definition ObservationCurrent : string := "current".
Definition ObservationStale : string := "stale".
Definition ObservationUnsynced : string := "unsynced".
Definition ObservationDenied : string := "denied".
Definition ObservationAbsent : string := "absent".
Definition ObservationDisconnected : string := "disconnected".
Definition ObservationUnavailable : string := "unavailable".

Record SystemResourceObservation := {
  resource_Name : string;
  resource_Namespace : string;
  resource_Group : string;
  resource_Version : string;
  resource_Plural : string;
  resource_Kind : string;
  resource_Health : string;
  resource_Detail : string;
}.

Record SystemVolumeObservation := {
  volume_Name : string;
  volume_Namespace : string;
  volume_Phase : string;
  volume_StorageClass : string;
  volume_StorageDriver : string;
  volume_RequestedBytes : Z;
  volume_CapacityBytes : Z;
  volume_VolumeName : string;
  volume_VolumeMode : string;
  volume_AccessModes : list string;
  volume_ExpansionAllowed : bool;
  volume_SnapshotCount : Z;
  volume_CreatedAt : string;
}.

Record SystemComponent := {
  component_Observation : option DeliveryObservation;
  component_ID : string;
  component_Name : string;
  component_Category : string;
  component_Owner : string;
  component_ManagementMethod : string;
  component_Namespace : string;
  component_Kind : string;
  component_Version : string;
  component_Health : string;
  component_Compatibility : string;
  component_UpdateState : string;
  component_CreatedAt : string;
  component_DesiredReplicas : Z;
  component_ReadyReplicas : Z;
  component_HighAvailability : bool;
  component_Images : list string;
  component_CPURequest : string;
  component_MemoryRequest : string;
  component_CPULimit : string;
  component_MemoryLimit : string;
  component_StorageClass : string;
  component_StorageDriver : string;
  component_DefaultStorage : bool;
  component_StorageProvisionedBytes : Z;
  component_StorageUsedBytes : Z;
  component_StorageReplicaCount : Z;
  component_Volumes : list SystemVolumeObservation;
  component_Resources : list SystemResourceObservation;
  component_SupportedActions : list string;
  component_Detail : string;
}.

Record DeliveryControllerInventory := {
  inventory_Observation : option DeliveryObservation;
  inventory_AgentVersion : string;
  inventory_FluxVersion : string;
  inventory_Components : gmap string string;
  inventory_SystemComponents : list SystemComponent;
  inventory_APIVersions : list string;
  inventory_KubernetesVersion : string;
  inventory_DistributionDigest : string;
  inventory_Ready : bool;
  inventory_CompatibilityMessage : string;
}.

Record DeliveryCondition := {
  condition_Type : string;
  condition_Status : string;
  condition_Reason : string;
  condition_Message : string;
  condition_ObservedGeneration : Z;
  condition_LastTransitionTime : time;
}.

Record DeliveryResourceIdentity := {
  identity_APIVersion : string;
  identity_Kind : string;
  identity_Namespace : string;
  identity_Name : string;
}.

Record DeliveryInventory := {
  items_Entries : Z;
  items_Ready : Z;
  items_Failed : Z;
  items_Resources : list DeliveryResourceIdentity;
}.

Record DeliveryDeploymentStatusV2 := {
  report_Observation : option DeliveryObservation;
  report_DeploymentID : string;
  report_Generation : Z;
  report_SpecDigest : string;
  report_Phase : string;
  report_ObservedRevision : string;
  report_ObservedDigest : string;
  report_SourceKind : string;
  report_SourceName : string;
  report_ReconcilerKind : string;
  report_ReconcilerName : string;
  report_ErrorCode : string;
  report_WarningCodes : list string;
  report_Message : string;
  report_Conditions : list DeliveryCondition;
  report_Inventory : DeliveryInventory;
  report_ObservedAt : time;
}.

Record DeliveryStatusV2 := {
  status_ProtocolVersion : string;
  status_ClusterID : string;
  status_SessionSequence : Z;
  status_StatusDigest : string;
  status_SnapshotGeneration : Z;
  status_SnapshotETag : string;
  status_Deployments : list DeliveryDeploymentStatusV2;
  status_ControllerInventory : DeliveryControllerInventory;
}.

(** ** JSON *)

Section json.

(** An object whose fields are present or omitted. *)
Definition object (fields : list (string * option json)) : list (string * json) :=
  omap (fun p => pair p.1 <$> p.2) fields.

(** A field that is always written, and the fields with omitempty. *)
Definition present `{ToJSON A} (v : A) : option json := Some (to_json v).
Definition text (v : string) : option json := if v == "" then None else Some (JString v).
Definition number (v : Z) : option json := if v =? 0 then None else Some (JNumber v).
Definition flag (v : bool) : option json := if v then Some (JBool v) else None.
Definition slice `{ToJSON A} (l : list A) : option json := match l with [] => None | _ => Some (to_json l) end.
Definition labels (m : gmap string string) : option json := if bool_decide (m = ∅) then None else Some (to_json m).
Definition pointer `{ToJSON A} (v : option A) : option json := to_json <$> v.

#[export] Instance DeliveryObservation_json : ToJSON DeliveryObservation := fun o =>
  JObject (object [("state", present (obs_State o));
    ("observed_at", JTime <$> obs_ObservedAt o)]).

#[export] Instance SystemResourceObservation_json : ToJSON SystemResourceObservation := fun r =>
  JObject (object [("name", present (resource_Name r)); ("namespace", text (resource_Namespace r));
    ("group", text (resource_Group r)); ("version", present (resource_Version r));
    ("plural", present (resource_Plural r)); ("kind", present (resource_Kind r));
    ("health", text (resource_Health r)); ("detail", text (resource_Detail r))]).

#[export] Instance SystemVolumeObservation_json : ToJSON SystemVolumeObservation := fun v =>
  JObject (object [("name", present (volume_Name v)); ("namespace", present (volume_Namespace v));
    ("phase", present (volume_Phase v)); ("storage_class", text (volume_StorageClass v));
    ("storage_driver", text (volume_StorageDriver v));
    ("requested_bytes", number (volume_RequestedBytes v));
    ("capacity_bytes", number (volume_CapacityBytes v)); ("volume_name", text (volume_VolumeName v));
    ("volume_mode", text (volume_VolumeMode v)); ("access_modes", slice (volume_AccessModes v));
    ("expansion_allowed", present (volume_ExpansionAllowed v));
    ("snapshot_count", number (volume_SnapshotCount v)); ("created_at", text (volume_CreatedAt v))]).

#[export] Instance SystemComponent_json : ToJSON SystemComponent := fun c =>
  JObject (object [("observation", pointer (component_Observation c)); ("id", present (component_ID c));
    ("name", present (component_Name c)); ("category", present (component_Category c));
    ("owner", present (component_Owner c)); ("management_method", present (component_ManagementMethod c));
    ("namespace", text (component_Namespace c)); ("kind", present (component_Kind c));
    ("version", text (component_Version c)); ("health", present (component_Health c));
    ("compatibility", text (component_Compatibility c)); ("update_state", text (component_UpdateState c));
    ("created_at", text (component_CreatedAt c)); ("desired_replicas", number (component_DesiredReplicas c));
    ("ready_replicas", number (component_ReadyReplicas c));
    ("high_availability", present (component_HighAvailability c)); ("images", slice (component_Images c));
    ("cpu_request", text (component_CPURequest c)); ("memory_request", text (component_MemoryRequest c));
    ("cpu_limit", text (component_CPULimit c)); ("memory_limit", text (component_MemoryLimit c));
    ("storage_class", text (component_StorageClass c)); ("storage_driver", text (component_StorageDriver c));
    ("default_storage", flag (component_DefaultStorage c));
    ("storage_provisioned_bytes", number (component_StorageProvisionedBytes c));
    ("storage_used_bytes", number (component_StorageUsedBytes c));
    ("storage_replica_count", number (component_StorageReplicaCount c));
    ("volumes", slice (component_Volumes c)); ("resources", slice (component_Resources c));
    ("supported_actions", slice (component_SupportedActions c)); ("detail", text (component_Detail c))]).

#[export] Instance DeliveryControllerInventory_json : ToJSON DeliveryControllerInventory := fun i =>
  JObject (object [("observation", pointer (inventory_Observation i));
    ("agent_version", text (inventory_AgentVersion i)); ("flux_version", text (inventory_FluxVersion i));
    ("components", labels (inventory_Components i));
    ("system_components", slice (inventory_SystemComponents i));
    ("api_versions", slice (inventory_APIVersions i));
    ("kubernetes_version", text (inventory_KubernetesVersion i));
    ("distribution_digest", text (inventory_DistributionDigest i)); ("ready", present (inventory_Ready i));
    ("compatibility_message", text (inventory_CompatibilityMessage i))]).

#[export] Instance DeliveryCondition_json : ToJSON DeliveryCondition := fun c =>
  JObject (object [("type", present (condition_Type c)); ("status", present (condition_Status c));
    ("reason", text (condition_Reason c)); ("message", text (condition_Message c));
    ("observed_generation", number (condition_ObservedGeneration c));
    ("last_transition_time", Some (JTime (condition_LastTransitionTime c)))]).

#[export] Instance DeliveryResourceIdentity_json : ToJSON DeliveryResourceIdentity := fun r =>
  JObject (object [("api_version", present (identity_APIVersion r)); ("kind", present (identity_Kind r));
    ("namespace", text (identity_Namespace r)); ("name", present (identity_Name r))]).

Definition inventory_fields (i : DeliveryInventory) : list (string * option json) :=
  [("entries", present (items_Entries i)); ("ready", present (items_Ready i)); ("failed", present (items_Failed i));
   ("resources", slice (items_Resources i))].

#[export] Instance DeliveryInventory_json : ToJSON DeliveryInventory := fun i => JObject (object (inventory_fields i)).

#[export] Instance DeliveryDeploymentStatusV2_json : ToJSON DeliveryDeploymentStatusV2 := fun d =>
  JObject (object [("observation", pointer (report_Observation d)); ("deployment_id", present (report_DeploymentID d));
    ("generation", present (report_Generation d)); ("spec_digest", present (report_SpecDigest d));
    ("phase", present (report_Phase d)); ("observed_revision", text (report_ObservedRevision d));
    ("observed_digest", text (report_ObservedDigest d)); ("source_kind", text (report_SourceKind d));
    ("source_name", text (report_SourceName d)); ("reconciler_kind", text (report_ReconcilerKind d));
    ("reconciler_name", text (report_ReconcilerName d)); ("error_code", text (report_ErrorCode d));
    ("warning_codes", slice (report_WarningCodes d)); ("message", text (report_Message d));
    ("conditions", slice (report_Conditions d)); ("inventory", present (report_Inventory d));
    ("observed_at", Some (JTime (report_ObservedAt d)))]).
End json.

(** ** The semantic digest *)

(** [withoutObservationTime] *)
Definition withoutObservationTime (o : option DeliveryObservation) : option DeliveryObservation :=
  (fun o => {| obs_State := obs_State o; obs_ObservedAt := None |}) <$> o.

Definition untimed_component (c : SystemComponent) : SystemComponent := {|
  component_Observation := withoutObservationTime (component_Observation c);
  component_ID := component_ID c; component_Name := component_Name c; component_Category := component_Category c;
  component_Owner := component_Owner c; component_ManagementMethod := component_ManagementMethod c;
  component_Namespace := component_Namespace c; component_Kind := component_Kind c;
  component_Version := component_Version c; component_Health := component_Health c;
  component_Compatibility := component_Compatibility c; component_UpdateState := component_UpdateState c;
  component_CreatedAt := component_CreatedAt c; component_DesiredReplicas := component_DesiredReplicas c;
  component_ReadyReplicas := component_ReadyReplicas c; component_HighAvailability := component_HighAvailability c;
  component_Images := component_Images c; component_CPURequest := component_CPURequest c;
  component_MemoryRequest := component_MemoryRequest c; component_CPULimit := component_CPULimit c;
  component_MemoryLimit := component_MemoryLimit c; component_StorageClass := component_StorageClass c;
  component_StorageDriver := component_StorageDriver c; component_DefaultStorage := component_DefaultStorage c;
  component_StorageProvisionedBytes := component_StorageProvisionedBytes c;
  component_StorageUsedBytes := component_StorageUsedBytes c;
  component_StorageReplicaCount := component_StorageReplicaCount c; component_Volumes := component_Volumes c;
  component_Resources := component_Resources c; component_SupportedActions := component_SupportedActions c;
  component_Detail := component_Detail c |}.

(** [DeliveryControllerInventory.WithoutObservationTimes] *)
Definition WithoutObservationTimes (i : DeliveryControllerInventory) : DeliveryControllerInventory := {|
  inventory_Observation := withoutObservationTime (inventory_Observation i);
  inventory_AgentVersion := inventory_AgentVersion i; inventory_FluxVersion := inventory_FluxVersion i;
  inventory_Components := inventory_Components i;
  inventory_SystemComponents := map untimed_component (inventory_SystemComponents i);
  inventory_APIVersions := inventory_APIVersions i; inventory_KubernetesVersion := inventory_KubernetesVersion i;
  inventory_DistributionDigest := inventory_DistributionDigest i; inventory_Ready := inventory_Ready i;
  inventory_CompatibilityMessage := inventory_CompatibilityMessage i |}.

Definition with_apis (i : DeliveryControllerInventory) (apis : list string) : DeliveryControllerInventory := {|
  inventory_Observation := inventory_Observation i; inventory_AgentVersion := inventory_AgentVersion i;
  inventory_FluxVersion := inventory_FluxVersion i; inventory_Components := inventory_Components i;
  inventory_SystemComponents := inventory_SystemComponents i; inventory_APIVersions := apis;
  inventory_KubernetesVersion := inventory_KubernetesVersion i;
  inventory_DistributionDigest := inventory_DistributionDigest i; inventory_Ready := inventory_Ready i;
  inventory_CompatibilityMessage := inventory_CompatibilityMessage i |}.

(** A deployment without its sample time, its warnings sorted. *)
Definition canonical_report (d : DeliveryDeploymentStatusV2) : DeliveryDeploymentStatusV2 := {|
  report_Observation := withoutObservationTime (report_Observation d);
  report_DeploymentID := report_DeploymentID d; report_Generation := report_Generation d;
  report_SpecDigest := report_SpecDigest d; report_Phase := report_Phase d;
  report_ObservedRevision := report_ObservedRevision d; report_ObservedDigest := report_ObservedDigest d;
  report_SourceKind := report_SourceKind d; report_SourceName := report_SourceName d;
  report_ReconcilerKind := report_ReconcilerKind d; report_ReconcilerName := report_ReconcilerName d;
  report_ErrorCode := report_ErrorCode d; report_WarningCodes := sort_slice str_lt (report_WarningCodes d);
  report_Message := report_Message d; report_Conditions := report_Conditions d;
  report_Inventory := report_Inventory d; report_ObservedAt := 0 |}.

Definition report_less (a b : DeliveryDeploymentStatusV2) : bool := str_lt (report_DeploymentID a) (report_DeploymentID b).

(** The document [SemanticDigest] hashes: a copy whose slices are nil when empty. *)
Definition semantic_document (s : DeliveryStatusV2) : json :=
  let deployments := map canonical_report (sort_slice report_less (status_Deployments s)) in
  let inventory := with_apis (WithoutObservationTimes (status_ControllerInventory s))
                     (sort_slice str_lt (inventory_APIVersions (status_ControllerInventory s))) in
  JObject (object [("protocol_version", present (status_ProtocolVersion s)); ("cluster_id", present (status_ClusterID s));
    ("session_sequence", present 0); ("status_digest", present "");
    ("snapshot_generation", present (status_SnapshotGeneration s)); ("snapshot_etag", text (status_SnapshotETag s));
    ("deployments", Some (match deployments with [] => JNull | _ => to_json deployments end));
    ("controller_inventory", present inventory)]).

(** ** Patterns *)

Definition hyphen : Ascii.ascii := Ascii.ascii_of_nat 45.

(** The class of the byte at each position of [uuidPattern]. *)
Definition uuid_byte (i : nat) (c : Ascii.ascii) : bool :=
  if (i =? 8)%nat || (i =? 13)%nat || (i =? 18)%nat || (i =? 23)%nat then c == hyphen
  else if (i =? 14)%nat then in_range "1"%char "5"%char c
  else if (i =? 19)%nat then ContainsByte "89ab" c
  else lower_hex c.

Fixpoint bytes_match (f : nat -> Ascii.ascii -> bool) (i : nat) (s : string) : bool :=
  match s with EmptyString => true | String c r => f i c && bytes_match f (S i) r end.

Definition validUUID (value : string) : bool := (String.length value =? 36)%nat && bytes_match uuid_byte 0 value.
Definition validDigest (value : string) : bool := digestPattern value.
Definition validDNSLabel (value : string) : bool := (slen value <=? 63) && Types.dnsLabelPattern value.

(** [reasonCodePattern] *)
Definition reasonCode (value : string) : bool :=
  match value with
  | String c r => in_range "a"%char "z"%char c && (slen r <=? 95) &&
      string_forallb (fun d => lower_alnum d || (d == "_"%char)) r
  | EmptyString => false
  end.

(** "\r\n\x00" and "\x00\r\n\t" *)
Definition line_breaks : string := String (byte 13) (String (byte 10) (String (byte 0) "")).
Definition blanks : string := String (byte 0) (String (byte 13) (String (byte 10) (String (byte 9) ""))).

(** ** Validation *)

Definition seconds : Z := 1000000000.
Definition MaxCurrentObservationAge : duration := 5 * 60 * seconds.
Definition MaxObservationClockSkew : duration := 30 * seconds.

(** The first instant of the year 10000; an instant is counted from the first of
    the year 1. *)
Definition year10000 : time := 315537897600 * seconds.

(** [DeliveryObservation.validate] *)
Definition observation_validate (o : option DeliveryObservation) (healthy : bool) (now : time) : res unit :=
  match o with
  | None => Ok tt
  | Some o =>
      (if contains [ObservationCurrent; ObservationStale; ObservationAbsent] (obs_State o)
       then fail_if (bool_decide (obs_ObservedAt o = None)) (EText "observation state requires a source timestamp")
       else fail_if (negb (contains [ObservationUnsynced; ObservationDenied; ObservationDisconnected;
                                     ObservationUnavailable] (obs_State o)))
              (EText "unknown observation state"));;
      fail_if ((obs_State o != ObservationCurrent) && healthy)
        (EText "noncurrent observation cannot report ready or healthy");;
      match obs_ObservedAt o with
      | None => Ok tt
      | Some t =>
          fail_if ((t =? 0) || (t <? 0) || (year10000 <=? t) || (now + MaxObservationClockSkew <? t))
            (EText "invalid observation timestamp");;
          fail_if ((obs_State o == ObservationCurrent) && (MaxCurrentObservationAge <? now - t))
            (EText "current observation timestamp is stale")
      end
  end.

(** [DeliveryControllerInventory.validateObservations] *)
Definition validateObservations (i : DeliveryControllerInventory) (now : time) : res unit :=
  observation_validate (inventory_Observation i) (inventory_Ready i) now;;
  res_iter (fun c =>
    fail_if (negb (Bool.eqb (bool_decide (inventory_Observation i = None)) (bool_decide (component_Observation c = None))))
      (EText "inventory and component observation contracts must agree");;
    observation_validate (component_Observation c) (component_Health c == "healthy") now)
    (inventory_SystemComponents i).

Definition volume_invalid (v : SystemVolumeObservation) : bool :=
  (volume_Name v == "") || (253 <? slen (volume_Name v)) || (253 <? slen (volume_Namespace v)) ||
  (32 <? slen (volume_Phase v)) || (253 <? slen (volume_StorageClass v)) || (253 <? slen (volume_StorageDriver v)) ||
  (253 <? slen (volume_VolumeName v)) || (32 <? slen (volume_VolumeMode v)) || (64 <? slen (volume_CreatedAt v)) ||
  (volume_RequestedBytes v <? 0) || (volume_CapacityBytes v <? 0) || (volume_SnapshotCount v <? 0) ||
  (8 <? len (volume_AccessModes v)) ||
  ContainsAny (volume_Name v +:+ volume_Namespace v +:+ volume_VolumeName v) line_breaks.

Definition resource_invalid (r : SystemResourceObservation) : bool :=
  (resource_Name r == "") || (253 <? slen (resource_Name r)) || (253 <? slen (resource_Namespace r)) ||
  (253 <? slen (resource_Group r)) || (resource_Version r == "") || (64 <? slen (resource_Version r)) ||
  (resource_Plural r == "") || (128 <? slen (resource_Plural r)) || (resource_Kind r == "") ||
  (128 <? slen (resource_Kind r)) || (32 <? slen (resource_Health r)) || (512 <? slen (resource_Detail r)) ||
  ContainsAny (resource_Name r +:+ resource_Namespace r +:+ resource_Detail r) line_breaks.

Definition component_validate (c : SystemComponent) : res unit :=
  fail_if ((component_ID c == "") || (192 <? slen (component_ID c)) || (component_Name c == "") ||
      (128 <? slen (component_Name c)) || (64 <? slen (component_Category c)) || (64 <? slen (component_Owner c)) ||
      (64 <? slen (component_ManagementMethod c)) || (253 <? slen (component_Namespace c)) ||
      (64 <? slen (component_Kind c)) || (128 <? slen (component_Version c)) || (32 <? slen (component_Health c)) ||
      (32 <? slen (component_Compatibility c)) || (32 <? slen (component_UpdateState c)) ||
      (64 <? slen (component_CreatedAt c)) || (512 <? slen (component_Detail c)) ||
      ContainsAny (component_ID c +:+ component_Name c +:+ component_Detail c) line_breaks)
    (EText "system component inventory contains an invalid field");;
  fail_if ((component_DesiredReplicas c <? 0) || (component_ReadyReplicas c <? 0) ||
      (component_StorageProvisionedBytes c <? 0) || (component_StorageUsedBytes c <? 0) ||
      (component_StorageReplicaCount c <? 0) || (32 <? len (component_Images c)) ||
      (128 <? len (component_Volumes c)) || (128 <? len (component_Resources c)) ||
      (16 <? len (component_SupportedActions c)))
    (EText "system component inventory contains invalid bounds");;
  res_iter (fun value => fail_if ((512 <? slen value) || ContainsAny value line_breaks)
      (EText "system component inventory contains an invalid value"))
    (component_Images c ++ component_SupportedActions c);;
  res_iter (fun v => fail_if (volume_invalid v) (EText "system volume inventory contains an invalid field"))
    (component_Volumes c);;
  res_iter (fun r => fail_if (resource_invalid r) (EText "system resource inventory contains an invalid field"))
    (component_Resources c).

(** [DeliveryControllerInventory.Validate] *)
Definition inventory_Validate (i : DeliveryControllerInventory) (now : time) : res unit :=
  validateObservations i now;;
  fail_if ((64 <? slen (inventory_AgentVersion i)) || (64 <? slen (inventory_FluxVersion i)) ||
      (64 <? slen (inventory_KubernetesVersion i)) ||
      (MaxDeliveryStatusMessageBytes <? slen (inventory_CompatibilityMessage i)))
    (EText "controller inventory contains an oversized field");;
  fail_if ((inventory_DistributionDigest i != "") && negb (validDigest (inventory_DistributionDigest i)))
    (EText "controller distribution digest must be a sha256 digest");;
  fail_if ((MaxDeliveryInventoryEntries <? Z.of_nat (size (inventory_Components i))) ||
      (MaxDeliveryInventoryEntries <? len (inventory_APIVersions i)) ||
      (MaxDeliveryInventoryEntries <? len (inventory_SystemComponents i)))
    (EText "controller inventory exceeds entry limit");;
  res_iter (fun p => fail_if (negb (validDNSLabel p.1) || (64 <? slen p.2))
      (EText "controller inventory component %q is invalid")) (map_to_list (inventory_Components i));;
  res_iter (fun a => fail_if ((a == "") || (128 <? slen a) || ContainsAny a line_breaks)
      (EText "controller inventory API version is invalid")) (inventory_APIVersions i);;
  res_iter component_validate (inventory_SystemComponents i).

(** [DeliveryDeploymentStatusV2.validateObservation] *)
Definition local_mutation (d : DeliveryDeploymentStatusV2) : bool :=
  (report_Phase d == "deleting") || (report_Phase d == "removed") ||
  ((report_Phase d == "failed") &&
   contains ["local_apply_failed"; "local_inventory_failed"; "local_prune_refused"; "local_prune_failed";
             "local_deletion_failed"] (report_ErrorCode d)).

Definition validateObservation (d : DeliveryDeploymentStatusV2) (modern : bool) (now : time) : res unit :=
  match report_Observation d with
  | None =>
      fail_if (modern && (negb (local_mutation d) || (len (report_Conditions d) != 0) ||
          (items_Ready (report_Inventory d) != 0) || (report_ObservedRevision d != "") || (report_ObservedDigest d != "")))
        (EText "modern deployment status requires source observation")
  | Some o =>
      fail_if (negb modern) (EText "deployment observation requires modern inventory contract");;
      observation_validate (Some o) ((report_Phase d == "ready") || (0 <? items_Ready (report_Inventory d))) now;;
      fail_if ((obs_State o != ObservationCurrent) &&
          ((report_Phase d != "unknown") || (report_ErrorCode d != "observation_" +:+ obs_State o) ||
           (len (report_Conditions d) != 0) || (items_Entries (report_Inventory d) != 0) ||
           (items_Ready (report_Inventory d) != 0) || (items_Failed (report_Inventory d) != 0) ||
           (len (items_Resources (report_Inventory d)) != 0) || (report_ObservedRevision d != "") ||
           (report_ObservedDigest d != "")))
        (EText "noncurrent deployment observation must report unknown without cached health")
  end.

Definition validDeliveryPhase (phase : string) : bool :=
  contains ["pending"; "blocked"; "applying"; "ready"; "degraded"; "failed"; "suspended"; "deleting"; "removed";
            "unknown"] phase.

Definition identity_invalid (r : DeliveryResourceIdentity) : bool :=
  (slen (identity_APIVersion r) =? 0) || (253 <? slen (identity_APIVersion r)) ||
  (slen (identity_Kind r) =? 0) || (128 <? slen (identity_Kind r)) ||
  (slen (identity_Name r) =? 0) || (253 <? slen (identity_Name r)) || (253 <? slen (identity_Namespace r)) ||
  ContainsAny (identity_APIVersion r +:+ identity_Kind r +:+ identity_Namespace r +:+ identity_Name r) blanks.

Definition condition_invalid (c : DeliveryCondition) : bool :=
  (condition_Type c == "") || (128 <? slen (condition_Type c)) ||
  negb (contains ["True"; "False"; "Unknown"] (condition_Status c)) || (256 <? slen (condition_Reason c)) ||
  (MaxDeliveryStatusMessageBytes <? slen (condition_Message c)) || (condition_ObservedGeneration c <? 0).

(** The checks of one deployment after its identity; [Ready + Failed] is a sum of
    Go's int. *)
Definition report_checks (d : DeliveryDeploymentStatusV2) : res unit :=
  fail_if (negb (validDeliveryPhase (report_Phase d))) (EText "deployment status %d has unsupported phase %q");;
  fail_if ((report_ObservedDigest d != "") && negb (validDigest (report_ObservedDigest d)))
    (EText "deployment status %d has invalid observed digest");;
  fail_if (((report_SourceKind d != "") &&
            negb (contains ["GitRepository"; "OCIRepository"; "HelmRepository"] (report_SourceKind d))) ||
      ((report_ReconcilerKind d != "") && negb (contains ["Kustomization"; "HelmRelease"] (report_ReconcilerKind d))) ||
      ((report_SourceName d != "") && negb (validDNSLabel (report_SourceName d))) ||
      ((report_ReconcilerName d != "") && negb (validDNSLabel (report_ReconcilerName d))) ||
      ((report_ErrorCode d != "") && negb (reasonCode (report_ErrorCode d))) ||
      (MaxDeliveryConditions <? len (report_WarningCodes d)) ||
      (MaxDeliveryStatusMessageBytes <? slen (report_Message d)))
    (EText "deployment status %d has invalid Flux identity or diagnostic");;
  res_iter (fun code => fail_if (negb (reasonCode code)) (EText "deployment status %d has invalid warning code"))
    (report_WarningCodes d);;
  fail_if ((report_ObservedAt d =? 0) || (MaxDeliveryConditions <? len (report_Conditions d)) ||
      (items_Entries (report_Inventory d) <? 0) || (items_Ready (report_Inventory d) <? 0) ||
      (items_Failed (report_Inventory d) <? 0) ||
      (items_Entries (report_Inventory d) <?
         wrapS64 (items_Ready (report_Inventory d) + items_Failed (report_Inventory d))) ||
      (MaxDeliveryInventoryEntries <? len (items_Resources (report_Inventory d))))
    (EText "deployment status %d has invalid observation data");;
  res_iter (fun r => fail_if (identity_invalid r) (EText "deployment status %d resource %d is invalid"))
    (items_Resources (report_Inventory d));;
  res_iter (fun c => fail_if (condition_invalid c) (EText "deployment status %d condition %d is invalid"))
    (report_Conditions d).

(** The loop over the deployments; the clock is read once per round. *)
Fixpoint validate_reports (modern : bool) (clock : nat -> time) (seen : gset string)
    (l : list DeliveryDeploymentStatusV2) : res unit :=
  match l with
  | [] => Ok tt
  | d :: rest =>
      wrap_err (fun _ => EText "deployment status %d: %w") (validateObservation d modern (clock 0%nat));;
      fail_if (negb (validUUID (report_DeploymentID d)) || (report_Generation d <? 1) ||
               negb (validDigest (report_SpecDigest d))) (EText "deployment status %d has invalid identity");;
      fail_if (bool_decide (report_DeploymentID d ∈ seen)) (EText "duplicate deployment status %q");;
      report_checks d;;
      validate_reports modern (fun n => clock (S n)) ({[report_DeploymentID d]} ∪ seen) rest
  end.

Section digest.
Context `{External}.

(** [DeliveryStatusV2.SemanticDigest]: an encoding error leaves no bytes to hash. *)
Definition SemanticDigest (s : DeliveryStatusV2) : string :=
  DigestBytes (default "" (json_Marshal (semantic_document s))).

(** [DeliveryStatusV2.Validate] *)
Definition status_Validate (clock : nat -> time) (s : DeliveryStatusV2) : res unit :=
  fail_if (status_ProtocolVersion s != DeliveryProtocolVersion) (EText "unsupported delivery protocol version %q");;
  fail_if (negb (validUUID (status_ClusterID s)) || (status_SessionSequence s <? 1) || (status_SnapshotGeneration s <? 0))
    (EText "delivery status has invalid identity or sequence");;
  fail_if (negb (validDigest (status_StatusDigest s)) || (status_StatusDigest s != SemanticDigest s))
    (EText "delivery status digest is missing or does not match its semantic state");;
  fail_if (((status_SnapshotGeneration s =? 0) && (status_SnapshotETag s != "")) ||
           ((0 <? status_SnapshotGeneration s) && negb (validDigest (status_SnapshotETag s))))
    (EText "delivery status snapshot generation and ETag must be supplied together");;
  fail_if (MaxDeliveryStatusDeployments <? len (status_Deployments s)) (EText "delivery status exceeds deployment limit");;
  inventory_Validate (status_ControllerInventory s) (clock 0%nat);;
  validate_reports (negb (bool_decide (inventory_Observation (status_ControllerInventory s) = None)))
    (fun n => clock (S n)) ∅ (status_Deployments s).
End digest.
End DeliveryProtocol.
