(* ===== verification/DeliveryProtocolFacts.v ===== *)
(** * Correctness of delivery status on the wire

    An accepted report names each deployment once and claims health only from a
    current observation; the semantic digest says exactly whether two reports
    carry the same state. *)

From Stdlib Require Import ZArith Lia Ascii.
From S2P Require Import Prelude Enums GoSort GoStrings External Validation Types DeliveryProtocol.
From stdpp Require Import base gmap strings list.
Import DeliveryProtocol.

Open Scope Z_scope.

Module DeliveryProtocolFacts.

(** ** Accepted reports *)

(** A claim of health comes from a current observation of that moment. *)
Definition current_at (now : time) (o : DeliveryObservation) : Prop :=
  obs_State o = ObservationCurrent /\
  exists t, obs_ObservedAt o = Some t /\ now - MaxCurrentObservationAge <= t <= now + MaxObservationClockSkew.

Lemma observation_validate_Ok o healthy now :
  observation_validate (Some o) healthy now = Ok tt ->
  (healthy = true -> current_at now o) /\
  (obs_State o = ObservationCurrent -> current_at now o) /\
  (forall t, obs_ObservedAt o = Some t -> 0 < t <= now + MaxObservationClockSkew).
Proof.
  unfold observation_validate. intros E. apply res_bind_Ok in E as (u1 & E1 & E).
  apply res_bind_Ok in E as (u2 & E2%fail_if_Ok & E).
  assert (Hcur : obs_State o = ObservationCurrent -> current_at now o).
  { intros Hs. rewrite Hs in *. cbn in E1. split; [done|].
    destruct (obs_ObservedAt o) as [t|]; [|done]. apply res_bind_Ok in E as (u3 & E3%fail_if_Ok & E4%fail_if_Ok).
    apply andb_false_iff in E4 as [E4|E4]; bool_props; [done|]. exists t. split; [done|]. lia. }
  split; [|split; [done|]].
  - intros ->. apply andb_false_iff in E2 as [E2|E2]; [|done]. bool_props. by apply Hcur.
  - intros t Ht. rewrite Ht in E. apply res_bind_Ok in E as (u3 & E3%fail_if_Ok & _). bool_props. lia.
Qed.

Definition report_ok (modern : bool) (now : time) (d : DeliveryDeploymentStatusV2) : Prop :=
  validateObservation d modern now = Ok tt /\
  validUUID (report_DeploymentID d) = true /\ 1 <= report_Generation d /\ validDigest (report_SpecDigest d) = true /\
  report_checks d = Ok tt.

Lemma validate_reports_Ok modern l : forall clock seen,
  validate_reports modern clock seen l = Ok tt <->
  NoDup (map report_DeploymentID l) /\ (forall d, d ∈ l -> report_DeploymentID d ∉ seen) /\
  (forall i d, l !! i = Some d -> report_ok modern (clock i) d).
Proof.
  induction l as [|d l IH]; intros clock seen.
  { split; [|done]. intros _. split_and!; [constructor | by intros ? ?%not_elem_of_nil | done]. }
  cbn [validate_reports map]. rewrite !res_bind_Ok. split.
  - intros (u1 & E1%wrap_err_Ok & (u2 & E2%fail_if_Ok & (u3 & E3%fail_if_Ok & (u4 & E4 & E)%res_bind_Ok)%res_bind_Ok)%res_bind_Ok).
    bool_props. destruct u1, u4. apply IH in E as (Hnd & Hseen & Hall). split_and!.
    + constructor; [|done]. intros (d' & Heq & Hd')%list_elem_of_fmap. apply (Hseen d' Hd'). set_solver.
    + intros d' [->|Hd']%elem_of_cons; [done|]. specialize (Hseen d' Hd'). set_solver.
    + intros [|i] d' Hd'; [|by apply Hall]. injection Hd' as <-. by split_and!.
  - intros (Hnd & Hseen & Hall). apply NoDup_cons in Hnd as [Hd Hnd].
    destruct (Hall 0%nat d eq_refl) as (E1 & E2 & E3 & E4 & E5).
    exists tt. split; [by apply wrap_err_Ok|].
    rewrite E2, E4, (proj2 (Z.ltb_ge _ _) E3). cbn. rewrite bool_decide_false by (apply Hseen; by left). cbn.
    rewrite E5. cbn. apply IH. split_and!; [done| |intros i d'; by apply (Hall (S i))].
    intros d' Hd' [Heq|Hin]%elem_of_union; [|by eapply Hseen; [by right|]].
    apply Hd, list_elem_of_fmap. exists d'. split; [set_solver | done].
Qed.

(** What an accepted report may say of one deployment. *)
Definition sound_report (modern : bool) (now : time) (d : DeliveryDeploymentStatusV2) : Prop :=
  validDeliveryPhase (report_Phase d) = true /\
  match report_Observation d with
  | None => modern = true -> local_mutation d = true /\ items_Ready (report_Inventory d) = 0
  | Some o => modern = true /\
      (report_Phase d = "ready" \/ 0 < items_Ready (report_Inventory d) -> current_at now o) /\
      (current_at now o \/
       report_Phase d = "unknown" /\ report_Conditions d = [] /\ items_Entries (report_Inventory d) = 0 /\
       items_Resources (report_Inventory d) = [] /\ report_ObservedRevision d = "" /\ report_ObservedDigest d = "")
  end.

Lemma report_ok_sound modern now d : report_ok modern now d -> sound_report modern now d.
Proof.
  intros (Ho & _ & _ & _ & Hc). split.
  { unfold report_checks in Hc. apply res_bind_Ok in Hc as (u & Hc%fail_if_Ok & _). by bool_props. }
  unfold validateObservation in Ho. destruct (report_Observation d) as [o|].
  - apply res_bind_Ok in Ho as (u1 & E1%fail_if_Ok & E). apply res_bind_Ok in E as ([] & E2 & E3%fail_if_Ok).
    bool_props. apply observation_validate_Ok in E2 as (Hh & Hcur & _). split_and!; [done| |].
    + intros Hready. apply Hh. apply orb_true_iff. destruct Hready as [->|?]; [by left | right; by apply Z.ltb_lt].
    + destruct (decide (obs_State o = ObservationCurrent)) as [Hs|Hs]; [left; by apply Hcur|]. right.
      rewrite bool_decide_false in E3 by done. cbn [negb andb] in E3. bool_props.
      unfold len in *. split_and!; try done; by apply length_zero_iff_nil; lia.
  - intros ->. apply fail_if_Ok in Ho. cbn [andb] in Ho. by bool_props.
Qed.

Section facts.
Context `{External}.

End facts.

(** ** The semantic digest

    The JSON form of a document determines it. *)

Lemma object_inj l l' : l.*1 = l'.*1 -> NoDup l.*1 -> object l = object l' -> l = l'.
Proof.
  revert l'. induction l as [|[n v] l IH]; intros [|[n' v'] l'] Hn Hnd E; try done.
  cbn in Hn. injection Hn as <- Hn. apply NoDup_cons in Hnd as [Hni Hnd].
  assert (Hfresh : forall (k : list (string * option json)) w rest, n ∉ k.*1 -> object k <> (n, w) :: rest).
  { intros k w rest Hk Ek. apply Hk. assert (Hin : (n, w) ∈ object k) by (rewrite Ek; by left).
    unfold object in Hin. apply list_elem_of_omap in Hin as ([m o] & Hm & Ho).
    destruct o as [o|]; [|done]. injection Ho as -> ->. apply list_elem_of_fmap. by exists (n, Some w). }
  unfold object in *. cbn in E. destruct v as [v|], v' as [v'|]; cbn in E.
  - injection E as <- E. f_equal. by apply IH.
  - exfalso. symmetry in E. by apply Hfresh in E; [|rewrite <- Hn].
  - exfalso. by apply Hfresh in E.
  - f_equal. by apply IH.
Qed.

Lemma text_inj v w : text v = text w -> v = w.
Proof. unfold text. repeat case_bool_decide; naive_solver. Qed.

Lemma number_inj v w : number v = number w -> v = w.
Proof. unfold number. destruct (v =? 0) eqn:Ev, (w =? 0) eqn:Ew; bool_props; naive_solver. Qed.

Lemma flag_inj v w : flag v = flag w -> v = w.
Proof. by destruct v, w. Qed.

#[local] Instance string_json_inj : Inj (=) (=) (to_json : string -> json).
Proof. intros v w E. by injection E. Qed.
#[local] Instance Z_json_inj : Inj (=) (=) (to_json : Z -> json).
Proof. intros v w E. by injection E. Qed.
#[local] Instance bool_json_inj : Inj (=) (=) (to_json : bool -> json).
Proof. intros v w E. by injection E. Qed.

#[local] Instance list_json_inj `{ToJSON A} : Inj (=) (=) (to_json : A -> json) -> Inj (=) (=) (to_json : list A -> json).
Proof. intros Hi v w E. injection E as E. by apply (inj (fmap to_json)) in E. Qed.

#[local] Instance labels_json_inj : Inj (=) (=) (to_json : gmap string string -> json).
Proof.
  intros v w E. injection E as E. apply (inj (fmap (prod_map id JString))) in E.
  apply map_to_list_inj. by rewrite E.
Qed.

Lemma present_inj `{ToJSON A} `{!Inj (=) (=) (to_json : A -> json)} (v w : A) : present v = present w -> v = w.
Proof. intros E. apply (inj Some) in E. by apply (inj to_json). Qed.

Lemma slice_inj `{ToJSON A} `{!Inj (=) (=) (to_json : A -> json)} (v w : list A) : slice v = slice w -> v = w.
Proof. destruct v, w; try done. intros E. apply (inj Some) in E. by apply (inj to_json) in E. Qed.

Lemma pointer_inj `{ToJSON A} `{!Inj (=) (=) (to_json : A -> json)} (v w : option A) : pointer v = pointer w -> v = w.
Proof. destruct v, w; try done. intros E. apply (inj Some) in E. f_equal. by apply (inj to_json). Qed.

Lemma labels_inj v w : labels v = labels w -> v = w.
Proof.
  unfold labels. repeat case_bool_decide; [congruence | done | done |]. intros E. apply (inj Some) in E.
  by apply (inj (to_json : gmap string string -> json)).
Qed.

Lemma JObject_inj l l' : JObject l = JObject l' -> l = l'.
Proof. by intros [=]. Qed.

Lemma field_inj (n n' : string) (v v' : option json) l l' : (n, v) :: l = (n', v') :: l' -> v = v' /\ l = l'.
Proof. by intros [= _ -> ->]. Qed.

(** Reads the fields of two equal objects off. *)
Ltac read_fields E :=
  apply JObject_inj, object_inj in E; [|reflexivity|apply (bool_decide_unpack _); vm_compute; exact I];
  repeat (let H := fresh in apply field_inj in E as [H E]); clear E;
  repeat match goal with
  | H : text _ = text _ |- _ => apply text_inj in H
  | H : number _ = number _ |- _ => apply number_inj in H
  | H : flag _ = flag _ |- _ => apply flag_inj in H
  | H : labels _ = labels _ |- _ => apply labels_inj in H
  | H : present _ = present _ |- _ => apply present_inj in H
  | H : slice _ = slice _ |- _ => apply slice_inj in H
  | H : pointer _ = pointer _ |- _ => apply pointer_inj in H
  end.

Tactic Notation "json_injective" reference(instance) :=
  let a := fresh in let b := fresh in let E := fresh in
  intros a b E; unfold to_json, instance in E; read_fields E; destruct a, b; cbn in *; subst; by simplify_eq.

#[local] Instance DeliveryObservation_inj : Inj (=) (=) (to_json : DeliveryObservation -> json).
Proof.
  intros [s1 t1] [s2 t2] E. unfold to_json, DeliveryObservation_json in E. read_fields E. cbn in *.
  destruct t1, t2; naive_solver.
Qed.
#[local] Instance SystemResourceObservation_inj : Inj (=) (=) (to_json : SystemResourceObservation -> json).
Proof. json_injective SystemResourceObservation_json. Qed.
#[local] Instance SystemVolumeObservation_inj : Inj (=) (=) (to_json : SystemVolumeObservation -> json).
Proof. json_injective SystemVolumeObservation_json. Qed.
#[local] Instance SystemComponent_inj : Inj (=) (=) (to_json : SystemComponent -> json).
Proof. json_injective SystemComponent_json. Qed.
#[local] Instance DeliveryControllerInventory_inj : Inj (=) (=) (to_json : DeliveryControllerInventory -> json).
Proof. json_injective DeliveryControllerInventory_json. Qed.
#[local] Instance DeliveryCondition_inj : Inj (=) (=) (to_json : DeliveryCondition -> json).
Proof. json_injective DeliveryCondition_json. Qed.
#[local] Instance DeliveryResourceIdentity_inj : Inj (=) (=) (to_json : DeliveryResourceIdentity -> json).
Proof. json_injective DeliveryResourceIdentity_json. Qed.
#[local] Instance DeliveryInventory_inj : Inj (=) (=) (to_json : DeliveryInventory -> json).
Proof. json_injective DeliveryInventory_json. Qed.
#[local] Instance DeliveryDeploymentStatusV2_inj : Inj (=) (=) (to_json : DeliveryDeploymentStatusV2 -> json).
Proof. json_injective DeliveryDeploymentStatusV2_json. Qed.

(** *** Reports that carry the same state *)

Definition observed_state (o : option DeliveryObservation) : option string := obs_State <$> o.

(** All of a deployment's report but its times and its warnings. *)
Definition report_rest (d : DeliveryDeploymentStatusV2) :=
  (report_DeploymentID d, report_Generation d, report_SpecDigest d, report_Phase d,
   (report_ObservedRevision d, report_ObservedDigest d, report_SourceKind d, report_SourceName d),
   (report_ReconcilerKind d, report_ReconcilerName d, report_ErrorCode d, report_Message d),
   report_Conditions d, report_Inventory d).

Record same_report (d d' : DeliveryDeploymentStatusV2) : Prop := {
  same_rest : report_rest d = report_rest d';
  same_observed : observed_state (report_Observation d) = observed_state (report_Observation d');
  same_warnings : report_WarningCodes d ≡ₚ report_WarningCodes d';
}.

(** The inventories agree up to sample times and the order of API versions. *)
Definition same_inventory (i i' : DeliveryControllerInventory) : Prop :=
  with_apis (WithoutObservationTimes i) [] = with_apis (WithoutObservationTimes i') [] /\
  inventory_APIVersions i ≡ₚ inventory_APIVersions i'.

Record same_state (s s' : DeliveryStatusV2) : Prop := {
  same_header : (status_ProtocolVersion s, status_ClusterID s, status_SnapshotGeneration s, status_SnapshotETag s) =
    (status_ProtocolVersion s', status_ClusterID s', status_SnapshotGeneration s', status_SnapshotETag s');
  same_deployments : exists l, l ≡ₚ status_Deployments s' /\ Forall2 same_report (status_Deployments s) l;
  same_controllers : same_inventory (status_ControllerInventory s) (status_ControllerInventory s');
}.

Lemma untimed_observed o o' : withoutObservationTime o = withoutObservationTime o' <-> observed_state o = observed_state o'.
Proof.
  unfold withoutObservationTime, observed_state. destruct o as [o|], o' as [o'|]; cbn; try done.
  split; intros [= E]; by rewrite E.
Qed.

Lemma sorted_texts l l' : sort_slice str_lt l = sort_slice str_lt l' <-> l ≡ₚ l'.
Proof.
  split; [intros E; by rewrite <- (sort_slice_Permutation str_lt l), E, sort_slice_Permutation|].
  intros Hp. apply (sort_slice_unique id str_lt); [|done]. by intros x y _ _.
Qed.

Lemma canonical_report_same d d' : canonical_report d = canonical_report d' <-> same_report d d'.
Proof.
  unfold canonical_report. split.
  - intros [= E1 E2 E3 E4 E5 E6 E7 E8 E9 E10 E11 E12 E13 E14 E15 E16]. split.
    + unfold report_rest. congruence.
    + by apply untimed_observed.
    + by apply sorted_texts.
  - intros [Hr Ho Hw]. unfold report_rest in Hr. injection Hr as -> -> -> -> -> -> -> -> -> -> -> -> -> ->.
    apply untimed_observed in Ho as ->. apply sorted_texts in Hw as ->. done.
Qed.

Lemma same_report_id d d' : same_report d d' -> report_DeploymentID d = report_DeploymentID d'.
Proof. intros [E _ _]. by injection E. Qed.

Lemma Forall2_same_ids l l' : Forall2 same_report l l' -> map report_DeploymentID l = map report_DeploymentID l'.
Proof. induction 1 as [|d d' l l' Hd _ IH]; [done|]. cbn. by rewrite IH, (same_report_id _ _ Hd). Qed.

(** The canonical deployments, in the order of their identifiers. *)
Lemma canonical_deployments l l' :
  NoDup (map report_DeploymentID l) ->
  map canonical_report (sort_slice report_less l) = map canonical_report (sort_slice report_less l') <->
  exists k, k ≡ₚ l' /\ Forall2 same_report l k.
Proof.
  intros Hnd. split.
  - intros E. assert (Hf : Forall2 same_report (sort_slice report_less l) (sort_slice report_less l')).
    { revert E. generalize (sort_slice report_less l') as b. induction (sort_slice report_less l) as [|d a IH];
        intros [|d' b] E; try done. apply cons_eq_inj in E as [Ed E]. constructor; [by apply canonical_report_same | by apply IH]. }
    destruct (Permutation_Forall2 (sort_slice_Permutation report_less l) Hf) as (k & Hk & Hp).
    exists k. split; [|done]. by rewrite <- Hk, sort_slice_Permutation.
  - intros (k & Hk & Hf).
    assert (Hl : sort_slice report_less l' = sort_slice report_less k).
    { symmetry. apply (sort_slice_unique report_DeploymentID str_lt); [|done].
      apply NoDup_key_inj_on. change (NoDup (map report_DeploymentID k)). by rewrite <- (Forall2_same_ids _ _ Hf). }
    rewrite Hl. change (canonical_report <$> sort_slice report_less l = canonical_report <$> sort_slice report_less k).
    change report_less with (fun a b => report_less (canonical_report a) (canonical_report b)).
    rewrite !sort_slice_fmap. f_equal. clear -Hf. induction Hf as [|d d' l k Hd _ IH]; [done|].
    rewrite !fmap_cons, IH. f_equal. by apply canonical_report_same.
Qed.

Lemma same_inventory_canonical i i' :
  with_apis (WithoutObservationTimes i) (sort_slice str_lt (inventory_APIVersions i)) =
  with_apis (WithoutObservationTimes i') (sort_slice str_lt (inventory_APIVersions i')) <-> same_inventory i i'.
Proof.
  unfold same_inventory. rewrite <- sorted_texts. split.
  - intros E. split; [|by injection E]. by apply (f_equal (fun j => with_apis j [])) in E.
  - intros [E ->]. by apply (f_equal (fun j => with_apis j (sort_slice str_lt (inventory_APIVersions i')))) in E.
Qed.

Lemma list_or_null {A} `{ToJSON A} `{!Inj (=) (=) (to_json : A -> json)} (l l' : list A) :
  match l with [] => JNull | _ => to_json l end = match l' with [] => JNull | _ => to_json l' end -> l = l'.
Proof. destruct l, l'; try done. intros E. by apply (inj (to_json : list A -> json)) in E. Qed.

Lemma semantic_document_same s s' :
  NoDup (map report_DeploymentID (status_Deployments s)) ->
  semantic_document s = semantic_document s' <-> same_state s s'.
Proof.
  intros Hnd. unfold semantic_document. split.
  - intros E. read_fields E. split.
    + congruence.
    + apply canonical_deployments; [done|]. apply (inj Some) in H5. by apply list_or_null in H5.
    + by apply same_inventory_canonical.
  - intros [Hh Hd Hc]. injection Hh as -> -> -> ->. apply same_inventory_canonical in Hc as ->.
    apply canonical_deployments in Hd as ->; done.
Qed.

#[local] Instance json_eq_dec : EqDecision json.
Proof.
  refine (fix go (a b : json) {struct a} : {a = b} + {a <> b} := _). decide equality; try (clear go; by apply (decide_rel (=))).
  - apply (List.list_eq_dec go).
  - apply (List.list_eq_dec (fun p q => prod_eq_dec (EqDecision1 := go) p q)).
Defined.

Section digest.
Context `{External}.

(** The encoder or the hash maps the documents of the two reports together. *)
Definition collide (s s' : DeliveryStatusV2) : Prop :=
  semantic_document s <> semantic_document s' /\
  sha256_Sum256 (default "" (json_Marshal (semantic_document s))) =
  sha256_Sum256 (default "" (json_Marshal (semantic_document s'))).

(** C21: the semantic digest says exactly whether two reports carry the same state.
    Reports that differ only in sequence numbers, sample times and the order of
    deployments, warnings and API versions have the same digest; reports with the
    same digest differ in nothing else, unless the hash collides on them.  So a
    report that is coalesced because its digest is known hides no change. *)
Theorem SemanticDigest_exact s s' :
  NoDup (map report_DeploymentID (status_Deployments s)) ->
  (same_state s s' -> SemanticDigest s = SemanticDigest s') /\
  (SemanticDigest s = SemanticDigest s' -> same_state s s' \/ collide s s').
Proof.
  intros Hnd. unfold SemanticDigest, DigestBytes. split.
  - intros E%semantic_document_same; [|done]. by rewrite E.
  - intros E. apply (inj (String.append "sha256:")) in E. apply hex_inj in E.
    destruct (decide (semantic_document s = semantic_document s')) as [Hd|Hd]; [|by right].
    left. by apply semantic_document_same.
Qed.
End digest.

(** ** Examples *)

Definition zeros (n : nat) : string := repeat_ascii n "0"%char.
Definition example_uuid (c : Ascii.ascii) : string := String c (zeros 7 +:+ "-0000-4000-8000-" +:+ zeros 12).

Definition example_items (entries ready failed : Z) : DeliveryInventory :=
  {| items_Entries := entries; items_Ready := ready; items_Failed := failed; items_Resources := [] |}.

Definition example_report (c : Ascii.ascii) (phase : string) (warnings : list string) (at_ : time) (items : DeliveryInventory) :
    DeliveryDeploymentStatusV2 := {|
  report_Observation := Some {| obs_State := ObservationCurrent; obs_ObservedAt := Some at_ |};
  report_DeploymentID := example_uuid c; report_Generation := 3; report_SpecDigest := "sha256:" +:+ zeros 64;
  report_Phase := phase; report_ObservedRevision := "main"; report_ObservedDigest := "";
  report_SourceKind := "GitRepository"; report_SourceName := "source"; report_ReconcilerKind := "Kustomization";
  report_ReconcilerName := "apply"; report_ErrorCode := ""; report_WarningCodes := warnings; report_Message := "";
  report_Conditions := []; report_Inventory := items; report_ObservedAt := at_ |}.

Definition example_inventory (at_ : time) : DeliveryControllerInventory := {|
  inventory_Observation := Some {| obs_State := ObservationCurrent; obs_ObservedAt := Some at_ |};
  inventory_AgentVersion := "v1.2.3"; inventory_FluxVersion := "v2.9.6";
  inventory_Components := {["helm-controller" := "v1.5.0"]}; inventory_SystemComponents := [];
  inventory_APIVersions := ["source.toolkit.fluxcd.io/v1"]; inventory_KubernetesVersion := "v1.34.2";
  inventory_DistributionDigest := ""; inventory_Ready := true; inventory_CompatibilityMessage := "" |}.

Definition example_status (sequence : Z) (digest : string) (reports : list DeliveryDeploymentStatusV2) (at_ : time) :
    DeliveryStatusV2 := {|
  status_ProtocolVersion := DeliveryProtocolVersion; status_ClusterID := example_uuid "c"%char;
  status_SessionSequence := sequence; status_StatusDigest := digest; status_SnapshotGeneration := 0;
  status_SnapshotETag := ""; status_Deployments := reports; status_ControllerInventory := example_inventory at_ |}.

Definition example_reports (at_ : time) : list DeliveryDeploymentStatusV2 :=
  [example_report "a"%char "ready" ["slow"; "drift"] at_ (example_items 2 2 0);
   example_report "b"%char "applying" [] at_ (example_items 1 0 0)].

Definition example_shuffled (at_ : time) : list DeliveryDeploymentStatusV2 :=
  [example_report "b"%char "applying" [] at_ (example_items 1 0 0);
   example_report "a"%char "ready" ["drift"; "slow"] at_ (example_items 2 2 0)].

(** A later report of the same state, in another order. *)
Lemma SemanticDigest_exact_witness :
  @SemanticDigest Concrete.external (example_status 1 "" (example_reports 1000) 1000) =
  @SemanticDigest Concrete.external (example_status 2 "" (example_shuffled 2000) 2000).
Proof.
  apply (@SemanticDigest_exact Concrete.external).
  - apply (bool_decide_unpack _). vm_compute. exact I.
  - split; [done| |by split].
    exists [example_report "a"%char "ready" ["drift"; "slow"] 2000 (example_items 2 2 0);
            example_report "b"%char "applying" [] 2000 (example_items 1 0 0)].
    split; [apply Permutation_swap|]. repeat constructor; done.
Defined.

Definition example_accepted : DeliveryStatusV2 :=
  example_status 1 (@SemanticDigest Concrete.external (example_status 1 "" (example_reports 1000) 1000))
    (example_reports 1000) 1000.


(** The sum of the ready and the failed objects overflows: more of them than there
    are entries pass. *)
Lemma item_counts_overflow :
  report_checks (example_report "a"%char "degraded" [] 1000 (example_items 0 (2 ^ 62) (2 ^ 62))) = Ok tt.
Proof. vm_compute. reflexivity. Qed.
End DeliveryProtocolFacts.
