(* ===== verification/Compatibility.v ===== *)
(** * Compatibility of a cluster's controllers (internal/delivery/compatibility, deploy/flux/embed.go)

    The reported inventory against the release contract: the Flux version, the
    controller images of the embedded provenance document and the supported
    Kubernetes range.  The embedded files and the parser of semantic versions are
    parameters. *)

From Stdlib Require Import ZArith Lia.
From S2P Require Import Prelude Enums GoSort GoStrings External Validation Types DeliveryProtocol.
From stdpp Require Import base gmap strings list.
Import DeliveryProtocol.

Open Scope Z_scope.

Module Compatibility.

(** ** The embedded distribution *)

Record ControllerImage := {
  image_Component : string;
  image_Version : string;
  image_Digest : string;
  image_Reference : string;
}.

(** An entry of controller_images. *)
Record ProvenanceEntry := {
  entry_Component : string;
  entry_Digest : string;
  entry_SourceRef : string;
}.

(** [strings.LastIndex] of a one-byte text. *)
Fixpoint last_index (c : Ascii.ascii) (i : Z) (s : string) : Z :=
  match s with
  | EmptyString => -1
  | String d r => let later := last_index c (i + 1) r in if 0 <=? later then later else if d == c then i else -1
  end.
Definition LastIndexByte (s : string) (c : Ascii.ascii) : Z := last_index c 0 s.

Definition colon : Ascii.ascii := Ascii.ascii_of_nat 58.
Definition slash : Ascii.ascii := Ascii.ascii_of_nat 47.

Section distribution.
Context `{External}.
(** The embedded VERSION file, and the decoded provenance document; [None] is a
    text that does not decode. *)
Context (versionFile : string) (provenance : option (list ProvenanceEntry)).

Definition Version : string := TrimSpace versionFile.

Definition add_controller (controllers : gmap string ControllerImage) (entry : ProvenanceEntry) :
    res (gmap string ControllerImage) :=
  let separator := LastIndexByte (entry_SourceRef entry) colon in
  fail_if ((entry_Component entry == "") || (separator <? LastIndexByte (entry_SourceRef entry) slash) ||
           negb (HasPrefix (entry_Digest entry) "sha256:"))
    (EText "invalid embedded Flux controller identity for %q");;
  Ok (<[entry_Component entry := {|
         image_Component := entry_Component entry;
         image_Version := string_drop (Z.to_nat (separator + 1)) (entry_SourceRef entry);
         image_Digest := entry_Digest entry; image_Reference := entry_SourceRef entry |}]> controllers).

Definition ControllerImages : res (gmap string ControllerImage) :=
  match provenance with
  | None => Err (EText "decode embedded Flux provenance: %w")
  | Some entries =>
      controllers ← res_foldl add_controller ∅ entries;
      fail_if (negb (size controllers =? 3)%nat) (EText "embedded Flux provenance contains %d controllers, want 3");;
      Ok controllers
  end.

Definition ControllerSetDigest : res string :=
  controllers ← ControllerImages;
  let identities := map (fun p => p.1 +:+ "=" +:+ image_Reference p.2 +:+ "@" +:+ image_Digest p.2) (map_to_list controllers) in
  Ok (DigestBytes (strings_Join (String (byte 10) "") (sort_slice str_lt identities))).
End distribution.

(** ** The contract *)

Definition Compatible : string := "compatible".
Definition Incompatible : string := "incompatible".
Definition UpgradeRequired : string := "upgrade_required".
Definition Degraded : string := "degraded".

Record Result := {
  result_Status : string;
  result_Code : string;
}.

Definition requiredAPIs : list string :=
  ["source.toolkit.fluxcd.io/v1"; "kustomize.toolkit.fluxcd.io/v1"; "helm.toolkit.fluxcd.io/v2"].

Section contract.
Context `{External} (versionFile : string) (provenance : option (list ProvenanceEntry)).
(** github.com/Masterminds/semver: major and minor of a text that parses *)
Context (semver_Parse : string -> option (Z * Z)).

#[local] Abbreviation Version := (Version versionFile).
#[local] Abbreviation ControllerSetDigest := (ControllerSetDigest provenance).

(** [requiredComponentVersions] *)
Definition requiredComponentVersions : res (gmap string string) :=
  images ← ControllerImages provenance; Ok (image_Version <$> (images : gmap string ControllerImage)).

Definition kubernetes_supported (version : string) : bool :=
  match semver_Parse (TrimPrefix version "v") with
  | Some (major, minor) => (major =? 1) && (33 <=? minor) && (minor <=? 35)
  | None => false
  end.

Definition result (status code : string) : Result := {| result_Status := status; result_Code := code |}.

(** A return in the middle of [Evaluate]. *)
Definition return_if (cond : bool) (r rest : Result) : Result := if cond then r else rest.

(** [evaluateNoncurrentObservation] *)
Definition evaluateNoncurrentObservation (i : DeliveryControllerInventory) (state : string) : Result :=
  return_if ((inventory_FluxVersion i != "") && (inventory_FluxVersion i != Version))
    (result UpgradeRequired "flux_version_unsupported") (
  return_if ((inventory_KubernetesVersion i != "") && negb (kubernetes_supported (inventory_KubernetesVersion i)))
    (result Incompatible "kubernetes_version_unsupported") (
  match requiredComponentVersions with
  | Err _ => result Incompatible "invalid_release_contract"
  | Ok components =>
      return_if (existsb (fun p => let observed := default "" (inventory_Components i !! p.1) in
                            (observed != "") && (observed != p.2)) (map_to_list components))
        (result UpgradeRequired "controller_version_unsupported") (
      if inventory_DistributionDigest i != "" then
        match ControllerSetDigest with
        | Err _ => result Incompatible "invalid_release_contract"
        | Ok expected =>
            return_if (inventory_DistributionDigest i != expected)
              (result UpgradeRequired "distribution_digest_unsupported")
              (result Degraded ("observation_" +:+ state))
        end
      else result Degraded ("observation_" +:+ state))
  end)).

Definition noncurrent_state (i : DeliveryControllerInventory) : option string :=
  match inventory_Observation i with
  | Some o => if obs_State o != ObservationCurrent then Some (obs_State o) else None
  | None => None
  end.

(** [Evaluate] *)
Definition Evaluate (i : DeliveryControllerInventory) (now : time) : Result :=
  return_if (negb (is_ok (inventory_Validate i now))) (result Incompatible "invalid_inventory") (
  match noncurrent_state i with Some state => evaluateNoncurrentObservation i state | None =>
  return_if (negb (inventory_Ready i)) (result Degraded "controllers_not_ready") (
  return_if (inventory_FluxVersion i != Version) (result UpgradeRequired "flux_version_unsupported") (
  return_if (negb (kubernetes_supported (inventory_KubernetesVersion i)))
    (result Incompatible "kubernetes_version_unsupported") (
  match requiredComponentVersions with
  | Err _ => result Incompatible "invalid_release_contract"
  | Ok components =>
      return_if (existsb (fun p => default "" (inventory_Components i !! p.1) != p.2) (map_to_list components))
        (result UpgradeRequired "controller_version_unsupported") (
      return_if (negb (forallb (contains (inventory_APIVersions i)) requiredAPIs))
        (result UpgradeRequired "flux_api_missing") (
      return_if (inventory_DistributionDigest i == "") (result Incompatible "distribution_identity_missing") (
      match ControllerSetDigest with
      | Err _ => result Incompatible "invalid_release_contract"
      | Ok expected =>
          return_if (inventory_DistributionDigest i != expected)
            (result UpgradeRequired "distribution_digest_unsupported") (result Compatible "")
      end)))
  end))) end).
End contract.

(** ** Correctness *)

Lemma return_if_status cond r rest :
  result_Status r <> Compatible ->
  result_Status (return_if cond r rest) = Compatible <-> cond = false /\ result_Status rest = Compatible.
Proof. destruct cond; cbn; naive_solver. Qed.

Lemma components_match (required : gmap string string) (i : DeliveryControllerInventory) :
  existsb (fun p => default "" (inventory_Components i !! p.1) != p.2) (map_to_list required) = false <->
  forall name version, required !! name = Some version -> default "" (inventory_Components i !! name) = version.
Proof.
  rewrite <- not_true_iff_false, List.existsb_exists. split.
  - intros Hno name version Hn. destruct (decide (default "" (inventory_Components i !! name) = version)); [done|].
    exfalso. apply Hno. exists (name, version). split; [by apply list_elem_of_In, elem_of_map_to_list|].
    by apply negb_true_iff, bool_decide_eq_false.
  - intros Hall ([name version] & Hin%list_elem_of_In%elem_of_map_to_list & Hne). cbn in Hne.
    by rewrite (Hall _ _ Hin), bool_decide_true in Hne.
Qed.

Section facts.
Context `{External} (versionFile : string) (provenance : option (list ProvenanceEntry)).
Context (semver_Parse : string -> option (Z * Z)).

(** The contract of a release, met by an inventory. *)
Record meets (i : DeliveryControllerInventory) (now : time) : Prop := {
  meets_valid : inventory_Validate i now = Ok tt;
  meets_current : forall o, inventory_Observation i = Some o -> obs_State o = ObservationCurrent;
  meets_ready : inventory_Ready i = true;
  meets_flux : inventory_FluxVersion i = Version versionFile;
  meets_kubernetes : exists minor, semver_Parse (TrimPrefix (inventory_KubernetesVersion i) "v") = Some (1, minor) /\
    33 <= minor <= 35;
  meets_apis : forall api, api ∈ requiredAPIs -> api ∈ inventory_APIVersions i;
  meets_images : exists images, ControllerImages provenance = Ok images /\
    (forall name image, images !! name = Some image -> default "" (inventory_Components i !! name) = image_Version image) /\
    ControllerSetDigest provenance = Ok (inventory_DistributionDigest i);
}.

Lemma kubernetes_supported_iff version :
  kubernetes_supported semver_Parse version = true <->
  exists minor, semver_Parse (TrimPrefix version "v") = Some (1, minor) /\ 33 <= minor <= 35.
Proof.
  unfold kubernetes_supported. destruct (semver_Parse _) as [[major minor]|].
  - rewrite !andb_true_iff, Z.eqb_eq, !Z.leb_le. split; [|naive_solver].
    intros [[-> ?] ?]. by exists minor.
  - split; [done|]. by intros (? & ? & _).
Qed.

Lemma noncurrent_status i state : result_Status (evaluateNoncurrentObservation versionFile provenance semver_Parse i state) <> Compatible.
Proof.
  unfold evaluateNoncurrentObservation, return_if.
  repeat first [done | match goal with |- context [match ?x with _ => _ end] => destruct x end].
Qed.

(** A cluster is compatible exactly when it meets the contract: its inventory is
    valid, currently observed and ready, Flux and every controller have the
    versions of the embedded distribution, the required APIs are served,
    Kubernetes is in the supported range and the controllers are the very images
    of the distribution.  Whatever is missing or malformed, in the report or in
    the release, is never taken for compatible. *)
Theorem Evaluate_exact i now :
  result_Status (Evaluate versionFile provenance semver_Parse i now) = Compatible <-> meets i now.
Proof.
  unfold Evaluate. rewrite return_if_status by done. rewrite negb_false_iff. unfold noncurrent_state.
  assert (Hv : is_ok (inventory_Validate i now) = true <-> inventory_Validate i now = Ok tt)
    by (destruct (inventory_Validate i now) as [[]|]; done).
  assert (Ho : (forall o, inventory_Observation i = Some o -> obs_State o = ObservationCurrent) <->
    noncurrent_state i = None).
  { unfold noncurrent_state. destruct (inventory_Observation i) as [o|]; [|done]. case_bool_decide; naive_solver. }
  rewrite Hv. fold (noncurrent_state i). destruct (noncurrent_state i) as [state|].
  { split; [intros [_ Hs]; by apply noncurrent_status in Hs|]. intros Hm. pose proof (proj1 Ho (meets_current _ _ Hm)). done. }
  rewrite !return_if_status by done. rewrite !negb_false_iff, kubernetes_supported_iff, bool_decide_eq_true.
  transitivity (inventory_Validate i now = Ok tt /\ inventory_Ready i = true /\ inventory_FluxVersion i = Version versionFile /\
    (exists minor, semver_Parse (TrimPrefix (inventory_KubernetesVersion i) "v") = Some (1, minor) /\ 33 <= minor <= 35) /\
    (forall api, api ∈ requiredAPIs -> api ∈ inventory_APIVersions i) /\
    exists images, ControllerImages provenance = Ok images /\
      (forall name image, images !! name = Some image -> default "" (inventory_Components i !! name) = image_Version image) /\
      ControllerSetDigest provenance = Ok (inventory_DistributionDigest i)); cycle 1.
  { split; [intros (? & ? & ? & ? & ? & ?); split; try done; by apply Ho | by intros []]. }
  do 4 (apply and_iff_compat_l). unfold requiredComponentVersions.
  destruct (ControllerImages provenance) as [images|e] eqn:Hi; cbn [mbind res_bind]; cycle 1.
  { split; [done|]. by intros (_ & images & ? & _). }
  rewrite !return_if_status by done. rewrite components_match, negb_false_iff, bool_decide_eq_false, List.forallb_forall.
  assert (Hd : exists text, ControllerSetDigest provenance = Ok (DigestBytes text))
    by (unfold ControllerSetDigest; rewrite Hi; by eexists).
  destruct Hd as [digest ->]. rewrite return_if_status, negb_false_iff, bool_decide_eq_true by done.
  split.
  - intros (Hc & Ha & _ & Hg & _). split; [intros api Hapi; apply contains_elem_of, Ha; by apply list_elem_of_In|].
    exists images. split_and!; [done| |by rewrite Hg]. intros name image Hn. apply Hc. by rewrite lookup_fmap, Hn.
  - intros (Ha & images' & [= <-] & Hc & [= Hg]). split_and!; try done.
    + intros name version. rewrite lookup_fmap. intros (image & Hn & ->)%fmap_Some. by apply Hc.
    + intros api Hapi. apply contains_elem_of, Ha. by apply list_elem_of_In.
    + by rewrite <- Hg.
Qed.
End facts.
End Compatibility.
