(* ===== verification/Redaction.v ===== *)
(** * Credential redaction (internal/redaction/redaction.go)

    Texts and JSON values are stripped of what looks like a credential before they
    are stored or shown.  The six expressions run on Go's regexp package: the
    model is a backtracking matcher over the runes of a text, with the preference
    order of leftmost-first matching, and [ReplaceAllString] on top of it. *)

From Stdlib Require Import ZArith Lia Ascii.
From S2P Require Import Prelude Enums GoStrings Utf8 External Validation Model.
From stdpp Require Import base gmap strings list.
Import Utf8.

Open Scope Z_scope.

Module Redaction.

Definition Marker : string := "[redacted]".
Definition PrivateKeyMarker : string := "[redacted private key]".
Definition KubeconfigMarker : string := "[redacted kubeconfig]".
Definition SensitiveLineMarker : string := "[redacted sensitive log line]".

(** ** Classes *)

Definition one_byte (f : ascii -> bool) (r : string) : bool :=
  match r with String c "" => f c | _ => false end.

(** [\s] and [\w] of the regexp package *)
Definition space_rune : string -> bool :=
  one_byte (fun c => ContainsByte (String (byte 9) (String (byte 10) (String (byte 12) (String (byte 13) " ")))) c).
Definition letter (c : ascii) : bool := in_range "a"%char "z"%char (lower_byte c).
Definition digit (c : ascii) : bool := in_range "0"%char "9"%char c.
Definition word_rune : string -> bool := one_byte (fun c => letter c || digit c || (c == "_"%char)).

(** U+212A and U+017F, which fold to k and s. *)
Definition kelvin : string := String (byte 226) (String (byte 132) (String (byte 170) "")).
Definition long_s : string := String (byte 197) (String (byte 191) "").

(** A letter of an expression under (?i). *)
Definition folds (c : ascii) (r : string) : bool :=
  one_byte (fun d => lower_byte d == c) r || ((c == "k"%char) && (r == kelvin)) || ((c == "s"%char) && (r == long_s)).

(** The runes of a bearer token, under (?i). *)
Definition token_rune (r : string) : bool :=
  one_byte (fun c => letter c || digit c || ContainsByte "._~+/=-" c) r || (r == kelvin) || (r == long_s).

(** ** Expressions *)

Inductive regex :=
  | Eps
  | Rune (f : string -> bool)
  | Seq (a b : regex)
  | Alt (a b : regex)
  | Many (f : string -> bool)
  | Boundary
  | Group (a : regex).

Definition word_at (r : option string) : bool := match r with Some r => word_rune r | None => false end.

(** The first match of [a] at the front of [s], in the order of preference, after
    which the rest of the expression, [k], matches as well.  [prev] is the rune
    before [s], [cap] the text of the group. *)
Fixpoint matches {R} (a : regex) (prev : option string) (s : list string) (cap : list string)
    (k : option string -> list string -> list string -> option R) : option R :=
  match a with
  | Eps => k prev s cap
  | Rune f => match s with r :: s' => if f r then k (Some r) s' cap else None | [] => None end
  | Seq a b => matches a prev s cap (fun prev s cap => matches b prev s cap k)
  | Alt a b => match matches a prev s cap k with Some x => Some x | None => matches b prev s cap k end
  | Many f =>
      (fix many prev s :=
         match s with
         | r :: s' => if f r then match many (Some r) s' with Some x => Some x | None => k prev s cap end
                      else k prev s cap
         | [] => k prev [] cap
         end) prev s
  | Boundary => if xorb (word_at prev) (word_at (head s)) then k prev s cap else None
  | Group a => matches a prev s cap (fun prev' s' _ => k prev' s' (take (length s - length s') s))
  end.

Definition first_match (a : regex) (prev : option string) (s : list string) :
    option (option string * list string * list string) :=
  matches a prev s [] (fun prev s cap => Some (prev, s, cap)).

(** [ReplaceAllString(src, "$1" + Marker)]: matches from left to right that do not
    overlap.  Every expression below takes at least one rune, so as many rounds as
    there are runes are enough. *)
Fixpoint replace_all (fuel : nat) (a : regex) (prev : option string) (s : list string) : list string :=
  match fuel with
  | O => s
  | S n =>
      match s with
      | [] => []
      | r :: s' =>
          match first_match a prev s with
          | Some (prev', rest, cap) => cap ++ Marker :: replace_all n a prev' rest
          | None => r :: replace_all n a (Some r) s'
          end
      end
  end.

Definition ReplaceAllString (a : regex) (src : string) : string :=
  let s := runes src in text (replace_all (length s) a None s).

(** ** The expressions of the source *)

Fixpoint word (w : string) : regex :=
  match w with EmptyString => Eps | String c r => Seq (Rune (folds c)) (word r) end.

Definition one (chars : string) : regex := Rune (one_byte (ContainsByte chars)).
Definition optional (chars : string) : regex := Alt (one chars) Eps.
Definition spaces : regex := Many space_rune.
Definition many1 (f : string -> bool) : regex := Seq (Rune f) (Many f).
Definition not_of (chars : string) (r : string) : bool := negb (one_byte (ContainsByte chars) r).
Definition not_space_of (chars : string) (r : string) : bool := not_of chars r && negb (space_rune r).

(** The name, a colon or an equals sign, blanks around it, all in the group. *)
Definition header (name : regex) : regex := Group (Seq name (Seq spaces (Seq (one ":=") spaces))).

Definition newline_semicolon : string := String (byte 10) ";".

Definition secret_names : regex :=
  Alt (Seq (word "access") (Seq (optional "_-") (word "token")))
  (Alt (Seq (word "refresh") (Seq (optional "_-") (word "token")))
  (Alt (Seq (word "id") (Seq (optional "_-") (word "token")))
  (Alt (word "token") (Alt (word "password") (Alt (word "secret")
  (Seq (word "client") (Seq (optional "_-") (word "secret")))))))).

Definition stringRedactors : list regex :=
  [Seq Boundary (Seq (header (word "authorization")) (many1 (not_space_of ",;")));
   Seq Boundary (Seq (header (word "cookie")) (many1 (not_of newline_semicolon)));
   Seq Boundary (Seq (header (word "set-cookie")) (many1 (not_of newline_semicolon)));
   Seq Boundary (Seq (Group (word "bearer")) (Seq (many1 space_rune) (many1 token_rune)));
   Seq Boundary (Seq (Group secret_names) (Seq spaces (Seq (one ":=") (Seq spaces (many1 (not_space_of ",;"))))));
   Seq (Group (word "://")) (Seq (many1 (not_space_of "/@:")) (Seq (one ":") (Seq (many1 (not_space_of "/@")) (one "@"))))].

Section redaction.
Context `{External}.

(** [IsSensitiveKey] *)
Definition sensitive_keys : list string :=
  ["authorization"; "cookie"; "setcookie"; "token"; "tokenhash"; "authtoken"; "bearertoken"; "accesstoken";
   "refreshtoken"; "idtoken"; "password"; "secret"; "clientsecret"; "authtokenencrypted"; "clientsecretencrypted";
   "upstreamidtokenencrypted"; "secretkey"; "privatekey"; "clientkey"; "kubeconfig"; "cacertificate";
   "certificateauthoritydata"].

Fixpoint drop_bytes (chars s : string) : string :=
  match s with
  | EmptyString => ""
  | String c r => if ContainsByte chars c then drop_bytes chars r else String c (drop_bytes chars r)
  end.

Definition IsSensitiveKey (key : string) : bool := contains sensitive_keys (drop_bytes "-_." (ToLower key)).

(** [String] *)
Definition RedactString (value : string) : string :=
  let lower := ToLower value in
  if Contains lower "-----begin " && Contains lower " private key-----" then PrivateKeyMarker
  else if Contains lower "apiversion:" && Contains lower "clusters:" && Contains lower "users:" then KubeconfigMarker
  else foldl (fun out redactor => ReplaceAllString redactor out) value stringRedactors.

(** [Value] *)
Fixpoint Value (value : json) : json :=
  match value with
  | JObject fields =>
      JObject (map (fun p => match p with (key, item) =>
        (key, if IsSensitiveKey key then JString Marker else Value item) end) fields)
  | JArray l => JArray (map Value l)
  | JString s => JString (RedactString s)
  | _ => value
  end.

(** [Payload]; [json_Unmarshal] is encoding/json's, into an [any]. *)
Definition Payload (json_Unmarshal : string -> option json) (payload : json) : json :=
  match json_Marshal payload with
  | None => payload
  | Some raw => match json_Unmarshal raw with None => payload | Some decoded => Value decoded end
  end.

(** [SensitiveLine] *)
Definition SensitiveLine (line : string) : string :=
  if existsb (Contains (ToLower line)) ["token"; "secret"; "authorization"; "bearer "; "password"]
  then SensitiveLineMarker
  else if 500 <? slen line then string_take 500 line +:+ "...[truncated]"
  else line.

(** [ByteCount] *)
Definition ByteCount (value : string) : string :=
  if value == "" then "" else "[redacted " +:+ itoa (slen value) +:+ " bytes]".
End redaction.

(** ** Facts *)

(** The expressions that take at least one rune. *)
Fixpoint consumes (a : regex) : bool :=
  match a with
  | Eps | Many _ | Boundary => false
  | Rune _ => true
  | Seq a b => consumes a || consumes b
  | Alt a b => consumes a && consumes b
  | Group a => consumes a
  end.

(** A match takes a front part of the text and leaves the rest to [k]. *)
Lemma matches_Some {R} a : forall prev s cap (k : option string -> list string -> list string -> option R) x,
  matches a prev s cap k = Some x ->
  exists m prev' rest cap', s = m ++ rest /\ k prev' rest cap' = Some x /\ (consumes a = true -> m <> []).
Proof.
  induction a as [|f|a IHa b IHb|a IHa b IHb|f| |a IHa]; intros prev s cap k x; cbn [matches consumes].
  - intros E. by exists [], prev, s, cap.
  - destruct s as [|r s]; [done|]. destruct (f r); [|done]. intros E. by exists [r], (Some r), s, cap.
  - intros E. apply IHa in E as (m1 & p1 & r1 & c1 & -> & E & H1).
    apply IHb in E as (m2 & p2 & r2 & c2 & -> & E & H2). exists (m1 ++ m2), p2, r2, c2.
    split_and!; [by rewrite app_assoc | done|]. intros [Hc|Hc]%orb_true_iff.
    + intros [? _]%app_nil. by apply H1.
    + intros [_ ?]%app_nil. by apply H2.
  - destruct (matches a prev s cap k) as [y|] eqn:Ea; intros E.
    + injection E as ->. apply IHa in Ea as (m & p & r & c & -> & E & Hm). exists m, p, r, c.
      split_and!; try done. intros [? _]%andb_true_iff. by apply Hm.
    + apply IHb in E as (m & p & r & c & -> & E & Hm). exists m, p, r, c.
      split_and!; try done. intros [_ ?]%andb_true_iff. by apply Hm.
  - revert prev. induction s as [|r s IH]; intros prev E; [by exists [], prev, [], cap|].
    destruct (f r); [|by exists [], prev, (r :: s), cap].
    match type of E with context [match ?t with Some _ => _ | None => _ end] => destruct t as [y|] eqn:Ey end.
    + injection E as ->. destruct (IH _ Ey) as (m & p & rest & c & -> & E & _).
      by exists (r :: m), p, rest, c.
    + by exists [], prev, (r :: s), cap.
  - destruct (xorb _ _); [|done]. intros E. by exists [], prev, s, cap.
  - intros E. apply IHa in E as (m & p & rest & c & -> & E & Hm). by eexists m, p, rest, _.
Qed.

Lemma first_match_Some a prev s last rest cap :
  consumes a = true -> first_match a prev s = Some (last, rest, cap) -> exists m, s = m ++ rest /\ m <> [].
Proof.
  intros Hc E. apply matches_Some in E as (m & p & r & c & -> & [= <- <- <-] & Hm). exists m. by split; [|apply Hm].
Qed.

(** What [ReplaceAllString] is to do: from left to right, a rune where no match
    begins stays, a match gives way to its group and the marker, and the search
    goes on behind it. *)
Inductive rewritten (a : regex) : option string -> list string -> list string -> Prop :=
  | rewritten_nil prev : rewritten a prev [] []
  | rewritten_skip prev r s out :
      first_match a prev (r :: s) = None -> rewritten a (Some r) s out -> rewritten a prev (r :: s) (r :: out)
  | rewritten_match prev m rest prev' cap out :
      first_match a prev (m ++ rest) = Some (prev', rest, cap) -> m <> [] -> rewritten a prev' rest out ->
      rewritten a prev (m ++ rest) (cap ++ Marker :: out).

Lemma replace_all_rewritten a : consumes a = true -> forall fuel prev s,
  (length s <= fuel)%nat -> rewritten a prev s (replace_all fuel a prev s).
Proof.
  intros Hc fuel. induction fuel as [|n IH]; intros prev [|r s] Hlen; cbn in Hlen; try lia; try constructor.
  cbn [replace_all]. destruct (first_match a prev (r :: s)) as [[[last rest] cap]|] eqn:E.
  - destruct (first_match_Some _ _ _ _ _ _ Hc E) as (m & Hm & Hne). rewrite Hm in E |- *.
    eapply rewritten_match; [exact E | done|]. apply IH. apply (f_equal length) in Hm. rewrite length_app in Hm.
    destruct m; [done|]. cbn in Hm. lia.
  - apply rewritten_skip; [done|]. apply IH. lia.
Qed.

Lemma redactors_consume : Forall (fun a => consumes a = true) stringRedactors.
Proof. repeat constructor. Qed.

(** A text in which no match begins is kept. *)
Lemma rewritten_kept a s : forall prev out, rewritten a prev s out ->
  (forall before after, s = before ++ after -> first_match a (from_option Some prev (last before)) after = None) ->
  out = s.
Proof.
  induction s as [|r s IH]; intros prev out Hr Hno.
  - inversion Hr as [|? ? ? ? E|? m rest last' cap out' E Hm]; subst; [done|]. by destruct m.
  - pose proof (Hno [] (r :: s) eq_refl) as H0. cbn in H0. inversion Hr as [|? ? ? out' _ Hrest|? m rest last' cap out' E Hm Hrest Hs]; subst.
    + f_equal. apply (IH _ _ Hrest). intros before after ->. specialize (Hno (r :: before) after eq_refl).
      rewrite last_cons in Hno. by destruct (last before).
    + congruence.
Qed.

Section facts.
Context `{External}.

Lemma ReplaceAllString_rewrites a src : a ∈ stringRedactors ->
  exists out, rewritten a None (runes src) out /\ ReplaceAllString a src = text out.
Proof.
  intros Ha. pose proof (proj1 (Forall_forall _ _) redactors_consume a Ha) as Hc.
  eexists. split; [by apply replace_all_rewritten | done].
Qed.

(** No match of the expression begins anywhere in the text. *)
Definition unmatched (src : string) (a : regex) : Prop :=
  forall before after, runes src = before ++ after -> first_match a (last before) after = None.

Lemma ReplaceAllString_unmatched a src : a ∈ stringRedactors -> unmatched src a -> ReplaceAllString a src = src.
Proof.
  intros Ha Hno. destruct (ReplaceAllString_rewrites a src Ha) as (out & Hr & ->).
  rewrite (rewritten_kept _ _ _ _ Hr); [apply text_runes|]. intros before after E.
  specialize (Hno before after E). by destruct (last before).
Qed.

(** A text without a credential is returned as it is. *)
Lemma RedactString_unmatched value :
  Contains (ToLower value) "-----begin " = false -> Contains (ToLower value) "apiversion:" = false ->
  Forall (unmatched value) stringRedactors -> RedactString value = value.
Proof.
  intros Hp Hk Hno. unfold RedactString. rewrite Hp, Hk. cbn [andb].
  enough (Hl : forall l, (forall a, a ∈ l -> a ∈ stringRedactors) ->
    foldl (fun out redactor => ReplaceAllString redactor out) value l = value) by (by apply Hl).
  induction l as [|a l IH]; intros Hin; [done|]. cbn [foldl].
  rewrite ReplaceAllString_unmatched; [apply IH; intros b Hb; apply Hin; by right | apply Hin; by left|].
  rewrite Forall_forall in Hno. apply Hno, Hin. by left.
Qed.

(** *** JSON values *)

Inductive pointer := Key (k : string) | Index (i : nat).

Definition json_step (j : json) (p : pointer) : option json :=
  match p, j with
  | Key k, JObject fields => snd <$> List.find (fun q => q.1 == k) fields
  | Index i, JArray l => l !! i
  | _, _ => None
  end.

Fixpoint json_at (j : json) (path : list pointer) : option json :=
  match path with [] => Some j | p :: path => json_step j p ≫= fun v => json_at v path end.

Definition hides (p : pointer) : bool := match p with Key k => IsSensitiveKey k | Index _ => false end.

Lemma find_redacted fields k :
  List.find (fun q => q.1 == k) (map (fun p => match p with (key, item) =>
    (key, if IsSensitiveKey key then JString Marker else Value item) end) fields) =
  (fun p => (p.1, if IsSensitiveKey k then JString Marker else Value p.2)) <$> List.find (fun q => q.1 == k) fields.
Proof.
  induction fields as [|[key item] fields IH]; [done|]. cbn. destruct (key == k) eqn:E; [|exact IH].
  bool_props. by subst.
Qed.

Lemma json_step_Value j p :
  json_step (Value j) p = (fun v => if hides p then JString Marker else Value v) <$> json_step j p.
Proof.
  destruct p as [k|i], j; try done; cbn [Value json_step hides].
  - rewrite find_redacted. by destruct (List.find _ _).
  - by rewrite list_lookup_fmap.
Qed.

(** C23: redaction of a value is complete and does nothing else.  Along a path without
    a sensitive key the redacted value is the redaction of the original one, to
    any depth, with every string on it rewritten; under a sensitive key there is
    the marker and nothing below it. *)
Theorem Value_redacts j path :
  Forall (fun p => hides p = false) path ->
  json_at (Value j) path = Value <$> json_at j path /\
  forall key below, IsSensitiveKey key = true ->
    json_at (Value j) (path ++ Key key :: below) =
      match below with [] => (fun _ => JString Marker) <$> json_at j (path ++ [Key key]) | _ :: _ => None end.
Proof.
  intros Hp. revert j. induction Hp as [|p path Hp _ IH]; intros j.
  - split; [done|]. intros key below Hkey. cbn [app json_at]. rewrite json_step_Value. cbn [hides]. rewrite Hkey.
    destruct (json_step j (Key key)) as [v|]; [|by destruct below]. cbn. destruct below as [|[] below]; done.
  - cbn [app json_at]. rewrite json_step_Value, Hp. destruct (json_step j p) as [v|]; [|split; [done|by intros ? []]].
    cbn. apply IH.
Qed.
End facts.

Lemma Value_redacts_witness :
  json_at (@Value Concrete.external (JObject [("spec", JArray [JObject [("note", JString "password=hunter2");
      ("Client-Secret", JObject [("raw", JString "x")])]])])) [Key "spec"; Index 0; Key "note"] =
    Some (JString "password[redacted]") /\
  json_at (@Value Concrete.external (JObject [("spec", JArray [JObject [("note", JString "password=hunter2");
      ("Client-Secret", JObject [("raw", JString "x")])]])])) ([Key "spec"; Index 0] ++ Key "Client-Secret" :: [Key "raw"]) = None.
Proof.
  split.
  - rewrite (proj1 (@Value_redacts Concrete.external _ [Key "spec"; Index 0; Key "note"]
      ltac:(repeat constructor))). vm_compute. reflexivity.
  - exact (proj2 (@Value_redacts Concrete.external _ [Key "spec"; Index 0] ltac:(repeat constructor))
      "Client-Secret" [Key "raw"] eq_refl).
Defined.

(** The first expression takes the scheme of an authorization header for the
    credential: the credential itself stays, and the expression for bearer tokens
    no longer finds it. *)
Lemma authorization_header_kept :
  @RedactString Concrete.external "Authorization: Bearer abc123" = "Authorization: [redacted] abc123".
Proof. vm_compute. reflexivity. Qed.
End Redaction.
