(* ===== verification/DeliveryStore.v ===== *)
(** * The delivery tables (internal/db/queries/delivery.sql)

    The rows of the delivery tables, the statements that rollout control, the
    reconciler and the status ingester run on them, and the triggers of
    migration 00036 that count the changes of a rollout's runtime.  A statement
    is a function on the database; what PostgreSQL refuses is an error, and a
    statement that finds no row returns [None] or an empty list.

    Left out: checks that no statement here can violate, most size limits of
    columns, creation times, and the columns nobody reads. *)

From Stdlib Require Import ZArith Lia.
From S2P Require Import Prelude Enums State SafeConv GoSort GoStrings External Validation Model Types.
From S2P Require Import Overrides RolloutTypes Planner AsyncOp DeliveryProtocol.
From stdpp Require Import base gmap strings list.
Import SafeConv State Overrides Model RolloutTypes Planner AsyncOp.
Import DeliveryProtocol(DeliveryCondition, DeliveryObservation, DeliveryInventory, items_Entries, items_Ready, items_Failed, items_Resources).

Open Scope Z_scope.

Module DeliveryStore.

(** ** Rows *)

(** The counter columns of a rollout. *)
Record CounterColumns := {
  counter_Total : Z;
  counter_Ready : Z;
  counter_Failed : Z;
  counter_Blocked : Z;
  counter_Released : Z;
}.

(** A row of delivery_rollouts; [row_OnFailure] is [strategy->>'on_failure']. *)
Record RolloutRow := {
  row_ID : uuid;
  row_TargetID : uuid;
  row_TargetGeneration : Z;
  row_ToBundleVersionID : uuid;
  row_PlacementDigest : string;
  row_StrategyDigest : string;
  row_PlanDigest : string;
  row_RequestDigest : string;
  row_IdempotencyKey : string;
  row_FrozenPlan : string;
  row_OnFailure : string;
  row_State : string;
  row_FencingGeneration : Z;
  row_RuntimeGeneration : Z;
  row_LeaseOwner : string;
  row_LeaseExpiresAt : option time;
  row_LastDecisionDigest : string;
  row_Counters : CounterColumns;
  row_StartedAt : option time;
  row_CompletedAt : option time;
  row_LastErrorCode : string;
  row_UpdatedAt : time;
}.

(** A row of delivery_rollout_clusters. *)
Record ClusterRow := {
  cluster_RolloutID : uuid;
  cluster_ClusterID : uuid;
  cluster_ReleaseOrder : Z;
  cluster_State : string;
  cluster_AssignmentAction : string;
  cluster_Attempt : Z;
  cluster_Fence : Z;
  cluster_ReleasedAt : option time;
  cluster_AcknowledgedAt : option time;
  cluster_ReadyAt : option time;
  cluster_CompletedAt : option time;
  cluster_Deadline : option time;
  cluster_LastErrorCode : string;
  cluster_UpdatedAt : time;
}.

Record EventRow := {
  event_ID : uuid;
  event_RolloutID : uuid;
  event_ClusterID : option uuid;
  event_DecisionDigest : string;
  event_EventType : string;
  event_FromState : string;
  event_ToState : string;
  event_ReasonCode : string;
  event_Fence : Z;
  event_OccurredAt : time;
}.

Record ApprovalRow := {
  approval_ID : uuid;
  approval_RolloutID : uuid;
  approval_Cohort : Z;
  approval_BindingDigest : string;
  approval_Decision : string;
  approval_DecidedBy : option uuid;
  approval_DecidedAt : time;
  approval_ExpiresAt : time;
}.

(** A row of task_outbox: the rollout to reconcile, whether it was delivered and
    when to try next. *)
Record TaskRow := {
  task_Rollout : uuid;
  task_Delivered : bool;
  task_NextAttemptAt : time;
}.

(** The document in the inventory column of a deployment
    (status/deployment_observation.go), and the default of the column. *)
Record deploymentInventory := {
  stored_Inventory : DeliveryInventory;
  stored_Observation : option DeliveryObservation;
}.

Definition empty_inventory : deploymentInventory := {|
  stored_Inventory := {| items_Entries := 0; items_Ready := 0; items_Failed := 0; items_Resources := [] |};
  stored_Observation := None |}.

(** A row of cluster_deployments; target and cluster are its key. *)
Record DeploymentRow := {
  deployment_ID : uuid;
  deployment_CurrentRolloutID : option uuid;
  deployment_DesiredBundleVersionID : option uuid;
  deployment_PreviousBundleVersionID : option uuid;
  deployment_DesiredGeneration : Z;
  deployment_ObservedGeneration : Z;
  deployment_DesiredSpecDigest : string;
  deployment_ObservedSpecDigest : string;
  deployment_DesiredRevision : string;
  deployment_ObservedRevision : string;
  deployment_DesiredOverrides : string;
  deployment_PreviousOverrides : option string;
  deployment_DesiredRendererSpec : option string;
  deployment_DesiredConfigurationDigest : option string;
  deployment_Action : string;
  deployment_Phase : string;
  deployment_Conditions : list DeliveryCondition;
  deployment_SourceKind : string;
  deployment_SourceName : string;
  deployment_ReconcilerKind : string;
  deployment_ReconcilerName : string;
  deployment_Inventory : option deploymentInventory;
  deployment_AgentSessionID : string;
  deployment_AgentSequence : Z;
  deployment_LastErrorCode : string;
  deployment_LastMessage : string;
  deployment_LastObservedAt : option time;
}.

(** A row of cluster_deployment_events. *)
Record DeploymentEventRow := {
  devent_DeploymentID : uuid;
  devent_RolloutID : option uuid;
  devent_EventType : string;
  devent_FromPhase : string;
  devent_ToPhase : string;
  devent_Generation : Z;
  devent_SpecDigest : string;
  devent_ReasonCode : string;
  devent_Message : string;
  devent_ObservedAt : time;
}.

(** A row of agent_connections. *)
Record ConnectionRow := {
  connection_ClusterID : uuid;
  connection_SessionID : string;
  connection_Status : string;
  connection_DisconnectedAt : option time;
}.

(** ** Columns a statement sets

    Each update also runs the trigger that sets [updated_at]. *)

(** The row with new values of the columns a transition, a claim or a decision
    touches. *)
Definition set_live (row : RolloutRow) (state : string) (fence : Z) (owner : string)
    (expires : option time) (decision : string) (started completed : option time) (code : string)
    (now : time) : RolloutRow := {|
  row_ID := row_ID row; row_TargetID := row_TargetID row;
  row_TargetGeneration := row_TargetGeneration row;
  row_ToBundleVersionID := row_ToBundleVersionID row;
  row_PlacementDigest := row_PlacementDigest row; row_StrategyDigest := row_StrategyDigest row;
  row_PlanDigest := row_PlanDigest row; row_RequestDigest := row_RequestDigest row;
  row_IdempotencyKey := row_IdempotencyKey row; row_FrozenPlan := row_FrozenPlan row;
  row_OnFailure := row_OnFailure row;
  row_State := state; row_FencingGeneration := fence;
  row_RuntimeGeneration := row_RuntimeGeneration row;
  row_LeaseOwner := owner; row_LeaseExpiresAt := expires; row_LastDecisionDigest := decision;
  row_Counters := row_Counters row; row_StartedAt := started; row_CompletedAt := completed;
  row_LastErrorCode := code; row_UpdatedAt := now |}.

(** The row with another runtime generation and other counters. *)
Definition set_runtime (row : RolloutRow) (generation : Z) (counters : CounterColumns) (now : time) :
    RolloutRow := {|
  row_ID := row_ID row; row_TargetID := row_TargetID row;
  row_TargetGeneration := row_TargetGeneration row;
  row_ToBundleVersionID := row_ToBundleVersionID row;
  row_PlacementDigest := row_PlacementDigest row; row_StrategyDigest := row_StrategyDigest row;
  row_PlanDigest := row_PlanDigest row; row_RequestDigest := row_RequestDigest row;
  row_IdempotencyKey := row_IdempotencyKey row; row_FrozenPlan := row_FrozenPlan row;
  row_OnFailure := row_OnFailure row; row_State := row_State row;
  row_FencingGeneration := row_FencingGeneration row;
  row_RuntimeGeneration := generation;
  row_LeaseOwner := row_LeaseOwner row; row_LeaseExpiresAt := row_LeaseExpiresAt row;
  row_LastDecisionDigest := row_LastDecisionDigest row;
  row_Counters := counters; row_StartedAt := row_StartedAt row;
  row_CompletedAt := row_CompletedAt row; row_LastErrorCode := row_LastErrorCode row;
  row_UpdatedAt := now |}.

(** The row after a transition at database time [now]. *)
Definition transitioned (to reason : string) (now : time) (row : RolloutRow) : RolloutRow :=
  set_live row to (row_FencingGeneration row + 1) "" None (row_LastDecisionDigest row)
    (if to == "progressing" then Some (default now (row_StartedAt row)) else row_StartedAt row)
    (if contains ["aborted"; "rejected"; "rolled_back"] to then Some now else None) reason now.

(** The row after a claim. *)
Definition claimed_row (owner : string) (lease : duration) (now : time) (row : RolloutRow) : RolloutRow :=
  set_live row (row_State row) (row_FencingGeneration row + 1) owner (Some (now + lease))
    (row_LastDecisionDigest row) (row_StartedAt row) (row_CompletedAt row) (row_LastErrorCode row) now.

(** The row after a decision that moves the rollout. *)
Definition decided_row (to digest code : string) (now : time) (row : RolloutRow) : RolloutRow :=
  set_live row to (row_FencingGeneration row) "" None digest
    (if to == "progressing" then Some (default now (row_StartedAt row)) else row_StartedAt row)
    (if contains ["rejected"; "aborted"; "succeeded"; "failed"; "rolled_back"; "rollback_failed"] to
     then Some now else row_CompletedAt row) code now.

(** The row after a decision that leaves the rollout where it is. *)
Definition unleased_row (digest : string) (now : time) (row : RolloutRow) : RolloutRow :=
  set_live row (row_State row) (row_FencingGeneration row) "" None digest (row_StartedAt row)
    (row_CompletedAt row) (row_LastErrorCode row) now.

Definition set_cluster (c : ClusterRow) (state action : string) (attempt fence : Z)
    (released acknowledged ready completed deadline : option time) (code : string) (now : time) :
    ClusterRow := {|
  cluster_RolloutID := cluster_RolloutID c; cluster_ClusterID := cluster_ClusterID c;
  cluster_ReleaseOrder := cluster_ReleaseOrder c;
  cluster_State := state; cluster_AssignmentAction := action; cluster_Attempt := attempt;
  cluster_Fence := fence; cluster_ReleasedAt := released; cluster_AcknowledgedAt := acknowledged;
  cluster_ReadyAt := ready; cluster_CompletedAt := completed; cluster_Deadline := deadline;
  cluster_LastErrorCode := code; cluster_UpdatedAt := now |}.

Definition reset_cluster (now : time) (c : ClusterRow) : ClusterRow :=
  set_cluster c "pending" "apply" (cluster_Attempt c + 1) (cluster_Fence c + 1) None None None None
    (cluster_Deadline c) "" now.

Definition moved_cluster (to code : string) (now : time) (c : ClusterRow) : ClusterRow :=
  set_cluster c to (cluster_AssignmentAction c) (cluster_Attempt c) (cluster_Fence c + 1)
    (cluster_ReleasedAt c) (cluster_AcknowledgedAt c)
    (if contains ["ready"; "ready_previous"] to then Some (default now (cluster_ReadyAt c))
     else cluster_ReadyAt c)
    (if contains ["ready"; "failed"; "skipped"; "timed_out"; "ready_previous"] to then Some now
     else cluster_CompletedAt c)
    (cluster_Deadline c) code now.

Definition released_cluster (to action : string) (deadline : option time) (now : time) (c : ClusterRow) :
    ClusterRow :=
  set_cluster c to action (cluster_Attempt c + 1) (cluster_Fence c + 1)
    (Some (default now (cluster_ReleasedAt c))) (cluster_AcknowledgedAt c) (cluster_ReadyAt c)
    (cluster_CompletedAt c) deadline "" now.

(** ** Moves of a cluster row *)

(** The cluster row moved along an edge of the table under its next fence. *)
Definition edge (c c' : ClusterRow) : Prop :=
  RolloutClusterState_of (cluster_State c') ∈ rolloutClusterTransitions (RolloutClusterState_of (cluster_State c)) /\
  cluster_Fence c' = cluster_Fence c + 1 /\
  cluster_RolloutID c' = cluster_RolloutID c /\ cluster_ClusterID c' = cluster_ClusterID c.

(** An assignment to apply is never in a state of a rollback, nor the other way
    round. *)
Definition well_assigned (c : ClusterRow) : Prop :=
  (cluster_AssignmentAction c = "apply" -> cluster_State c ∉ ["rolling_back"; "ready_previous"]) /\
  (cluster_AssignmentAction c = "rollback" -> cluster_State c ∉ ["released"; "acknowledged"; "reconciling"; "ready"]).

(** ** The database *)

Section store.
Context {Outbox : Type}.

Record DB := {
  db_rollouts : gmap uuid RolloutRow;
  db_targets : gmap uuid uuid;
  db_clusters : gmap uuid ClusterRow;
  db_events : list EventRow;
  db_approvals : list ApprovalRow;
  db_tasks : gmap string TaskRow;
  db_audit : Outbox;
  db_keys : Keys;
  db_deployments : gmap (uuid * uuid) DeploymentRow;
  db_deploymentEvents : list DeploymentEventRow;
  db_connections : gmap uuid ConnectionRow;
  db_labels : gmap uuid string;
}.

Definition with_rollouts (db : DB) (rollouts : gmap uuid RolloutRow) : DB := {|
  db_rollouts := rollouts; db_targets := db_targets db; db_clusters := db_clusters db;
  db_events := db_events db; db_approvals := db_approvals db; db_tasks := db_tasks db;
  db_audit := db_audit db; db_keys := db_keys db; db_deployments := db_deployments db;
  db_deploymentEvents := db_deploymentEvents db; db_connections := db_connections db;
  db_labels := db_labels db |}.

Definition with_clusters (db : DB) (clusters : gmap uuid ClusterRow) : DB := {|
  db_rollouts := db_rollouts db; db_targets := db_targets db; db_clusters := clusters;
  db_events := db_events db; db_approvals := db_approvals db; db_tasks := db_tasks db;
  db_audit := db_audit db; db_keys := db_keys db; db_deployments := db_deployments db;
  db_deploymentEvents := db_deploymentEvents db; db_connections := db_connections db;
  db_labels := db_labels db |}.

Definition with_logs (db : DB) (events : list EventRow) (approvals : list ApprovalRow)
    (deploymentEvents : list DeploymentEventRow) : DB := {|
  db_rollouts := db_rollouts db; db_targets := db_targets db; db_clusters := db_clusters db;
  db_events := events; db_approvals := approvals; db_tasks := db_tasks db;
  db_audit := db_audit db; db_keys := db_keys db; db_deployments := db_deployments db;
  db_deploymentEvents := deploymentEvents; db_connections := db_connections db;
  db_labels := db_labels db |}.

Definition with_request (db : DB) (tasks : gmap string TaskRow) (audit : Outbox) (keys : Keys) : DB := {|
  db_rollouts := db_rollouts db; db_targets := db_targets db; db_clusters := db_clusters db;
  db_events := db_events db; db_approvals := db_approvals db; db_tasks := tasks;
  db_audit := audit; db_keys := keys; db_deployments := db_deployments db;
  db_deploymentEvents := db_deploymentEvents db; db_connections := db_connections db;
  db_labels := db_labels db |}.

Definition with_fleet (db : DB) (deployments : gmap (uuid * uuid) DeploymentRow)
    (connections : gmap uuid ConnectionRow) (labels : gmap uuid string) : DB := {|
  db_rollouts := db_rollouts db; db_targets := db_targets db; db_clusters := db_clusters db;
  db_events := db_events db; db_approvals := db_approvals db; db_tasks := db_tasks db;
  db_audit := db_audit db; db_keys := db_keys db; db_deployments := deployments;
  db_deploymentEvents := db_deploymentEvents db; db_connections := connections;
  db_labels := labels |}.

Definition with_keys (db : DB) (keys : Keys) : DB := with_request db (db_tasks db) (db_audit db) keys.
Definition with_audit (db : DB) (audit : Outbox) : DB := with_request db (db_tasks db) audit (db_keys db).
Definition with_deployments (db : DB) (deployments : gmap (uuid * uuid) DeploymentRow) : DB :=
  with_fleet db deployments (db_connections db) (db_labels db).

Definition out_of_range : error := EText "integer out of range".
Definition no_rows : error := EText "no rows in result set".

(** ** The triggers of migration 00036 *)

(** [SET runtime_generation = runtime_generation + 1 WHERE id = ...] *)
Definition bump (now : time) (rollouts : gmap uuid RolloutRow) (id : uuid) : res (gmap uuid RolloutRow) :=
  match rollouts !! id with
  | None => Ok rollouts
  | Some row =>
      fail_if (MaxInt64 <=? row_RuntimeGeneration row) out_of_range;;
      Ok (<[id := set_runtime row (row_RuntimeGeneration row + 1) (row_Counters row) now]> rollouts)
  end.

Definition bump_all (now : time) (ids : list uuid) (db : DB) : res DB :=
  rollouts ← res_foldl (bump now) (db_rollouts db) ids; Ok (with_rollouts db rollouts).

(** The rollouts a change of a deployment counts for: those it belongs to before
    and after, each once. *)
Definition deployment_rollouts (before after : option DeploymentRow) : list uuid :=
  let old := before ≫= deployment_CurrentRolloutID in
  let new := after ≫= deployment_CurrentRolloutID in
  let first := match new with Some _ => new | None => old end in
  let second := match old with Some _ => old | None => new end in
  match first, second with
  | Some a, Some b => if a == b then [a] else [a; b]
  | _, _ => []
  end.

(** The rollouts a change of a cluster's connections or labels counts for. *)
Definition watching_rollouts (cluster : uuid) (db : DB) : list uuid :=
  (List.filter (fun p => contains ["resolving"; "awaiting_approval"; "queued"; "progressing"; "rolling_back"]
                           (row_State p.2) &&
                         existsb (fun q => (cluster_RolloutID q.2 == p.1) && (cluster_ClusterID q.2 == cluster))
                           (map_to_list (db_clusters db)))
     (map_to_list (db_rollouts db))).*1.

(** An update of the cluster rows that satisfy [p]; the trigger runs once a row. *)
Definition cluster_fits (c : ClusterRow) : bool :=
  (cluster_Fence c <=? MaxInt64) && (cluster_Attempt c <=? MaxInt32).

Definition matching (p : uuid -> ClusterRow -> bool) (db : DB) : list (uuid * ClusterRow) :=
  List.filter (fun q => p q.1 q.2) (map_to_list (db_clusters db)).

Definition update_clusters (p : uuid -> ClusterRow -> bool) (f : ClusterRow -> ClusterRow) (now : time)
    (db : DB) : res DB :=
  fail_if (negb (forallb (fun q => cluster_fits (f q.2)) (matching p db))) out_of_range;;
  bump_all now (map (fun q => cluster_RolloutID q.2) (matching p db))
    (with_clusters db (map_imap (fun id c => Some (if p id c then f c else c)) (db_clusters db))).

(** An insert, update or delete of an agent connection. *)
Definition write_connection (now : time) (id : uuid) (row : option ConnectionRow) (db : DB) : res DB :=
  let affected := match row, db_connections db !! id with
                  | Some new, Some old => [connection_ClusterID new; connection_ClusterID old]
                  | Some c, None | None, Some c => [connection_ClusterID c]
                  | None, None => []
                  end in
  let db' := with_fleet db (db_deployments db) (partial_alter (fun _ => row) id (db_connections db))
               (db_labels db) in
  bump_all now (List.filter (fun r => existsb (fun c => contains (watching_rollouts c db') r) affected)
                  (map_to_list (db_rollouts db)).*1) db'.

(** An update of a cluster's labels. *)
Definition write_labels (now : time) (cluster : uuid) (labels : string) (db : DB) : res DB :=
  match db_labels db !! cluster with
  | None => Ok db
  | Some old =>
      let db' := with_fleet db (db_deployments db) (db_connections db)
                   (<[cluster := labels]> (db_labels db)) in
      if old == labels then Ok db' else bump_all now (watching_rollouts cluster db') db'
  end.

(** A write of one deployment row. *)
Definition write_deployment (now : time) (key : uuid * uuid) (row : DeploymentRow) (db : DB) : res DB :=
  bump_all now (deployment_rollouts (db_deployments db !! key) (Some row))
    (with_deployments db (<[key := row]> (db_deployments db))).

(** ** Statements on rollouts *)

Definition GetDeliveryRolloutForAction (db : DB) (id project : uuid) : res RolloutRow :=
  match db_rollouts db !! id with
  | Some row => if bool_decide (db_targets db !! row_TargetID row = Some project) then Ok row
                else Err no_rows
  | None => Err no_rows
  end.

(** [None] is [pgx.ErrNoRows]; a fence past the largest [bigint] is an error. *)
Definition TransitionDeliveryRolloutCAS (db : DB) (to reason : string) (id : uuid) (expectedFence : Z)
    (allowed : list string) (now : time) : res (option (RolloutRow * DB)) :=
  match db_rollouts db !! id with
  | Some row =>
      if (row_FencingGeneration row =? expectedFence) && contains allowed (row_State row) then
        fail_if (MaxInt64 <=? row_FencingGeneration row) out_of_range;;
        let row' := transitioned to reason now row in
        Ok (Some (row', with_rollouts db (<[id := row']> (db_rollouts db))))
      else Ok None
  | None => Ok None
  end.

(** The condition under which a rollout can be claimed. *)
Definition claimable (now : time) (row : RolloutRow) : bool :=
  (contains ["resolving"; "awaiting_approval"; "queued"; "progressing"; "rolling_back"] (row_State row) ||
   ((row_State row == "failed") && (row_OnFailure row == "rollback"))) &&
  match row_LeaseExpiresAt row with None => true | Some t => t <=? now end.

Definition ClaimDeliveryRollout (db : DB) (owner : string) (lease : duration) (id : uuid) (now : time) :
    res (option (RolloutRow * DB)) :=
  match db_rollouts db !! id with
  | Some row =>
      if claimable now row then
        fail_if (MaxInt64 <=? row_FencingGeneration row) out_of_range;;
        let row' := claimed_row owner lease now row in
        Ok (Some (row', with_rollouts db (<[id := row']> (db_rollouts db))))
      else Ok None
  | None => Ok None
  end.

(** The rollouts a sweep claims: the longest untouched first, without those that
    another transaction has locked. *)
Definition candidates (db : DB) (locked : uuid -> bool) (limit : Z) (now : time) : list (uuid * RolloutRow) :=
  take (Z.to_nat limit)
    (sort_slice (by_key (fun p => (row_UpdatedAt p.2, p.1)) (lex_lt Z.ltb uuid_lt))
       (List.filter (fun p => claimable now p.2 && negb (locked p.1)) (map_to_list (db_rollouts db)))).

Definition ClaimDeliveryRollouts (db : DB) (owner : string) (lease : duration) (limit : Z)
    (locked : uuid -> bool) (now : time) : res (list RolloutRow * DB) :=
  let rows := candidates db locked limit now in
  fail_if (existsb (fun p => MaxInt64 <=? row_FencingGeneration p.2) rows) out_of_range;;
  let claimed := map (fun p => (p.1, claimed_row owner lease now p.2)) rows in
  Ok (claimed.*2, with_rollouts db (list_to_map claimed ∪ db_rollouts db)).

(** The lease of the owner at a fence is live. *)
Definition leased (row : RolloutRow) (owner : string) (fence : Z) (now : time) : bool :=
  (row_LeaseOwner row == owner) && (row_FencingGeneration row =? fence) &&
  match row_LeaseExpiresAt row with None => false | Some t => now <? t end.

Definition GetClaimedDeliveryRolloutForUpdate (db : DB) (id : uuid) (owner : string)
    (fence generation : Z) (now : time) : res RolloutRow :=
  match db_rollouts db !! id with
  | Some row => if leased row owner fence now && (row_RuntimeGeneration row =? generation) then Ok row
                else Err no_rows
  | None => Err no_rows
  end.

Definition ApplyDeliveryRolloutTransitionCAS (db : DB) (to digest code : string) (id : uuid) (from : string)
    (owner : string) (fence : Z) (now : time) : res DB :=
  match db_rollouts db !! id with
  | Some row =>
      if (row_State row == from) && leased row owner fence now
      then Ok (with_rollouts db (<[id := decided_row to digest code now row]> (db_rollouts db)))
      else Err no_rows
  | None => Err no_rows
  end.

Definition ReleaseDeliveryRolloutLease (db : DB) (digest : string) (id : uuid) (owner : string) (fence : Z)
    (now : time) : res DB :=
  match db_rollouts db !! id with
  | Some row =>
      if (row_LeaseOwner row == owner) && (row_FencingGeneration row =? fence)
      then Ok (with_rollouts db (<[id := unleased_row digest now row]> (db_rollouts db)))
      else Err no_rows
  | None => Err no_rows
  end.

(** ** Statements on the clusters of a rollout *)

Definition retryable (rolloutID : uuid) (c : ClusterRow) : bool :=
  (cluster_RolloutID c == rolloutID) && contains ["failed"; "timed_out"; "blocked"] (cluster_State c).

Definition ResetRetryableDeliveryRolloutClusters (db : DB) (rolloutID : uuid) (now : time) : res (Z * DB) :=
  let p := fun (_ : uuid) c => retryable rolloutID c in
  db' ← update_clusters p (reset_cluster now) now db;
  Ok (len (matching p db), db').

(** The compare-and-swap both updates of a claimed cluster share: the row, its
    state and fence, and the lease of its rollout. *)
Definition cluster_cas (db : DB) (id : uuid) (from : string) (clusterFence : Z) (owner : string)
    (rolloutFence : Z) (now : time) (f : ClusterRow -> ClusterRow) : res (ClusterRow * DB) :=
  match db_clusters db !! id with
  | None => Err no_rows
  | Some c =>
      match db_rollouts db !! cluster_RolloutID c with
      | None => Err no_rows
      | Some row =>
          if (cluster_State c == from) && (cluster_Fence c =? clusterFence) &&
             leased row owner rolloutFence now
          then db' ← update_clusters (fun id' _ => id' == id) f now db; Ok (f c, db')
          else Err no_rows
      end
  end.

Definition ApplyDeliveryRolloutClusterTransitionCAS (db : DB) (to code : string) (id : uuid) (from : string)
    (clusterFence : Z) (owner : string) (rolloutFence : Z) (now : time) : res (ClusterRow * DB) :=
  cluster_cas db id from clusterFence owner rolloutFence now (moved_cluster to code now).

Definition ReleaseDeliveryRolloutClusterCAS (db : DB) (to action : string) (deadline : option time)
    (id : uuid) (from : string) (clusterFence : Z) (owner : string) (rolloutFence : Z) (now : time) :
    res (ClusterRow * DB) :=
  cluster_cas db id from clusterFence owner rolloutFence now (released_cluster to action deadline now).

(** The cluster rows of a rollout. *)
Definition rollout_clusters (db : DB) (id : uuid) : list (uuid * ClusterRow) :=
  List.filter (fun q => cluster_RolloutID q.2 == id) (map_to_list (db_clusters db)).

Definition count_states (p : string -> bool) (rows : list (uuid * ClusterRow)) : Z :=
  len (List.filter (fun q => p (cluster_State q.2)) rows).

Definition count_columns (rows : list (uuid * ClusterRow)) : CounterColumns := {|
  counter_Total := len rows;
  counter_Ready := count_states (contains ["ready"; "ready_previous"]) rows;
  counter_Failed := count_states (contains ["failed"; "timed_out"; "rollback_failed"]) rows;
  counter_Blocked := count_states (fun s => s == "blocked") rows;
  counter_Released := count_states (fun s => negb (contains ["pending"; "blocked"; "skipped"] s)) rows |}.

Definition RecomputeDeliveryRolloutCounters (db : DB) (id : uuid) (now : time) : res DB :=
  match rollout_clusters db id, db_rollouts db !! id with
  | [], _ | _, None => Err no_rows
  | rows, Some row =>
      Ok (with_rollouts db (<[id := set_runtime row (row_RuntimeGeneration row) (count_columns rows) now]>
                              (db_rollouts db)))
  end.

(** A row of the runtime of a rollout: the cluster row with its identifier, the
    labels of the cluster, the rollout's runtime generation, whether an agent is
    connected and the deployment of the target on the cluster. *)
Record RuntimeRow := {
  runtime_ID : uuid;
  runtime_Cluster : ClusterRow;
  runtime_Labels : string;
  runtime_Generation : Z;
  runtime_IsConnected : bool;
  runtime_Deployment : option DeploymentRow;
}.

Definition connected (db : DB) (cluster : uuid) : bool :=
  existsb (fun q => (connection_ClusterID q.2 == cluster) && (connection_Status q.2 == "connected") &&
                    bool_decide (connection_DisconnectedAt q.2 = None))
    (map_to_list (db_connections db)).

Definition runtime_row (db : DB) (row : RolloutRow) (q : uuid * ClusterRow) : list RuntimeRow :=
  match db_labels db !! cluster_ClusterID q.2 with
  | None => []
  | Some labels => [{|
      runtime_ID := q.1; runtime_Cluster := q.2; runtime_Labels := labels;
      runtime_Generation := row_RuntimeGeneration row;
      runtime_IsConnected := connected db (cluster_ClusterID q.2);
      runtime_Deployment := db_deployments db !! (row_TargetID row, cluster_ClusterID q.2) |}]
  end.

Definition ListDeliveryRolloutRuntime (db : DB) (id : uuid) (limit : Z) : list RuntimeRow :=
  match db_rollouts db !! id with
  | None => []
  | Some row =>
      take (Z.to_nat limit)
        (sort_slice (by_key (fun r => (cluster_ReleaseOrder (runtime_Cluster r),
                                       cluster_ClusterID (runtime_Cluster r))) (lex_lt Z.ltb uuid_lt))
           (flat_map (runtime_row db row) (rollout_clusters db id)))
  end.

(** ** Statements on approvals, events, tasks and deployments *)

Definition ListDeliveryRolloutApprovals (db : DB) (id : uuid) : list ApprovalRow :=
  sort_slice (by_key (fun a => (approval_Cohort a, (approval_DecidedAt a, approval_ID a)))
                (lex_lt Z.ltb (lex_lt Z.ltb uuid_lt)))
    (List.filter (fun a => approval_RolloutID a == id) (db_approvals db)).

Definition CreateDeliveryRolloutEvent (db : DB) (event : EventRow) : DB :=
  with_logs db (db_events db ++ [event]) (db_approvals db) (db_deploymentEvents db).

Definition CreateDeliveryRolloutApproval (db : DB) (approval : ApprovalRow) : res DB :=
  fail_if (approval_ExpiresAt approval <=? approval_DecidedAt approval)
    (EText "violates check constraint delivery_rollout_approval_expiry_valid");;
  Ok (with_logs db (db_events db) (db_approvals db ++ [approval]) (db_deploymentEvents db)).

Definition CreateClusterDeploymentEvent (db : DB) (event : DeploymentEventRow) : DB :=
  with_logs db (db_events db) (db_approvals db) (db_deploymentEvents db ++ [event]).

(** [UpsertTaskOutbox] on the columns kept: a delivered row stays delivered. *)
Definition UpsertTaskOutbox (db : DB) (dedupe : string) (rolloutID : uuid) (next : time) : DB :=
  let delivered := match db_tasks db !! dedupe with Some t => task_Delivered t | None => false end in
  let attempt := match db_tasks db !! dedupe with
                 | Some t => if task_Delivered t then task_NextAttemptAt t else next
                 | None => next
                 end in
  with_request db
    (<[dedupe := {| task_Rollout := rolloutID; task_Delivered := delivered;
                    task_NextAttemptAt := attempt |}]> (db_tasks db))
    (db_audit db) (db_keys db).

(** What a release writes into a deployment. *)
Record Desired := {
  desired_RolloutID : uuid;
  desired_BundleVersionID : uuid;
  desired_PreviousBundleVersionID : option uuid;
  desired_Generation : Z;
  desired_SpecDigest : string;
  desired_Overrides : string;
  desired_Revision : string;
  desired_RendererSpec : option string;
  desired_ConfigurationDigest : option string;
  desired_Action : string;
  desired_Phase : string;
}.

(** The row [UpsertClusterDeploymentDesired] inserts or leaves behind. *)
Definition upserted (id : uuid) (d : Desired) (current : option DeploymentRow) : DeploymentRow := {|
  deployment_ID := from_option deployment_ID id current;
  deployment_CurrentRolloutID := Some (desired_RolloutID d);
  deployment_DesiredBundleVersionID := Some (desired_BundleVersionID d);
  deployment_PreviousBundleVersionID :=
    from_option deployment_DesiredBundleVersionID (desired_PreviousBundleVersionID d) current;
  deployment_DesiredGeneration := desired_Generation d;
  deployment_ObservedGeneration := from_option deployment_ObservedGeneration 0 current;
  deployment_DesiredSpecDigest := desired_SpecDigest d;
  deployment_ObservedSpecDigest := from_option deployment_ObservedSpecDigest "" current;
  deployment_DesiredRevision := desired_Revision d;
  deployment_ObservedRevision := from_option deployment_ObservedRevision "" current;
  deployment_DesiredOverrides := desired_Overrides d;
  deployment_PreviousOverrides := deployment_DesiredOverrides <$> current;
  deployment_DesiredRendererSpec := desired_RendererSpec d;
  deployment_DesiredConfigurationDigest := desired_ConfigurationDigest d;
  deployment_Action := desired_Action d; deployment_Phase := desired_Phase d;
  deployment_Conditions := from_option deployment_Conditions [] current;
  deployment_SourceKind := from_option deployment_SourceKind "" current;
  deployment_SourceName := from_option deployment_SourceName "" current;
  deployment_ReconcilerKind := from_option deployment_ReconcilerKind "" current;
  deployment_ReconcilerName := from_option deployment_ReconcilerName "" current;
  deployment_Inventory := from_option deployment_Inventory (Some empty_inventory) current;
  deployment_AgentSessionID := from_option deployment_AgentSessionID "" current;
  deployment_AgentSequence := from_option deployment_AgentSequence 0 current;
  deployment_LastErrorCode := ""; deployment_LastMessage := "";
  deployment_LastObservedAt := current ≫= deployment_LastObservedAt |}.

(** An older or equal generation updates nothing and returns no row. *)
Definition UpsertClusterDeploymentDesired (db : DB) (target cluster : uuid) (d : Desired) (fresh : uuid)
    (now : time) : res (DeploymentRow * DB) :=
  let current := db_deployments db !! (target, cluster) in
  fail_if (match current with
           | Some row => desired_Generation d <=? deployment_DesiredGeneration row
           | None => false
           end) no_rows;;
  let row := upserted fresh d current in
  db' ← write_deployment now (target, cluster) row db;
  Ok (row, db').

(** ** What every writer keeps

    Receipts and rollouts stay, the frozen columns of a rollout never change, its
    fence and its runtime generation do not go down, and while the runtime
    generation is the same so are the cluster rows of the rollout. *)

Definition frozen_columns (row : RolloutRow) :=
  (row_ID row, row_TargetID row, row_TargetGeneration row, row_ToBundleVersionID row,
   (row_PlacementDigest row, row_StrategyDigest row, row_PlanDigest row, row_RequestDigest row),
   row_IdempotencyKey row, row_FrozenPlan row, row_OnFailure row).

Definition same_clusters (id : uuid) (db db' : DB) : Prop :=
  forall cid c, cluster_RolloutID c = id -> db_clusters db !! cid = Some c <-> db_clusters db' !! cid = Some c.

Record evolves (id : uuid) (db db' : DB) (row row' : RolloutRow) : Prop := {
  evolves_frozen : frozen_columns row' = frozen_columns row;
  evolves_fence : row_FencingGeneration row <= row_FencingGeneration row';
  evolves_generation : row_RuntimeGeneration row <= row_RuntimeGeneration row';
  evolves_clusters : row_RuntimeGeneration row = row_RuntimeGeneration row' -> same_clusters id db db';
}.

Record keeps (db db' : DB) : Prop := {
  keeps_keys : keeps_receipts (db_keys db) (db_keys db');
  keeps_rollouts : forall id row, db_rollouts db !! id = Some row ->
    exists row', db_rollouts db' !! id = Some row' /\ evolves id db db' row row';
}.

#[export] Instance keeps_preorder : PreOrder keeps.
Proof.
  split.
  - intros db. split; [apply keeps_receipts_refl|]. intros id row Hr. exists row. split; [done|]. by split.
  - intros db1 db2 db3 [K1 F1] [K2 F2]. split; [by eapply keeps_receipts_trans|].
    intros id row (row2 & (row3 & H3 & E3)%F2 & E2)%F1. exists row3. split; [done|].
    destruct E2 as [A2 B2 C2 D2], E3 as [A3 B3 C3 D3]. split; [congruence | lia | lia |].
    intros Heq cid c Hc. rewrite (D2 ltac:(lia) cid c Hc). exact (D3 ltac:(lia) cid c Hc).
Qed.

(** The clusters, receipts and rollouts are as before. *)
Lemma keeps_same db db' :
  db_rollouts db' = db_rollouts db -> db_clusters db' = db_clusters db -> db_keys db' = db_keys db ->
  keeps db db'.
Proof.
  intros Hr Hc Hk. split; [rewrite Hk; apply keeps_receipts_refl|].
  intros id row Hrow. exists row. rewrite Hr. split; [done|]. split; try done. intros _ cid c _. by rewrite Hc.
Qed.

(** One rollout row is rewritten: same frozen columns and generation, no lower
    fence. *)
Lemma keeps_row db id row row' :
  db_rollouts db !! id = Some row -> frozen_columns row' = frozen_columns row ->
  row_FencingGeneration row <= row_FencingGeneration row' ->
  row_RuntimeGeneration row' = row_RuntimeGeneration row ->
  keeps db (with_rollouts db (<[id := row']> (db_rollouts db))).
Proof.
  intros Hrow Hf Hl Hg. split; [apply keeps_receipts_refl|]. intros id' r Hr. cbn.
  destruct (decide (id = id')) as [<-|Hne].
  - rewrite lookup_insert_eq. exists row'. split; [done|]. rewrite Hrow in Hr. injection Hr as <-.
    split; [done | done | lia | done].
  - rewrite lookup_insert_ne by done. exists r. split; [done|]. by split.
Qed.

(** Only rollouts, clusters and receipts matter. *)
Lemma keeps_transport db db1 db1' db' :
  keeps db1 db1' -> db_rollouts db1 = db_rollouts db -> db_clusters db1 = db_clusters db ->
  db_rollouts db' = db_rollouts db1' -> db_clusters db' = db_clusters db1' ->
  keeps_receipts (db_keys db) (db_keys db') -> keeps db db'.
Proof.
  intros [_ Hk] R1 C1 R2 C2 Hr. split; [done|]. intros id row Hrow. rewrite <- R1 in Hrow.
  destruct (Hk _ _ Hrow) as (row' & Hrow' & [A B C D]). exists row'. rewrite R2. split; [done|].
  split; try done. intros Heq cid c. rewrite <- C1, C2. exact (D Heq cid c).
Qed.

(** *** Bumps *)

Definition times (id : uuid) (ids : list uuid) : Z := len (List.filter (fun x => x == id) ids).

Definition bumped (now : time) (n : Z) (row : RolloutRow) : RolloutRow :=
  if n =? 0 then row else set_runtime row (row_RuntimeGeneration row + n) (row_Counters row) now.

Lemma times_cons id x ids : times id (x :: ids) = (if x == id then 1 else 0) + times id ids.
Proof. unfold times, len. cbn. destruct (x == id); cbn [length]; lia. Qed.

Lemma times_nonneg id ids : 0 <= times id ids.
Proof. unfold times, len. lia. Qed.

Lemma times_pos id ids : id ∈ ids -> 0 < times id ids.
Proof.
  induction 1 as [x ids|x y ids _ IH]; rewrite times_cons; [|destruct (y == _)];
    pose proof (times_nonneg x ids); rewrite ?bool_decide_true by done; lia.
Qed.

Lemma bumped_bumped now n m row : 0 <= n -> 0 <= m -> bumped now n (bumped now m row) = bumped now (m + n) row.
Proof.
  intros Hn Hm. unfold bumped. destruct (m =? 0) eqn:Em; bool_props; [by subst m; rewrite Z.add_0_l|].
  destruct (n =? 0) eqn:En; bool_props; [by subst n; rewrite Z.add_0_r, (proj2 (Z.eqb_neq m 0) Em)|].
  rewrite (proj2 (Z.eqb_neq (m + n) 0)) by lia. unfold set_runtime. cbn. by rewrite Z.add_assoc.
Qed.

Lemma bump_Ok now rollouts id rollouts' :
  bump now rollouts id = Ok rollouts' ->
  forall id', rollouts' !! id' = bumped now (if id == id' then 1 else 0) <$> rollouts !! id'.
Proof.
  unfold bump. intros E id'. destruct (rollouts !! id) as [row|] eqn:Hrow; res_inv.
  - case_bool_decide as Hid.
    + subst id'. rewrite lookup_insert_eq, Hrow. done.
    + rewrite lookup_insert_ne by done. by destruct (rollouts !! id').
  - case_bool_decide as Hid; [subst id'; by rewrite Hrow | by destruct (rollouts' !! id')].
Qed.

Lemma bump_all_Ok now ids db db' :
  bump_all now ids db = Ok db' ->
  db' = with_rollouts db (db_rollouts db') /\
  forall id, db_rollouts db' !! id = bumped now (times id ids) <$> db_rollouts db !! id.
Proof.
  unfold bump_all. intros E. apply res_bind_Ok in E as (rollouts & E & [= <-]). split; [done|]. cbn.
  revert E. generalize (db_rollouts db) as start. induction ids as [|x ids IH]; intros start; cbn.
  - intros [= <-] id. by destruct (start !! id).
  - intros E. apply res_bind_Ok in E as (next & Hx & E). intros id.
    rewrite (IH _ E id), (bump_Ok _ _ _ _ Hx id), times_cons, <- option_fmap_compose.
    destruct (start !! id); [|done]. cbn. f_equal. pose proof (times_nonneg id ids).
    rewrite bumped_bumped by (try case_bool_decide; lia). done.
Qed.

Lemma bumped_columns now n row :
  0 <= n -> frozen_columns (bumped now n row) = frozen_columns row /\
  row_FencingGeneration (bumped now n row) = row_FencingGeneration row /\
  row_RuntimeGeneration (bumped now n row) = row_RuntimeGeneration row + n /\
  row_State (bumped now n row) = row_State row /\ row_LeaseOwner (bumped now n row) = row_LeaseOwner row /\
  row_LeaseExpiresAt (bumped now n row) = row_LeaseExpiresAt row.
Proof.
  intros Hn. unfold bumped. destruct (n =? 0) eqn:E; bool_props; [subst; rewrite Z.add_0_r|]; done.
Qed.

(** Bumping keeps everything, whatever the cluster rows of the bumped rollouts
    were. *)
Lemma bump_all_keeps now ids db db1 db' :
  db_rollouts db1 = db_rollouts db -> db_keys db1 = db_keys db ->
  (forall id, id ∉ ids -> same_clusters id db db1) ->
  bump_all now ids db1 = Ok db' -> keeps db db'.
Proof.
  intros Hr Hk Hsame E. apply bump_all_Ok in E as [Hdb Hrows].
  split; [rewrite Hdb; cbn; rewrite Hk; apply keeps_receipts_refl|].
  intros id row Hrow. rewrite Hrows, Hr, Hrow. cbn. eexists. split; [reflexivity|].
  pose proof (times_nonneg id ids) as Hn. destruct (bumped_columns now _ row Hn) as (A & B & C & _).
  split; [done | lia | lia |]. intros Heq cid c Hc. rewrite Hdb. cbn.
  refine (Hsame id _ cid c Hc). intros Hin. apply times_pos in Hin. lia.
Qed.

Lemma matching_elem p db cid c :
  (cid, c) ∈ matching p db <-> db_clusters db !! cid = Some c /\ p cid c = true.
Proof.
  unfold matching. rewrite list_elem_of_In, List.filter_In, <- list_elem_of_In, elem_of_map_to_list. done.
Qed.

Lemma update_clusters_Ok p f now db db' :
  update_clusters p f now db = Ok db' ->
  db' = with_rollouts (with_clusters db (db_clusters db')) (db_rollouts db') /\
  (forall cid, db_clusters db' !! cid = (fun c => if p cid c then f c else c) <$> db_clusters db !! cid) /\
  (forall id, db_rollouts db' !! id =
     bumped now (times id (map (fun q => cluster_RolloutID q.2) (matching p db))) <$> db_rollouts db !! id).
Proof.
  unfold update_clusters. intros E. apply res_bind_Ok in E as (u & _ & E).
  apply bump_all_Ok in E as [Hdb Hrows]. rewrite Hdb. cbn. split_and!; [done| |done].
  intros cid. rewrite map_lookup_imap. by destruct (db_clusters db !! cid).
Qed.

Lemma update_clusters_keeps p f now db db' :
  (forall c, cluster_RolloutID (f c) = cluster_RolloutID c) ->
  update_clusters p f now db = Ok db' -> keeps db db'.
Proof.
  intros Hf E. unfold update_clusters in E. apply res_bind_Ok in E as (u & _ & E).
  eapply bump_all_keeps; [..|exact E]; [done | done|]. intros id Hid cid c Hc. cbn.
  rewrite map_lookup_imap. assert (Hno : forall c', db_clusters db !! cid = Some c' ->
    cluster_RolloutID c' = id -> p cid c' = false).
  { intros c' Hc' Hid'. apply not_true_iff_false. intros Hp. apply Hid, list_elem_of_fmap.
    exists (cid, c'). split; [done | by apply matching_elem]. }
  split.
  - intros Hl. rewrite Hl. cbn. by rewrite (Hno c).
  - destruct (db_clusters db !! cid) as [c'|] eqn:Hl; [|done]. cbn. destruct (p cid c') eqn:Hp; [|done].
    intros [= <-]. rewrite Hf in Hc. by rewrite (Hno c') in Hp.
Qed.

Lemma write_connection_keeps now id row db db' : write_connection now id row db = Ok db' -> keeps db db'.
Proof. unfold write_connection. apply bump_all_keeps; done. Qed.

Lemma write_labels_keeps now cluster labels db db' : write_labels now cluster labels db = Ok db' -> keeps db db'.
Proof.
  unfold write_labels. destruct (db_labels db !! cluster) as [old|]; [|by intros [= ->]].
  destruct (old == labels); [intros [= <-]; by apply keeps_same | by apply bump_all_keeps].
Qed.

Lemma write_deployment_keeps now key row db db' : write_deployment now key row db = Ok db' -> keeps db db'.
Proof. unfold write_deployment. apply bump_all_keeps; done. Qed.

Lemma GetDeliveryRolloutForAction_Ok db id project row :
  GetDeliveryRolloutForAction db id project = Ok row <->
  db_rollouts db !! id = Some row /\ db_targets db !! row_TargetID row = Some project.
Proof.
  unfold GetDeliveryRolloutForAction. destruct (db_rollouts db !! id) as [r|]; [|naive_solver].
  case_bool_decide; naive_solver.
Qed.

Lemma TransitionDeliveryRolloutCAS_Some db to reason id fence allowed now row' db' :
  TransitionDeliveryRolloutCAS db to reason id fence allowed now = Ok (Some (row', db')) ->
  exists row, db_rollouts db !! id = Some row /\ row_FencingGeneration row = fence /\
    row_State row ∈ allowed /\ fence < MaxInt64 /\ row' = transitioned to reason now row /\
    db' = with_rollouts db (<[id := row']> (db_rollouts db)).
Proof.
  unfold TransitionDeliveryRolloutCAS. intros E. destruct (db_rollouts db !! id) as [row|]; [|done].
  destruct ((row_FencingGeneration row =? fence) && contains allowed (row_State row)) eqn:Ec; [|done].
  res_inv. simplify_eq. bool_props. exists row. rewrite contains_elem_of in *. split_and!; try done. lia.
Qed.

Lemma TransitionDeliveryRolloutCAS_fits db to reason id fence allowed now row :
  db_rollouts db !! id = Some row -> row_FencingGeneration row = fence -> row_State row ∈ allowed ->
  fence < MaxInt64 ->
  TransitionDeliveryRolloutCAS db to reason id fence allowed now =
    Ok (Some (transitioned to reason now row,
              with_rollouts db (<[id := transitioned to reason now row]> (db_rollouts db)))).
Proof.
  intros Hrow Hf Hs Hb. unfold TransitionDeliveryRolloutCAS. rewrite Hrow, Hf, Z.eqb_refl.
  rewrite (proj2 (contains_elem_of _ _) Hs), (proj2 (Z.leb_gt _ _) Hb). done.
Qed.

Lemma TransitionDeliveryRolloutCAS_keeps db to reason id fence allowed now row' db' :
  TransitionDeliveryRolloutCAS db to reason id fence allowed now = Ok (Some (row', db')) -> keeps db db'.
Proof.
  intros (row & Hrow & _ & _ & _ & -> & ->)%TransitionDeliveryRolloutCAS_Some.
  eapply keeps_row; try done. cbn. lia.
Qed.

Lemma ClaimDeliveryRollout_Some db owner lease id now row' db' :
  ClaimDeliveryRollout db owner lease id now = Ok (Some (row', db')) ->
  exists row, db_rollouts db !! id = Some row /\ claimable now row = true /\
    row_FencingGeneration row < MaxInt64 /\ row' = claimed_row owner lease now row /\
    db' = with_rollouts db (<[id := row']> (db_rollouts db)).
Proof.
  unfold ClaimDeliveryRollout. intros E. destruct (db_rollouts db !! id) as [row|]; [|done].
  destruct (claimable now row) eqn:Ec; [|done]. res_inv. simplify_eq. bool_props. by exists row.
Qed.

Lemma ClaimDeliveryRollout_keeps db owner lease id now row' db' :
  ClaimDeliveryRollout db owner lease id now = Ok (Some (row', db')) -> keeps db db'.
Proof.
  intros (row & Hrow & _ & _ & -> & ->)%ClaimDeliveryRollout_Some. eapply keeps_row; try done. cbn. lia.
Qed.

(** A successful compare-and-swap of a cluster row: it moves that row only. *)
Lemma cluster_cas_Ok db id from clusterFence owner rolloutFence now f c' db' :
  cluster_cas db id from clusterFence owner rolloutFence now f = Ok (c', db') ->
  exists c row, db_clusters db !! id = Some c /\ db_rollouts db !! cluster_RolloutID c = Some row /\
    cluster_State c = from /\ cluster_Fence c = clusterFence /\
    leased row owner rolloutFence now = true /\ c' = f c /\
    update_clusters (fun id' _ => id' == id) f now db = Ok db'.
Proof.
  unfold cluster_cas. intros E. destruct (db_clusters db !! id) as [c|]; [|done].
  destruct (db_rollouts db !! cluster_RolloutID c) as [row|] eqn:Hrow; [|done].
  destruct (_ && _ && _) eqn:Ec; [|done]. bool_props. apply res_bind_Ok in E as (d & E & [= <- <-]).
  by exists c, row.
Qed.

#[local] Instance filter_perm {A} (f : A -> bool) : Proper ((≡ₚ) ==> (≡ₚ)) (List.filter f).
Proof.
  intros l k Hp. induction Hp as [|x l k _ IH|x y l|]; cbn; [done| | |by etrans].
  - destruct (f x); by rewrite IH.
  - destruct (f x), (f y); try done. constructor.
Qed.

Lemma matching_one db id c :
  db_clusters db !! id = Some c -> matching (fun id' _ => id' == id) db = [(id, c)].
Proof.
  intros Hc. apply Permutation_singleton_r. unfold matching.
  rewrite <- (insert_delete_id _ _ _ Hc), map_to_list_insert by apply lookup_delete_eq. cbn.
  rewrite bool_decide_true by done. destruct (List.filter _ (map_to_list (delete id _))) as [|[id' c'] l] eqn:El; [done|exfalso].
  assert (Hin : List.In (id', c') ((id', c') :: l)) by (by left).
  rewrite <- El, List.filter_In, <- list_elem_of_In, elem_of_map_to_list in Hin. destruct Hin as [Hin Hid].
  cbn in Hid. bool_props. subst id'. by rewrite lookup_delete_eq in Hin.
Qed.

(** An update of one row. *)
Lemma update_one_Ok f now db db' id c :
  db_clusters db !! id = Some c -> update_clusters (fun id' _ => id' == id) f now db = Ok db' ->
  db' = with_rollouts (with_clusters db (<[id := f c]> (db_clusters db))) (db_rollouts db') /\
  forall r, db_rollouts db' !! r =
    bumped now (if cluster_RolloutID c == r then 1 else 0) <$> db_rollouts db !! r.
Proof.
  intros Hc E. apply update_clusters_Ok in E as (Hdb & Hcl & Hr). rewrite (matching_one _ _ _ Hc) in Hr. split.
  - rewrite Hdb. cbn. f_equal. f_equal. apply map_eq. intros cid. rewrite Hcl.
    destruct (decide (id = cid)) as [<-|Hne].
    + rewrite lookup_insert_eq, Hc. cbn. by rewrite bool_decide_true.
    + rewrite lookup_insert_ne by done. destruct (db_clusters db !! cid); [|done]. cbn.
      by rewrite bool_decide_false.
  - intros r. rewrite Hr. cbn [map]. rewrite times_cons. by destruct (_ == r).
Qed.

Lemma insert_of_alter {V} (m : gmap uuid V) f k v : <[k := v]> (alter f k m) = <[k := v]> m.
Proof.
  apply map_eq. intros j. destruct (decide (k = j)) as [<-|]; [by rewrite !lookup_insert_eq|].
  by rewrite !lookup_insert_ne, lookup_alter_ne.
Qed.

Lemma times_const r id ids : Forall (fun x => x = r) ids -> times id ids = if r == id then len ids else 0.
Proof.
  induction 1 as [|x ids -> _ IH]; [by destruct (r == id)|]. rewrite times_cons, IH. unfold len. cbn [length].
  destruct (r == id); lia.
Qed.

(** The rows a retry resets, and what it leaves behind. *)
Definition retried (rolloutID : uuid) (db : DB) : list (uuid * ClusterRow) :=
  matching (fun _ c => retryable rolloutID c) db.

Lemma retried_times rolloutID db id :
  times id (map (fun q => cluster_RolloutID q.2) (retried rolloutID db)) =
  if rolloutID == id then len (retried rolloutID db) else 0.
Proof.
  rewrite (times_const rolloutID); [by unfold len; rewrite length_map|].
  apply Forall_forall. intros x ([cid c] & -> & [_ Hr]%matching_elem)%list_elem_of_fmap.
  unfold retryable in Hr. by bool_props.
Qed.

Lemma ResetRetryable_Ok db id now n db' :
  ResetRetryableDeliveryRolloutClusters db id now = Ok (n, db') ->
  n = len (retried id db) /\ keeps db db' /\
  db' = with_rollouts
    (with_clusters db ((fun c => if retryable id c then reset_cluster now c else c) <$> db_clusters db))
    (alter (bumped now n) id (db_rollouts db)).
Proof.
  unfold ResetRetryableDeliveryRolloutClusters. intros E. apply res_bind_Ok in E as (d & E & [= <- ->]).
  split; [done|]. split; [by eapply update_clusters_keeps; [|exact E]|]. apply update_clusters_Ok in E as (Hdb & Hcl & Hr).
  rewrite Hdb. f_equal; [f_equal|]; apply map_eq; intros k.
  - rewrite Hcl, lookup_fmap. by destruct (db_clusters db !! k).
  - rewrite Hr. fold (retried id db). rewrite retried_times. case_bool_decide as Hk.
    + subst k. by rewrite lookup_alter_eq.
    + rewrite lookup_alter_ne by done. by destruct (db_rollouts db !! k).
Qed.

Lemma bump_all_fits now ids db :
  (forall id row, db_rollouts db !! id = Some row -> row_RuntimeGeneration row + times id ids <= MaxInt64) ->
  exists db', bump_all now ids db = Ok db'.
Proof.
  unfold bump_all. intros Hfits. enough (exists r, res_foldl (bump now) (db_rollouts db) ids = Ok r) as [r ->];
    [by eexists|]. revert Hfits. generalize (db_rollouts db) as start.
  induction ids as [|x ids IH]; intros start Hfits; cbn; [by eexists|].
  enough (exists next, bump now start x = Ok next) as [next Hn].
  { rewrite Hn. cbn. apply IH. intros id row. rewrite (bump_Ok _ _ _ _ Hn id).
    destruct (start !! id) as [r|] eqn:Hr; [|done]. cbn. intros [= <-]. specialize (Hfits id r Hr).
    rewrite times_cons in Hfits. destruct (bumped_columns now (if x == id then 1 else 0) r) as (_ & _ & -> & _);
      [destruct (x == id)|]; lia. }
  unfold bump. destruct (start !! x) as [row|] eqn:Hx; [|by eexists]. specialize (Hfits x row Hx).
  rewrite times_cons, bool_decide_true in Hfits by done. pose proof (times_nonneg x ids).
  rewrite (proj2 (Z.leb_gt _ _)) by lia. by eexists.
Qed.

(** When a retry can reset its rows: their fences and attempts, and the runtime
    generation, stay in range. *)
Lemma ResetRetryable_fits db id now :
  (forall q, q ∈ retried id db -> cluster_fits (reset_cluster now q.2) = true) ->
  (forall row, db_rollouts db !! id = Some row ->
     row_RuntimeGeneration row + len (retried id db) <= MaxInt64) ->
  (forall k row, db_rollouts db !! k = Some row -> row_RuntimeGeneration row <= MaxInt64) ->
  exists db', ResetRetryableDeliveryRolloutClusters db id now = Ok (len (retried id db), db').
Proof.
  intros Hc Hr Hall. unfold ResetRetryableDeliveryRolloutClusters, update_clusters. fold (retried id db).
  replace (forallb _ (retried id db)) with true.
  - cbn. edestruct (bump_all_fits now) as [db' ->]; [|by eexists]. cbn. intros k row Hk.
    rewrite retried_times. case_bool_decide as Hid; [subst k; by apply Hr | specialize (Hall _ _ Hk); lia].
  - symmetry. apply List.forallb_forall. intros q Hq. by apply Hc, list_elem_of_In.
Qed.
End store.
Arguments DB : clear implicits.

(** ** Stored plans (json_reader.go, postgres_store.go) *)

Section plans.
Context `{External}.
(** encoding/json of a stored plan without unknown fields or trailing data *)
Context (decodeStrict : string -> option FrozenRollout).

Definition MaxDocumentBytes : Z := 16 * 1024 * 1024.

Definition ReadFrozenRolloutV1 (raw : string) : res FrozenRollout :=
  fail_if (MaxDocumentBytes <? slen raw)
    (fail CodeInvariant "frozen_plan" "stored plan exceeds the durable bound");;
  match decodeStrict raw with
  | None => Err (fail CodeInvariant "frozen_plan" "stored plan is invalid")
  | Some plan =>
      wrap_err (ERollout CodeInvariant "frozen_plan") (FrozenRollout_Validate plan);;
      Ok plan
  end.

Definition decodeFrozenPlan (row : RolloutRow) : res FrozenRollout :=
  plan ← ReadFrozenRolloutV1 (row_FrozenPlan row);
  fail_if (negb (plan_ID plan == row_ID row) || negb (plan_TargetID plan == row_TargetID row) ||
           negb (SafeConv.Int64 (Z.of_N (plan_TargetGeneration plan)) =? row_TargetGeneration row) ||
           negb (version_BundleVersionID (plan_Desired plan) == row_ToBundleVersionID row) ||
           negb (plan_PlacementDigest plan == row_PlacementDigest row) ||
           negb (plan_StrategyDigest plan == row_StrategyDigest row) ||
           negb (plan_PlanDigest plan == row_PlanDigest row) ||
           negb (plan_RequestDigest plan == row_RequestDigest row) ||
           negb (plan_IdempotencyKey plan == row_IdempotencyKey row))
    (fail CodeInvariant "frozen_plan" "does not match indexed rollout identity");;
  Ok plan.

(** Reading a plan back depends on the frozen columns only. *)
Lemma decodeFrozenPlan_frozen row row' :
  frozen_columns row' = frozen_columns row -> decodeFrozenPlan row' = decodeFrozenPlan row.
Proof.
  unfold frozen_columns, decodeFrozenPlan. intros E. injection E as -> -> -> -> -> -> -> -> -> -> _. done.
Qed.
End plans.
End DeliveryStore.
