(* ===== verification/Control.v ===== *)
(** * User control of a rollout (internal/delivery/rollout/control.go)

    [Act] pauses, resumes, aborts, retries or rolls back a rollout; [Approve]
    records the decision on a frozen approval gate.  Each runs in one
    serializable transaction over the delivery tables, so a request is a function
    on the database.
    The text of a stored plan is decoded, and the audit row of an intent is
    built, by functions the section takes as arguments. *)

From Stdlib Require Import ZArith Lia.
From S2P Require Import Prelude Enums State SafeConv GoStrings External Validation Model Types.
From S2P Require Import Overrides RolloutTypes Planner AsyncOp DeliveryStore.
From stdpp Require Import base gmap strings list relations pretty.
Import SafeConv Overrides Model RolloutTypes Planner AsyncOp DeliveryStore.

Open Scope Z_scope.

Module Control.

(** ** Requests *)

Definition ActionPause : string := "pause".
Definition ActionResume : string := "resume".
Definition ActionAbort : string := "abort".
Definition ActionRetry : string := "retry".
Definition ActionRollback : string := "rollback".

(** [action_ActorID] is [None] for a [pgtype.UUID] that is not valid. *)
Record ActionRequest := {
  action_ProjectID : uuid;
  action_RolloutID : uuid;
  action_ExpectedFence : Z;
  action_Action : string;
  action_ActorID : option uuid;
  action_ReasonCode : string;
  action_IdempotencyKey : string;
  action_Audit : Intent;
}.

Record ApprovalRequest := {
  approve_ProjectID : uuid;
  approve_RolloutID : uuid;
  approve_ExpectedFence : Z;
  approve_Cohort : Z;
  approve_BindingDigest : Digest;
  approve_Decision : string;
  approve_ActorID : option uuid;
  approve_ExpiresAt : time;
  approve_IdempotencyKey : string;
  approve_Audit : Intent;
}.

Section control.
Context `{External} {Outbox : Type}.
(** encoding/json of a stored plan without unknown fields or trailing data, and
    [audit.RecordIntent] *)
Context (decodeStrict : string -> option FrozenRollout).
Context (RecordIntent : Outbox -> Intent -> res Outbox).

#[local] Abbreviation DB := (DB Outbox).
#[local] Abbreviation decodeFrozenPlan := (decodeFrozenPlan decodeStrict).

(** ** Helpers of the controller *)

Definition ErrOutboxUnavailable : error := EText "audit outbox unavailable".

Definition requiredActor (actor : option uuid) : res uuid :=
  match actor with
  | None => Err (fail CodeInvalidInput "actor" "authenticated actor is required")
  | Some id =>
      fail_if (id == uuid_Nil) (fail CodeInvalidInput "actor" "authenticated actor is required");;
      Ok id
  end.

(** The states an action is allowed in and the state it leads to. *)
Definition actionTransition (action : string) : res (list string * string) :=
  if action == ActionPause then Ok (["resolving"; "queued"; "progressing"], "paused")
  else if action == ActionResume then Ok (["paused"], "queued")
  else if action == ActionAbort then
    Ok (["resolving"; "awaiting_approval"; "queued"; "progressing"; "paused"; "failed"], "aborted")
  else if action == ActionRetry then Ok (["failed"; "paused"], "queued")
  else if action == ActionRollback then Ok (["succeeded"; "failed"; "paused"], "rolling_back")
  else Err (fail CodeInvalidInput "action" "is unsupported").

Record ActionDigest := {
  digest_RolloutID : uuid;
  digest_Fence : Z;
  digest_Action : string;
  digest_Actor : string;
  digest_Reason : string;
}.

#[local] Instance ActionDigest_json : ToJSON ActionDigest := fun d => JObject (
  field "rollout_id" (digest_RolloutID d) ++ field "fence" (digest_Fence d) ++
  field "action" (digest_Action d) ++ field_omit "actor" (digest_Actor d == "") (digest_Actor d) ++
  field "reason_code" (digest_Reason d)).

Definition actionDigest (rolloutID : uuid) (fence : Z) (action : string) (actor : option uuid)
    (reason : string) : res Digest :=
  CanonicalDigest {| digest_RolloutID := rolloutID; digest_Fence := fence; digest_Action := action;
                     digest_Actor := from_option uuid_String "" actor; digest_Reason := reason |}.

Definition enqueueControl (db : DB) (rolloutID : uuid) (fence : Z) (action : string) (now : time) : DB :=
  UpsertTaskOutbox db ("delivery-rollout-control:" +:+ uuid_String rolloutID +:+ ":" +:+ pretty fence +:+
                       ":" +:+ action) rolloutID now.

(** The intent with the details of the rollout. *)
Definition audited (intent : Intent) (updated : RolloutRow) : Intent := {|
  intent_Action := intent_Action intent; intent_ResourceID := intent_ResourceID intent;
  intent_Detail := <["fencing_generation" := JNumber (row_FencingGeneration updated)]>
                  (<["state" := JString (row_State updated)]>
                  (<["target_id" := JString (uuid_String (row_TargetID updated))]> (intent_Detail intent)));
  intent_DedupeKey := intent_DedupeKey intent |}.

(** [PostgresController.persistAudit] *)
Definition persistAudit (db : DB) (intent : Intent) (updated : RolloutRow) : res DB :=
  fail_if (Intent_IsZero intent) ErrOutboxUnavailable;;
  outbox ← RecordIntent (db_audit db) (audited intent updated);
  Ok (with_audit db outbox).

Definition statusURL (rolloutID projectID : uuid) : string :=
  "/api/v1/delivery/rollouts/" +:+ uuid_String rolloutID +:+ "/?project_id=" +:+ uuid_String projectID.

(** ** Requests as transactions *)

(** What a request draws from its surroundings: the readings of its clock in
    order, the database's clock and the identifiers the database generates. *)
Record Draws := {
  draw_now : nat -> time;
  draw_dbnow : time;
  draw_eventID : uuid;
  draw_approvalID : uuid;
}.

Record ControlResult := {
  result_Rollout : RolloutRow;
  result_Event : EventRow;
  result_Approval : option ApprovalRow;
  result_Receipt : Receipt;
}.

(** A transaction that returns no error either found the receipt of an earlier
    one, and is rolled back, or goes on to commit. *)
Inductive TxResult :=
  | Replayed (receipt : Receipt)
  | Commits (result : ControlResult) (db : DB).

Record ActionDocument := {
  document_ProjectID : uuid;
  document_RolloutID : uuid;
  document_Fence : Z;
  document_Action : string;
  document_Reason : string;
}.

#[local] Instance ActionDocument_json : ToJSON ActionDocument := fun d => JObject (
  field "project_id" (document_ProjectID d) ++ field "rollout_id" (document_RolloutID d) ++
  field "fence" (document_Fence d) ++ field "action" (document_Action d) ++
  field "reason_code" (document_Reason d)).

Definition action_reason (request : ActionRequest) : string :=
  let reason := TrimSpace (action_ReasonCode request) in
  if reason == "" then "user_" +:+ action_Action request else reason.

(** What [Act] checks and computes before its transaction: the allowed states,
    the next state and the claim. *)
Definition prepare_action (request : ActionRequest) : res (list string * string * ClaimRequest) :=
  fail_if (Intent_IsZero (action_Audit request)) ErrOutboxUnavailable;;
  fail_if ((action_ProjectID request == uuid_Nil) || (action_RolloutID request == uuid_Nil) ||
           (action_ExpectedFence request <? 1))
    (fail CodeInvalidInput "action" "project, rollout, and positive If-Match fence are required");;
  fail_if ((96 <? slen (action_ReasonCode request)) || ContainsAny (action_ReasonCode request) crlfnul)
    (fail CodeInvalidInput "reason_code" "must be at most 96 safe bytes");;
  transition ← actionTransition (action_Action request);
  actorID ← requiredActor (action_ActorID request);
  wrap_err (fun _ => fail CodeInvalidInput "idempotency_key" "is invalid")
    (ValidateKey (action_IdempotencyKey request));;
  requestDigest ← operation_digest {|
    document_ProjectID := action_ProjectID request; document_RolloutID := action_RolloutID request;
    document_Fence := action_ExpectedFence request; document_Action := action_Action request;
    document_Reason := action_reason request |};
  Ok (transition.1, transition.2, {|
    request_ActorID := actorID; request_ProjectID := action_ProjectID request;
    request_Operation := "rollout." +:+ action_Action request; request_Resource := "delivery_rollout";
    request_TargetID := action_RolloutID request;
    request_IdempotencyKey := action_IdempotencyKey request; request_RequestDigest := requestDigest;
    request_OperationTable := "delivery_rollout_events" |}).

(** The checks of a rollback and the resets of a retry. *)
Definition action_effects (now : time) (request : ActionRequest) (current : RolloutRow) (db : DB) : res DB :=
  if action_Action request == ActionRollback then
    plan ← decodeFrozenPlan current;
    fail_if (List.existsb (fun c => bool_decide (planned_Previous c = None)) (plan_Clusters plan))
      (fail CodeInvalidInput "rollback"
         "not every rollout cluster has a frozen previous known-good version");;
    Ok db
  else if action_Action request == ActionRetry then
    reset ← ResetRetryableDeliveryRolloutClusters db (action_RolloutID request) now;
    fail_if (reset.1 =? 0)
      (fail CodeInvalidInput "retry" "rollout has no failed, timed-out, or blocked clusters");;
    Ok reset.2
  else Ok db.

Definition act_tx (draws : Draws) (request : ActionRequest) (db : DB) : res TxResult :=
  prepared ← prepare_action request;
  let '(allowed, next, claimRequest) := prepared in
  claimed ← ClaimKey (db_keys db) claimRequest;
  let '(claim, keys) := claimed in
  match claim_Receipt claim with
  | Some receipt => Ok (Replayed receipt)
  | None =>
      let db1 := with_keys db keys in
      current ← GetDeliveryRolloutForAction db1 (action_RolloutID request) (action_ProjectID request);
      fail_if (negb (row_FencingGeneration current =? action_ExpectedFence request))
        (fail CodeStaleFence "if_match" "rollout fencing generation changed");;
      db2 ← action_effects (draw_dbnow draws) request current db1;
      cas ← TransitionDeliveryRolloutCAS db2 next (action_reason request) (action_RolloutID request)
              (action_ExpectedFence request) allowed (draw_dbnow draws);
      match cas with
      | None => Err (fail CodeInvalidInput "state" "action is not valid for the current rollout state")
      | Some (updated, db3) =>
          digest ← actionDigest (action_RolloutID request) (action_ExpectedFence request)
                     (action_Action request) (action_ActorID request) (action_reason request);
          let event := {|
            event_ID := draw_eventID draws; event_RolloutID := action_RolloutID request;
            event_ClusterID := None;
            event_DecisionDigest := digest; event_EventType := "rollout_" +:+ action_Action request;
            event_FromState := row_State current; event_ToState := row_State updated;
            event_ReasonCode := action_reason request; event_Fence := row_FencingGeneration updated;
            event_OccurredAt := draw_now draws 0 |} in
          let db4 := CreateDeliveryRolloutEvent db3 event in
          let db5 := enqueueControl db4 (action_RolloutID request) (row_FencingGeneration updated)
                       (action_Action request) (draw_now draws 1) in
          db6 ← persistAudit db5 (action_Audit request) updated;
          let receipt := NewReceipt (event_ID event) ("rollout." +:+ action_Action request)
                           "delivery_rollout" (action_RolloutID request) (action_ProjectID request)
                           (statusURL (action_RolloutID request) (action_ProjectID request))
                           (draw_now draws 2) in
          keys' ← Attach (db_keys db6) claim receipt;
          Ok (Commits {| result_Rollout := updated; result_Event := event; result_Approval := None;
                         result_Receipt := receipt |} (with_keys db6 keys'))
      end
  end.

Record ApprovalDocument := {
  approvaldoc_ProjectID : uuid;
  approvaldoc_RolloutID : uuid;
  approvaldoc_Fence : Z;
  approvaldoc_Cohort : Z;
  approvaldoc_BindingDigest : string;
  approvaldoc_Decision : string;
  approvaldoc_ExpiresAt : time;
}.

#[local] Instance ApprovalDocument_json : ToJSON ApprovalDocument := fun d => JObject (
  field "project_id" (approvaldoc_ProjectID d) ++ field "rollout_id" (approvaldoc_RolloutID d) ++
  field "fence" (approvaldoc_Fence d) ++ field "cohort" (approvaldoc_Cohort d) ++
  field "binding_digest" (approvaldoc_BindingDigest d) ++ field "decision" (approvaldoc_Decision d) ++
  [("expires_at", JTime (approvaldoc_ExpiresAt d))]).

Definition prepare_approval (request : ApprovalRequest) : res ClaimRequest :=
  fail_if (Intent_IsZero (approve_Audit request)) ErrOutboxUnavailable;;
  fail_if ((approve_ProjectID request == uuid_Nil) || (approve_RolloutID request == uuid_Nil) ||
           (approve_ExpectedFence request <? 1) || (approve_Cohort request <? -1))
    (fail CodeInvalidInput "approval" "project, rollout, positive fence, and cohort >= -1 are required");;
  wrap_err (ERollout CodeInvalidInput "binding_digest") (Digest_Validate (approve_BindingDigest request));;
  fail_if (negb (approve_Decision request == "approved") && negb (approve_Decision request == "rejected"))
    (fail CodeInvalidInput "decision" "must be approved or rejected");;
  actorID ← requiredActor (approve_ActorID request);
  wrap_err (fun _ => fail CodeInvalidInput "idempotency_key" "is invalid")
    (ValidateKey (approve_IdempotencyKey request));;
  requestDigest ← operation_digest {|
    approvaldoc_ProjectID := approve_ProjectID request; approvaldoc_RolloutID := approve_RolloutID request;
    approvaldoc_Fence := approve_ExpectedFence request; approvaldoc_Cohort := approve_Cohort request;
    approvaldoc_BindingDigest := approve_BindingDigest request;
    approvaldoc_Decision := approve_Decision request; approvaldoc_ExpiresAt := approve_ExpiresAt request |};
  Ok {| request_ActorID := actorID; request_ProjectID := approve_ProjectID request;
        request_Operation := "rollout.approve"; request_Resource := "delivery_rollout";
        request_TargetID := approve_RolloutID request;
        request_IdempotencyKey := approve_IdempotencyKey request; request_RequestDigest := requestDigest;
        request_OperationTable := "delivery_rollout_approvals" |}.

(** The digest of the frozen gate the request names. *)
Definition gate_digest (plan : FrozenRollout) (cohort : Z) : res Digest :=
  if 0 <=? cohort then
    match plan_Cohorts plan !! Z.to_nat cohort with
    | None => Err (fail CodeInvalidInput "cohort" "does not identify a frozen approval gate")
    | Some c =>
        fail_if (negb (cohort_Index c =? cohort) || negb (cohort_ApprovalRequired c))
          (fail CodeInvalidInput "cohort" "does not identify a frozen approval gate");;
        Ok (cohort_ApprovalDigest c)
    end
  else
    fail_if (negb (approval_Required (plan_Approval plan)))
      (fail CodeInvalidInput "cohort" "rollout has no initial approval gate");;
    Ok (approval_Digest (plan_Approval plan)).

Definition day : duration := 24 * 3600 * 1000000000.

(** The transition of the initial gate; other gates leave the rollout as it is. *)
Definition approval_transition (draws : Draws) (request : ApprovalRequest) (current : RolloutRow) (db : DB) :
    res (RolloutRow * DB) :=
  if approve_Cohort request =? -1 then
    cas ← TransitionDeliveryRolloutCAS db
            (if approve_Decision request == "rejected" then "rejected" else "queued")
            ("approval_" +:+ approve_Decision request) (approve_RolloutID request)
            (approve_ExpectedFence request) ["awaiting_approval"] (draw_dbnow draws);
    match cas with
    | None => Err (fail CodeInvalidInput "state" "initial approval is only valid while awaiting approval")
    | Some moved => Ok moved
    end
  else Ok (current, db).

Definition approve_tx (draws : Draws) (request : ApprovalRequest) (db : DB) : res TxResult :=
  claimRequest ← prepare_approval request;
  let now := draw_now draws 0 in
  claimed ← ClaimKey (db_keys db) claimRequest;
  let '(claim, keys) := claimed in
  match claim_Receipt claim with
  | Some receipt => Ok (Replayed receipt)
  | None =>
      let db1 := with_keys db keys in
      fail_if (negb (now <? approve_ExpiresAt request) || (now + day <? approve_ExpiresAt request))
        (fail CodeInvalidInput "expires_at" "must be after now and no more than 24 hours in the future");;
      current ← GetDeliveryRolloutForAction db1 (approve_RolloutID request) (approve_ProjectID request);
      fail_if (negb (row_FencingGeneration current =? approve_ExpectedFence request))
        (fail CodeStaleFence "if_match" "rollout fencing generation changed");;
      plan ← decodeFrozenPlan current;
      expectedDigest ← gate_digest plan (approve_Cohort request);
      fail_if (negb (approve_BindingDigest request == expectedDigest))
        (fail CodeInvalidInput "binding_digest" "does not match the frozen approval gate");;
      let approval := {|
        approval_ID := draw_approvalID draws; approval_RolloutID := approve_RolloutID request;
        approval_Cohort := approve_Cohort request;
        approval_BindingDigest := approve_BindingDigest request;
        approval_Decision := approve_Decision request; approval_DecidedBy := approve_ActorID request;
        approval_DecidedAt := draw_dbnow draws;
        approval_ExpiresAt := approve_ExpiresAt request |} in
      db2 ← CreateDeliveryRolloutApproval db1 approval;
      moved ← approval_transition draws request current db2;
      let '(updated, db3) := moved in
      let event := {|
        event_ID := draw_eventID draws; event_RolloutID := approve_RolloutID request;
        event_ClusterID := None;
        event_DecisionDigest := approve_BindingDigest request;
        event_EventType := "rollout_" +:+ approve_Decision request;
        event_FromState := row_State current; event_ToState := row_State updated;
        event_ReasonCode := "cohort_" +:+ pretty (approve_Cohort request);
        event_Fence := row_FencingGeneration updated; event_OccurredAt := now |} in
      let db4 := CreateDeliveryRolloutEvent db3 event in
      let db5 := if approve_Decision request == "approved"
                 then enqueueControl db4 (approve_RolloutID request) (row_FencingGeneration updated)
                        "approve" now
                 else db4 in
      db6 ← persistAudit db5 (approve_Audit request) updated;
      let receipt := NewReceipt (approval_ID approval) "rollout.approve" "delivery_rollout"
                       (approve_RolloutID request) (approve_ProjectID request)
                       (statusURL (approve_RolloutID request) (approve_ProjectID request)) now in
      keys' ← Attach (db_keys db6) claim receipt;
      Ok (Commits {| result_Rollout := updated; result_Event := event; result_Approval := Some approval;
                     result_Receipt := receipt |} (with_keys db6 keys'))
  end.

(** ** Requests against the database

    A request may fail before it commits, for whatever reason, and the answer
    to a commit may be lost.  An error before the commit leaves the database as
    it was; so does a replay. *)

Inductive Fault := Works | Fails (e : error) | ReplyLost (e : error).

Inductive Answer :=
  | AnswerReplay (receipt : Receipt)
  | AnswerDone (result : ControlResult)
  | AnswerError (e : error).

Definition run (fault : Fault) (tx : res TxResult) (db : DB) : Answer * DB :=
  match fault, tx with
  | Fails e, _ => (AnswerError e, db)
  | _, Err e => (AnswerError e, db)
  | ReplyLost e, Ok (Replayed _) => (AnswerError e, db)
  | Works, Ok (Replayed receipt) => (AnswerReplay receipt, db)
  | ReplyLost e, Ok (Commits _ db') => (AnswerError e, db')
  | Works, Ok (Commits result db') => (AnswerDone result, db')
  end.

Definition Act (draws : Draws) (fault : Fault) (request : ActionRequest) (db : DB) : Answer * DB :=
  run fault (act_tx draws request db) db.

Definition Approve (draws : Draws) (fault : Fault) (request : ApprovalRequest) (db : DB) : Answer * DB :=
  run fault (approve_tx draws request db) db.

(** ** What a request does *)

(** The number of cluster rows a retry resets. *)
Definition resets (request : ActionRequest) (db : DB) : Z :=
  if action_Action request == ActionRetry then len (retried (action_RolloutID request) db) else 0.

(** The effect of a committed action: the rollout it read was current and in an
    allowed state; exactly that rollout moved, one event names the move, and a
    retry reset exactly the retryable clusters. *)
Record acted (draws : Draws) (request : ActionRequest) (db : DB) (result : ControlResult) (db' : DB)
    (row : RolloutRow) (allowed : list string) (next : string) : Prop := {
  acted_row : db_rollouts db !! action_RolloutID request = Some row;
  acted_project : db_targets db !! row_TargetID row = Some (action_ProjectID request);
  acted_fence : row_FencingGeneration row = action_ExpectedFence request;
  acted_bounded : action_ExpectedFence request < MaxInt64;
  acted_actor : exists actor, action_ActorID request = Some actor /\ actor <> uuid_Nil;
  acted_transition : actionTransition (action_Action request) = Ok (allowed, next);
  acted_allowed : row_State row ∈ allowed;
  acted_rollback : action_Action request = ActionRollback ->
    exists plan, decodeFrozenPlan row = Ok plan /\ Forall (fun c => planned_Previous c <> None) (plan_Clusters plan);
  acted_retry : action_Action request = ActionRetry ->
    exists cid c, db_clusters db !! cid = Some c /\ retryable (action_RolloutID request) c = true;
  acted_result : result_Rollout result = transitioned next (action_reason request) (draw_dbnow draws)
    (bumped (draw_dbnow draws) (resets request db) row);
  acted_rollouts : db_rollouts db' = <[action_RolloutID request := result_Rollout result]> (db_rollouts db);
  acted_clusters : db_clusters db' =
    (if action_Action request == ActionRetry
     then (fun c => if retryable (action_RolloutID request) c then reset_cluster (draw_dbnow draws) c else c)
            <$> db_clusters db
     else db_clusters db);
  acted_events : db_events db' = db_events db ++ [result_Event result];
  acted_event : event_RolloutID (result_Event result) = action_RolloutID request /\
    event_FromState (result_Event result) = row_State row /\ event_ToState (result_Event result) = next /\
    event_Fence (result_Event result) = action_ExpectedFence request + 1;
  acted_approvals : db_approvals db' = db_approvals db;
  acted_targets : db_targets db' = db_targets db;
}.

Lemma persistAudit_Ok db intent updated db' :
  persistAudit db intent updated = Ok db' -> exists outbox, db' = with_audit db outbox.
Proof. unfold persistAudit. intros E. res_inv. simplify_eq. eauto. Qed.

(** What the action does before the transition. *)
Lemma action_effects_Ok now request current db db' :
  action_effects now request current db = Ok db' ->
  (action_Action request = ActionRollback -> exists plan, decodeFrozenPlan current = Ok plan /\
     Forall (fun c => planned_Previous c <> None) (plan_Clusters plan)) /\
  (action_Action request = ActionRetry ->
     exists cid c, db_clusters db !! cid = Some c /\ retryable (action_RolloutID request) c = true) /\
  keeps db db' /\
  db' = with_rollouts (with_clusters db
    (if action_Action request == ActionRetry
     then (fun c => if retryable (action_RolloutID request) c then reset_cluster now c else c) <$> db_clusters db
     else db_clusters db)) (alter (bumped now (resets request db)) (action_RolloutID request) (db_rollouts db)).
Proof.
  unfold action_effects, resets. intros E.
  assert (Hid : forall (d : DB) id, alter (bumped now 0) id (db_rollouts d) = db_rollouts d).
  { intros d id. apply map_eq. intros k. destruct (decide (id = k)) as [<-|];
      [rewrite lookup_alter_eq | by rewrite lookup_alter_ne]. by destruct (db_rollouts d !! id). }
  destruct (action_Action request == ActionRollback) eqn:Eb; bool_props.
  - rewrite Eb. res_inv. simplify_eq. split_and!; [|done|done|cbn; rewrite Hid; by destruct db'].
    intros _. eexists. split; [eassumption|]. apply Forall_forall. intros c Hc Hn.
    match goal with Hx : List.existsb _ _ = false |- _ => rename Hx into Hex end.
    apply not_true_iff_false in Hex. apply Hex, List.existsb_exists. exists c.
    split; [by apply list_elem_of_In | by apply bool_decide_eq_true].
  - destruct (action_Action request == ActionRetry) eqn:Er; bool_props.
    + apply res_bind_Ok in E as ([n d] & Hreset & E). res_inv. simplify_eq. cbn in *. bool_props.
      apply ResetRetryable_Ok in Hreset as (-> & Hk & ->). split_and!; [done| |done|done]. intros _.
      destruct (retried (action_RolloutID request) db) as [|[cid c] l] eqn:El; [done|]. exists cid, c.
      apply (matching_elem (fun _ c => retryable (action_RolloutID request) c)).
      fold (retried (action_RolloutID request) db). rewrite El. by left.
    + simplify_eq. rewrite Hid. split_and!; [done | done | done | by destruct db'].
Qed.

Lemma prepare_action_Ok request allowed next claim :
  prepare_action request = Ok (allowed, next, claim) ->
  actionTransition (action_Action request) = Ok (allowed, next) /\
  (exists actor, action_ActorID request = Some actor /\ actor <> uuid_Nil) /\
  ValidateKey (request_IdempotencyKey claim) = Ok tt /\
  request_ProjectID claim = action_ProjectID request /\
  request_Operation claim = "rollout." +:+ action_Action request /\
  request_Resource claim = "delivery_rollout" /\ request_TargetID claim = action_RolloutID request.
Proof.
  unfold prepare_action, requiredActor. intros E. res_inv.
  destruct (action_ActorID request) as [actor|] eqn:Ea; [|done]. res_inv. simplify_eq. bool_props.
  repeat match goal with u : unit |- _ => destruct u end.
  match goal with |- context [actionTransition _ = Ok (?t.1, _)] => destruct t end.
  split_and!; try done. by eexists.
Qed.

Lemma resets_nonneg request db : 0 <= resets request db.
Proof. unfold resets, len. destruct (_ == _); lia. Qed.

(** A committed action, taken apart. *)
Lemma act_tx_commits draws request db result db' :
  act_tx draws request db = Ok (Commits result db') ->
  exists row allowed next claimRequest,
    acted draws request db result db' row allowed next /\
    prepare_action request = Ok (allowed, next, claimRequest) /\ incomplete claimRequest = false /\
    keeps db db' /\
    settled (db_keys db') claimRequest (result_Receipt result) /\
    receipt_for claimRequest (result_Receipt result).
Proof.
  unfold act_tx. intros E.
  destruct (prepare_action request) as [[[allowed next] claimRequest]|] eqn:Ep; [|done]. cbn [mbind res_bind] in E.
  destruct (ClaimKey (db_keys db) claimRequest) as [[claim keys]|] eqn:Ek; [|done]. cbn [mbind res_bind] in E.
  destruct (claim_Receipt claim) as [receipt|] eqn:Ec; [done|].
  apply res_bind_Ok in E as (row & Hrow & E). apply res_bind_Ok in E as (u & Hfence & E).
  apply res_bind_Ok in E as (db2 & Heff & E). apply res_bind_Ok in E as (cas & Hcas & E).
  destruct cas as [[updated db3]|]; [|done].
  apply res_bind_Ok in E as (digest & Hdigest & E). apply res_bind_Ok in E as (db6 & Haudit & E).
  apply res_bind_Ok in E as (keys' & Hattach & [= <- <-]).
  apply persistAudit_Ok in Haudit as [outbox ->].
  apply GetDeliveryRolloutForAction_Ok in Hrow as [Hrow Hproject].
  apply action_effects_Ok in Heff as (Hback & Hretry & Hkeep2 & ->).
  pose proof (TransitionDeliveryRolloutCAS_keeps _ _ _ _ _ _ _ _ _ Hcas) as Hkeep3.
  apply TransitionDeliveryRolloutCAS_Some in Hcas as (row' & Hrow' & Hf & Hst & Hmax & -> & ->).
  cbn in Hrow, Hproject, Hrow', Hretry. rewrite lookup_alter_eq, Hrow in Hrow'. injection Hrow' as <-.
  destruct (bumped_columns (draw_dbnow draws) _ row (resets_nonneg request (with_keys db keys)))
    as (_ & Bf & _ & Bs & _).
  destruct (prepare_action_Ok _ _ _ _ Ep) as (Htr & Hactor & Hkey & P1 & P2 & P3 & P4).
  exists row, allowed, next, claimRequest. unfold enqueueControl, UpsertTaskOutbox in *.
  cbn in Hattach |- *.
  destruct (Attach_settles _ _ _ _ _ _ Ek Ec Hattach) as (Hkeep & Hset & _).
  destruct (Attach_receipt _ _ _ _ Hattach) as [Hid Hurl].
  split_and!; [| done | by eapply ClaimKey_complete | | done | unfold receipt_for; by rewrite P1, P2, P3, P4].
  - split; cbn; rewrite ?insert_of_alter, ?Hf; try done; by rewrite <- ?Bf, <- ?Bs.
  - eapply (keeps_transport _ (with_keys db keys)); [exact (transitivity Hkeep2 Hkeep3)|done..].
Qed.

(** The effect of a committed decision: it names a frozen gate by its digest, it
    holds for at most a day, and only the initial gate moves the rollout. *)
Record approved (draws : Draws) (request : ApprovalRequest) (db : DB) (result : ControlResult) (db' : DB)
    (row : RolloutRow) (plan : FrozenRollout) : Prop := {
  approved_row : db_rollouts db !! approve_RolloutID request = Some row;
  approved_project : db_targets db !! row_TargetID row = Some (approve_ProjectID request);
  approved_fence : row_FencingGeneration row = approve_ExpectedFence request;
  approved_plan : decodeFrozenPlan row = Ok plan;
  approved_gate : gate_digest plan (approve_Cohort request) = Ok (approve_BindingDigest request);
  approved_expiry : draw_now draws 0 < approve_ExpiresAt request <= draw_now draws 0 + day;
  approved_unexpired : draw_dbnow draws < approve_ExpiresAt request;
  approved_decision : approve_Decision request = "approved" \/ approve_Decision request = "rejected";
  approved_approval : exists approval, result_Approval result = Some approval /\
    db_approvals db' = db_approvals db ++ [approval] /\
    approval_RolloutID approval = approve_RolloutID request /\
    approval_Cohort approval = approve_Cohort request /\
    approval_BindingDigest approval = approve_BindingDigest request /\
    approval_Decision approval = approve_Decision request /\
    approval_ExpiresAt approval = approve_ExpiresAt request;
  approved_initial : approve_Cohort request = -1 -> row_State row = "awaiting_approval" /\
    result_Rollout result = transitioned (if approve_Decision request == "rejected" then "rejected" else "queued")
      ("approval_" +:+ approve_Decision request) (draw_dbnow draws) row /\
    db_rollouts db' = <[approve_RolloutID request := result_Rollout result]> (db_rollouts db);
  approved_later : approve_Cohort request <> -1 ->
    result_Rollout result = row /\ db_rollouts db' = db_rollouts db;
  approved_events : db_events db' = db_events db ++ [result_Event result];
  approved_event : event_RolloutID (result_Event result) = approve_RolloutID request /\
    event_FromState (result_Event result) = row_State row /\
    event_ToState (result_Event result) = row_State (result_Rollout result);
  approved_clusters : db_clusters db' = db_clusters db;
  approved_targets : db_targets db' = db_targets db;
  approved_tasks : approve_Decision request = "rejected" -> db_tasks db' = db_tasks db;
}.

Lemma prepare_approval_Ok request claim :
  prepare_approval request = Ok claim ->
  (approve_Decision request = "approved" \/ approve_Decision request = "rejected") /\
  ValidateKey (request_IdempotencyKey claim) = Ok tt /\
  request_ProjectID claim = approve_ProjectID request /\ request_Operation claim = "rollout.approve" /\
  request_Resource claim = "delivery_rollout" /\ request_TargetID claim = approve_RolloutID request.
Proof.
  unfold prepare_approval. intros E. res_inv. simplify_eq.
  repeat match goal with u : unit |- _ => destruct u end.
  split_and!; try done.
  match goal with Hx : negb (?a == "approved") && _ = false |- _ => apply andb_false_iff in Hx as [Hx|Hx] end;
    bool_props; [by left | by right].
Qed.

Lemma approval_transition_Ok draws request current db updated db' :
  db_rollouts db !! approve_RolloutID request = Some current ->
  approval_transition draws request current db = Ok (updated, db') ->
  (approve_Cohort request = -1 -> row_State current = "awaiting_approval" /\
     updated = transitioned (if approve_Decision request == "rejected" then "rejected" else "queued")
       ("approval_" +:+ approve_Decision request) (draw_dbnow draws) current /\
     db_rollouts db' = <[approve_RolloutID request := updated]> (db_rollouts db)) /\
  (approve_Cohort request <> -1 -> updated = current /\ db_rollouts db' = db_rollouts db) /\
  keeps db db' /\ db' = with_rollouts db (db_rollouts db').
Proof.
  unfold approval_transition. intros Hrow E. destruct (approve_Cohort request =? -1) eqn:Ec; bool_props.
  - apply res_bind_Ok in E as (cas & Hcas & E). destruct cas as [[u d]|]; [|done]. simplify_eq.
    pose proof (TransitionDeliveryRolloutCAS_keeps _ _ _ _ _ _ _ _ _ Hcas) as Hkeep.
    apply TransitionDeliveryRolloutCAS_Some in Hcas as (row' & Hrow' & Hf & Hst & Hmax & -> & ->).
    rewrite Hrow in Hrow'. injection Hrow' as <-. apply list_elem_of_singleton in Hst.
    split_and!; try done.
  - simplify_eq. split_and!; try done. by destruct db'.
Qed.

Lemma approve_tx_commits draws request db result db' :
  approve_tx draws request db = Ok (Commits result db') ->
  exists row plan claimRequest,
    approved draws request db result db' row plan /\
    prepare_approval request = Ok claimRequest /\ incomplete claimRequest = false /\
    keeps db db' /\
    settled (db_keys db') claimRequest (result_Receipt result) /\
    receipt_for claimRequest (result_Receipt result).
Proof.
  unfold approve_tx. intros E. apply res_bind_Ok in E as (claimRequest & Ep & E).
  destruct (ClaimKey (db_keys db) claimRequest) as [[claim keys]|] eqn:Ek; [|done]. cbn [mbind res_bind] in E.
  destruct (claim_Receipt claim) as [receipt|] eqn:Ec; [done|].
  apply res_bind_Ok in E as (u1 & Hexp & E). apply res_bind_Ok in E as (row & Hrow & E).
  apply res_bind_Ok in E as (u2 & Hfence & E). apply res_bind_Ok in E as (plan & Hplan & E).
  apply res_bind_Ok in E as (gate & Hgate & E). apply res_bind_Ok in E as (u3 & Hbind & E).
  apply res_bind_Ok in E as (db2 & Hcreate & E).
  apply res_bind_Ok in E as ([updated db3] & Hmove & E). apply res_bind_Ok in E as (db6 & Haudit & E).
  apply res_bind_Ok in E as (keys' & Hattach & [= <- <-]).
  apply persistAudit_Ok in Haudit as [outbox ->].
  apply GetDeliveryRolloutForAction_Ok in Hrow as [Hrow Hproject].
  unfold CreateDeliveryRolloutApproval in Hcreate. apply res_bind_Ok in Hcreate as (u4 & Hcheck & [= <-]).
  cbn in Hcheck. apply approval_transition_Ok in Hmove as (Hinit & Hlater & Hkeep2 & Hdb3); [|done].
  cbn in Hrow, Hproject, Hinit, Hlater. rewrite Hdb3 in *. cbn in Hattach, Hinit, Hlater.
  destruct (prepare_approval_Ok _ _ Ep) as (Hdec & Hkey & P1 & P2 & P3 & P4).
  res_inv. bool_props. subst gate. exists row, plan, claimRequest.
  assert (Hattach' : Attach keys claim (NewReceipt (draw_approvalID draws) "rollout.approve"
    "delivery_rollout" (approve_RolloutID request) (approve_ProjectID request)
    (statusURL (approve_RolloutID request) (approve_ProjectID request)) (draw_now draws 0)) = Ok keys').
  { by destruct (approve_Decision request == "approved"). }
  destruct (Attach_settles _ _ _ _ _ _ Ek Ec Hattach') as (Hkeep & Hset & _).
  destruct (Attach_receipt _ _ _ _ Hattach') as [Hid Hurl].
  split_and!; [| done | by eapply ClaimKey_complete | | done | unfold receipt_for; by rewrite P1, P2, P3, P4].
  - destruct (approve_Decision request == "approved") eqn:Ed; bool_props;
      split; cbn; try done; try (by eexists; split_and!; reflexivity); [intros Hr; by rewrite Ed in Hr].
  - eapply keeps_transport; [exact Hkeep2 | done | done | by destruct (_ == "approved") ..|done].
Qed.

(** A committed request keeps what there is. *)
Lemma act_keeps draws request db result db' :
  act_tx draws request db = Ok (Commits result db') -> keeps db db'.
Proof. by intros (row & allowed & next & claim & _ & _ & _ & Hk & _)%act_tx_commits. Qed.

Lemma approve_keeps draws request db result db' :
  approve_tx draws request db = Ok (Commits result db') -> keeps db db'.
Proof. by intros (row & plan & claim & _ & _ & _ & Hk & _)%approve_tx_commits. Qed.

Lemma run_keeps fault tx db :
  (forall result db', tx = Ok (Commits result db') -> keeps db db') -> keeps db (run fault tx db).2.
Proof.
  intros Ht. destruct fault, tx as [[receipt|result db']|?]; cbn; try done; by eapply Ht.
Qed.

(** ** Steps of the system *)

Inductive step (db : DB) : DB -> Prop :=
  | step_act draws fault request : step db (Act draws fault request db).2
  | step_approve draws fault request : step db (Approve draws fault request db).2
  | step_other db' : keeps db db' -> step db db'.

Lemma steps_keep db db' : rtc step db db' -> keeps db db'.
Proof.
  induction 1 as [db|db1 db2 db3 Hs _ IH]; [done|]. etrans; [|exact IH].
  destruct Hs as [draws fault request|draws fault request|db' Hk]; [| |done]; apply run_keeps;
    intros result db'; [apply act_keeps | apply approve_keeps].
Qed.

(** The answer to a retry of a committed request. *)
Definition retry_answer (fault : Fault) (receipt : Receipt) : Answer :=
  match fault with Works => AnswerReplay receipt | Fails e | ReplyLost e => AnswerError e end.

Lemma run_replay fault receipt db :
  run fault (Ok (Replayed receipt)) db = (retry_answer fault receipt, db).
Proof. by destruct fault. Qed.
End control.
End Control.
