(* ===== verification/ControlFacts.v ===== *)
(** * Correctness of rollout control

    A request takes effect at most once, however often it is retried and
    whatever else happens in between; of two requests made against the same
    fence at most one takes effect; an approval binds the frozen gate it names. *)

From Stdlib Require Import ZArith Lia.
From S2P Require Import Prelude Enums State SafeConv GoStrings External Validation Model Types.
From S2P Require Import Overrides RolloutTypes Planner PlannerFacts AsyncOp DeliveryStore Control.
From stdpp Require Import base gmap strings list relations.
Import Model RolloutTypes Planner AsyncOp DeliveryStore Control.

Open Scope Z_scope.

Module ControlFacts.

Section facts.
Context `{External} {Outbox : Type}.
Context (decodeStrict : string -> option FrozenRollout) (RecordIntent : Outbox -> Intent -> res Outbox).

#[local] Abbreviation act_tx := (act_tx decodeStrict RecordIntent).
#[local] Abbreviation approve_tx := (approve_tx decodeStrict RecordIntent).
#[local] Abbreviation steps := (rtc (step decodeStrict RecordIntent)).

(** A key settled by a request answers it again. *)
Lemma act_replays draws request db allowed next claim receipt :
  prepare_action request = Ok (allowed, next, claim) -> incomplete claim = false ->
  settled (db_keys db) claim receipt -> receipt_for claim receipt ->
  act_tx draws request db = Ok (Replayed receipt).
Proof.
  intros Hp Hi Hs Hr. unfold Control.act_tx. rewrite Hp. cbn [mbind res_bind].
  destruct (prepare_action_Ok _ _ _ _ Hp) as (_ & _ & Hv & _).
  destruct (ClaimKey_replay _ _ _ Hi Hv Hs Hr) as (c & -> & Hc). cbn [mbind res_bind]. by rewrite Hc.
Qed.

Lemma approve_replays draws request db claim receipt :
  prepare_approval request = Ok claim -> incomplete claim = false ->
  settled (db_keys db) claim receipt -> receipt_for claim receipt ->
  approve_tx draws request db = Ok (Replayed receipt).
Proof.
  intros Hp Hi Hs Hr. unfold Control.approve_tx. rewrite Hp. cbn [mbind res_bind].
  destruct (prepare_approval_Ok _ _ Hp) as (_ & Hv & _).
  destruct (ClaimKey_replay _ _ _ Hi Hv Hs Hr) as (c & -> & Hc). cbn [mbind res_bind]. by rewrite Hc.
Qed.

(** After a commit at a fence no action against that fence, or an older one,
    commits. *)
Lemma fence_passed draws request db row :
  db_rollouts db !! action_RolloutID request = Some row ->
  action_ExpectedFence request < row_FencingGeneration row ->
  forall result db', act_tx draws request db <> Ok (Commits result db').
Proof.
  intros Hrow Hlt result db' (row' & allowed & next & claim & Ha & _)%act_tx_commits.
  pose proof (acted_row _ _ _ _ _ _ _ _ _ Ha) as Hrow'. rewrite Hrow in Hrow'. injection Hrow' as <-.
  pose proof (acted_fence _ _ _ _ _ _ _ _ _ Ha). lia.
Qed.

Lemma act_tx_replay draws request db receipt :
  act_tx draws request db = Ok (Replayed receipt) ->
  exists allowed next claim row, prepare_action request = Ok (allowed, next, claim) /\
    db_keys db !! (claim_scope claim, request_IdempotencyKey claim) = Some row /\
    key_OperationID row <> None /\ receipt_for claim receipt /\
    key_Response row = Some {| persisted_RequestDigest := request_RequestDigest claim;
                               persisted_Receipt := receipt |}.
Proof.
  unfold Control.act_tx. intros E. apply res_bind_Ok in E as ([[allowed next] claim] & Hp & E).
  apply res_bind_Ok in E as ([c keys] & Hk & E).
  destruct (claim_Receipt c) as [r|] eqn:Hc.
  - injection E as ->. destruct (ClaimKey_replayed _ _ _ _ _ Hk Hc) as (row & Hrow).
    by exists allowed, next, claim, row.
  - apply res_bind_Ok in E as (row & _ & E). apply res_bind_Ok in E as (u & _ & E).
    apply res_bind_Ok in E as (db2 & _ & E). apply res_bind_Ok in E as ([[updated db3]|] & _ & E); [|done].
    apply res_bind_Ok in E as (digest & _ & E). apply res_bind_Ok in E as (db6 & _ & E).
    by apply res_bind_Ok in E as (keys' & _ & E).
Qed.

(** When an action commits: its input is sound, its key is free, the rollout is
    there at the expected fence in an allowed state, and the side conditions of
    the action hold; encoding, audit and the generated identifier work. *)
Record ready (draws : Draws) (request : ActionRequest) (db : DB Outbox) (row : RolloutRow)
    (allowed : list string) (next : string) (claim : ClaimRequest) : Prop := {
  ready_input : prepare_action request = Ok (allowed, next, claim);
  ready_claim : incomplete claim = false;
  ready_key : db_keys db !! (claim_scope claim, request_IdempotencyKey claim) ≫= key_OperationID = None;
  ready_row : db_rollouts db !! action_RolloutID request = Some row;
  ready_project : db_targets db !! row_TargetID row = Some (action_ProjectID request);
  ready_fence : row_FencingGeneration row = action_ExpectedFence request;
  ready_bounded : action_ExpectedFence request < MaxInt64;
  ready_state : row_State row ∈ allowed;
  ready_rollback : action_Action request = ActionRollback -> exists plan,
    decodeFrozenPlan decodeStrict row = Ok plan /\
    Forall (fun c => planned_Previous c <> None) (plan_Clusters plan);
  ready_retry : action_Action request = ActionRetry ->
    retried (action_RolloutID request) db <> [] /\
    (forall q, q ∈ retried (action_RolloutID request) db ->
       cluster_fits (reset_cluster (draw_dbnow draws) q.2) = true) /\
    row_RuntimeGeneration row + len (retried (action_RolloutID request) db) <= MaxInt64 /\
    (forall k r, db_rollouts db !! k = Some r -> row_RuntimeGeneration r <= MaxInt64);
  ready_digest : is_ok (actionDigest (action_RolloutID request) (action_ExpectedFence request)
    (action_Action request) (action_ActorID request) (action_reason request)) = true;
  ready_audit : is_ok (RecordIntent (db_audit db) (audited (action_Audit request)
    (transitioned next (action_reason request) (draw_dbnow draws)
       (bumped (draw_dbnow draws) (resets request db) row)))) = true;
  ready_event : draw_eventID draws <> uuid_Nil;
}.

Lemma action_effects_ready draws request db row allowed next claim keys :
  ready draws request db row allowed next claim ->
  exists db', action_effects decodeStrict (draw_dbnow draws) request row (with_keys db keys) = Ok db'.
Proof.
  intros Hr. unfold action_effects. destruct (action_Action request == ActionRollback) eqn:Eb; bool_props.
  - destruct (ready_rollback _ _ _ _ _ _ _ Hr Eb) as (plan & -> & Hall). cbn.
    destruct (List.existsb _ _) eqn:Ex; [|by eexists].
    apply List.existsb_exists in Ex as (c & Hc%list_elem_of_In & Hn%bool_decide_eq_true).
    by destruct (proj1 (Forall_forall _ _) Hall c Hc).
  - destruct (action_Action request == ActionRetry) eqn:Er; bool_props; [|by eexists].
    destruct (ready_retry _ _ _ _ _ _ _ Hr Er) as (Hne & Hfit & Hgen & Hall).
    destruct (ResetRetryable_fits (with_keys db keys) (action_RolloutID request) (draw_dbnow draws))
      as [db' ->]; [done| |done|].
    + cbn. intros r. rewrite (ready_row _ _ _ _ _ _ _ Hr). by intros [= <-].
    + cbn. rewrite (proj2 (Z.eqb_neq _ _)); [by eexists|]. intros Hl. apply Hne.
      change (retried (action_RolloutID request) db) with (retried (action_RolloutID request) (with_keys db keys)).
      unfold len in Hl. by destruct (retried _ _).
Qed.

Lemma prepare_action_audit request x : prepare_action request = Ok x -> Intent_IsZero (action_Audit request) = false.
Proof. unfold prepare_action. intros E. by res_inv. Qed.

Lemma statusURL_nonempty a b : statusURL a b <> "".
Proof. done. Qed.

Lemma ready_commits draws request db row allowed next claim :
  ready draws request db row allowed next claim ->
  exists result db', act_tx draws request db = Ok (Commits result db').
Proof.
  intros Hr. pose proof (ready_input _ _ _ _ _ _ _ Hr) as Hp.
  destruct (prepare_action_Ok _ _ _ _ Hp) as (_ & _ & Hv & _).
  set (receipt := NewReceipt (draw_eventID draws) ("rollout." +:+ action_Action request)
    "delivery_rollout" (action_RolloutID request) (action_ProjectID request)
    (statusURL (action_RolloutID request) (action_ProjectID request)) (draw_now draws 2)).
  destruct (ClaimKey_free (db_keys db) claim receipt) as (c & keys1 & keys2 & Hk & Hc & Ha);
    [by apply Hr | done | by apply Hr | by apply Hr | apply statusURL_nonempty |].
  destruct (action_effects_ready _ _ _ _ _ _ _ keys1 Hr) as [db2 He].
  destruct (action_effects_Ok _ _ _ _ _ _ He) as (_ & _ & _ & Hdb2).
  destruct (bumped_columns (draw_dbnow draws) _ row (resets_nonneg request db)) as (_ & Bf & _ & Bs & _).
  destruct (is_ok_Ok _ (ready_digest _ _ _ _ _ _ _ Hr)) as [digest Hd].
  destruct (is_ok_Ok _ (ready_audit _ _ _ _ _ _ _ Hr)) as [outbox Ho].
  unfold Control.act_tx. rewrite Hp. cbn [mbind res_bind]. rewrite Hk. cbn [mbind res_bind]. rewrite Hc.
  rewrite (proj2 (GetDeliveryRolloutForAction_Ok (with_keys db keys1) _ _ row)) by (split; apply Hr).
  cbn [mbind res_bind]. rewrite (ready_fence _ _ _ _ _ _ _ Hr), Z.eqb_refl. cbn [negb fail_if mbind res_bind].
  rewrite He. cbn [mbind res_bind].
  rewrite (TransitionDeliveryRolloutCAS_fits _ _ _ _ _ _ _ (bumped (draw_dbnow draws) (resets request db) row));
    [|rewrite Hdb2; cbn; by rewrite lookup_alter_eq, (ready_row _ _ _ _ _ _ _ Hr)
     |rewrite Bf; apply Hr | rewrite Bs; apply Hr | apply Hr].
  cbn [mbind res_bind]. rewrite Hd. cbn [mbind res_bind]. unfold persistAudit.
  rewrite (prepare_action_audit _ _ Hp). cbn [fail_if mbind res_bind].
  unfold enqueueControl, UpsertTaskOutbox. rewrite Hdb2.
  cbn -[bumped resets audited transitioned NewReceipt Attach]. rewrite Ho.
  cbn -[bumped resets audited transitioned NewReceipt Attach]. fold receipt. rewrite Ha. cbn. by eexists _, _.
Qed.

(** C12: user control of a rollout is exactly-once and fenced, on every branch.
    An action that commits found the rollout in the caller's project, at the
    fence the caller saw and in a state the action allows; it moves exactly that
    rollout to the action's next state under the next fence, appends exactly one
    event, resets exactly the retryable clusters on a retry, and demands a
    frozen previous version of every cluster on a rollback.  Whatever requests,
    faults and other writers follow, repeating the request changes nothing and
    returns the receipt of the commit, and no action made against the same or an
    older fence of the rollout commits any more.  A replay returns the receipt
    its key holds for this very request.  An error means that some condition of
    committing did not hold. *)
Theorem Act_exactly_once draws request db :
  match act_tx draws request db with
  | Ok (Commits result db1) =>
      (exists row allowed next, acted decodeStrict draws request db result db1 row allowed next) /\
      forall db2, steps db1 db2 ->
        (forall draws' fault, Act decodeStrict RecordIntent draws' fault request db2 =
           (retry_answer fault (result_Receipt result), db2)) /\
        (forall draws' request' result' db', action_RolloutID request' = action_RolloutID request ->
           action_ExpectedFence request' <= action_ExpectedFence request ->
           act_tx draws' request' db2 <> Ok (Commits result' db'))
  | Ok (Replayed receipt) =>
      exists allowed next claim row, prepare_action request = Ok (allowed, next, claim) /\
        db_keys db !! (claim_scope claim, request_IdempotencyKey claim) = Some row /\
        key_OperationID row <> None /\ receipt_for claim receipt /\
        key_Response row = Some {| persisted_RequestDigest := request_RequestDigest claim;
                                   persisted_Receipt := receipt |}
  | Err _ => forall row allowed next claim, ~ ready draws request db row allowed next claim
  end.
Proof.
  destruct (act_tx draws request db) as [[receipt|result db1]|e] eqn:Hact.
  - by eapply act_tx_replay.
  - destruct (act_tx_commits _ _ _ _ _ _ _ Hact)
      as (row & allowed & next & claim & Ha & Hp & Hi & _ & Hs & Hr).
    split; [by exists row, allowed, next|]. intros db2 Hsteps.
    destruct (steps_keep _ _ _ _ Hsteps) as [Hkeys Hrows]. split.
    + intros draws' fault. unfold Act. erewrite act_replays; [apply run_replay | done | done | | done].
      by eapply settled_kept.
    + intros draws' request' result' db' Hid Hle.
      destruct (Hrows (action_RolloutID request) (result_Rollout result)) as (row2 & Hrow2 & [_ Hle2 _ _]).
      { rewrite (acted_rollouts _ _ _ _ _ _ _ _ _ Ha). apply lookup_insert_eq. }
      apply (fence_passed _ _ _ row2); [by rewrite Hid|].
      rewrite (acted_result _ _ _ _ _ _ _ _ _ Ha) in Hle2. cbn in Hle2.
      destruct (bumped_columns (draw_dbnow draws) _ row (resets_nonneg request db)) as (_ & Bf & _).
      pose proof (acted_fence _ _ _ _ _ _ _ _ _ Ha). lia.
  - intros row allowed next claim Hr. destruct (ready_commits _ _ _ _ _ _ _ Hr) as (r & d & E). congruence.
Qed.

(** C14: an approval binds exactly the frozen gate it names.  A decision that
    commits carries the digest the plan froze for that gate, holds for at most a
    day, is recorded once, and moves the rollout only at the initial gate, from
    awaiting approval to queued or rejected; a rejection queues no work.
    Whatever follows, repeating the request returns its receipt and changes
    nothing. *)
Theorem Approve_binds_gate draws request db result db1 db2 :
  approve_tx draws request db = Ok (Commits result db1) -> steps db1 db2 ->
  (exists row plan, approved decodeStrict draws request db result db1 row plan) /\
  (forall draws' fault, Approve decodeStrict RecordIntent draws' fault request db2 =
     (retry_answer fault (result_Receipt result), db2)).
Proof.
  intros Happ Hsteps.
  destruct (approve_tx_commits _ _ _ _ _ _ _ Happ) as (row & plan & claim & Ha & Hp & Hi & _ & Hs & Hr).
  destruct (steps_keep _ _ _ _ Hsteps) as [Hkeys _]. split; [by exists row, plan|].
  intros draws' fault. unfold Approve. erewrite approve_replays; [apply run_replay | done | done | | done].
  by eapply settled_kept.
Qed.
End facts.

(** ** Examples *)

(** A queued rollout of one target, no cluster rows, an outbox that lists its
    intents. *)
Definition example_row (state plan : string) : RolloutRow := {|
  row_ID := UUID "rollout"; row_TargetID := UUID "target"; row_TargetGeneration := 3;
  row_ToBundleVersionID := UUID "version"; row_PlacementDigest := PlannerFacts.example_preview;
  row_StrategyDigest := ""; row_PlanDigest := ""; row_RequestDigest := ""; row_IdempotencyKey := "key";
  row_FrozenPlan := plan; row_OnFailure := "pause"; row_State := state; row_FencingGeneration := 7;
  row_RuntimeGeneration := 1; row_LeaseOwner := "worker"; row_LeaseExpiresAt := Some 90;
  row_LastDecisionDigest := ""; row_Counters := count_columns []; row_StartedAt := None;
  row_CompletedAt := None; row_LastErrorCode := ""; row_UpdatedAt := 60 |}.

Definition example_db (row : RolloutRow) : DB (list Intent) := {|
  db_rollouts := {[UUID "rollout" := row]}; db_targets := {[UUID "target" := UUID "project"]};
  db_clusters := ∅; db_events := []; db_approvals := []; db_tasks := ∅; db_audit := []; db_keys := ∅;
  db_deployments := ∅; db_deploymentEvents := []; db_connections := ∅; db_labels := ∅ |}.

Definition example_intent : Intent :=
  {| intent_Action := "delivery.rollout.control"; intent_ResourceID := ""; intent_Detail := ∅;
     intent_DedupeKey := "dedupe" |}.

Definition example_draws (event approval : string) : Draws := {|
  draw_now n := 100 + Z.of_nat n; draw_dbnow := 99; draw_eventID := UUID event;
  draw_approvalID := UUID approval |}.

Definition example_record (outbox : list Intent) (intent : Intent) : res (list Intent) := Ok (intent :: outbox).

Definition example_action (action key : string) (fence : Z) : ActionRequest := {|
  action_ProjectID := UUID "project"; action_RolloutID := UUID "rollout"; action_ExpectedFence := fence;
  action_Action := action; action_ActorID := Some (UUID "actor"); action_ReasonCode := "";
  action_IdempotencyKey := key; action_Audit := example_intent |}.

(** A pause whose answer is lost is retried and replayed; another action at the
    old fence fails; a resume at the new one works. *)
Definition example_runs : list bool :=
  let act draws fault r db := @Act Concrete.external _ (fun _ => None) example_record draws fault r db in
  let db0 := example_db (example_row "queued" "") in
  let r1 := act (example_draws "e1" "") (ReplyLost EPanic) (example_action "pause" "k1" 7) db0 in
  let r2 := act (example_draws "e2" "") Works (example_action "pause" "k1" 7) r1.2 in
  let r3 := act (example_draws "e3" "") Works (example_action "abort" "k2" 7) r2.2 in
  let r4 := act (example_draws "e4" "") Works (example_action "resume" "k3" 8) r3.2 in
  [match r1.1 with AnswerError EPanic => true | _ => false end;
   match r2.1 with AnswerReplay receipt => receipt_OperationID receipt == UUID "e1" | _ => false end;
   match r3.1 with AnswerError (ERollout CodeStaleFence _ _) => true | _ => false end;
   match r4.1 with AnswerDone result => row_State (result_Rollout result) == "queued" | _ => false end;
   map event_ToState (db_events r4.2) == ["paused"; "queued"]].

Lemma example_control : example_runs = [true; true; true; true; true].
Proof. vm_compute. reflexivity. Qed.

(** The initial approval of the plan the planner froze. *)
Definition plan_row (plan : FrozenRollout) : RolloutRow := {|
  row_ID := plan_ID plan; row_TargetID := plan_TargetID plan;
  row_TargetGeneration := Z.of_N (plan_TargetGeneration plan);
  row_ToBundleVersionID := version_BundleVersionID (plan_Desired plan);
  row_PlacementDigest := plan_PlacementDigest plan; row_StrategyDigest := plan_StrategyDigest plan;
  row_PlanDigest := plan_PlanDigest plan; row_RequestDigest := plan_RequestDigest plan;
  row_IdempotencyKey := plan_IdempotencyKey plan; row_FrozenPlan := "stored";
  row_OnFailure := "pause"; row_State := "awaiting_approval"; row_FencingGeneration := 1;
  row_RuntimeGeneration := 1; row_LeaseOwner := ""; row_LeaseExpiresAt := None;
  row_LastDecisionDigest := ""; row_Counters := count_columns []; row_StartedAt := None;
  row_CompletedAt := None; row_LastErrorCode := ""; row_UpdatedAt := 60 |}.

Definition example_approval (plan : FrozenRollout) : ApprovalRequest := {|
  approve_ProjectID := UUID "project"; approve_RolloutID := UUID "rollout"; approve_ExpectedFence := 1;
  approve_Cohort := -1; approve_BindingDigest := approval_Digest (plan_Approval plan);
  approve_Decision := "approved"; approve_ActorID := Some (UUID "actor"); approve_ExpiresAt := 200;
  approve_IdempotencyKey := "k"; approve_Audit := example_intent |}.

Definition example_approve (plan : FrozenRollout) : res (TxResult (Outbox := list Intent)) :=
  @approve_tx Concrete.external _ (fun _ => Some plan) example_record (example_draws "e1" "a1")
    (example_approval plan) (example_db (plan_row plan)).

Lemma example_approves : exists plan result db1, example_approve plan = Ok (Commits result db1).
Proof.
  assert (E : match PlannerFacts.example_planned with
              | Ok (plan, _) => match example_approve plan with Ok (Commits _ _) => true | _ => false end
              | Err _ => false
              end = true) by (vm_compute; reflexivity).
  destruct PlannerFacts.example_planned as [[plan ds]|]; [|done].
  destruct (example_approve plan) as [[receipt|result db1]|] eqn:Ea; [done| |done]. by exists plan, result, db1.
Qed.

Lemma Approve_binds_gate_witness :
  exists plan result db1, example_approve plan = Ok (Commits result db1) /\
    forall draws fault, @Approve Concrete.external _ (fun _ => Some plan) example_record draws fault
      (example_approval plan) db1 = (retry_answer fault (result_Receipt result), db1).
Proof.
  destruct example_approves as (plan & result & db1 & E). exists plan, result, db1. split; [exact E|].
  exact (proj2 (@Approve_binds_gate Concrete.external _ (fun _ => Some plan) example_record
    (example_draws "e1" "a1") (example_approval plan) (example_db (plan_row plan)) result db1 db1 E
    (rtc_refl _ db1))).
Defined.

(** Three moves of the controller are no edges of the transition table. *)
Definition control_edges : list (string * string) :=
  flat_map (fun action => match actionTransition action with
                          | Ok (allowed, next) => map (fun from => (from, next)) allowed
                          | Err _ => []
                          end) [ActionPause; ActionResume; ActionAbort; ActionRetry; ActionRollback].

Definition table_edges : list (string * string) :=
  flat_map (fun from => map (fun to => (RolloutState_string from, RolloutState_string to))
                            (State.rolloutTransitions from)) AllRolloutStates.

Lemma control_edges_off_table :
  List.filter (fun e => negb (contains table_edges e)) control_edges =
  [("resolving", "paused"); ("failed", "aborted"); ("failed", "queued")].
Proof. vm_compute. reflexivity. Qed.
End ControlFacts.
