(* ===== verification/Reconciler.v ===== *)
(** * The rollout reconciler (internal/delivery/rollout/postgres_reconciler.go)

    A reconciler claims a rollout, reads its runtime rows (from a cache while the
    runtime generation is unchanged), its approvals and the maintenance windows,
    runs the scheduler and commits the decision in one transaction that holds the
    rollout's row.  Other writers run between these steps: they are functions on
    the database that a turn of the reconciler takes as arguments, as are the
    clocks it reads and the identifiers the database generates. *)

From Stdlib Require Import ZArith Lia.
From S2P Require Import Prelude Enums State SafeConv GoSort GoStrings External Validation Model Types.
From S2P Require Import Overrides RolloutTypes Planner Scheduler Maintenance AsyncOp DeliveryStore.
From stdpp Require Import base gmap strings list.
Import Overrides Model Types RolloutTypes Planner Scheduler Maintenance DeliveryStore.

Open Scope Z_scope.

Module Reconciler.

Definition defaultReconcileLease : duration := 30 * second.
Definition defaultSweepLimit : Z := 16.
Definition maxRuntimeCacheEntries : Z := 1024.
Definition OpDeliveryRollout : string := "delivery.rollout".

Definition nullableDigest (value : string) : option string := if value == "" then None else Some value.

(** A zero [time.Time] is stored as NULL. *)
Definition timestamptz (value : time) : option time := if value =? 0 then None else Some value.

Record runtimeCacheEntry := {
  entry_generation : Z;
  entry_rows : list RuntimeRow;
  entry_usedAt : time;
}.

Record Reconciler := {
  rec_owner : string;
  rec_lease : duration;
  rec_cache : gmap uuid runtimeCacheEntry;
}.

Definition with_cache (r : Reconciler) (cache : gmap uuid runtimeCacheEntry) : Reconciler :=
  {| rec_owner := rec_owner r; rec_lease := rec_lease r; rec_cache := cache |}.

(** ** The runtime cache *)

Definition cachedRuntime (cache : gmap uuid runtimeCacheEntry) (rolloutID : uuid) (generation : Z)
    (now : time) : option (list RuntimeRow * gmap uuid runtimeCacheEntry) :=
  match cache !! rolloutID with
  | Some cached =>
      if entry_generation cached =? generation
      then Some (entry_rows cached,
                 <[rolloutID := {| entry_generation := entry_generation cached;
                                   entry_rows := entry_rows cached; entry_usedAt := now |}]> cache)
      else None
  | None => None
  end.

(** The loop over the map that looks for the entry used longest ago. *)
Definition older (oldest : uuid * time) (p : uuid * runtimeCacheEntry) : uuid * time :=
  if (oldest.1 == uuid_Nil) || (entry_usedAt p.2 <? oldest.2) then (p.1, entry_usedAt p.2) else oldest.

(** [order] is the order in which the map is iterated. *)
Definition storeRuntime (order : gmap uuid runtimeCacheEntry -> list (uuid * runtimeCacheEntry))
    (cache : gmap uuid runtimeCacheEntry) (rolloutID : uuid) (generation : Z) (rows : list RuntimeRow)
    (now : time) : gmap uuid runtimeCacheEntry :=
  let cache' :=
    if bool_decide (cache !! rolloutID = None) && (maxRuntimeCacheEntries <=? Z.of_nat (size cache))
    then delete (foldl older (uuid_Nil, 0) (order cache)).1 cache
    else cache in
  <[rolloutID := {| entry_generation := generation; entry_rows := rows; entry_usedAt := now |}]> cache'.

(** ** Rows to values *)

Definition AssignmentAction_of (text : string) : AssignmentAction :=
  if text == "apply" then AssignmentApply
  else if text == "rollback" then AssignmentRollback
  else AssignmentOther text.

Definition cluster_runtime (row : RuntimeRow) : res ClusterRuntime :=
  let c := runtime_Cluster row in
  let stateValue := RolloutClusterState_of (cluster_State c) in
  fail_if (negb (RolloutClusterState_Valid stateValue))
    (fail CodeInvariant "rollout_cluster.state" "stored state is invalid");;
  let lastAction := AssignmentAction_of (cluster_AssignmentAction c) in
  fail_if ((lastAction != AssignmentApply) && (lastAction != AssignmentRollback))
    (fail CodeInvariant "rollout_cluster.assignment_action" "stored action is invalid");;
  Ok {| runtime_ClusterID := cluster_ClusterID c; runtime_State := stateValue;
        runtime_Fence := cluster_Fence c; runtime_Connected := runtime_IsConnected row;
        runtime_Available := match runtime_Deployment row with
                             | None => true
                             | Some d => deployment_Phase d == DeploymentPhase_string DeploymentReady
                             end;
        runtime_ReadySince := cluster_ReadyAt c; runtime_StateChangedAt := cluster_UpdatedAt c;
        runtime_Deadline := default 0 (cluster_Deadline c);
        runtime_CurrentGeneration := from_option deployment_DesiredGeneration 0 (runtime_Deployment row);
        runtime_EverReleased := bool_decide (is_Some (cluster_ReleasedAt c));
        runtime_LastAction := lastAction |}.

Abbreviation RowMap := (gmap uuid RuntimeRow).

Definition add_row (st : list ClusterRuntime * RowMap) (row : RuntimeRow) : res (list ClusterRuntime * RowMap) :=
  cluster ← cluster_runtime row;
  Ok (st.1 ++ [cluster], <[cluster_ClusterID (runtime_Cluster row) := row]> st.2).

Definition runtimeFromRows (plan : FrozenRollout) (claimed : RolloutRow) (rows : list RuntimeRow) :
    res (RuntimeSnapshot * RowMap) :=
  st ← res_foldl add_row ([], ∅) rows;
  let rolloutState := RolloutState_of (row_State claimed) in
  fail_if (negb (RolloutState_Valid rolloutState))
    (fail CodeInvariant "rollout.state" "stored state is invalid");;
  Ok ({| snapshot_Plan := plan; snapshot_State := rolloutState;
         snapshot_Fence := row_FencingGeneration claimed; snapshot_Clusters := st.1 |}, st.2).

Definition approval_decision (row : ApprovalRow) : ApprovalDecision := {|
  decision_ID := approval_ID row; decision_BindingDigest := approval_BindingDigest row;
  decision_Approved := approval_Decision row == "approved";
  decision_DecidedAt := approval_DecidedAt row; decision_ExpiresAt := approval_ExpiresAt row |}.

(** A later row of a gate replaces an earlier one. *)
Definition add_approval (st : option ApprovalDecision * gmap Z ApprovalDecision) (row : ApprovalRow) :
    option ApprovalDecision * gmap Z ApprovalDecision :=
  if approval_Cohort row =? -1 then (Some (approval_decision row), st.2)
  else (st.1, <[approval_Cohort row := approval_decision row]> st.2).

Definition approvalsFromRows (rows : list ApprovalRow) :
    option ApprovalDecision * gmap Z ApprovalDecision :=
  foldl add_approval (None, ∅) rows.

Definition openGate : MaintenanceGate :=
  {| gate_Open := true; gate_OverrideAuthorized := false; gate_OverrideReason := "" |}.
Definition closedGate : MaintenanceGate :=
  {| gate_Open := false; gate_OverrideAuthorized := false; gate_OverrideReason := "" |}.

Section gate.
Context `{Cron}.
(** encoding/json into a map of strings *)
Context (json_Map : string -> option (gmap string string)).

(** The loop over the rows; [windows n] is what the evaluator returns to the
    [n]-th question. *)
Fixpoint gate_rows (windows : nat -> res (list Window)) (rows : list RuntimeRow) (now : time) :
    res MaintenanceGate :=
  match rows with
  | [] => Ok openGate
  | row :: rest =>
      let stateValue := RolloutClusterState_of (cluster_State (runtime_Cluster row)) in
      if (stateValue != RolloutClusterPending) && (stateValue != RolloutClusterBlocked)
      then gate_rows windows rest now
      else
        match json_Map (runtime_Labels row) with
        | None => Err (fail CodeInvariant "cluster.labels" "stored labels are invalid")
        | Some labels =>
            blocked ← IsBlocked (windows 0%nat) OpDeliveryRollout labels now;
            if (blocked.1 : bool) then Ok closedGate else gate_rows (fun n => windows (S n)) rest now
        end
  end.

Definition maintenanceGate (windows : nat -> res (list Window)) (plan : FrozenRollout)
    (rows : list RuntimeRow) (now : time) : res MaintenanceGate :=
  if negb (RespectMaintenanceWindows (plan_Strategy plan)) then Ok openGate
  else gate_rows windows rows now.
End gate.

(** ** The decision transaction *)

Section reconciler.
Context `{External} `{Cron} {Outbox : Type}.
Context (decodeStrict : string -> option FrozenRollout) (json_Map : string -> option (gmap string string)).

#[local] Abbreviation DB := (DB Outbox).

(** What the decision transaction draws: its own clock, the database's and the
    identifiers the database generates. *)
Record Draws := {
  draw_dbnow : time;
  draw_eventID : nat -> uuid;
  draw_deploymentID : uuid -> uuid;
}.

Section apply.
Context (draws : Draws) (owner : string) (claimed : RolloutRow) (plan : FrozenRollout).
Context (rowByCluster : RowMap) (decision : Decision) (now : time).

Definition appendRolloutEvent (db : DB) (clusterID : uuid) (eventType from to reason : string) (fence : Z) : DB :=
  CreateDeliveryRolloutEvent db {|
    event_ID := draw_eventID draws (length (db_events db)); event_RolloutID := row_ID claimed;
    event_ClusterID := if clusterID == uuid_Nil then None else Some clusterID;
    event_DecisionDigest := decision_Digest decision; event_EventType := eventType;
    event_FromState := from; event_ToState := to; event_ReasonCode := reason;
    event_Fence := fence; event_OccurredAt := now |}.

Definition apply_transition (db : DB) (transition : ClusterTransition) : res DB :=
  match rowByCluster !! ct_ClusterID transition with
  | None => Err (fail CodeInvariant "cluster_transition" "cluster is absent from runtime snapshot")
  | Some row =>
      let from := RolloutClusterState_string (ct_From transition) in
      let to := RolloutClusterState_string (ct_To transition) in
      moved ← ApplyDeliveryRolloutClusterTransitionCAS db to (ct_Code transition) (runtime_ID row) from
                (ct_ExpectedFence transition) owner (row_FencingGeneration claimed) (draw_dbnow draws);
      Ok (appendRolloutEvent moved.2 (ct_ClusterID transition) "cluster_transition" from to
            (ct_Code transition) (cluster_Fence moved.1))
  end.

(** The frozen row of the plan the stored release order names. *)
Definition planned_row (row : RuntimeRow) (release : Release) : res PlannedCluster :=
  let order := cluster_ReleaseOrder (runtime_Cluster row) in
  fail_if ((order <? 0) || (len (plan_Clusters plan) <=? order))
    (fail CodeInvariant "release_order" "stored release order is outside the frozen plan");;
  match plan_Clusters plan !! Z.to_nat order with
  | None => Err EPanic
  | Some planned =>
      fail_if (planned_ClusterID planned != release_ClusterID release)
        (fail CodeInvariant "release_order" "stored release order does not identify the released cluster");;
      Ok planned
  end.

Definition desired_of (planned : PlannedCluster) (release : Release) : res Desired :=
  let version := release_Version release in
  desiredOverrides ←
    match json_Marshal (to_json (version_Overrides version)) with
    | Some text => Ok text
    | None => Err (EText "marshal desired overrides")
    end;
  rendererSpec ←
    match version_Renderer version with
    | None => Ok None
    | Some renderer =>
        match json_Marshal (to_json renderer) with
        | Some text => Ok (Some text)
        | None => Err (fail CodeInvariant "renderer" "frozen renderer cannot be encoded")
        end
    end;
  Ok {| desired_RolloutID := plan_ID plan;
        desired_BundleVersionID := version_BundleVersionID version;
        desired_PreviousBundleVersionID :=
          (fun p => version_BundleVersionID (previous_Version p)) <$> planned_Previous planned;
        desired_Generation := release_Generation release;
        desired_SpecDigest := version_Digest version; desired_Overrides := desiredOverrides;
        desired_Revision := revision_Value (resolved_Revision (version_Source version));
        desired_RendererSpec := rendererSpec;
        desired_ConfigurationDigest := nullableDigest (version_ConfigurationDigest version);
        desired_Action := "apply"; desired_Phase := DeploymentPhase_string DeploymentPending |}.

Definition apply_release (db : DB) (release : Release) : res DB :=
  match rowByCluster !! release_ClusterID release with
  | None => Err (fail CodeInvariant "release" "cluster is absent from runtime snapshot")
  | Some row =>
      planned ← planned_row row release;
      desired ← desired_of planned release;
      upsert ← UpsertClusterDeploymentDesired db (plan_TargetID plan) (release_ClusterID release) desired
                 (draw_deploymentID draws (release_ClusterID release)) (draw_dbnow draws);
      let action := AssignmentAction_string (release_Action release) in
      let from := RolloutClusterState_string (release_FromState release) in
      let to := RolloutClusterState_string (release_ToState release) in
      released ← ReleaseDeliveryRolloutClusterCAS upsert.2 to action (timestamptz (release_Deadline release))
                   (runtime_ID row) from (release_ExpectedFence release) owner
                   (row_FencingGeneration claimed) (draw_dbnow draws);
      let db' := CreateClusterDeploymentEvent released.2 {|
        devent_DeploymentID := deployment_ID upsert.1; devent_RolloutID := Some (plan_ID plan);
        devent_EventType := "desired_release";
        devent_FromPhase := from_option deployment_Phase "" (runtime_Deployment row);
        devent_ToPhase := DeploymentPhase_string DeploymentPending;
        devent_Generation := release_Generation release;
        devent_SpecDigest := version_Digest (release_Version release);
        devent_ReasonCode := action; devent_Message := ""; devent_ObservedAt := now |} in
      Ok (appendRolloutEvent db' (release_ClusterID release) "cluster_released" from to action
            (cluster_Fence released.1))
  end.

Definition shouldWakeAgain : bool :=
  if (len (decision_Releases decision) != 0) || (len (decision_ClusterTransitions decision) != 0) then true
  else
    match decision_RolloutTransition decision with
    | None => false
    | Some transition =>
        match rt_To transition with
        | RolloutQueued | RolloutProgressing | RolloutRollingBack => true
        | RolloutFailed => OnFailure (plan_Strategy plan) == FailureRollback
        | _ => false
        end
    end.

Definition enqueueRolloutWake (db : DB) (at_ : time) : DB :=
  UpsertTaskOutbox db ("delivery-rollout:" +:+ uuid_String (row_ID claimed) +:+ ":" +:+ decision_Digest decision)
    (row_ID claimed) at_.

(** The end of the transaction: counters, the rollout itself and the next wake. *)
Definition recompute (db : DB) : res DB :=
  if (len (decision_ClusterTransitions decision) != 0) || (len (decision_Releases decision) != 0)
  then RecomputeDeliveryRolloutCounters db (row_ID claimed) (draw_dbnow draws)
  else Ok db.

Definition apply_rollout (db : DB) : res DB :=
  match decision_RolloutTransition decision with
  | Some transition =>
      let from := RolloutState_string (rt_From transition) in
      let to := RolloutState_string (rt_To transition) in
      db' ← ApplyDeliveryRolloutTransitionCAS db to (decision_Digest decision) (rt_Code transition)
              (row_ID claimed) from owner (rt_ExpectedFence transition) (draw_dbnow draws);
      Ok (appendRolloutEvent db' uuid_Nil "rollout_transition" from to (rt_Code transition)
            (rt_ExpectedFence transition))
  | None =>
      ReleaseDeliveryRolloutLease db (decision_Digest decision) (row_ID claimed) owner
        (row_FencingGeneration claimed) (draw_dbnow draws)
  end.

Definition applyDecision (runtimeGeneration : Z) (db : DB) : res DB :=
  locked ← GetClaimedDeliveryRolloutForUpdate db (row_ID claimed) owner (row_FencingGeneration claimed)
             runtimeGeneration (draw_dbnow draws);
  fail_if ((row_State locked != row_State claimed) || (row_PlanDigest locked != row_PlanDigest claimed))
    (fail CodeStaleFence "rollout" "state or plan changed after evaluation");;
  db1 ← res_foldl apply_transition db (decision_ClusterTransitions decision);
  db2 ← res_foldl apply_release db1 (decision_Releases decision);
  db3 ← recompute db2;
  db4 ← apply_rollout db3;
  Ok (if shouldWakeAgain then enqueueRolloutWake db4 (now + second) else db4).
End apply.

(** ** A turn of the reconciler *)

(** What surrounds a turn: the other writers between its steps, the errors of its
    reads, the clocks, the windows and the fate of its transaction. *)
Inductive Fault := Works | Fails (e : error) | ReplyLost (e : error).

Record Turn := {
  turn_beforeLoad : DB -> DB;
  turn_beforeApprovals : DB -> DB;
  turn_beforeApply : DB -> DB;
  turn_loadFault : option error;
  turn_approvalFault : option error;
  turn_fault : Fault;
  turn_cacheNow : time;
  turn_now : time;
  turn_windows : nat -> res (list Window);
  turn_order : gmap uuid runtimeCacheEntry -> list (uuid * runtimeCacheEntry);
  turn_draws : Draws;
}.

Definition or_fault {A} (fault : option error) (r : res A) : res A :=
  match fault with Some e => Err e | None => r end.

(** The query of [loadRuntime]: the rows, their generation and the cache
    afterwards. *)
Definition queryRuntime (turn : Turn) (cache : gmap uuid runtimeCacheEntry) (claimed : RolloutRow) (db : DB) :
    res (list RuntimeRow * Z) * gmap uuid runtimeCacheEntry :=
  match turn_loadFault turn with
  | Some e => (Err e, cache)
  | None =>
      let rows := ListDeliveryRolloutRuntime db (row_ID claimed) (MaxRolloutClusters + 1) in
      if MaxRolloutClusters <? len rows
      then (Err (fail CodeInvariant "rollout.runtime" "exceeds runtime evaluation limit"), cache)
      else
        match rows with
        | [] => (Ok ([], row_RuntimeGeneration claimed), cache)
        | first :: rest =>
            let generation := runtime_Generation first in
            if existsb (fun r => runtime_Generation r != generation) rest
            then (Err (fail CodeInvariant "runtime_generation"
                         "runtime snapshot contains mixed generations"), cache)
            else (Ok (rows, generation),
                  storeRuntime (turn_order turn) cache (row_ID claimed) generation rows
                    (turn_cacheNow turn))
        end
  end.

Definition loadRuntime (turn : Turn) (cache : gmap uuid runtimeCacheEntry) (claimed : RolloutRow) (db : DB) :
    res (list RuntimeRow * Z) * gmap uuid runtimeCacheEntry :=
  if MaxRolloutClusters <? counter_Total (row_Counters claimed)
  then (Err (fail CodeInvariant "rollout.total_clusters" "exceeds runtime evaluation limit"), cache)
  else
    match cachedRuntime cache (row_ID claimed) (row_RuntimeGeneration claimed) (turn_cacheNow turn) with
    | Some (rows, cache') => (Ok (rows, row_RuntimeGeneration claimed), cache')
    | None => queryRuntime turn cache claimed db
    end.

(** The input of the scheduler: a snapshot of the rows, the approvals and the
    maintenance gate. *)
Definition evaluate_input (turn : Turn) (owner : string) (plan : FrozenRollout) (claimed : RolloutRow)
    (rows : list RuntimeRow) (approvals : res (list ApprovalRow)) : res (EvaluateInput * RowMap) :=
  snapshot ← runtimeFromRows plan claimed rows;
  approvalRows ← approvals;
  gate ← maintenanceGate json_Map (turn_windows turn) plan rows (turn_now turn);
  Ok ({| input_Now := turn_now turn; input_Snapshot := snapshot.1;
         input_Lease := {| lease_Owner := owner; lease_Fence := row_FencingGeneration claimed;
                           lease_ExpiresAt := default 0 (row_LeaseExpiresAt claimed) |};
         input_InitialApproval := (approvalsFromRows approvalRows).1;
         input_CohortApprovals := (approvalsFromRows approvalRows).2;
         input_Maintenance := gate |}, snapshot.2).

Record Outcome := {
  out_rec : Reconciler;
  out_err : option error;
  out_db : DB;
}.

(** [reconcileClaimed]: every error leaves the tables to the other writers. *)
Definition reconcileClaimed (turn : Turn) (r : Reconciler) (claimed : RolloutRow) (db : DB) : Outcome :=
  let stop := fun r e db => {| out_rec := r; out_err := Some e; out_db := db |} in
  match decodeFrozenPlan decodeStrict claimed with
  | Err e => stop r e db
  | Ok plan =>
      let db1 := turn_beforeLoad turn db in
      let loaded := loadRuntime turn (rec_cache r) claimed db1 in
      let r' := with_cache r loaded.2 in
      match loaded.1 with
      | Err e => stop r' e db1
      | Ok (rows, generation) =>
          let db2 := turn_beforeApprovals turn db1 in
          let evaluated :=
            input ← evaluate_input turn (rec_owner r) plan claimed rows
                      (or_fault (turn_approvalFault turn)
                         (Ok (ListDeliveryRolloutApprovals db2 (row_ID claimed))));
            decision ← Evaluate input.1;
            Ok (input.2, decision) in
          match evaluated with
          | Err e => stop r' e db2
          | Ok (rowByCluster, decision) =>
              let db3 := turn_beforeApply turn db2 in
              match turn_fault turn, applyDecision (turn_draws turn) (rec_owner r) claimed plan
                      rowByCluster decision (turn_now turn) generation db3 with
              | Fails e, _ => stop r' e db3
              | _, Err e => stop r' e db3
              | ReplyLost e, Ok db4 => stop r' e db4
              | Works, Ok db4 => {| out_rec := r'; out_err := None; out_db := db4 |}
              end
          end
      end
  end.

(** [ReconcileOne]: a rollout that cannot be claimed is left alone. *)
Definition ReconcileOne (turn : Turn) (r : Reconciler) (rolloutID : uuid) (claimNow : time) (db : DB) : Outcome :=
  if rolloutID == uuid_Nil
  then {| out_rec := r; out_err := Some (fail CodeInvalidInput "rollout_id" "must be a non-zero UUID");
          out_db := db |}
  else
    match ClaimDeliveryRollout db (rec_owner r) (rec_lease r) rolloutID claimNow with
    | Err e => {| out_rec := r; out_err := Some e; out_db := db |}
    | Ok None => {| out_rec := r; out_err := None; out_db := db |}
    | Ok (Some (row, db')) => reconcileClaimed turn r row db'
    end.

(** The loop of [Sweep]: an error of one rollout does not stop the others. *)
Fixpoint sweep_rows (turns : nat -> Turn) (r : Reconciler) (rows : list RolloutRow) (db : DB) :
    list error * Reconciler * DB :=
  match rows with
  | [] => ([], r, db)
  | row :: rest =>
      let out := reconcileClaimed (turns 0%nat) r row db in
      let '(errors, r', db') := sweep_rows (fun n => turns (S n)) (out_rec out) rest (out_db out) in
      (match out_err out with Some e => e :: errors | None => errors end, r', db')
  end.

Definition Sweep (turns : nat -> Turn) (r : Reconciler) (limit : Z) (locked : uuid -> bool) (claimNow : time)
    (db : DB) : res (list error * Reconciler * DB) :=
  let limit := if (limit <=? 0) || (256 <? limit) then defaultSweepLimit else limit in
  claimed ← ClaimDeliveryRollouts db (rec_owner r) (rec_lease r) limit locked claimNow;
  Ok (sweep_rows turns r claimed.1 claimed.2).

(** [NewPostgresReconciler] *)
Definition NewPostgresReconciler (pool : bool) (owner fresh : string) : res Reconciler :=
  fail_if (negb pool) (fail CodeInvalidInput "pool" "is required");;
  let owner := if owner == "" then "delivery-rollout-" +:+ fresh else owner in
  fail_if (MaxLeaseOwnerLength <? slen owner) (fail CodeInvalidInput "owner" "exceeds lease owner limit");;
  Ok {| rec_owner := owner; rec_lease := defaultReconcileLease; rec_cache := ∅ |}.
End reconciler.
End Reconciler.
