(* ===== verification/ReconcilerFacts.v ===== *)
(** * Correctness of the reconciler

    A decision is committed only while the claim, the fence and the runtime
    generation it was made under still stand, on exactly the cluster rows it was
    made from; it moves rollouts and clusters along the transition tables and
    within the concurrency of the strategy.  Between its steps every other writer
    of the tables may run. *)

From Stdlib Require Import ZArith Lia.
From S2P Require Import Prelude Enums State SafeConv GoSort GoStrings External Validation Model Types.
From S2P Require Import Overrides RolloutTypes Planner Scheduler SchedulerFacts SchedulerCorrect.
From S2P Require Import Maintenance AsyncOp DeliveryStore Reconciler.
From stdpp Require Import base gmap strings list.
Import State Model RolloutTypes Planner Scheduler SchedulerFacts SchedulerCorrect.
Import DeliveryStore Reconciler.

Open Scope Z_scope.

Module ReconcilerFacts.

(** ** The runtime cache stays within its bound *)

Lemma older_foldl l acc : (foldl older acc l).1 = acc.1 \/ (foldl older acc l).1 ∈ l.*1.
Proof.
  revert acc. induction l as [|p l IH]; intros acc; cbn; [by left|].
  destruct (IH (older acc p)) as [E|E]; [|right; by right].
  unfold older in *. destruct (_ || _); [right; rewrite E; by left | by left].
Qed.

(** The victim of an eviction is an entry of the cache. *)
Lemma oldest_in_cache p l : (foldl older (uuid_Nil, 0) (p :: l)).1 ∈ (p :: l).*1.
Proof.
  cbn. unfold older at 2. rewrite bool_decide_true by done. cbn.
  destruct (older_foldl l (p.1, entry_usedAt p.2)) as [E|E]; rewrite ?E; [by left | by right].
Qed.

Lemma storeRuntime_bounded order cache id generation rows now :
  (forall c, order c ≡ₚ map_to_list c) -> Z.of_nat (size cache) <= maxRuntimeCacheEntries ->
  Z.of_nat (size (storeRuntime order cache id generation rows now)) <= maxRuntimeCacheEntries.
Proof.
  intros Horder Hsize. unfold storeRuntime. destruct (cache !! id) as [e|] eqn:He.
  - rewrite bool_decide_false by done. cbn. rewrite map_size_insert_Some by (by eexists). done.
  - rewrite bool_decide_true by done. cbn [andb].
    destruct (maxRuntimeCacheEntries <=? Z.of_nat (size cache)) eqn:Hfull; bool_props.
    + destruct (order cache) as [|p l] eqn:Ho.
      { assert (Hn : size cache = 0%nat); [|unfold maxRuntimeCacheEntries in *; lia].
        by rewrite <- length_map_to_list, <- Horder, Ho. }
      assert (Hin : is_Some (cache !! (foldl older (uuid_Nil, 0) (p :: l)).1)).
      { pose proof (oldest_in_cache p l) as Hv. apply list_elem_of_fmap in Hv as ([k e] & -> & Hke).
        rewrite <- Ho, Horder in Hke. apply elem_of_map_to_list in Hke. by eexists. }
      rewrite map_size_insert_None by (by rewrite lookup_delete_None; right).
      rewrite map_size_delete_Some by done. destruct Hin as [e Hin].
      destruct (size cache) eqn:Hs; [|lia]. apply map_size_empty_inv in Hs. subst. done.
    + rewrite map_size_insert_None by done. lia.
Qed.

(** ** Rows and snapshots *)

Definition row_ClusterID (row : RuntimeRow) : uuid := cluster_ClusterID (runtime_Cluster row).

(** The snapshot's view of a row. *)
Definition views (row : RuntimeRow) (c : ClusterRuntime) : Prop :=
  runtime_ClusterID c = row_ClusterID row /\
  runtime_State c = RolloutClusterState_of (cluster_State (runtime_Cluster row)) /\
  RolloutClusterState_string (runtime_State c) = cluster_State (runtime_Cluster row) /\
  runtime_Fence c = cluster_Fence (runtime_Cluster row) /\
  runtime_ReadySince c = cluster_ReadyAt (runtime_Cluster row).

Lemma cluster_runtime_views row c : cluster_runtime row = Ok c -> views row c.
Proof.
  unfold cluster_runtime. intros E. res_inv. unfold views. cbn. split_and!; try done.
  apply RolloutClusterState_of_string.
Qed.

Definition index_rows (m : RowMap) (rows : list RuntimeRow) : RowMap :=
  foldl (fun m row => <[row_ClusterID row := row]> m) m rows.

Lemma index_rows_lookup m rows k row :
  index_rows m rows !! k = Some row -> (row ∈ rows /\ row_ClusterID row = k) \/ m !! k = Some row.
Proof.
  unfold index_rows. revert m. induction rows as [|x rows IH]; intros m; cbn; [by right|].
  intros [[Hin Hk]|Hm]%IH; [left; split; [by right | done]|].
  destruct (decide (row_ClusterID x = k)) as [<-|Hne].
  - rewrite lookup_insert_eq in Hm. injection Hm as <-. left. split; [by left | done].
  - rewrite lookup_insert_ne in Hm by done. by right.
Qed.

Lemma add_row_foldl rows st st' :
  res_foldl add_row st rows = Ok st' ->
  exists cs, Forall2 views rows cs /\ st'.1 = st.1 ++ cs /\ st'.2 = index_rows st.2 rows.
Proof.
  revert st. induction rows as [|row rows IH]; intros st; cbn.
  - intros [= ->]. exists []. rewrite app_nil_r. split_and!; [constructor | done..].
  - intros E. apply res_bind_Ok in E as (st1 & H1 & E). unfold add_row in H1.
    apply res_bind_Ok in H1 as (c & Hc & [= <-]). destruct (IH _ E) as (cs & Hcs & E1 & E2).
    exists (c :: cs). cbn in E1, E2. rewrite E1, E2, <- app_assoc.
    split_and!; [constructor; [by apply cluster_runtime_views | done] | done..].
Qed.

Lemma runtimeFromRows_Ok plan claimed rows snapshot m :
  runtimeFromRows plan claimed rows = Ok (snapshot, m) ->
  snapshot_Plan snapshot = plan /\ snapshot_Fence snapshot = row_FencingGeneration claimed /\
  snapshot_State snapshot = RolloutState_of (row_State claimed) /\
  Forall2 views rows (snapshot_Clusters snapshot) /\
  forall k row, m !! k = Some row -> row ∈ rows /\ row_ClusterID row = k.
Proof.
  unfold runtimeFromRows. intros E. apply res_bind_Ok in E as (st & Hst & E). res_inv. simplify_eq. cbn.
  destruct (add_row_foldl _ _ _ Hst) as (cs & Hcs & E1 & E2). cbn in E1, E2. rewrite E1, E2.
  split_and!; try done. intros k row Hk. by destruct (index_rows_lookup _ _ _ _ Hk) as [?|?].
Qed.

(** ** Fresh rows *)

Section fresh.
Context {Outbox : Type}.
#[local] Abbreviation DB := (DB Outbox).

(** The rows are the cluster rows of the rollout. *)
Record matches (id : uuid) (rows : list RuntimeRow) (db : DB) : Prop := {
  matches_sound : forall r, r ∈ rows ->
    db_clusters db !! runtime_ID r = Some (runtime_Cluster r) /\ cluster_RolloutID (runtime_Cluster r) = id;
  matches_complete : forall cid c, db_clusters db !! cid = Some c -> cluster_RolloutID c = id ->
    exists r, r ∈ rows /\ runtime_ID r = cid;
  matches_distinct : NoDup (map runtime_ID rows);
}.

(** The rows were read at a runtime generation: as long as it lasts they match. *)
Definition loaded (id : uuid) (rows : list RuntimeRow) (generation : Z) (db : DB) : Prop :=
  exists row, db_rollouts db !! id = Some row /\ generation <= row_RuntimeGeneration row /\
    (generation = row_RuntimeGeneration row -> matches id rows db).

Definition cache_sound (db : DB) (cache : gmap uuid runtimeCacheEntry) : Prop :=
  forall id e, cache !! id = Some e -> loaded id (entry_rows e) (entry_generation e) db.

Lemma matches_same id rows db db' : same_clusters id db db' -> matches id rows db -> matches id rows db'.
Proof.
  intros Hs [Hsound Hcomplete Hd]. split; [| |done].
  - intros r [Hc Hr]%Hsound. split; [by apply Hs | done].
  - intros cid c Hc Hid. apply Hs in Hc; [by eapply Hcomplete | done].
Qed.

(** Other writers do not make rows stale without moving the generation. *)
Lemma loaded_kept id rows generation db db' :
  keeps db db' -> loaded id rows generation db -> loaded id rows generation db'.
Proof.
  intros Hk (row & Hrow & Hle & Hm). destruct (keeps_rollouts _ _ Hk _ _ Hrow) as (row' & Hrow' & He).
  pose proof (evolves_generation _ _ _ _ _ He) as Hg. exists row'. split_and!; [done | lia|].
  intros Heq. eapply matches_same; [apply He; lia | apply Hm; lia].
Qed.

Lemma cache_sound_kept db db' cache : keeps db db' -> cache_sound db cache -> cache_sound db' cache.
Proof. intros Hk Hc id e He. eapply loaded_kept; [done | by apply Hc]. Qed.

(** The foreign key of a cluster row. *)
Definition references (db : DB) : Prop :=
  forall cid c, db_clusters db !! cid = Some c -> is_Some (db_labels db !! cluster_ClusterID c).

Lemma rollout_clusters_elem (db : DB) id cid c :
  (cid, c) ∈ rollout_clusters db id <-> db_clusters db !! cid = Some c /\ cluster_RolloutID c = id.
Proof.
  unfold rollout_clusters. rewrite list_elem_of_In, List.filter_In, <- list_elem_of_In, elem_of_map_to_list.
  cbn. by rewrite bool_decide_eq_true.
Qed.

Lemma runtime_row_elem (db : DB) row q r :
  r ∈ runtime_row db row q -> runtime_ID r = q.1 /\ runtime_Cluster r = q.2 /\
    runtime_Generation r = row_RuntimeGeneration row.
Proof.
  unfold runtime_row. destruct (db_labels db !! _); [|by intros ?%elem_of_nil].
  by intros ->%list_elem_of_singleton.
Qed.

Lemma rollout_clusters_NoDup (db : DB) id : NoDup (rollout_clusters db id).*1.
Proof.
  unfold rollout_clusters. pose proof (NoDup_fst_map_to_list (db_clusters db)) as Hnd.
  induction (map_to_list (db_clusters db)) as [|q l IH]; cbn; [constructor|].
  apply NoDup_cons in Hnd as [Hq Hnd]. destruct (_ == id); [|by apply IH]. cbn. apply NoDup_cons.
  split; [|by apply IH]. intros (x & Hx & Hin)%list_elem_of_fmap. apply Hq, list_elem_of_fmap.
  exists x. split; [done|]. apply list_elem_of_In, List.filter_In in Hin as [Hin _]. by apply list_elem_of_In.
Qed.

(** All rows of the rollout, in some order. *)
Lemma runtime_rows_ids (db : DB) row l :
  references db -> (forall q, q ∈ l -> db_clusters db !! q.1 = Some q.2) ->
  map runtime_ID (flat_map (runtime_row db row) l) = l.*1.
Proof.
  intros Href. induction l as [|q l IH]; intros Hl; cbn; [done|]. rewrite map_app, IH.
  - unfold runtime_row. destruct (Href q.1 q.2) as [labels ->]; [apply Hl; by left | done].
  - intros q' Hq'. apply Hl. by right.
Qed.

Lemma ListDeliveryRolloutRuntime_loaded (db : DB) id row rows :
  references db -> db_rollouts db !! id = Some row ->
  rows = ListDeliveryRolloutRuntime db id (MaxRolloutClusters + 1) -> len rows <= MaxRolloutClusters ->
  matches id rows db /\ forall r, r ∈ rows -> runtime_Generation r = row_RuntimeGeneration row.
Proof.
  intros Href Hrow -> Hlen. unfold ListDeliveryRolloutRuntime in *. rewrite Hrow in *.
  set (all := flat_map (runtime_row db row) (rollout_clusters db id)) in *.
  set (s := sort_slice _ all) in *. assert (Hp : s ≡ₚ all) by apply sort_slice_Permutation.
  assert (Ht : take (Z.to_nat (MaxRolloutClusters + 1)) s = s).
  { apply take_ge. unfold len in Hlen. rewrite length_take in Hlen. unfold MaxRolloutClusters in *. lia. }
  rewrite Ht. assert (Hids : map runtime_ID all = (rollout_clusters db id).*1).
  { apply runtime_rows_ids; [done|]. by intros [cid c] [Hc _]%rollout_clusters_elem. }
  assert (Helem : forall r, r ∈ s -> exists q, q ∈ rollout_clusters db id /\ r ∈ runtime_row db row q).
  { intros r. rewrite Hp. unfold all. intros (q & Hq & Hr)%list_elem_of_In%List.in_flat_map.
    exists q. by rewrite !list_elem_of_In. }
  split; [split|].
  - intros r ([cid c] & [Hc Hid]%rollout_clusters_elem & (E1 & E2 & _)%runtime_row_elem)%Helem.
    cbn in *. by rewrite E1, E2.
  - intros cid c Hc Hid. assert (Hin : cid ∈ map runtime_ID all).
    { rewrite Hids. apply list_elem_of_fmap. exists (cid, c). split; [done | by apply rollout_clusters_elem]. }
    apply list_elem_of_fmap in Hin as (r & -> & Hr). exists r. by rewrite Hp.
  - rewrite (Permutation_map _ Hp), Hids. apply rollout_clusters_NoDup.
  - intros r (q & _ & (_ & _ & ?)%runtime_row_elem)%Helem. done.
Qed.
End fresh.

Lemma find_unique {A} (key : A -> uuid) l x :
  NoDup (map key l) -> x ∈ l -> List.find (fun a => key a == key x) l = Some x.
Proof.
  induction l as [|y l IH]; intros Hnd Hx; [by apply elem_of_nil in Hx|]. cbn in *.
  apply NoDup_cons in Hnd as [Hy Hnd]. apply elem_of_cons in Hx as [->|Hx].
  - by rewrite bool_decide_true.
  - rewrite bool_decide_false; [by apply IH|]. intros E. apply Hy, list_elem_of_fmap. by exists x.
Qed.

Lemma find_key {A} (key : A -> uuid) l k x :
  List.find (fun a => key a == k) l = Some x -> x ∈ l /\ key x = k.
Proof. intros [Hin E]%List.find_some. bool_props. by rewrite list_elem_of_In. Qed.

(** ** One phase of the decision transaction

    A loop over items that each name a cluster and rewrite its row. *)

Section phase.
Context {Outbox A : Type} (id : uuid) (rows : list RuntimeRow) (m : RowMap).
Context (name : A -> uuid) (effect : A -> ClusterRow -> ClusterRow) (f : DB Outbox -> A -> res (DB Outbox)).
Context (Hm : forall k row, m !! k = Some row -> row ∈ rows /\ row_ClusterID row = k).
Context (Hf : forall db a db', f db a = Ok db' -> exists row c, m !! name a = Some row /\
  db_clusters db !! runtime_ID row = Some c /\
  db_clusters db' = <[runtime_ID row := effect a c]> (db_clusters db)).

Definition rewritten (l : list A) (c : ClusterRow) : ClusterRow :=
  if cluster_RolloutID c == id
  then from_option (fun a => effect a c) c (List.find (fun a => name a == cluster_ClusterID c) l)
  else c.

Lemma phase_keys db db' l :
  matches id rows db -> NoDup (map name l) -> res_foldl f db l = Ok db' ->
  NoDup (map (fun a => runtime_ID <$> m !! name a) l).
Proof using Hf Hm.
  intros Hmatch Hnd Hl. apply res_foldl_steps in Hl. rewrite Forall_forall in Hl.
  apply (NoDup_fmap_2_strong (B := option uuid)); [|by eapply NoDup_fmap_1].
  intros a b Ha Hb E. destruct (Hl a Ha) as (d1 & d2 & (ra & _ & Era & _)%Hf).
  destruct (Hl b Hb) as (d3 & d4 & (rb & _ & Erb & _)%Hf). rewrite Era, Erb in E. injection E as E.
  destruct (Hm _ _ Era) as [Hra Hca], (Hm _ _ Erb) as [Hrb Hcb].
  destruct (matches_sound _ _ _ Hmatch _ Hra) as [E1 _], (matches_sound _ _ _ Hmatch _ Hrb) as [E2 _].
  assert (Hn : name a = name b). { rewrite <- Hca, <- Hcb. unfold row_ClusterID. rewrite E in E1. congruence. }
  pose proof (find_unique name l a Hnd Ha) as Fa. pose proof (find_unique name l b Hnd Hb) as Fb.
  rewrite Hn in Fa. congruence.
Qed.

Lemma phase_clusters db db' l :
  matches id rows db -> NoDup (map row_ClusterID rows) -> NoDup (map name l) ->
  res_foldl f db l = Ok db' -> db_clusters db' = rewritten l <$> db_clusters db.
Proof using Hf Hm.
  intros Hmatch Hrows Hnd Hl. apply map_eq. intros cid. rewrite lookup_fmap.
  pose proof (phase_keys _ _ _ Hmatch Hnd Hl) as Hkeys.
  destruct (res_foldl_table f db_clusters (fun a => runtime_ID <$> m !! name a)
    (fun a old v => exists c, old = Some c /\ v = effect a c) l db db') with (k := cid)
    as [(a & v & Ha & Hk & (c & Hc & ->) & ->)|[Hno ->]]; try done.
  - intros d a d' _ (row & c & E & Hc & ->)%Hf. exists (runtime_ID row), (effect a c). rewrite E. cbn.
    split_and!; [done | by exists c | done].
  - rewrite Hc. cbn. destruct (m !! name a) as [row|] eqn:Erow; [|done]. injection Hk as Hk.
    destruct (Hm _ _ Erow) as [Hin Hname]. destruct (matches_sound _ _ _ Hmatch _ Hin) as [E1 E2].
    rewrite Hk, Hc in E1. injection E1 as ->. unfold rewritten. rewrite bool_decide_true by done.
    unfold row_ClusterID in Hname. rewrite Hname, (find_unique name l a Hnd Ha). done.
  - destruct (db_clusters db !! cid) as [c|] eqn:Hc; [|done]. cbn. unfold rewritten.
    case_bool_decide as Hid; [|done]. destruct (List.find _ l) as [a|] eqn:Ef; [|done]. exfalso.
    apply find_key in Ef as [Ha Hname]. destruct (matches_complete _ _ _ Hmatch _ _ Hc Hid) as (r & Hr & <-).
    destruct (matches_sound _ _ _ Hmatch _ Hr) as [E1 _]. rewrite Hc in E1. injection E1 as ->.
    apply res_foldl_steps in Hl. rewrite Forall_forall in Hl.
    destruct (Hl a Ha) as (d1 & d2 & (row & _ & Erow & _)%Hf). apply (Hno a Ha). rewrite Erow. cbn. f_equal.
    destruct (Hm _ _ Erow) as [Hin Hrow]. f_equal.
    pose proof (find_unique row_ClusterID rows r Hrows Hr) as F1.
    pose proof (find_unique row_ClusterID rows row Hrows Hin) as F2.
    replace (row_ClusterID row) with (row_ClusterID r) in F2; [congruence|].
    by rewrite Hrow, Hname.
Qed.
End phase.

(** ** The statements of a decision *)

(** What the cluster and deployment writes of a decision leave alone: of the
    rollouts they only count the changes. *)
Record calm {Outbox} (now : time) (db db' : DB Outbox) : Prop := {
  calm_rollouts : forall id, exists n, 0 <= n /\ db_rollouts db' !! id = bumped now n <$> db_rollouts db !! id;
  calm_keeps : keeps db db';
  calm_rest : db_labels db' = db_labels db /\ db_targets db' = db_targets db /\
    db_approvals db' = db_approvals db /\ db_connections db' = db_connections db /\ db_keys db' = db_keys db;
}.

#[export] Instance calm_preorder {Outbox} now : PreOrder (@calm Outbox now).
Proof.
  split.
  - intros db. split; [|done|done]. intros id. exists 0. split; [done|]. by destruct (db_rollouts db !! id).
  - intros db1 db2 db3 [R1 K1 (?&?&?&?&?)] [R2 K2 (?&?&?&?&?)].
    split; [|by etrans | split_and!; congruence]. intros id.
    destruct (R1 id) as (n1 & L1 & E1), (R2 id) as (n2 & L2 & E2). exists (n1 + n2). split; [lia|].
    rewrite E2, E1. destruct (db_rollouts db1 !! id); [|done]. cbn. by rewrite bumped_bumped.
Qed.

Lemma calm_row {Outbox} now (db db' : DB Outbox) id row :
  calm now db db' -> db_rollouts db !! id = Some row ->
  exists n, 0 <= n /\ db_rollouts db' !! id = Some (bumped now n row).
Proof. intros [Hr _ _] Hrow. destruct (Hr id) as (n & Hn & E). exists n. by rewrite E, Hrow. Qed.

(** A compare-and-swap of a cluster row of a decision. *)
Lemma cluster_cas_calm {Outbox} (db db' : DB Outbox) cid from clusterFence owner fence now f c' :
  (forall c, cluster_RolloutID (f c) = cluster_RolloutID c) ->
  cluster_cas db cid from clusterFence owner fence now f = Ok (c', db') ->
  calm now db db' /\ db_deployments db' = db_deployments db /\
  exists c, db_clusters db !! cid = Some c /\ cluster_State c = from /\ cluster_Fence c = clusterFence /\
    db_clusters db' = <[cid := f c]> (db_clusters db).
Proof.
  intros Hf (c & row & Hc & Hrow & Hs & Hfe & Hl & -> & Hup)%cluster_cas_Ok.
  pose proof (update_clusters_keeps _ _ _ _ _ Hf Hup) as Hkeeps.
  apply (update_one_Ok _ _ _ _ _ _ Hc) in Hup as [Hdb Hr]. split_and!.
  - split; [|done|by rewrite Hdb]. intros id. eexists. split; [|apply Hr]. destruct (_ == id); lia.
  - by rewrite Hdb.
  - exists c. split_and!; try done. by rewrite Hdb.
Qed.

Lemma write_deployment_calm {Outbox} now key row (db db' : DB Outbox) :
  write_deployment now key row db = Ok db' ->
  calm now db db' /\ db_clusters db' = db_clusters db /\
  db_deployments db' = <[key := row]> (db_deployments db).
Proof.
  intros E. pose proof (write_deployment_keeps _ _ _ _ _ E) as Hk. unfold write_deployment in E.
  apply bump_all_Ok in E as [Hdb Hr]. split_and!; [|by rewrite Hdb..].
  split; [|done|by rewrite Hdb]. intros id. eexists. split; [apply times_nonneg | apply Hr].
Qed.

Section apply.
Context `{External} {Outbox : Type}.
Context (draws : Draws) (owner : string) (claimed : RolloutRow) (plan : FrozenRollout).
Context (m : RowMap) (d : Decision) (now : time).
#[local] Abbreviation DB := (DB Outbox).
#[local] Abbreviation dbnow := (draw_dbnow draws).

Definition transition_effect (t : ClusterTransition) : ClusterRow -> ClusterRow :=
  moved_cluster (RolloutClusterState_string (ct_To t)) (ct_Code t) dbnow.

Definition release_effect (r : Release) : ClusterRow -> ClusterRow :=
  released_cluster (RolloutClusterState_string (release_ToState r)) (AssignmentAction_string (release_Action r))
    (timestamptz (release_Deadline r)) dbnow.

Lemma apply_transition_Ok (db db' : DB) t :
  apply_transition draws owner claimed m d now db t = Ok db' ->
  calm dbnow db db' /\ db_deployments db' = db_deployments db /\
  exists row c, m !! ct_ClusterID t = Some row /\ db_clusters db !! runtime_ID row = Some c /\
    db_clusters db' = <[runtime_ID row := transition_effect t c]> (db_clusters db).
Proof.
  unfold apply_transition. intros E. destruct (m !! ct_ClusterID t) as [row|]; [|done].
  apply res_bind_Ok in E as ([c' db1] & Hcas & [= <-]).
  apply cluster_cas_calm in Hcas as (Hcalm & Hd & c & Hc & _ & _ & Hcl); [|done].
  split_and!; [|done|by exists row, c]. etrans; [exact Hcalm|]. split; [|by apply keeps_same|done].
  intros id. exists 0. split; [done|]. cbn. by destruct (db_rollouts db1 !! id).
Qed.

(** What a release leaves in the deployments: the next generation of the frozen
    version, under this rollout. *)
Record deployed (r : Release) (before : option DeploymentRow) (after : DeploymentRow) : Prop := {
  deployed_newer : from_option deployment_DesiredGeneration (-1) before < deployment_DesiredGeneration after \/
    before = None;
  deployed_generation : deployment_DesiredGeneration after = release_Generation r;
  deployed_rollout : deployment_CurrentRolloutID after = Some (plan_ID plan);
  deployed_version : deployment_DesiredBundleVersionID after =
    Some (version_BundleVersionID (release_Version r));
  deployed_digest : deployment_DesiredSpecDigest after = version_Digest (release_Version r);
  deployed_phase : deployment_Phase after = "pending" /\ deployment_Action after = "apply";
  deployed_same : forall b, before = Some b -> deployment_ID after = deployment_ID b /\
    deployment_PreviousBundleVersionID after = deployment_DesiredBundleVersionID b;
}.

Lemma apply_release_Ok (db db' : DB) r :
  apply_release draws owner claimed plan m d now db r = Ok db' ->
  calm dbnow db db' /\
  (exists row c, m !! release_ClusterID r = Some row /\ db_clusters db !! runtime_ID row = Some c /\
     db_clusters db' = <[runtime_ID row := release_effect r c]> (db_clusters db)) /\
  exists after, deployed r (db_deployments db !! (plan_TargetID plan, release_ClusterID r)) after /\
    db_deployments db' = <[(plan_TargetID plan, release_ClusterID r) := after]> (db_deployments db).
Proof.
  unfold apply_release. intros E. destruct (m !! release_ClusterID r) as [row|]; [|done].
  apply res_bind_Ok in E as (planned & _ & E). apply res_bind_Ok in E as (desired & Hdesired & E).
  apply res_bind_Ok in E as ([after db1] & Hup & E). apply res_bind_Ok in E as ([c' db2] & Hcas & [= <-]).
  unfold UpsertClusterDeploymentDesired in Hup. apply res_bind_Ok in Hup as (u & Hnewer & Hup).
  apply res_bind_Ok in Hup as (db1' & Hw & [= <- <-]). cbn in Hcas.
  apply write_deployment_calm in Hw as (Hcalm1 & Hcl1 & Hdep1).
  apply cluster_cas_calm in Hcas as (Hcalm2 & Hdep2 & c & Hc & _ & _ & Hcl2); [|done]. cbn.
  split_and!.
  - etrans; [exact Hcalm1|]. etrans; [exact Hcalm2|]. split; [|by apply keeps_same|done].
    intros id. exists 0. split; [done|]. cbn. by destruct (db_rollouts db2 !! id).
  - exists row, c. rewrite <- Hcl1. by split_and!.
  - eexists. split; [|rewrite Hdep2; exact Hdep1]. unfold desired_of in Hdesired. res_inv.
    destruct (db_deployments db !! _) as [b|] eqn:Eb; split; cbn; try done; try (by right).
    + left. cbn in Hnewer. by bool_props.
    + intros b' [= <-]. done.
Qed.

(** The cluster rows after the decision. *)
Definition decided_cluster (c : ClusterRow) : ClusterRow :=
  rewritten (row_ID claimed) release_ClusterID release_effect (decision_Releases d)
    (rewritten (row_ID claimed) ct_ClusterID transition_effect (decision_ClusterTransitions d) c).

Lemma res_foldl_calm {A} (f : DB -> A -> res DB) l db db' :
  (forall db a db', f db a = Ok db' -> calm dbnow db db') -> res_foldl f db l = Ok db' -> calm dbnow db db'.
Proof.
  intros Hf. apply res_foldl_inv; [|done]. intros s x s' _ Hc Hs. etrans; [exact Hc | by eapply Hf].
Qed.

Lemma rewritten_nil {A} id (name : A -> uuid) effect c : rewritten id name effect [] c = c.
Proof. unfold rewritten. by destruct (_ == id). Qed.

(** The two loops together. *)
Lemma loops_Ok rows (db db1 db2 : DB) :
  (forall k row, m !! k = Some row -> row ∈ rows /\ row_ClusterID row = k) ->
  matches (row_ID claimed) rows db -> NoDup (map row_ClusterID rows) ->
  NoDup (map ct_ClusterID (decision_ClusterTransitions d)) -> NoDup (map release_ClusterID (decision_Releases d)) ->
  decision_ClusterTransitions d = [] \/ decision_Releases d = [] ->
  res_foldl (apply_transition draws owner claimed m d now) db (decision_ClusterTransitions d) = Ok db1 ->
  res_foldl (apply_release draws owner claimed plan m d now) db1 (decision_Releases d) = Ok db2 ->
  calm dbnow db db2 /\ db_clusters db2 = decided_cluster <$> db_clusters db /\
  forall key, (exists r after, r ∈ decision_Releases d /\ key = (plan_TargetID plan, release_ClusterID r) /\
                 deployed r (db_deployments db !! key) after /\ db_deployments db2 !! key = Some after) \/
              ((forall r, r ∈ decision_Releases d -> key <> (plan_TargetID plan, release_ClusterID r)) /\
               db_deployments db2 !! key = db_deployments db !! key).
Proof.
  intros Hm Hmatch Hrows Hnt Hnr Hun H1 H2.
  assert (Hc1 : calm dbnow db db1) by (eapply res_foldl_calm; [|exact H1]; by intros ? ? ? (? & _)%apply_transition_Ok).
  assert (Hc2 : calm dbnow db1 db2) by (eapply res_foldl_calm; [|exact H2]; by intros ? ? ? (? & _)%apply_release_Ok).
  assert (Hd1 : db_deployments db1 = db_deployments db).
  { eapply (res_foldl_inv _ (fun s => db_deployments s = db_deployments db)); [|done|exact H1].
    intros s x s' _ Hs (_ & Hd & _)%apply_transition_Ok. congruence. }
  split; [by etrans|]. split.
  - destruct Hun as [Hun|Hun]; rewrite Hun in *; cbn [res_foldl] in *.
    + injection H1 as <-. etrans; [eapply (phase_clusters (row_ID claimed) rows m release_ClusterID release_effect
        (apply_release draws owner claimed plan m d now)); try done; by intros ? ? ? (_ & ? & _)%apply_release_Ok|].
      apply map_fmap_ext. intros cid c _. unfold decided_cluster. by rewrite Hun, rewritten_nil.
    + injection H2 as <-. etrans; [eapply (phase_clusters (row_ID claimed) rows m ct_ClusterID transition_effect
        (apply_transition draws owner claimed m d now)); try done; by intros ? ? ? (_ & _ & ?)%apply_transition_Ok|].
      apply map_fmap_ext. intros cid c _. unfold decided_cluster. by rewrite Hun, rewritten_nil.
  - intros key. rewrite <- Hd1.
    destruct (res_foldl_table (apply_release draws owner claimed plan m d now) db_deployments
      (fun r => Some (plan_TargetID plan, release_ClusterID r)) (fun r old v => deployed r old v)
      (decision_Releases d) db1 db2) with (k := key) as [(r & v & Hr & Hk & Hv & Hl)|[Hno Hl]]; try done.
    + intros s r s' _ (_ & _ & after & Ha & Hs)%apply_release_Ok. eexists _, after. by split_and!.
    + replace (map _ _) with ((fun k => Some (plan_TargetID plan, k)) <$> map release_ClusterID (decision_Releases d)).
      * apply NoDup_fmap_2; [|done]. intros k k' [=]. done.
      * exact (List.map_map _ _ _).
    + left. exists r, v. injection Hk as <-. by split_and!.
    + right. split; [|done]. intros r Hr ->. by eapply Hno.
Qed.

(** The end of the transaction writes the claimed rollout's row only. *)
Lemma finish_Ok (db2 db3 db4 : DB) row2 :
  db_rollouts db2 !! row_ID claimed = Some row2 -> recompute draws claimed d db2 = Ok db3 ->
  apply_rollout draws owner claimed d now db3 = Ok db4 ->
  exists row4, db_rollouts db4 = <[row_ID claimed := row4]> (db_rollouts db2) /\ keeps db2 db4 /\
    (db_clusters db4, db_deployments db4, db_labels db4, db_tasks db4) =
      (db_clusters db2, db_deployments db2, db_labels db2, db_tasks db2) /\
    frozen_columns row4 = frozen_columns row2 /\
    row_FencingGeneration row4 = row_FencingGeneration row2 /\
    row_RuntimeGeneration row4 = row_RuntimeGeneration row2 /\
    row_LeaseOwner row4 = "" /\ row_LeaseExpiresAt row4 = None /\
    row_LastDecisionDigest row4 = decision_Digest d /\
    row_Counters row4 = (if (len (decision_ClusterTransitions d) != 0) || (len (decision_Releases d) != 0)
                         then count_columns (rollout_clusters db2 (row_ID claimed)) else row_Counters row2) /\
    match decision_RolloutTransition d with
    | Some t => row_State row2 = RolloutState_string (rt_From t) /\ row_State row4 = RolloutState_string (rt_To t)
    | None => row_State row4 = row_State row2
    end.
Proof.
  intros Hrow2 Hre Happ.
  assert (H3 : exists row3, db3 = with_rollouts db2 (<[row_ID claimed := row3]> (db_rollouts db2)) /\
    row3 = set_runtime row2 (row_RuntimeGeneration row2)
      (if (len (decision_ClusterTransitions d) != 0) || (len (decision_Releases d) != 0)
       then count_columns (rollout_clusters db2 (row_ID claimed)) else row_Counters row2) (row_UpdatedAt row3)).
  { unfold recompute in Hre. destruct (_ || _).
    - unfold RecomputeDeliveryRolloutCounters in Hre. rewrite Hrow2 in Hre.
      destruct (rollout_clusters db2 (row_ID claimed)) as [|q l] eqn:El; [done|].
      injection Hre as <-. eexists. split; [reflexivity|]. done.
    - injection Hre as <-. exists row2. split; [|by destruct row2].
      rewrite insert_id by done. by destruct db2. }
  destruct H3 as (row3 & -> & Hrow3).
  assert (Hk : forall row4, frozen_columns row4 = frozen_columns row3 ->
    row_FencingGeneration row4 = row_FencingGeneration row3 ->
    row_RuntimeGeneration row4 = row_RuntimeGeneration row3 ->
    keeps db2 (with_rollouts db2 (<[row_ID claimed := row4]> (db_rollouts db2)))).
  { intros row4 E1 E2 E3. rewrite Hrow3 in E1, E2, E3. cbn in E2, E3.
    eapply keeps_row; [exact Hrow2 | done | lia | done]. }
  unfold apply_rollout in Happ. destruct (decision_RolloutTransition d) as [t|].
  - apply res_bind_Ok in Happ as (db4' & Hcas & [= <-]). unfold ApplyDeliveryRolloutTransitionCAS in Hcas.
    cbn in Hcas. rewrite lookup_insert_eq in Hcas. destruct (_ && _) eqn:Ec; [|done]. injection Hcas as <-.
    bool_props. set (row4 := decided_row _ _ _ _ row3). exists row4. cbn. rewrite insert_insert_eq.
    split; [done|]. split; [eapply keeps_transport; [by apply (Hk row4)|done..|apply AsyncOp.keeps_receipts_refl]|].
    unfold row4. cbn. rewrite Hrow3 in *. split_and!; done.
  - unfold ReleaseDeliveryRolloutLease in Happ. cbn in Happ. rewrite lookup_insert_eq in Happ.
    destruct (_ && _) eqn:Ec; [|done]. injection Happ as <-. bool_props.
    set (row4 := unleased_row _ _ row3). exists row4. cbn. rewrite insert_insert_eq.
    split; [done|]. split; [eapply keeps_transport; [by apply (Hk row4)|done..|apply AsyncOp.keeps_receipts_refl]|].
    unfold row4. cbn. rewrite Hrow3 in *. split_and!; done.
Qed.
End apply.

(** ** What a committed decision amounts to *)

(** The cluster is being worked on, or ready for less than the minimum time. *)
Definition row_in_flight (minReady : duration) (now : time) (c : ClusterRow) : bool :=
  match RolloutClusterState_of (cluster_State c) with
  | RolloutClusterReleased | RolloutClusterAcknowledged | RolloutClusterReconciling
  | RolloutClusterRollingBack => true
  | RolloutClusterReady => match cluster_ReadyAt c with Some t => now <? t + minReady | None => false end
  | _ => false
  end.

Lemma cluster_edge_valid s t : t ∈ rolloutClusterTransitions s -> RolloutClusterState_of (RolloutClusterState_string t) = t.
Proof.
  intros Ht. apply RolloutClusterState_of_valid. revert t Ht. apply Forall_forall.
  destruct s; repeat constructor.
Qed.

Lemma rollout_edge_valid s t : t ∈ rolloutTransitions s -> RolloutState_of (RolloutState_string t) = t.
Proof.
  intros Ht. apply RolloutState_of_valid. revert t Ht. apply Forall_forall. destruct s; repeat constructor.
Qed.

Lemma views_in_flight minReady now row c :
  views row c -> in_flight minReady now c = row_in_flight minReady now (runtime_Cluster row).
Proof. intros (_ & Hs & _ & _ & Hr). unfold in_flight, row_in_flight. by rewrite Hs, Hr. Qed.

Lemma views_ids rows cs : Forall2 views rows cs -> map runtime_ClusterID cs = map row_ClusterID rows.
Proof. induction 1 as [|row c rows cs [E _] _ IH]; [done|]. cbn. by rewrite E, IH. Qed.

Lemma views_count minReady now rows cs :
  Forall2 views rows cs ->
  count (in_flight minReady now) cs = count (fun r => row_in_flight minReady now (runtime_Cluster r)) rows.
Proof.
  induction 1 as [|row c rows cs Hv _ IH]; [done|]. by rewrite !count_cons, IH, (views_in_flight _ _ _ _ Hv).
Qed.

(** The runtime of the cluster a row of the table belongs to. *)
Lemma view_of {Outbox} id rows cs (db : DB Outbox) cid c :
  matches id rows db -> Forall2 views rows cs -> NoDup (map row_ClusterID rows) ->
  db_clusters db !! cid = Some c -> cluster_RolloutID c = id ->
  forall cr, cr ∈ cs -> runtime_ClusterID cr = cluster_ClusterID c ->
  runtime_State cr = RolloutClusterState_of (cluster_State c).
Proof.
  intros Hm Hv Hnd Hc Hid cr Hcr Hname.
  destruct (matches_complete _ _ _ Hm _ _ Hc Hid) as (r & Hr & <-).
  destruct (matches_sound _ _ _ Hm _ Hr) as [E _]. rewrite Hc in E. injection E as ->.
  apply list_elem_of_lookup in Hcr as [n Hn]. destruct (Forall2_lookup_r _ _ _ _ _ Hv Hn) as (row & Hrow & Hview).
  destruct Hview as (Hids & -> & _). do 2 f_equal.
  pose proof (find_unique row_ClusterID rows r Hnd Hr) as F1.
  pose proof (find_unique row_ClusterID rows row Hnd (list_elem_of_lookup_2 _ _ _ Hrow)) as F2.
  rewrite <- Hids, Hname in F2. unfold row_ClusterID in F1, F2. congruence.
Qed.

Lemma rewritten_cases {A} id (name : A -> uuid) effect l c :
  rewritten id name effect l c = c /\ (cluster_RolloutID c = id -> forall a, a ∈ l -> name a <> cluster_ClusterID c) \/
  exists a, cluster_RolloutID c = id /\ a ∈ l /\ name a = cluster_ClusterID c /\
    rewritten id name effect l c = effect a c.
Proof.
  unfold rewritten. case_bool_decide as Hid; [|by left].
  destruct (List.find _ l) as [a|] eqn:E; [right; exists a; apply find_key in E as [? ?]; by split_and!|].
  left. split; [done|]. intros _ a Ha Hname. pose proof (List.find_none _ _ E a) as Hn. cbn in Hn.
  rewrite bool_decide_true in Hn by done. discriminate Hn. by apply list_elem_of_In.
Qed.

Lemma decided_cluster_split draws claimed d c :
  decision_ClusterTransitions d = [] \/ decision_Releases d = [] ->
  decided_cluster draws claimed d c = c \/
  (exists t, cluster_RolloutID c = row_ID claimed /\ t ∈ decision_ClusterTransitions d /\
     ct_ClusterID t = cluster_ClusterID c /\ decided_cluster draws claimed d c = transition_effect draws t c) \/
  (exists r, cluster_RolloutID c = row_ID claimed /\ r ∈ decision_Releases d /\
     release_ClusterID r = cluster_ClusterID c /\ decided_cluster draws claimed d c = release_effect draws r c).
Proof.
  unfold decided_cluster. intros [-> | ->]; rewrite rewritten_nil.
  - destruct (rewritten_cases (row_ID claimed) release_ClusterID (release_effect draws) (decision_Releases d) c)
      as [[? _]|?]; auto.
  - destruct (rewritten_cases (row_ID claimed) ct_ClusterID (transition_effect draws) (decision_ClusterTransitions d) c)
      as [[? _]|?]; auto.
Qed.

Lemma decided_cluster_edge {Outbox} draws claimed input d rows (db : DB Outbox) cid c :
  legal input d -> matches (row_ID claimed) rows db ->
  Forall2 views rows (snapshot_Clusters (input_Snapshot input)) -> NoDup (map row_ClusterID rows) ->
  db_clusters db !! cid = Some c ->
  decided_cluster draws claimed d c = c \/
  cluster_RolloutID c = row_ID claimed /\ edge c (decided_cluster draws claimed d c).
Proof.
  intros Hl Hm Hv Hnd Hc.
  destruct (decided_cluster_split draws claimed d c (legal_unmixed _ _ Hl))
    as [?|[(t & Hid & Ht & Hname & ->)|(r & Hid & Hr & Hname & ->)]]; [by left| |];
    right; (split; [done|]); (split; [|done]);
    cbn [transition_effect release_effect moved_cluster released_cluster set_cluster cluster_State];
    pose proof (view_of _ _ _ _ _ _ Hm Hv Hnd Hc Hid) as Hview.
  - destruct (legal_clusters _ _ Hl _ Ht) as (cr & Hcr & Hid' & _ & _ & Hto & _).
    rewrite (Hview cr Hcr) in Hto by congruence. by rewrite (cluster_edge_valid _ _ Hto).
  - destruct (legal_releases _ _ Hl _ Hr) as (p & cr & action & version & (_ & Hcr & Hid') & Hrel).
    destruct Hrel as (Hrid & _ & _ & _ & _ & Hto & _).
    rewrite (Hview cr Hcr) in Hto by congruence. by rewrite (cluster_edge_valid _ _ Hto).
Qed.

(** A decision leaves an assignment with the states of its action. *)
Lemma decided_cluster_assigned draws claimed input d c :
  legal input d -> well_assigned c -> well_assigned (decided_cluster draws claimed d c).
Proof.
  intros Hl Hw. destruct (decided_cluster_split draws claimed d c (legal_unmixed _ _ Hl))
    as [->|[(t & _ & Ht & _ & ->)|(r & _ & Hr & _ & ->)]]; [done|..]; unfold well_assigned; cbn.
  - destruct (legal_clusters _ _ Hl _ Ht) as (cr & _ & _ & _ & _ & _ & Hto).
    split; intros _; (repeat (apply elem_of_cons in Hto as [->|Hto]; [decide_now|]); by apply not_elem_of_nil in Hto).
  - destruct (legal_releases _ _ Hl _ Hr) as (p & cr & action & version & _ & _ & Ha & _ & _ & _ & _ & _ & Hs & Hact).
    rewrite Hs, Ha. repeat (apply elem_of_cons in Hact as [->|Hact];
      [split; intros E; first [discriminate E | decide_now]|]). by apply not_elem_of_nil in Hact.
Qed.

(** The rows of the rollout after the decision. *)
Lemma decided_rows {Outbox} draws claimed d rows (db db' : DB Outbox) :
  matches (row_ID claimed) rows db -> db_clusters db' = decided_cluster draws claimed d <$> db_clusters db ->
  rollout_clusters db' (row_ID claimed) ≡ₚ
    map (fun r => (runtime_ID r, decided_cluster draws claimed d (runtime_Cluster r))) rows.
Proof.
  intros Hm Hdb. assert (Hid : forall c, cluster_RolloutID (decided_cluster draws claimed d c) = cluster_RolloutID c).
  { intros c. unfold decided_cluster, rewritten. destruct (_ == _), (List.find _ _); cbn; destruct (_ == _); try done;
      by destruct (List.find _ _). }
  apply NoDup_Permutation.
  - eapply NoDup_fmap_1, rollout_clusters_NoDup.
  - apply (NoDup_fmap_1 fst). replace (fst <$> _) with (map runtime_ID rows); [apply Hm|].
    by rewrite <- (List.map_map (fun r => (runtime_ID r, decided_cluster draws claimed d (runtime_Cluster r))) fst).
  - intros [cid c']. rewrite rollout_clusters_elem, Hdb, lookup_fmap, list_elem_of_fmap. split.
    + destruct (db_clusters db !! cid) as [c|] eqn:Hc; [|naive_solver]. cbn. intros [[= <-] E]. rewrite Hid in E.
      destruct (matches_complete _ _ _ Hm _ _ Hc E) as (r & Hr & <-). exists r.
      destruct (matches_sound _ _ _ Hm _ Hr) as [E1 _]. rewrite Hc in E1. by injection E1 as ->.
    + intros (r & [= -> ->] & Hr). destruct (matches_sound _ _ _ Hm _ Hr) as [-> E]. cbn. by rewrite Hid.
Qed.

(** Rows that gain a property do so because they are named. *)
Lemma count_grows {A} (p q : A -> bool) (key : A -> uuid) (names : list uuid) l :
  NoDup (map key l) -> (forall x, x ∈ l -> q x = true -> p x = true \/ key x ∈ names) ->
  count q l <= count p l + len names.
Proof.
  intros Hnd Hq.
  assert (Hc : count q l <= count p l + len (filter (fun x => key x ∈ names) l)).
  { clear Hnd. induction l as [|x l IH]; [unfold count, len; cbn; lia|]. rewrite !count_cons, filter_cons.
    specialize (IH ltac:(intros; apply Hq; [by right | done])). pose proof (Hq x ltac:(by left)) as Hx.
    destruct (q x), (p x), (decide (key x ∈ names)); rewrite ?len_cons; try lia.
    by destruct (Hx eq_refl). }
  enough (len (filter (fun x => key x ∈ names) l) <= len names) by lia.
  unfold len. apply inj_le. rewrite <- (length_fmap key). apply submseteq_length, NoDup_submseteq.
  - clear Hc Hq. induction l as [|x l IH]; [constructor|]. cbn in Hnd. apply NoDup_cons in Hnd as [Hx Hnd].
    rewrite filter_cons. destruct (decide _); [|by apply IH]. cbn. apply NoDup_cons. split; [|by apply IH].
    intros (y & E & [_ Hy]%list_elem_of_filter)%list_elem_of_fmap. apply Hx, list_elem_of_fmap. by exists y.
  - intros k (y & -> & [Hy _]%list_elem_of_filter)%list_elem_of_fmap. done.
Qed.

Lemma decided_budget {Outbox} `{External, !ExternalLaws} draws claimed input d rows (db db' : DB Outbox) :
  Evaluate input = Ok d -> snapshot_State (input_Snapshot input) = RolloutProgressing ->
  decision_Releases d <> [] -> matches (row_ID claimed) rows db ->
  Forall2 views rows (snapshot_Clusters (input_Snapshot input)) -> NoDup (map row_ClusterID rows) ->
  db_clusters db' = decided_cluster draws claimed d <$> db_clusters db ->
  let strategy := plan_Strategy (snapshot_Plan (input_Snapshot input)) in
  count (fun q => row_in_flight (MinReady strategy) (input_Now input) q.2) (rollout_clusters db' (row_ID claimed))
    <= Z.of_N (MaxConcurrent strategy).
Proof.
  intros He Hp Hne Hm Hv Hnd Hdb. cbn zeta. set (strategy := plan_Strategy _).
  destruct (progressing_budgets _ _ He Hp) as [[?|Hb] _]; [done|]. fold strategy in Hb.
  rewrite (views_count _ _ _ _ Hv) in Hb. rewrite (decided_rows _ _ _ _ _ _ Hm Hdb).
  set (p := row_in_flight (MinReady strategy) (input_Now input)) in *.
  assert (Hmap : forall l, count (fun q : uuid * ClusterRow => p q.2)
    (map (fun r => (runtime_ID r, decided_cluster draws claimed d (runtime_Cluster r))) l) =
    count (fun r => p (decided_cluster draws claimed d (runtime_Cluster r))) l).
  { induction l as [|r l IH]; [done|]. cbn [map]. by rewrite !count_cons, IH. }
  rewrite Hmap. etrans; [|exact Hb]. etrans.
  - apply (count_grows (fun r => p (runtime_Cluster r)) _ row_ClusterID (map release_ClusterID (decision_Releases d))); [done|].
    intros r Hr Hq. destruct (decided_cluster_split draws claimed d (runtime_Cluster r)
      (legal_unmixed _ _ (Evaluate_legal _ _ He))) as [E|[(t & _ & Ht & _)|(rel & _ & Hrel & Hname & _)]].
    + left. by rewrite <- E.
    + destruct (legal_unmixed _ _ (Evaluate_legal _ _ He)) as [E|E]; [|done]. rewrite E in Ht. by apply elem_of_nil in Ht.
    + right. apply list_elem_of_fmap. exists rel. by rewrite Hname.
  - unfold len. rewrite length_map. done.
Qed.

(** A committed decision.  The claim stood: the row still carried the claimed
    lease, fence and state.  The snapshot the scheduler saw was that of the
    current cluster rows.  The rollout stays or moves along an edge of its table
    and is no longer leased; the named clusters move along edges of theirs and
    all others stay; the counters are those of the new rows; the clusters in
    flight are within the concurrency; released clusters have the next
    generation of the frozen version in their deployment and no other deployment
    changes; other rollouts are only counted up. *)
Record committed `{External} {Outbox} (draws : Draws) (owner : string) (claimed : RolloutRow) (plan : FrozenRollout)
    (rows : list RuntimeRow) (input : EvaluateInput) (d : Decision) (db db' : DB Outbox)
    (row row' : RolloutRow) : Prop := {
  com_row : db_rollouts db !! row_ID claimed = Some row;
  com_leased : leased row owner (row_FencingGeneration claimed) (draw_dbnow draws) = true;
  com_state : row_State row = row_State claimed;
  com_rows : matches (row_ID claimed) rows db;
  com_views : Forall2 views rows (snapshot_Clusters (input_Snapshot input));
  com_decision : Evaluate input = Ok d;
  com_row' : db_rollouts db' !! row_ID claimed = Some row';
  com_move : row_State row' = row_State row \/
    RolloutState_of (row_State row') ∈ rolloutTransitions (RolloutState_of (row_State row));
  com_fence : row_FencingGeneration row' = row_FencingGeneration row;
  com_unleased : row_LeaseOwner row' = "" /\ row_LeaseExpiresAt row' = None;
  com_digest : row_LastDecisionDigest row' = decision_Digest d;
  com_clusters : db_clusters db' = decided_cluster draws claimed d <$> db_clusters db;
  com_edges : forall cid c, db_clusters db !! cid = Some c -> decided_cluster draws claimed d c = c \/
    cluster_RolloutID c = row_ID claimed /\ edge c (decided_cluster draws claimed d c);
  com_counters : row_Counters row' = row_Counters row /\ db_clusters db' = db_clusters db \/
    row_Counters row' = count_columns (rollout_clusters db' (row_ID claimed));
  com_budget : row_State row = "progressing" -> decision_Releases d <> [] ->
    count (fun q => row_in_flight (MinReady (plan_Strategy plan)) (input_Now input) q.2)
      (rollout_clusters db' (row_ID claimed)) <= Z.of_N (MaxConcurrent (plan_Strategy plan));
  com_deployments : forall key,
    (exists r after, r ∈ decision_Releases d /\ key = (plan_TargetID plan, release_ClusterID r) /\
       deployed plan r (db_deployments db !! key) after /\ db_deployments db' !! key = Some after) \/
    ((forall r, r ∈ decision_Releases d -> key <> (plan_TargetID plan, release_ClusterID r)) /\
     db_deployments db' !! key = db_deployments db !! key);
  com_others : forall id, id <> row_ID claimed ->
    exists n, 0 <= n /\ db_rollouts db' !! id = bumped (draw_dbnow draws) n <$> db_rollouts db !! id;
  com_wake : shouldWakeAgain plan d = true -> exists key task,
    db_tasks db' !! key = Some task /\ task_Rollout task = row_ID claimed;
  com_labels : db_labels db' = db_labels db;
  com_keeps : keeps db db';
}.

Section commits.
Context `{External, !ExternalLaws} {Outbox : Type}.
#[local] Abbreviation DB := (DB Outbox).
#[local] Set Default Proof Using "Type*".

Lemma rows_distinct input d rows :
  Evaluate input = Ok d -> Forall2 views rows (snapshot_Clusters (input_Snapshot input)) ->
  NoDup (map row_ClusterID rows).
Proof.
  intros (cs & d0 & d1 & id & Hch & _)%Scheduler_inv Hv. rewrite <- (views_ids _ _ Hv).
  rewrite <- (Permutation_map _ (checked_perm _ _ Hch)). by eapply checked_NoDup.
Qed.

Lemma wake_frame plan claimed d at_ (db db' : DB) :
  db' = (if shouldWakeAgain plan d then enqueueRolloutWake claimed d db at_ else db) ->
  (db_rollouts db', db_clusters db', db_deployments db', db_labels db', db_keys db') =
    (db_rollouts db, db_clusters db, db_deployments db, db_labels db, db_keys db) /\
  (shouldWakeAgain plan d = true -> exists key task,
     db_tasks db' !! key = Some task /\ task_Rollout task = row_ID claimed).
Proof.
  intros ->. destruct (shouldWakeAgain plan d); [|by split]. split; [done|]. intros _.
  eexists _, _. split; [apply lookup_insert_eq | done].
Qed.

(** The clusters are as they were when the decision names none. *)
Lemma decided_cluster_idle draws claimed d c :
  decision_ClusterTransitions d = [] -> decision_Releases d = [] -> decided_cluster draws claimed d c = c.
Proof. intros Ht Hr. unfold decided_cluster. by rewrite Ht, Hr, !rewritten_nil. Qed.

Lemma decided_counters draws claimed d n row row' (db db2 db' : DB) :
  db_clusters db' = decided_cluster draws claimed d <$> db_clusters db -> db_clusters db' = db_clusters db2 ->
  row_Counters row' = (if (len (decision_ClusterTransitions d) != 0) || (len (decision_Releases d) != 0)
                       then count_columns (rollout_clusters db2 (row_ID claimed))
                       else row_Counters (bumped (draw_dbnow draws) n row)) ->
  row_Counters row' = row_Counters row /\ db_clusters db' = db_clusters db \/
  row_Counters row' = count_columns (rollout_clusters db' (row_ID claimed)).
Proof.
  intros Hcl H2 ->. destruct (_ || _) eqn:E; [right; unfold rollout_clusters; by rewrite H2|]. left.
  bool_props. split; [unfold bumped; by destruct (n =? 0)|]. rewrite Hcl.
  rewrite <- (map_fmap_id (db_clusters db)) at 2. apply map_fmap_ext. intros cid c _.
  apply decided_cluster_idle; unfold len in *; by apply length_zero_iff_nil, Nat2Z.inj.
Qed.

Lemma decided_move input d row row' :
  legal input d -> snapshot_State (input_Snapshot input) = RolloutState_of (row_State row) ->
  match decision_RolloutTransition d with
  | Some t => row_State row = RolloutState_string (rt_From t) /\ row_State row' = RolloutState_string (rt_To t)
  | None => row_State row' = row_State row
  end ->
  row_State row' = row_State row \/
  RolloutState_of (row_State row') ∈ rolloutTransitions (RolloutState_of (row_State row)).
Proof.
  intros Hl Hs. destruct (decision_RolloutTransition d) as [t|] eqn:Et; [|by left]. intros [_ ->]. right.
  destruct (legal_rollout _ _ Hl _ Et) as (_ & Hto & _). rewrite Hs in Hto. by rewrite (rollout_edge_valid _ _ Hto).
Qed.

Lemma applyDecision_commits draws owner claimed plan rows snapshot m input d now generation (db db' : DB) :
  runtimeFromRows plan claimed rows = Ok (snapshot, m) -> input_Snapshot input = snapshot ->
  Evaluate input = Ok d -> loaded (row_ID claimed) rows generation db ->
  applyDecision draws owner claimed plan m d now generation db = Ok db' ->
  exists row row', committed draws owner claimed plan rows input d db db' row row'.
Proof.
  intros Hrows Hsnap He (row & Hrow & _ & Hmatch) Happ.
  apply runtimeFromRows_Ok in Hrows as (Hplan & Hfence & Hstate & Hviews & Hm). rewrite <- Hsnap in *.
  unfold applyDecision in Happ. apply res_bind_Ok in Happ as (locked & Hget & Happ).
  unfold GetClaimedDeliveryRolloutForUpdate in Hget. rewrite Hrow in Hget.
  destruct (_ && _) eqn:Hl; [|done]. injection Hget as <-. apply andb_true_iff in Hl as [Hl Hgen]. bool_props.
  specialize (Hmatch (eq_sym Hgen)).
  apply res_bind_Ok in Happ as (u & Hst%fail_if_Ok & Happ). bool_props.
  apply res_bind_Ok in Happ as (db1 & E1 & Happ). apply res_bind_Ok in Happ as (db2 & E2 & Happ).
  apply res_bind_Ok in Happ as (db3 & E3 & Happ). apply res_bind_Ok in Happ as (db4 & E4 & Happ).
  assert (Hdb' : db' = if shouldWakeAgain plan d then enqueueRolloutWake claimed d db4 (now + Maintenance.second)
    else db4) by congruence. clear Happ. apply wake_frame in Hdb' as [Hsame Hwake].
  pose proof (Evaluate_legal _ _ He) as Hlegal. pose proof (rows_distinct _ _ _ He Hviews) as Hnd.
  destruct (legal_distinct _ _ Hlegal) as [Hnt Hnr].
  destruct (loops_Ok draws owner claimed plan m d now rows db db1 db2 Hm Hmatch Hnd Hnt Hnr (legal_unmixed _ _ Hlegal) E1 E2)
    as (Hcalm & Hcl & Hdep).
  destruct (calm_row _ _ _ _ _ Hcalm Hrow) as (n & Hn & Hrow2).
  destruct (finish_Ok draws owner claimed d now db2 db3 db4 _ Hrow2 E3 E4)
    as (row4 & Hr4 & Hk4 & Htables & Hfr & Hfe & Hge & Hlo & Hle & Hdg & Hco & Hmv).
  injection Htables as Tcl Tdep Tlab Ttask. injection Hsame as Sr Sc Sd Sl Sk.
  destruct (bumped_columns (draw_dbnow draws) n row Hn) as (_ & Bf & _ & Bs & _). rewrite Bs in Hmv.
  assert (Hclusters : db_clusters db' = decided_cluster draws claimed d <$> db_clusters db) by congruence.
  exists row, row4. split; try done.
  - by rewrite Sr, Hr4, lookup_insert_eq.
  - eapply decided_move; [exact Hlegal| |exact Hmv]. congruence.
  - congruence.
  - intros cid c Hc. eapply decided_cluster_edge; done.
  - eapply decided_counters; [exact Hclusters | | exact Hco]. congruence.
  - intros Hp Hne. rewrite <- Hplan. eapply decided_budget; try done.
    rewrite Hstate. replace (row_State claimed) with (row_State row) by done. by rewrite Hp.
  - by rewrite Sd, Tdep.
  - intros id Hid. rewrite Sr, Hr4, lookup_insert_ne by done. apply Hcalm.
  - destruct (calm_rest _ _ _ Hcalm) as (Hlab & _). congruence.
  - etrans; [apply Hcalm|]. etrans; [exact Hk4 | by apply keeps_same].
Qed.

(** ** Turns *)

Lemma storeRuntime_sound order (db : DB) cache id generation rows now :
  cache_sound db cache -> loaded id rows generation db ->
  cache_sound db (storeRuntime order cache id generation rows now).
Proof using Type.
  intros Hc Hl k e. unfold storeRuntime. destruct (decide (id = k)) as [<-|Hne].
  - rewrite lookup_insert_eq. by intros [= <-].
  - rewrite lookup_insert_ne by done. destruct (_ && _); [|by apply Hc].
    intros [_ He]%lookup_delete_Some. by apply Hc.
Qed.

(** The claimed row is there, at its runtime generation or a later one. *)
Definition claim_seen (claimed : RolloutRow) (db : DB) : Prop :=
  exists row, db_rollouts db !! row_ID claimed = Some row /\
    row_RuntimeGeneration claimed <= row_RuntimeGeneration row.

Lemma claim_seen_kept claimed (db db' : DB) : keeps db db' -> claim_seen claimed db -> claim_seen claimed db'.
Proof using Type.
  intros Hk (row & Hrow & Hle). destruct (keeps_rollouts _ _ Hk _ _ Hrow) as (row' & Hrow' & [_ _ ? _]).
  exists row'. split; [done | lia].
Qed.

Lemma queryRuntime_sound turn cache claimed (db : DB) :
  claim_seen claimed db -> references db -> cache_sound db cache ->
  cache_sound db (queryRuntime turn cache claimed db).2 /\
  forall rows generation, (queryRuntime turn cache claimed db).1 = Ok (rows, generation) ->
    loaded (row_ID claimed) rows generation db.
Proof using Type.
  intros (row & Hrow & Hle) Href Hc. unfold queryRuntime. destruct (turn_loadFault turn); [by split|].
  destruct (MaxRolloutClusters <? _) eqn:Hlen; [by split|]. bool_props.
  destruct (ListDeliveryRolloutRuntime_loaded db _ row _ Href Hrow eq_refl Hlen) as [Hm Hg].
  destruct (ListDeliveryRolloutRuntime db _ _) as [|first rest] eqn:El; cbn [fst snd].
  - split; [done|]. intros rows generation [= <- <-]. exists row. split_and!; done.
  - destruct (existsb _ rest); [by split|].
    assert (Hl : loaded (row_ID claimed) (first :: rest) (runtime_Generation first) db).
    { exists row. rewrite (Hg first) by (by left). split_and!; done. }
    split; [by apply storeRuntime_sound | by intros rows generation [= <- <-]].
Qed.

Lemma loadRuntime_sound turn cache claimed (db : DB) :
  claim_seen claimed db -> references db -> cache_sound db cache ->
  cache_sound db (loadRuntime turn cache claimed db).2 /\
  forall rows generation, (loadRuntime turn cache claimed db).1 = Ok (rows, generation) ->
    loaded (row_ID claimed) rows generation db.
Proof using Type.
  intros Hseen Href Hc. unfold loadRuntime. destruct (_ <? _); [by split|]. unfold cachedRuntime.
  pose proof (queryRuntime_sound turn cache claimed db Hseen Href Hc) as Hmiss.
  destruct (cache !! row_ID claimed) as [e|] eqn:He; [|exact Hmiss].
  destruct (entry_generation e =? row_RuntimeGeneration claimed) eqn:Hgen; [|exact Hmiss]. bool_props.
  cbn [fst snd]. specialize (Hc _ _ He) as Hl. split.
  - intros k e'. destruct (decide (row_ID claimed = k)) as [<-|Hne].
    + rewrite lookup_insert_eq. by intros [= <-].
    + rewrite lookup_insert_ne by done. apply Hc.
  - intros rows generation [= <- <-]. by rewrite <- Hgen.
Qed.

(** Another writer of the tables: it keeps what every writer keeps, and the
    foreign key of the cluster rows. *)
Definition writer (f : DB -> DB) : Prop := forall db, keeps db (f db) /\ (references db -> references (f db)).

Lemma committed_references draws owner claimed plan rows input d (db db' : DB) row row' :
  committed draws owner claimed plan rows input d db db' row row' -> references db -> references db'.
Proof using Type.
  intros Hc Href cid c'. rewrite (com_clusters _ _ _ _ _ _ _ _ _ _ _ Hc), (com_labels _ _ _ _ _ _ _ _ _ _ _ Hc), lookup_fmap.
  destruct (db_clusters db !! cid) as [c|] eqn:E; [|done]. cbn. intros [= <-].
  replace (cluster_ClusterID (decided_cluster draws claimed d c)) with (cluster_ClusterID c); [by eapply Href|].
  destruct (com_edges _ _ _ _ _ _ _ _ _ _ _ Hc cid c E) as [->|[_ (_ & _ & _ & ->)]]; done.
Qed.

Context `{Maintenance.Cron}.
Context (decodeStrict : string -> option FrozenRollout) (json_Map : string -> option (gmap string string)).

(** The result of a turn on a claimed rollout: stopped with an error, leaving the
    tables to the other writers, or a committed decision. *)
Inductive turned (turn : Turn) (owner : string) (claimed : RolloutRow) (db : DB) (out : Outcome) : Prop :=
  | turned_stopped :
      out_err out <> None ->
      out_db out ∈ [db; turn_beforeLoad turn db; turn_beforeApprovals turn (turn_beforeLoad turn db);
        turn_beforeApply turn (turn_beforeApprovals turn (turn_beforeLoad turn db))] ->
      turned turn owner claimed db out
  | turned_committed plan rows input d row row' :
      decodeFrozenPlan decodeStrict claimed = Ok plan -> snapshot_Plan (input_Snapshot input) = plan ->
      committed (turn_draws turn) owner claimed plan rows input d
        (turn_beforeApply turn (turn_beforeApprovals turn (turn_beforeLoad turn db))) (out_db out) row row' ->
      turned turn owner claimed db out.

Lemma reconcileClaimed_turned turn r claimed (db : DB) :
  writer (turn_beforeLoad turn) -> writer (turn_beforeApprovals turn) -> writer (turn_beforeApply turn) ->
  claim_seen claimed db -> references db -> cache_sound db (rec_cache r) ->
  let out := reconcileClaimed decodeStrict json_Map turn r claimed db in
  turned turn (rec_owner r) claimed db out /\ keeps db (out_db out) /\ references (out_db out) /\
  cache_sound (out_db out) (rec_cache (out_rec out)).
Proof.
  intros W1 W2 W3 Hclaim Href Hc. cbn zeta. unfold reconcileClaimed.
  destruct (decodeFrozenPlan decodeStrict claimed) as [plan|e] eqn:Hplan;
    [|split_and!; try done; apply turned_stopped; [done | by left]].
  destruct (W1 db) as [K1 R1]. specialize (R1 Href).
  destruct (W2 (turn_beforeLoad turn db)) as [K2 R2]. specialize (R2 R1).
  destruct (W3 (turn_beforeApprovals turn (turn_beforeLoad turn db))) as [K3 R3]. specialize (R3 R2).
  destruct (loadRuntime_sound turn (rec_cache r) claimed _ (claim_seen_kept _ _ _ K1 Hclaim) R1 (cache_sound_kept _ _ _ K1 Hc)) as [Hcache Hrows].
  destruct (loadRuntime _ _ _ _).1 as [[rows generation]|e];
    [|split_and!; try done; apply turned_stopped; [done | right; by left]].
  specialize (Hrows _ _ eq_refl). destruct (_ ≫= _) as [[m d]|e] eqn:Heval; cycle 1.
  { split_and!; [apply turned_stopped; [done | right; right; by left] | by etrans | done |].
    by eapply cache_sound_kept. }
  set (db3 := turn_beforeApply turn _). assert (K13 : keeps (turn_beforeLoad turn db) db3) by (by etrans).
  assert (Hstop : forall e r', rec_cache r' = (loadRuntime turn (rec_cache r) claimed (turn_beforeLoad turn db)).2 ->
    let out := {| out_rec := r'; out_err := Some e; out_db := db3 |} in
    turned turn (rec_owner r) claimed db out /\ keeps db (out_db out) /\ references (out_db out) /\
    cache_sound (out_db out) (rec_cache (out_rec out))).
  { intros e r' Hr'. cbn. split_and!; [apply turned_stopped; [done | right; right; right; by left] | by etrans | done |].
    rewrite Hr'. by eapply cache_sound_kept. }
  destruct (applyDecision _ _ _ _ _ _ _ _ db3) as [db4|e] eqn:Happ; [|by destruct (turn_fault turn); apply Hstop].
  apply res_bind_Ok in Heval as ([input m'] & Hin & Heval). apply res_bind_Ok in Heval as (d' & He & [= -> ->]).
  unfold evaluate_input in Hin. apply res_bind_Ok in Hin as ([snapshot m''] & Hsnap & Hin).
  apply res_bind_Ok in Hin as (approvals & _ & Hin). apply res_bind_Ok in Hin as (gate & _ & [= Hi ->]). cbn in He, Happ.
  destruct (applyDecision_commits _ _ _ _ _ _ _ input _ _ _ _ _ Hsnap ltac:(by rewrite <- Hi) He
    (loaded_kept _ _ _ _ _ K13 Hrows) Happ) as (row & row' & Hcom).
  assert (Hplan' : snapshot_Plan (input_Snapshot input) = plan).
  { rewrite <- Hi. cbn. by apply runtimeFromRows_Ok in Hsnap as (? & _). }
  pose proof (com_keeps _ _ _ _ _ _ _ _ _ _ _ Hcom) as K4.
  destruct (turn_fault turn); [| by apply Hstop |]; cbn; (split_and!;
    [by eapply turned_committed | etrans; [by etrans | exact K4] | by eapply committed_references |
     eapply cache_sound_kept; [|exact Hcache]; by etrans]).
Qed.

(** The rollouts are stored under their identifiers. *)
Definition keyed (db : DB) : Prop := forall id row, db_rollouts db !! id = Some row -> row_ID row = id.

End commits.
End ReconcilerFacts.
