(* ===== verification/StatusIngest.v ===== *)
(** * Ingestion of delivery status (internal/delivery/status)

    A report of an authenticated agent session is bound to its database
    connection, accepted once, compared with what the cluster reported before,
    and written to the deployments and to the clusters of the rollouts they
    belong to, all in one transaction.  The statements are those of
    internal/db/queries/delivery.sql and delivery_system.sql. *)

From Stdlib Require Import ZArith Lia Ascii.
From S2P Require Import Prelude Enums State SafeConv GoSort GoStrings Utf8 External Validation Model Types.
From S2P Require Import Overrides RolloutTypes Planner AsyncOp DeliveryProtocol Compatibility Redaction DeliveryStore.
From stdpp Require Import base gmap strings list.
Import SafeConv Model DeliveryStore DeliveryProtocol Compatibility Redaction.

Open Scope Z_scope.

Module StatusIngest.

(** ** Tables of the fleet *)

(** A row of delivery_controller_inventory. *)
Record InventoryRow := {
  stock_AgentVersion : string;
  stock_FluxVersion : string;
  stock_Components : gmap string string;
  stock_SystemComponents : list SystemComponent;
  stock_APIVersions : list string;
  stock_DistributionDigest : string;
  stock_KubernetesVersion : string;
  stock_Ready : bool;
  stock_CompatibilityStatus : string;
  stock_ErrorCode : string;
  stock_ObservedAt : option time;
  stock_StatusDigest : string;
  stock_SessionID : string;
  stock_Sequence : Z;
  stock_SemanticSequence : Z;
}.

(** A row of delivery_assignment_receipts, as far as an acknowledgment goes. *)
Record AssignmentReceipt := {
  snapshot_DesiredGeneration : Z;
  snapshot_DesiredETag : string;
  snapshot_AckedGeneration : Z;
  snapshot_AckedETag : string;
  snapshot_SessionID : string;
  snapshot_Sequence : Z;
  snapshot_ErrorCode : string;
  snapshot_AckedAt : option time;
}.

(** The deletion of a row of delivery_targets. *)
Record TargetDeletion := {
  deletion_State : string;
  deletion_Generation : Z;
  deletion_ResourceVersion : Z;
}.

(** Rows of delivery_system_releases, delivery_system_cluster_assignments and
    delivery_system_events. *)
Record SystemRelease := {
  release_Sequence : Z;
  release_State : string;
  release_DistributionDigest : string;
  release_AgentVersion : string;
}.

Record SystemAssignment := {
  system_DesiredReleaseID : uuid;
  system_PreviousReleaseID : option uuid;
  system_RolloutID : option uuid;
  system_Generation : Z;
  system_Phase : string;
  system_Fence : Z;
  system_ReleasedAt : option time;
  system_AcknowledgedAt : option time;
  system_ReadyAt : option time;
  system_ObservedDigest : string;
  system_ObservedAgentVersion : string;
  system_LastErrorCode : string;
  system_LastObservedAt : option time;
}.

Record SystemEvent := {
  sevent_RolloutID : option uuid;
  sevent_ClusterID : uuid;
  sevent_ReleaseID : uuid;
  sevent_Generation : Z;
  sevent_EventType : string;
  sevent_FromPhase : string;
  sevent_ToPhase : string;
  sevent_ReasonCode : string;
  sevent_DecisionDigest : string;
  sevent_OccurredAt : time;
}.

(** The documents that are digested are written as trees. *)
#[export] Instance tree_json : ToJSON json := fun j => j.

Section ingest.
Context `{External} {Outbox : Type}.
#[local] Abbreviation DB := (DB Outbox).

(** [fleet_locals] are the clusters of the management plane that are not
    decommissioned. *)
Record Fleet := {
  fleet_db : DB;
  fleet_inventory : gmap uuid InventoryRow;
  fleet_receipts : gmap uuid AssignmentReceipt;
  fleet_targets : gmap uuid TargetDeletion;
  fleet_releases : gmap uuid SystemRelease;
  fleet_assignments : gmap uuid SystemAssignment;
  fleet_systemEvents : list SystemEvent;
  fleet_locals : gset uuid;
}.

Definition with_db (f : Fleet) (db : DB) : Fleet := {|
  fleet_db := db; fleet_inventory := fleet_inventory f; fleet_receipts := fleet_receipts f;
  fleet_targets := fleet_targets f; fleet_releases := fleet_releases f; fleet_assignments := fleet_assignments f;
  fleet_systemEvents := fleet_systemEvents f; fleet_locals := fleet_locals f |}.

Definition with_inventory (f : Fleet) (inventory : gmap uuid InventoryRow) (receipts : gmap uuid AssignmentReceipt)
    (targets : gmap uuid TargetDeletion) : Fleet := {|
  fleet_db := fleet_db f; fleet_inventory := inventory; fleet_receipts := receipts;
  fleet_targets := targets; fleet_releases := fleet_releases f; fleet_assignments := fleet_assignments f;
  fleet_systemEvents := fleet_systemEvents f; fleet_locals := fleet_locals f |}.

Definition with_system (f : Fleet) (assignments : gmap uuid SystemAssignment) (events : list SystemEvent) : Fleet := {|
  fleet_db := fleet_db f; fleet_inventory := fleet_inventory f; fleet_receipts := fleet_receipts f;
  fleet_targets := fleet_targets f; fleet_releases := fleet_releases f; fleet_assignments := assignments;
  fleet_systemEvents := events; fleet_locals := fleet_locals f |}.

(** ** Statements *)

(** A text a column of [n] characters takes, and a document a jsonb column takes:
    PostgreSQL stores no NUL.  The texts of a decoded message are valid UTF-8. *)
Definition storable (s : string) : bool := negb (ContainsByte s (byte 0)).
Definition varchar (n : Z) (s : string) : bool := (Utf8.RuneCount s <=? n) && storable s.

Fixpoint jsonb (j : json) : bool :=
  match j with
  | JString s | JRaw s => storable s
  | JArray l => forallb jsonb l
  | JObject fields => forallb (fun p => match p with (k, v) => storable k && jsonb v end) fields
  | _ => true
  end.

(** timestamptz keeps microseconds. *)
Definition microseconds (t : time) : time := t / 1000 * 1000.

Definition value_refused : error := EText "value does not fit its column".

Definition FenceDeliveryAgentSession (db : DB) (connection cluster : uuid) (session : string) : bool :=
  match db_connections db !! connection with
  | Some c => (connection_ClusterID c == cluster) && (connection_SessionID c == session) &&
              (connection_Status c == "connected")
  | None => false
  end.

(** The row an accepted report leaves; a known digest of the same session keeps
    the sequence of the last change. *)
Definition accepted_row (new : InventoryRow) (old : option InventoryRow) : InventoryRow := {|
  stock_AgentVersion := stock_AgentVersion new; stock_FluxVersion := stock_FluxVersion new;
  stock_Components := stock_Components new; stock_SystemComponents := stock_SystemComponents new;
  stock_APIVersions := stock_APIVersions new; stock_DistributionDigest := stock_DistributionDigest new;
  stock_KubernetesVersion := stock_KubernetesVersion new; stock_Ready := stock_Ready new;
  stock_CompatibilityStatus := stock_CompatibilityStatus new; stock_ErrorCode := stock_ErrorCode new;
  stock_ObservedAt := microseconds <$> stock_ObservedAt new; stock_StatusDigest := stock_StatusDigest new;
  stock_SessionID := stock_SessionID new; stock_Sequence := stock_Sequence new;
  stock_SemanticSequence :=
    match old with
    | Some row => if (stock_StatusDigest row != stock_StatusDigest new) || (stock_SessionID row != stock_SessionID new)
                  then stock_Sequence new else stock_SemanticSequence row
    | None => stock_Sequence new
    end |}.

Definition stock_fits (row : InventoryRow) : bool :=
  varchar 64 (stock_AgentVersion row) && varchar 64 (stock_FluxVersion row) && varchar 64 (stock_KubernetesVersion row) &&
  varchar 128 (stock_SessionID row) && jsonb (to_json (stock_Components row)) &&
  jsonb (to_json (stock_SystemComponents row)) && jsonb (to_json (stock_APIVersions row)).

(** [None] is a sequence of the session that is not new; otherwise the table and
    whether the report differs from the one before. *)
Definition AcceptDeliveryStatusInventory (inventory : gmap uuid InventoryRow) (cluster : uuid) (new : InventoryRow) :
    res (option (gmap uuid InventoryRow * bool)) :=
  fail_if (negb (stock_fits new)) value_refused;;
  let old := inventory !! cluster in
  if match old with
     | Some row => (stock_SessionID row != stock_SessionID new) || (stock_Sequence row <? stock_Sequence new)
     | None => true
     end
  then let row := accepted_row new old in
       Ok (Some (<[cluster := row]> inventory, stock_SemanticSequence row =? stock_Sequence row))
  else Ok None.

(** *** System releases *)

Definition released_release (f : Fleet) : option (uuid * SystemRelease) :=
  List.find (fun p => release_State p.2 == "released") (map_to_list (fleet_releases f)).

Definition retargeted (release : uuid) (now : time) (a : SystemAssignment) : SystemAssignment := {|
  system_DesiredReleaseID := release; system_PreviousReleaseID := Some (system_DesiredReleaseID a);
  system_RolloutID := None; system_Generation := system_Generation a + 1; system_Phase := "released";
  system_Fence := system_Fence a + 1; system_ReleasedAt := Some now; system_AcknowledgedAt := system_AcknowledgedAt a;
  system_ReadyAt := None; system_ObservedDigest := system_ObservedDigest a;
  system_ObservedAgentVersion := system_ObservedAgentVersion a; system_LastErrorCode := "";
  system_LastObservedAt := system_LastObservedAt a |}.

(** The number of rows updated. *)
Definition RetargetLocalDeliverySystemAssignment (f : Fleet) (cluster : uuid) (now : time) : res (Z * Fleet) :=
  match fleet_assignments f !! cluster, released_release f with
  | Some a, Some (release, _) =>
      if bool_decide (cluster ∈ fleet_locals f) && (system_DesiredReleaseID a != release) then
        fail_if ((MaxInt64 <=? system_Generation a) || (MaxInt64 <=? system_Fence a)) out_of_range;;
        Ok (1, with_system f (<[cluster := retargeted release now a]> (fleet_assignments f)) (fleet_systemEvents f))
      else Ok (0, f)
  | _, _ => Ok (0, f)
  end.

(** What the inventory says of a release. *)
Record SystemObservation := {
  sobs_DistributionDigest : string;
  sobs_AgentVersion : string;
  sobs_ObservedAt : option time;
  sobs_Ready : bool;
  sobs_CompatibilityStatus : string;
  sobs_ErrorCode : string;
}.

Definition runs_release (o : SystemObservation) (r : SystemRelease) : bool :=
  sobs_Ready o && (sobs_DistributionDigest o == release_DistributionDigest r) &&
  (sobs_AgentVersion o == release_AgentVersion r).

Definition observed_phase (o : SystemObservation) (r : SystemRelease) (phase : string) : string :=
  let back := contains ["rolling_back"; "rolled_back"] phase in
  if contains ["pending"; "aborted"] phase then phase
  else if runs_release o r then (if back then "rolled_back" else "ready")
  else if sobs_CompatibilityStatus o == "incompatible" then (if back then "rollback_failed" else "failed")
  else if phase == "rolled_back" then phase
  else "applying".

Definition observed_assignment (o : SystemObservation) (r : SystemRelease) (a : SystemAssignment) : SystemAssignment := {|
  system_DesiredReleaseID := system_DesiredReleaseID a; system_PreviousReleaseID := system_PreviousReleaseID a;
  system_RolloutID := system_RolloutID a; system_Generation := system_Generation a;
  system_Phase := observed_phase o r (system_Phase a); system_Fence := system_Fence a;
  system_ReleasedAt := system_ReleasedAt a;
  system_AcknowledgedAt := match system_AcknowledgedAt a with Some t => Some t | None => microseconds <$> sobs_ObservedAt o end;
  system_ReadyAt :=
    if contains ["pending"; "aborted"] (system_Phase a) then system_ReadyAt a
    else if runs_release o r then match system_ReadyAt a with Some t => Some t | None => microseconds <$> sobs_ObservedAt o end
    else None;
  system_ObservedDigest := sobs_DistributionDigest o; system_ObservedAgentVersion := sobs_AgentVersion o;
  system_LastErrorCode := if runs_release o r then "" else sobs_ErrorCode o;
  system_LastObservedAt := microseconds <$> sobs_ObservedAt o |}.

Definition seeded_assignment (release : uuid) (r : SystemRelease) (now : time) : SystemAssignment := {|
  system_DesiredReleaseID := release; system_PreviousReleaseID := None; system_RolloutID := None;
  system_Generation := release_Sequence r; system_Phase := "released"; system_Fence := 1;
  system_ReleasedAt := Some now; system_AcknowledgedAt := None; system_ReadyAt := None; system_ObservedDigest := "";
  system_ObservedAgentVersion := ""; system_LastErrorCode := ""; system_LastObservedAt := None |}.

(** The update reads the table as it was before the insert: a statement that seeds
    an assignment returns no row. *)
Definition ObserveDeliverySystemAssignment (f : Fleet) (cluster : uuid) (o : SystemObservation) (now : time) :
    option (string * SystemAssignment) * Fleet :=
  match fleet_assignments f !! cluster with
  | Some a =>
      match fleet_releases f !! system_DesiredReleaseID a with
      | Some r =>
          let a' := observed_assignment o r a in
          (Some (system_Phase a, a'), with_system f (<[cluster := a']> (fleet_assignments f)) (fleet_systemEvents f))
      | None => (None, f)
      end
  | None =>
      match released_release f with
      | Some (release, r) =>
          (None, with_system f (<[cluster := seeded_assignment release r now]> (fleet_assignments f)) (fleet_systemEvents f))
      | None => (None, f)
      end
  end.

Definition CreateDeliverySystemEvent (f : Fleet) (event : SystemEvent) : Fleet :=
  with_system f (fleet_assignments f) (fleet_systemEvents f ++ [event]).
(** *** Targets, snapshots and deployments *)

Definition FinalizeDeliveryTargetDeletionIfComplete (f : Fleet) (target : uuid) : res Fleet :=
  match fleet_targets f !! target with
  | Some t =>
      if (deletion_State t == "deleting") &&
         forallb (fun p => (p.1.1 != target) || (deployment_Phase p.2 == "removed")) (map_to_list (db_deployments (fleet_db f)))
      then
        fail_if (MaxInt64 <=? deletion_ResourceVersion t) out_of_range;;
        let t' := {| deletion_State := "deleted"; deletion_Generation := deletion_Generation t;
                     deletion_ResourceVersion := deletion_ResourceVersion t + 1 |} in
        Ok (with_inventory f (fleet_inventory f) (fleet_receipts f) (<[target := t']> (fleet_targets f)))
      else Ok f
  | None => Ok f
  end.

Definition AcknowledgeDeliveryAssignmentSnapshot (f : Fleet) (cluster : uuid) (generation : Z) (etag session : string)
    (sequence : Z) (code : string) (now : time) : res Fleet :=
  match fleet_receipts f !! cluster with
  | Some r =>
      if (snapshot_DesiredGeneration r =? generation) && (snapshot_DesiredETag r == etag) &&
         ((snapshot_SessionID r != session) || (snapshot_Sequence r <? sequence))
      then
        let r' := {| snapshot_DesiredGeneration := snapshot_DesiredGeneration r;
                     snapshot_DesiredETag := snapshot_DesiredETag r; snapshot_AckedGeneration := generation;
                     snapshot_AckedETag := etag; snapshot_SessionID := session; snapshot_Sequence := sequence;
                     snapshot_ErrorCode := code; snapshot_AckedAt := Some now |} in
        Ok (with_inventory f (fleet_inventory f) (<[cluster := r']> (fleet_receipts f)) (fleet_targets f))
      else Err no_rows
  | None => Err no_rows
  end.

(** The row with this primary key, under its target and cluster. *)
Definition deployment_by_id (db : DB) (id : uuid) : option ((uuid * uuid) * DeploymentRow) :=
  List.find (fun p => deployment_ID p.2 == id) (map_to_list (db_deployments db)).

Definition GetClusterDeploymentForDeliveryStatus (db : DB) (id cluster : uuid) : option ((uuid * uuid) * DeploymentRow) :=
  match deployment_by_id db id with
  | Some p => if p.1.2 == cluster then Some p else None
  | None => None
  end.

(** What a report writes into a deployment. *)
Record ObservedColumns := {
  observed_Generation : Z;
  observed_SpecDigest : string;
  observed_Revision : string;
  observed_Phase : string;
  observed_Conditions : list DeliveryCondition;
  observed_SourceKind : string;
  observed_SourceName : string;
  observed_ReconcilerKind : string;
  observed_ReconcilerName : string;
  observed_Inventory : option deploymentInventory;
  observed_SessionID : string;
  observed_Sequence : Z;
  observed_ErrorCode : string;
  observed_Message : string;
  observed_At : option time;
}.

Definition observed_row (o : ObservedColumns) (d : DeploymentRow) : DeploymentRow := {|
  deployment_ID := deployment_ID d; deployment_CurrentRolloutID := deployment_CurrentRolloutID d;
  deployment_DesiredBundleVersionID := deployment_DesiredBundleVersionID d;
  deployment_PreviousBundleVersionID := deployment_PreviousBundleVersionID d;
  deployment_DesiredGeneration := deployment_DesiredGeneration d; deployment_ObservedGeneration := observed_Generation o;
  deployment_DesiredSpecDigest := deployment_DesiredSpecDigest d; deployment_ObservedSpecDigest := observed_SpecDigest o;
  deployment_DesiredRevision := deployment_DesiredRevision d; deployment_ObservedRevision := observed_Revision o;
  deployment_DesiredOverrides := deployment_DesiredOverrides d;
  deployment_PreviousOverrides := deployment_PreviousOverrides d;
  deployment_DesiredRendererSpec := deployment_DesiredRendererSpec d;
  deployment_DesiredConfigurationDigest := deployment_DesiredConfigurationDigest d;
  deployment_Action := deployment_Action d; deployment_Phase := observed_Phase o;
  deployment_Conditions := observed_Conditions o; deployment_SourceKind := observed_SourceKind o;
  deployment_SourceName := observed_SourceName o; deployment_ReconcilerKind := observed_ReconcilerKind o;
  deployment_ReconcilerName := observed_ReconcilerName o; deployment_Inventory := observed_Inventory o;
  deployment_AgentSessionID := observed_SessionID o; deployment_AgentSequence := observed_Sequence o;
  deployment_LastErrorCode := observed_ErrorCode o; deployment_LastMessage := observed_Message o;
  deployment_LastObservedAt := microseconds <$> observed_At o |}.

Definition observed_fits (o : ObservedColumns) : bool :=
  varchar 256 (observed_Revision o) && varchar 128 (observed_SessionID o) && varchar 4096 (observed_Message o) &&
  jsonb (to_json (observed_Conditions o)).

Definition UpdateClusterDeploymentObservedCAS (db : DB) (id : uuid) (o : ObservedColumns) (now : time) :
    res (option ((uuid * uuid) * DeploymentRow * DB)) :=
  match deployment_by_id db id with
  | Some (key, d) =>
      if (deployment_DesiredGeneration d =? observed_Generation o) &&
         (deployment_DesiredSpecDigest d == observed_SpecDigest o) &&
         ((deployment_AgentSessionID d != observed_SessionID o) || (deployment_AgentSequence d <? observed_Sequence o))
      then
        fail_if (negb (observed_fits o)) value_refused;;
        db' ← write_deployment now key (observed_row o d) db;
        Ok (Some (key, observed_row o d, db'))
      else Ok None
  | None => Ok None
  end.

(** *** Clusters of a rollout *)

Definition advanced_state (phase action : string) : string :=
  if phase == "ready" then (if action == "rollback" then "ready_previous" else "ready")
  else if contains ["failed"; "degraded"] phase then "failed"
  else if phase == "applying" then (if action == "rollback" then "rolling_back" else "reconciling")
  else "acknowledged".

Definition advanced_cluster (phase code : string) (now : time) (c : ClusterRow) : ClusterRow :=
  set_cluster c (advanced_state phase (cluster_AssignmentAction c)) (cluster_AssignmentAction c) (cluster_Attempt c)
    (cluster_Fence c + 1) (cluster_ReleasedAt c) (Some (default now (cluster_AcknowledgedAt c)))
    (if phase == "ready" then Some (default now (cluster_ReadyAt c))
     else if contains ["applying"; "failed"; "degraded"] phase then None else cluster_ReadyAt c)
    (if contains ["ready"; "failed"; "degraded"] phase then Some now
     else if phase == "applying" then None else cluster_CompletedAt c)
    (cluster_Deadline c) code now.

Definition advances (phase rolloutState : string) (c : ClusterRow) : bool :=
  (((rolloutState == "progressing") && (cluster_AssignmentAction c == "apply")) ||
   ((rolloutState == "rolling_back") && (cluster_AssignmentAction c == "rollback"))) &&
  (((phase == "ready") && contains ["released"; "acknowledged"; "reconciling"; "rolling_back"] (cluster_State c)) ||
   (contains ["failed"; "degraded"] phase &&
    contains ["released"; "acknowledged"; "reconciling"; "ready"; "rolling_back"; "ready_previous"] (cluster_State c)) ||
   ((phase == "applying") && contains ["released"; "acknowledged"; "ready"; "ready_previous"] (cluster_State c)) ||
   (negb (contains ["ready"; "failed"; "degraded"; "applying"] phase) && (cluster_State c == "released"))).

(** The cluster row of the rollout a deployment belongs to; a rollout has one row
    per cluster. *)
Definition rollout_cluster (db : DB) (rollout cluster : uuid) : option (uuid * ClusterRow) :=
  List.find (fun q => (cluster_RolloutID q.2 == rollout) && (cluster_ClusterID q.2 == cluster)) (map_to_list (db_clusters db)).

(** The state it had and the row it has now. *)
Definition AdvanceDeliveryRolloutClusterFromStatus (db : DB) (deployment : uuid) (phase code : string) (generation : Z)
    (spec : string) (now : time) : res (option (string * ClusterRow * DB)) :=
  match deployment_by_id db deployment with
  | Some ((_, cluster), d) =>
      match deployment_CurrentRolloutID d with
      | Some rollout =>
          match rollout_cluster db rollout cluster, db_rollouts db !! rollout with
          | Some (cid, c), Some row =>
              if advances phase (row_State row) c && (deployment_DesiredGeneration d =? generation) &&
                 (deployment_DesiredSpecDigest d == spec)
              then
                db' ← update_clusters (fun cid' _ => cid' == cid) (advanced_cluster phase code now) now db;
                Ok (Some (cluster_State c, advanced_cluster phase code now c, db'))
              else Ok None
          | _, _ => Ok None
          end
      | None => Ok None
      end
  | None => Ok None
  end.
(** ** The ingester (ingester.go, observation.go, deployment_observation.go) *)

Definition inventoryObservedAt (i : DeliveryControllerInventory) (receivedAt : time) : option time :=
  match inventory_Observation i with
  | None => Some receivedAt
  | Some o => obs_ObservedAt o
  end.

Definition deploymentSourceTime (d : DeliveryDeploymentStatusV2) (modern : bool) : option time :=
  if modern then report_Observation d ≫= obs_ObservedAt else Some (report_ObservedAt d).

Definition deploymentEventTime (d : DeliveryDeploymentStatusV2) (modern : bool) (receivedAt : time) : time :=
  if modern then receivedAt else report_ObservedAt d.

Definition sanitizeConditions (l : list DeliveryCondition) : list DeliveryCondition :=
  map (fun c => {| condition_Type := condition_Type c; condition_Status := condition_Status c;
                   condition_Reason := condition_Reason c; condition_Message := RedactString (condition_Message c);
                   condition_ObservedGeneration := condition_ObservedGeneration c;
                   condition_LastTransitionTime := condition_LastTransitionTime c |}) l.

Definition report_code (d : DeliveryDeploymentStatusV2) : string :=
  if report_ErrorCode d == "" then default "" (head (report_WarningCodes d)) else report_ErrorCode d.

(** pkg/version *)
Definition Normalize (v : string) : string :=
  let v := TrimSpace v in
  match v with
  | EmptyString => v
  | String c r =>
      if digit c then "v" +:+ v
      else if c == "V"%char then match r with String d _ => if digit d then "v" +:+ r else v | EmptyString => v end
      else v
  end.

(** The clocks a report meets: Go's, read at each step, and the database's, which
    stands still in a transaction; and the identifiers the database draws. *)
Record Clocks := {
  clock_validate : nat -> time;
  clock_evaluate : time;
  clock_accepted : time;
  clock_system : time;
  clock_report : nat -> time;
  clock_wake : nat -> time;
  clock_ready : time;
  clock_db : time;
  clock_eventID : nat -> uuid;
}.

(** The tables in the middle of the transaction, with the results and phases that
    are counted after the commit. *)
Record Progress := {
  progress_fleet : Fleet;
  statusResults : list string;
  acceptedPhases : list string;
}.

Definition ended (p : Progress) (result : string) : Progress := {|
  progress_fleet := progress_fleet p; statusResults := statusResults p ++ [result]; acceptedPhases := acceptedPhases p |}.

Section report.
Context (clocks : Clocks) (authenticatedCluster : uuid) (sessionID : string) (sequence : Z) (modern : bool).

Definition observed_columns (d : DeliveryDeploymentStatusV2) : ObservedColumns := {|
  observed_Generation := report_Generation d; observed_SpecDigest := report_SpecDigest d;
  observed_Revision := report_ObservedRevision d; observed_Phase := report_Phase d;
  observed_Conditions := sanitizeConditions (report_Conditions d);
  observed_SourceKind := report_SourceKind d; observed_SourceName := report_SourceName d;
  observed_ReconcilerKind := report_ReconcilerKind d; observed_ReconcilerName := report_ReconcilerName d;
  observed_Inventory := Some {| stored_Inventory := report_Inventory d; stored_Observation := report_Observation d |};
  observed_SessionID := sessionID; observed_Sequence := sequence; observed_ErrorCode := report_code d;
  observed_Message := RedactString (report_Message d); observed_At := deploymentSourceTime d modern |}.

Definition advance_document (rollout cluster deployment : uuid) (d : DeploymentRow) : json :=
  JObject (field "rollout_id" rollout ++ field "cluster_id" cluster ++ field "deployment_id" deployment ++
    field "generation" (deployment_ObservedGeneration d) ++ field "spec_digest" (deployment_ObservedSpecDigest d) ++
    field "phase" (deployment_Phase d) ++ field "session_sequence" sequence).

(** The end of a report: the cluster row advances, with an event and a wake of its
    rollout. *)
Definition advance (n : nat) (id : uuid) (eventTime : time) (updated : DeploymentRow) (db : DB) : res DB :=
  advanced ← AdvanceDeliveryRolloutClusterFromStatus db id (deployment_Phase updated) (deployment_LastErrorCode updated)
               (deployment_ObservedGeneration updated) (deployment_ObservedSpecDigest updated) (clock_db clocks);
  match advanced with
  | None => Ok db
  | Some (from, c, db1) =>
      decisionDigest ← CanonicalDigest (advance_document (cluster_RolloutID c) (cluster_ClusterID c) id updated);
      let db2 := CreateDeliveryRolloutEvent db1 {|
        event_ID := clock_eventID clocks n; event_RolloutID := cluster_RolloutID c;
        event_ClusterID := Some (cluster_ClusterID c); event_DecisionDigest := decisionDigest;
        event_EventType := "status_advance"; event_FromState := from; event_ToState := cluster_State c;
        event_ReasonCode := deployment_LastErrorCode updated; event_Fence := cluster_Fence c;
        event_OccurredAt := microseconds eventTime |} in
      Ok (UpsertTaskOutbox db2 ("delivery-rollout-status:" +:+ decisionDigest) (cluster_RolloutID c)
            (microseconds (clock_wake clocks n)))
  end.

Definition record_transition (id : uuid) (eventTime : time) (d : DeliveryDeploymentStatusV2)
    (current updated : DeploymentRow) (db : DB) : DB :=
  if (deployment_Phase current != deployment_Phase updated) || (deployment_LastErrorCode current != deployment_LastErrorCode updated)
  then CreateClusterDeploymentEvent db {|
    devent_DeploymentID := id; devent_RolloutID := deployment_CurrentRolloutID current;
    devent_EventType := "status_transition"; devent_FromPhase := deployment_Phase current;
    devent_ToPhase := deployment_Phase updated; devent_Generation := report_Generation d;
    devent_SpecDigest := report_SpecDigest d; devent_ReasonCode := report_code d;
    devent_Message := RedactString (report_Message d); devent_ObservedAt := microseconds eventTime |}
  else db.

(** One round of the loop over the deployments. *)
Definition ingest_report (n : nat) (p : Progress) (d : DeliveryDeploymentStatusV2) : res Progress :=
  let f := progress_fleet p in
  let eventTime := deploymentEventTime d modern (clock_report clocks n) in
  let id := default uuid_Nil (uuid_Parse (report_DeploymentID d)) in
  match GetClusterDeploymentForDeliveryStatus (fleet_db f) id authenticatedCluster with
  | None => Ok (ended p "dropped")
  | Some (_, current) =>
      if (deployment_DesiredGeneration current != report_Generation d) ||
         (deployment_DesiredSpecDigest current != report_SpecDigest d)
      then Ok (ended p "stale_rejected")
      else
        written ← UpdateClusterDeploymentObservedCAS (fleet_db f) id (observed_columns d) (clock_db clocks);
        match written with
        | None => Ok (ended p "replay_rejected")
        | Some (key, updated, db1) =>
            let f1 := with_db f (record_transition id eventTime d current updated db1) in
            f2 ← (if deployment_Phase updated == "removed"
                  then FinalizeDeliveryTargetDeletionIfComplete f1 key.1 else Ok f1);
            db3 ← advance n id eventTime updated (fleet_db f2);
            Ok {| progress_fleet := with_db f2 db3; statusResults := statusResults p;
                  acceptedPhases := acceptedPhases p ++ [deployment_Phase updated] |}
        end
  end.

Fixpoint ingest_reports (n : nat) (p : Progress) (l : list DeliveryDeploymentStatusV2) : res Progress :=
  match l with
  | [] => Ok p
  | d :: rest => p' ← ingest_report n p d; ingest_reports (S n) p' rest
  end.

(** One round of [refreshDeploymentSourceTimes]. *)
Definition refreshed_columns (current : DeploymentRow) (stored : deploymentInventory) (d : DeliveryDeploymentStatusV2) :
    ObservedColumns := {|
  observed_Generation := report_Generation d; observed_SpecDigest := report_SpecDigest d;
  observed_Revision := deployment_ObservedRevision current; observed_Phase := deployment_Phase current;
  observed_Conditions := deployment_Conditions current; observed_SourceKind := deployment_SourceKind current;
  observed_SourceName := deployment_SourceName current; observed_ReconcilerKind := deployment_ReconcilerKind current;
  observed_ReconcilerName := deployment_ReconcilerName current;
  observed_Inventory := Some {| stored_Inventory := stored_Inventory stored; stored_Observation := report_Observation d |};
  observed_SessionID := sessionID; observed_Sequence := sequence;
  observed_ErrorCode := deployment_LastErrorCode current; observed_Message := deployment_LastMessage current;
  observed_At := deploymentSourceTime d true |}.

(** The time of a report is compared as it came: one with nanoseconds never equals
    what is stored of it. *)
Definition same_source_time (d : DeliveryDeploymentStatusV2) (current : DeploymentRow) : bool :=
  bool_decide (deploymentSourceTime d true = deployment_LastObservedAt current).

Definition refresh_report (db : DB) (d : DeliveryDeploymentStatusV2) : res DB :=
  let id := default uuid_Nil (uuid_Parse (report_DeploymentID d)) in
  match GetClusterDeploymentForDeliveryStatus db id authenticatedCluster with
  | None => Ok db
  | Some (_, current) =>
      if (deployment_DesiredGeneration current != report_Generation d) ||
         (deployment_DesiredSpecDigest current != report_SpecDigest d) ||
         (deployment_ObservedGeneration current != report_Generation d) ||
         (deployment_ObservedSpecDigest current != report_SpecDigest d)
      then Ok db
      else if same_source_time d current then Ok db
      else
        match deployment_Inventory current with
        | None => Err (EText "decode persisted deployment inventory: %w")
        | Some stored =>
            written ← UpdateClusterDeploymentObservedCAS db id (refreshed_columns current stored d) (clock_db clocks);
            Ok (match written with Some (_, _, db') => db' | None => db end)
        end
  end.

Definition refreshDeploymentSourceTimes (l : list DeliveryDeploymentStatusV2) (db : DB) : res DB :=
  if modern then res_foldl refresh_report db l else Ok db.
End report.

(** *** The transaction *)

Section ingester.
Context (versionFile : string) (provenance : option (list ProvenanceEntry)) (semver_Parse : string -> option (Z * Z)).

#[local] Abbreviation Evaluate := (Evaluate versionFile provenance semver_Parse).

Definition inventory_row (clocks : Clocks) (sessionID : string) (payload : DeliveryStatusV2) : InventoryRow :=
  let i := status_ControllerInventory payload in
  let result := Evaluate i (clock_evaluate clocks) in {|
  stock_AgentVersion := Normalize (inventory_AgentVersion i); stock_FluxVersion := inventory_FluxVersion i;
  stock_Components := inventory_Components i; stock_SystemComponents := inventory_SystemComponents i;
  stock_APIVersions := inventory_APIVersions i; stock_DistributionDigest := inventory_DistributionDigest i;
  stock_KubernetesVersion := inventory_KubernetesVersion i; stock_Ready := inventory_Ready i;
  stock_CompatibilityStatus := result_Status result; stock_ErrorCode := result_Code result;
  stock_ObservedAt := inventoryObservedAt i (clock_accepted clocks); stock_StatusDigest := status_StatusDigest payload;
  stock_SessionID := sessionID; stock_Sequence := status_SessionSequence payload;
  stock_SemanticSequence := status_SessionSequence payload |}.

Definition system_observation (clocks : Clocks) (payload : DeliveryStatusV2) : SystemObservation :=
  let i := status_ControllerInventory payload in
  let result := Evaluate i (clock_evaluate clocks) in {|
  sobs_DistributionDigest := inventory_DistributionDigest i; sobs_AgentVersion := Normalize (inventory_AgentVersion i);
  sobs_ObservedAt := inventoryObservedAt i (clock_system clocks); sobs_Ready := inventory_Ready i;
  sobs_CompatibilityStatus := result_Status result; sobs_ErrorCode := result_Code result |}.

Definition system_document (cluster : uuid) (a : SystemAssignment) (from : string) (at_ : time) : json :=
  JObject (field "cluster_id" cluster ++ field "release_id" (system_DesiredReleaseID a) ++
    field "generation" (system_Generation a) ++ field "from_phase" from ++ field "to_phase" (system_Phase a) ++
    [("observed_at", JTime at_)]).

(** The system release: the assignment of a local cluster is retargeted first, and
    a new or changed report is observed. *)
Definition observe_system (clocks : Clocks) (cluster : uuid) (changed : bool) (payload : DeliveryStatusV2) (f : Fleet) :
    res Fleet :=
  retarget ← RetargetLocalDeliverySystemAssignment f cluster (clock_db clocks);
  let '(rows, f1) := retarget in
  if changed || (0 <? rows) then
    let '(observed, f2) := ObserveDeliverySystemAssignment f1 cluster (system_observation clocks payload) (clock_db clocks) in
    match observed with
    | Some (from, a) =>
        if from != system_Phase a then
          decisionDigest ← CanonicalDigest (system_document cluster a from (clock_system clocks));
          Ok (CreateDeliverySystemEvent f2 {|
            sevent_RolloutID := system_RolloutID a; sevent_ClusterID := cluster;
            sevent_ReleaseID := system_DesiredReleaseID a; sevent_Generation := system_Generation a;
            sevent_EventType := "inventory_transition"; sevent_FromPhase := from; sevent_ToPhase := system_Phase a;
            sevent_ReasonCode := system_LastErrorCode a; sevent_DecisionDigest := decisionDigest;
            sevent_OccurredAt := microseconds (clock_system clocks) |})
        else Ok f2
    | None => Ok f2
    end
  else Ok f1.

Definition ErrClusterIdentityMismatch : error := EText "delivery status cluster does not match authenticated session".
Definition ErrSessionSuperseded : error := EText "delivery status agent session is no longer active".

Definition is_modern (payload : DeliveryStatusV2) : bool :=
  negb (bool_decide (inventory_Observation (status_ControllerInventory payload) = None)).

Definition begun (f : Fleet) : Progress := {| progress_fleet := f; statusResults := []; acceptedPhases := [] |}.

(** What follows the acceptance of a report: the system release, then a refresh of
    source times or the reports and the acknowledgment. *)
Definition ingest_accepted (clocks : Clocks) (cluster : uuid) (sessionID : string) (changed : bool)
    (payload : DeliveryStatusV2) (f : Fleet) : res Progress :=
  f1 ← observe_system clocks cluster changed payload f;
  if changed then
    p ← ingest_reports clocks cluster sessionID (status_SessionSequence payload) (is_modern payload) 0 (begun f1)
          (status_Deployments payload);
    if 0 <? status_SnapshotGeneration payload then
      f2 ← AcknowledgeDeliveryAssignmentSnapshot (progress_fleet p) cluster (status_SnapshotGeneration payload)
             (status_SnapshotETag payload) sessionID (status_SessionSequence payload) "" (clock_db clocks);
      Ok {| progress_fleet := f2; statusResults := statusResults p; acceptedPhases := acceptedPhases p |}
    else Ok p
  else
    db ← refreshDeploymentSourceTimes clocks cluster sessionID (status_SessionSequence payload) (is_modern payload)
           (status_Deployments payload) (fleet_db f1);
    Ok (ended (begun (with_db f1 db)) "coalesced").

Definition ingest_tx (clocks : Clocks) (cluster connection : uuid) (sessionID : string) (payload : DeliveryStatusV2)
    (f : Fleet) : res Progress :=
  fail_if (negb (FenceDeliveryAgentSession (fleet_db f) connection cluster sessionID)) ErrSessionSuperseded;;
  accepted ← AcceptDeliveryStatusInventory (fleet_inventory f) cluster (inventory_row clocks sessionID payload);
  match accepted with
  | None => Ok (ended (begun f) "replay_rejected")
  | Some (inventory, changed) =>
      ingest_accepted clocks cluster sessionID changed payload (with_inventory f inventory (fleet_receipts f) (fleet_targets f))
  end.

(** The answer to a report, the results and phases that are counted, and whether
    the readiness reconciler is called. *)
Record Ingested := {
  ingested_err : option error;
  ingested_results : list string;
  ingested_phases : list string;
  ingested_ready : bool;
  ingested_fleet : Fleet;
}.

Definition rejected (e : error) (f : Fleet) : Ingested := {|
  ingested_err := Some e; ingested_results := []; ingested_phases := []; ingested_ready := false; ingested_fleet := f |}.

(** The fate of the transaction: an error of the database before the commit, or a
    commit whose answer is lost. *)
Inductive Fault := Works | Fails (e : error) | ReplyLost (e : error).

(** [ready] says whether a readiness reconciler is configured. *)
Definition Ingest (clocks : Clocks) (fault : Fault) (ready : bool) (cluster connection : uuid) (sessionID : string)
    (payload : DeliveryStatusV2) (f : Fleet) : Ingested :=
  if (cluster == uuid_Nil) || (connection == uuid_Nil) || (TrimSpace sessionID == "")
  then rejected (EText "authenticated delivery session identity is incomplete") f
  else
    match status_Validate (clock_validate clocks) payload with
    | Err e => rejected (EText "validate delivery status: %w") f
    | Ok _ =>
        if status_ClusterID payload != uuid_String cluster then rejected ErrClusterIdentityMismatch f
        else
          match fault, ingest_tx clocks cluster connection sessionID payload f with
          | Fails e, _ => rejected e f
          | _, Err e => rejected e f
          | ReplyLost e, Ok p => rejected e (progress_fleet p)
          | Works, Ok p => {|
              ingested_err := None; ingested_results := statusResults p; ingested_phases := acceptedPhases p;
              ingested_ready := ready && inventory_Ready (status_ControllerInventory payload) &&
                (result_Status (Evaluate (status_ControllerInventory payload) (clock_ready clocks)) == Compatible);
              ingested_fleet := progress_fleet p |}
          end
    end.
End ingester.
End ingest.
End StatusIngest.
