(* ===== verification/StatusIngestFacts.v ===== *)
(** * Correctness of status ingestion

    What a report may change, that a report counts once, that a report without
    news only refreshes source times, and that a report with news is recorded
    down to the clusters of its rollouts. *)

From Stdlib Require Import ZArith Lia.
From S2P Require Import Prelude Enums State SafeConv GoSort GoStrings External Validation Model Types.
From S2P Require Import Overrides RolloutTypes Planner AsyncOp DeliveryProtocol Compatibility Redaction DeliveryStore.
From S2P Require Import StatusIngest.
From stdpp Require Import base gmap strings list relations.
Import SafeConv Model DeliveryStore DeliveryProtocol Compatibility Redaction StatusIngest.

Open Scope Z_scope.

Module StatusIngestFacts.

(** ** Tables row by row *)

Definition rows `{Countable K} {V} (R : K -> V -> V -> Prop) (m m' : gmap K V) : Prop :=
  forall k, option_Forall2 (R k) (m !! k) (m' !! k).

#[export] Instance rows_preorder `{Countable K} {V} (R : K -> V -> V -> Prop) :
  (forall k, PreOrder (R k)) -> PreOrder (rows R).
Proof.
  intros HR. split.
  - intros m k. destruct (m !! k); constructor. reflexivity.
  - intros m1 m2 m3 H1 H2 k. specialize (H1 k). specialize (H2 k).
    destruct H1; inversion H2; subst; constructor. by etrans.
Qed.

Lemma rows_insert `{Countable K} {V} (R : K -> V -> V -> Prop) (m : gmap K V) k v v' :
  (forall k, PreOrder (R k)) -> m !! k = Some v -> R k v v' -> rows R m (<[k := v']> m).
Proof.
  intros HR Hm Hr j. destruct (decide (k = j)) as [<-|Hne].
  - rewrite Hm, lookup_insert_eq. by constructor.
  - rewrite lookup_insert_ne by done. destruct (m !! j); constructor. reflexivity.
Qed.

(** The rows of the other clusters. *)
Definition elsewhere {V} (cluster : uuid) (m m' : gmap uuid V) : Prop := forall c, c <> cluster -> m' !! c = m !! c.

#[export] Instance elsewhere_preorder {V} cluster : PreOrder (@elsewhere V cluster).
Proof. split; [by intros m c | intros m1 m2 m3 H1 H2 c Hc; by rewrite H2, H1]. Qed.

Lemma elsewhere_insert {V} cluster (m : gmap uuid V) v : elsewhere cluster m (<[cluster := v]> m).
Proof. intros c Hc. by rewrite lookup_insert_ne. Qed.

(** A log that grew by entries of one kind. *)
Definition grown {A} (P : A -> Prop) (l l' : list A) : Prop := exists more, l' = l ++ more /\ Forall P more.

#[export] Instance grown_preorder {A} (P : A -> Prop) : PreOrder (grown P).
Proof.
  split.
  - intros l. exists []. by rewrite app_nil_r.
  - intros l1 l2 l3 (a & -> & Ha) (b & -> & Hb). exists (a ++ b). rewrite app_assoc. split; [done | by apply Forall_app].
Qed.

Lemma grown_snoc {A} (P : A -> Prop) l x : P x -> grown P l (l ++ [x]).
Proof. intros Hx. exists [x]. split; [done|]. by constructor. Qed.

(** ** What a report may change *)

(** A deployment of the cluster takes an observation of what it is meant to be;
    nobody's desired state changes. *)
Definition desired_columns (d : DeploymentRow) :=
  (deployment_ID d, deployment_CurrentRolloutID d, deployment_DesiredBundleVersionID d,
   (deployment_PreviousBundleVersionID d, deployment_DesiredGeneration d, deployment_DesiredSpecDigest d),
   (deployment_DesiredRevision d, deployment_DesiredOverrides d, deployment_PreviousOverrides d),
   (deployment_DesiredRendererSpec d, deployment_DesiredConfigurationDigest d, deployment_Action d)).

Definition reported (cluster : uuid) (key : uuid * uuid) (d d' : DeploymentRow) : Prop :=
  d' = d \/
  desired_columns d' = desired_columns d /\ key.2 = cluster /\
  deployment_ObservedGeneration d' = deployment_DesiredGeneration d /\
  deployment_ObservedSpecDigest d' = deployment_DesiredSpecDigest d.

#[export] Instance reported_preorder cluster key : PreOrder (reported cluster key).
Proof.
  split; [by left|]. intros d1 d2 d3 [->|H1] [->|H2]; [by left | by right | by right|]. right.
  destruct H1 as (E1 & Hk & _), H2 as (E2 & _ & Hg & Hs). rewrite E2, E1, Hg, Hs. split_and!; try done;
    unfold desired_columns in E1; congruence.
Qed.

(** A cluster row advances by what one phase says of it. *)
Definition advanced (cluster : uuid) (c c' : ClusterRow) : Prop :=
  cluster_ClusterID c = cluster /\ exists phase state code now,
    advances phase state c = true /\ c' = advanced_cluster phase code now c.

(** A target whose deletion completes. *)
Definition finalized (t t' : TargetDeletion) : Prop :=
  t' = t \/ deletion_State t = "deleting" /\ deletion_State t' = "deleted" /\
            deletion_ResourceVersion t' = deletion_ResourceVersion t + 1.

#[export] Instance finalized_preorder : PreOrder finalized.
Proof.
  split; [by left|]. intros t1 t2 t3 [->|H1] [->|H2]; [by left | by right | by right|].
  destruct H1 as (_ & H1 & _), H2 as (H2 & _). congruence.
Qed.

(** No report touches these. *)
Definition foreign_tables {Outbox} (f : Fleet (Outbox := Outbox)) :=
  (db_targets (fleet_db f), db_approvals (fleet_db f), db_audit (fleet_db f), db_keys (fleet_db f),
   db_connections (fleet_db f), db_labels (fleet_db f), (fleet_releases f, fleet_locals f)).

Definition only_bumped {Outbox} (now : time) (db db' : DB Outbox) : Prop :=
  forall id, exists n, 0 <= n /\ db_rollouts db' !! id = bumped now n <$> db_rollouts db !! id.

#[export] Instance only_bumped_preorder {Outbox} now : PreOrder (@only_bumped Outbox now).
Proof.
  split.
  - intros db id. exists 0. split; [done|]. by destruct (db_rollouts db !! id).
  - intros db1 db2 db3 H1 H2 id. destruct (H1 id) as (n & Hn & E1), (H2 id) as (m & Hm & E2).
    exists (n + m). split; [lia|]. rewrite E2, E1, <- option_fmap_compose. destruct (db_rollouts db1 !! id); [|done].
    cbn. by rewrite bumped_bumped.
Qed.

Lemma only_bumped_same {Outbox} now (db db' : DB Outbox) : db_rollouts db' = db_rollouts db -> only_bumped now db db'.
Proof. intros E id. exists 0. split; [done|]. rewrite E. by destruct (db_rollouts db !! id). Qed.

Record scoped {Outbox} (now : time) (cluster : uuid) (f f' : Fleet (Outbox := Outbox)) : Prop := {
  scoped_keeps : keeps (fleet_db f) (fleet_db f');
  scoped_rollouts : only_bumped now (fleet_db f) (fleet_db f');
  scoped_foreign : foreign_tables f' = foreign_tables f;
  scoped_deployments : rows (reported cluster) (db_deployments (fleet_db f)) (db_deployments (fleet_db f'));
  scoped_clusters : rows (fun _ => rtc (advanced cluster)) (db_clusters (fleet_db f)) (db_clusters (fleet_db f'));
  scoped_events : grown (fun e => event_ClusterID e = Some cluster) (db_events (fleet_db f)) (db_events (fleet_db f'));
  scoped_targets : rows (fun _ => finalized) (fleet_targets f) (fleet_targets f');
  scoped_inventory : elsewhere cluster (fleet_inventory f) (fleet_inventory f');
  scoped_receipts : elsewhere cluster (fleet_receipts f) (fleet_receipts f');
  scoped_assignments : elsewhere cluster (fleet_assignments f) (fleet_assignments f');
  scoped_system : grown (fun e => sevent_ClusterID e = cluster) (fleet_systemEvents f) (fleet_systemEvents f');
}.

#[export] Instance scoped_preorder {Outbox} now cluster : PreOrder (@scoped Outbox now cluster).
Proof.
  split; [by intros f; split|]. intros f1 f2 f3 [] []. split; try (by etrans); by eapply transitivity; eauto.
Qed.

(** ** The statements *)

Section statements.
Context `{External} {Outbox : Type}.
#[local] Abbreviation DB := (DB Outbox).
#[local] Abbreviation Fleet := (Fleet (Outbox := Outbox)).
Implicit Types (db : DB) (f : Fleet).

Lemma deployment_by_id_Some db id key d :
  deployment_by_id db id = Some (key, d) -> db_deployments db !! key = Some d /\ deployment_ID d = id.
Proof.
  unfold deployment_by_id. intros [Hin Hid]%List.find_some. cbn in Hid. bool_props.
  split; [|done]. by apply elem_of_map_to_list, list_elem_of_In.
Qed.

Lemma GetClusterDeployment_Some db id cluster key d :
  GetClusterDeploymentForDeliveryStatus db id cluster = Some (key, d) ->
  deployment_by_id db id = Some (key, d) /\ key.2 = cluster.
Proof.
  unfold GetClusterDeploymentForDeliveryStatus. intros E. destruct (deployment_by_id db id) as [p|]; [|done].
  destruct (p.1.2 == cluster) eqn:Ec; [|done]. injection E as ->. by bool_props.
Qed.

(** The primary key of cluster_deployments. *)
Definition unique_ids db : Prop :=
  forall k k' d d', db_deployments db !! k = Some d -> db_deployments db !! k' = Some d' ->
    deployment_ID d = deployment_ID d' -> k = k'.

Lemma deployment_by_id_intro db key d :
  unique_ids db -> db_deployments db !! key = Some d -> deployment_by_id db (deployment_ID d) = Some (key, d).
Proof.
  intros Hu Hd. destruct (deployment_by_id db (deployment_ID d)) as [[k d']|] eqn:E.
  - apply deployment_by_id_Some in E as [Hd' Hid]. rewrite (Hu _ _ _ _ Hd' Hd Hid) in Hd' |- *. congruence.
  - exfalso. apply elem_of_map_to_list, list_elem_of_In in Hd. unfold deployment_by_id in E.
    eapply List.find_none in E; [|exact Hd]. cbn in E. by rewrite bool_decide_true in E.
Qed.

Lemma scoped_row now cluster f f' key d :
  scoped now cluster f f' -> db_deployments (fleet_db f) !! key = Some d ->
  exists d', db_deployments (fleet_db f') !! key = Some d' /\ reported cluster key d d'.
Proof.
  intros S Hd. pose proof (scoped_deployments _ _ _ _ S key) as Hr. rewrite Hd in Hr. inversion Hr; subst. eauto.
Qed.

Lemma scoped_row_inv now cluster f f' key d' :
  scoped now cluster f f' -> db_deployments (fleet_db f') !! key = Some d' ->
  exists d, db_deployments (fleet_db f) !! key = Some d /\ reported cluster key d d'.
Proof.
  intros S Hd. pose proof (scoped_deployments _ _ _ _ S key) as Hr. rewrite Hd in Hr. inversion Hr; subst. eauto.
Qed.

Lemma reported_desired cluster key d d' : reported cluster key d d' -> desired_columns d' = desired_columns d.
Proof. by intros [->|(E & _)]. Qed.

Lemma reported_id cluster key d d' : reported cluster key d d' -> deployment_ID d' = deployment_ID d.
Proof. intros E%reported_desired. unfold desired_columns in E. congruence. Qed.

Lemma scoped_unique now cluster f f' : scoped now cluster f f' -> unique_ids (fleet_db f) -> unique_ids (fleet_db f').
Proof.
  intros S Hu k k' d d' Hk Hk' Hid. eapply scoped_row_inv in Hk as (e & He & Re%reported_id); [|done].
  eapply scoped_row_inv in Hk' as (e' & He' & Re'%reported_id); [|done]. eapply Hu; [done..|congruence].
Qed.

(** A deployment is found again under its key. *)
Lemma found_again now cluster f f' id key d k d' :
  unique_ids (fleet_db f) -> scoped now cluster f f' -> deployment_by_id (fleet_db f) id = Some (key, d) ->
  deployment_by_id (fleet_db f') id = Some (k, d') -> k = key /\ reported cluster key d d'.
Proof.
  intros Hu S [Hd Hid]%deployment_by_id_Some [Hd' Hid']%deployment_by_id_Some.
  eapply scoped_row_inv in Hd' as (e & He & Re); [|done].
  assert (k = key) as -> by (eapply Hu; [done..|rewrite <- (reported_id _ _ _ _ Re); congruence]).
  split; [done|]. congruence.
Qed.

(** An accepted observation. *)
Record observed_once (db : DB) (id : uuid) (o : ObservedColumns) (now : time) (key : uuid * uuid) (d : DeploymentRow)
    (db' : DB) : Prop := {
  once_row : deployment_by_id db id = Some (key, d);
  once_generation : deployment_DesiredGeneration d = observed_Generation o;
  once_spec : deployment_DesiredSpecDigest d = observed_SpecDigest o;
  once_db : db' = with_rollouts (with_deployments db (<[key := observed_row o d]> (db_deployments db))) (db_rollouts db');
  once_bumped : only_bumped now db db';
  once_keeps : keeps db db';
}.

Lemma UpdateObserved_Some db id o now key row db' :
  UpdateClusterDeploymentObservedCAS db id o now = Ok (Some (key, row, db')) ->
  exists d, row = observed_row o d /\ observed_once db id o now key d db'.
Proof.
  unfold UpdateClusterDeploymentObservedCAS. intros E. destruct (deployment_by_id db id) as [[k d]|] eqn:Hd; [|done].
  destruct (_ && _) eqn:Ec; [|done]. bool_props. apply res_bind_Ok in E as (u & _ & E).
  apply res_bind_Ok in E as (db1 & Hw & [= -> <- <-]). exists d. split; [done|].
  pose proof (write_deployment_keeps _ _ _ _ _ Hw) as Hk. unfold write_deployment in Hw.
  apply bump_all_Ok in Hw as [Hdb Hr]. split; try done. intros r. eexists. split; [apply times_nonneg | apply Hr].
Qed.

Lemma observed_once_scoped f id o now cluster key d db' :
  observed_once (fleet_db f) id o now key d db' -> key.2 = cluster -> scoped now cluster f (with_db f db').
Proof.
  intros [Hd Hg Hs Hdb Hb Hk] Hc. split; try done; cbn; try (rewrite Hdb; done).
  rewrite Hdb. cbn. apply deployment_by_id_Some in Hd as [Hd _]. eapply rows_insert; [apply _ | done|].
  right. split_and!; cbn; done || congruence.
Qed.

(** A cluster row that advanced. *)
Record advanced_once (db : DB) (id : uuid) (phase code : string) (now : time) (cid : uuid) (c : ClusterRow) (db' : DB) :
    Prop := {
  advanced_row : exists key d rollout row, deployment_by_id db id = Some (key, d) /\
    deployment_CurrentRolloutID d = Some rollout /\ rollout_cluster db rollout key.2 = Some (cid, c) /\
    db_rollouts db !! rollout = Some row /\ advances phase (row_State row) c = true;
  advanced_db : db' = with_rollouts (with_clusters db (<[cid := advanced_cluster phase code now c]> (db_clusters db)))
                        (db_rollouts db');
  advanced_bumped : only_bumped now db db';
  advanced_keeps : keeps db db';
}.

Lemma rollout_cluster_Some db rollout cluster cid c :
  rollout_cluster db rollout cluster = Some (cid, c) ->
  db_clusters db !! cid = Some c /\ cluster_RolloutID c = rollout /\ cluster_ClusterID c = cluster.
Proof.
  unfold rollout_cluster. intros [Hin Hid]%List.find_some. cbn in Hid. bool_props.
  split; [|done]. by apply elem_of_map_to_list, list_elem_of_In.
Qed.

Lemma Advance_Some db id phase code generation spec now from c' db' :
  AdvanceDeliveryRolloutClusterFromStatus db id phase code generation spec now = Ok (Some (from, c', db')) ->
  exists cid c, c' = advanced_cluster phase code now c /\ from = cluster_State c /\ advanced_once db id phase code now cid c db'.
Proof.
  unfold AdvanceDeliveryRolloutClusterFromStatus. intros E.
  destruct (deployment_by_id db id) as [[[t cluster] d]|] eqn:Hd; [|done].
  destruct (deployment_CurrentRolloutID d) as [rollout|] eqn:Hr; [|done].
  destruct (rollout_cluster db rollout cluster) as [[cid c]|] eqn:Hc; [|done].
  destruct (db_rollouts db !! rollout) as [row|] eqn:Hrow; [|done].
  destruct (_ && _) eqn:Ec; [|done]. bool_props. apply res_bind_Ok in E as (db1 & Hu & [= <- <- <-]).
  exists cid, c. split_and!; try done. destruct (rollout_cluster_Some _ _ _ _ _ Hc) as (Hcid & _ & _).
  destruct (update_one_Ok _ _ _ _ _ _ Hcid Hu) as [Hdb Hrows]. split.
  - exists (t, cluster), d, rollout, row. by split_and!.
  - done.
  - intros r. eexists. split; [|apply Hrows]. by destruct (_ == r).
  - by eapply update_clusters_keeps; [|exact Hu].
Qed.

Lemma advanced_once_scoped f id phase code now cid c db' cluster :
  advanced_once (fleet_db f) id phase code now cid c db' ->
  (forall key d, deployment_by_id (fleet_db f) id = Some (key, d) -> key.2 = cluster) ->
  scoped now cluster f (with_db f db').
Proof.
  intros [(key & d & rollout & row & Hd & _ & Hc & _ & Ha) Hdb Hb Hk] Hkey.
  apply rollout_cluster_Some in Hc as (Hcid & _ & Hcl). rewrite (Hkey _ _ Hd) in Hcl.
  split; try done; cbn; try (rewrite Hdb; done).
  rewrite Hdb. cbn. eapply rows_insert; [apply _ | done|]. apply rtc_once. split; [done|].
  by exists phase, (row_State row), code, now.
Qed.

(** Logs and tasks. *)
Lemma scoped_logs now cluster f events deploymentEvents tasks :
  grown (fun e => event_ClusterID e = Some cluster) (db_events (fleet_db f)) events ->
  scoped now cluster f
    (with_db f (with_request (with_logs (fleet_db f) events (db_approvals (fleet_db f)) deploymentEvents) tasks
                  (db_audit (fleet_db f)) (db_keys (fleet_db f)))).
Proof. intros Hg. split; try done; [by apply keeps_same | exact (only_bumped_same now (fleet_db f) _ eq_refl)]. Qed.
End statements.

(** ** A report stays in its cluster *)

Section effects.
Context `{External} {Outbox : Type}.
Context (versionFile : string) (provenance : option (list ProvenanceEntry)) (semver_Parse : string -> option (Z * Z)).
#[local] Abbreviation DB := (DB Outbox).
#[local] Abbreviation Fleet := (Fleet (Outbox := Outbox)).
#[local] Abbreviation Ingest := (Ingest versionFile provenance semver_Parse).
#[local] Abbreviation ingest_tx := (ingest_tx versionFile provenance semver_Parse).
#[local] Abbreviation ingest_accepted := (ingest_accepted versionFile provenance semver_Parse).
#[local] Abbreviation observe_system := (observe_system versionFile provenance semver_Parse).
Implicit Types (db : DB) (f : Fleet).

Lemma Finalize_scoped now cluster f target f' :
  FinalizeDeliveryTargetDeletionIfComplete f target = Ok f' ->
  scoped now cluster f f' /\ fleet_db f' = fleet_db f.
Proof.
  unfold FinalizeDeliveryTargetDeletionIfComplete. intros E.
  destruct (fleet_targets f !! target) as [t|] eqn:Ht; [|by injection E as <-].
  destruct (_ && _) eqn:Ec; [|by injection E as <-]. bool_props. apply res_bind_Ok in E as (u & _ & [= <-]).
  split; [|done]. split; try done. cbn. eapply rows_insert; [intros _; apply _ | done|]. by right.
Qed.

Lemma Acknowledge_scoped now cluster f generation etag session sequence code f' :
  AcknowledgeDeliveryAssignmentSnapshot f cluster generation etag session sequence code now = Ok f' ->
  scoped now cluster f f'.
Proof.
  unfold AcknowledgeDeliveryAssignmentSnapshot. intros E. destruct (fleet_receipts f !! cluster); [|done].
  destruct (_ && _); [|done]. injection E as <-. split; try done. apply elsewhere_insert.
Qed.

Lemma observe_system_scoped clocks now cluster changed payload f f' :
  observe_system clocks cluster changed payload f = Ok f' ->
  scoped now cluster f f' /\ fleet_db f' = fleet_db f.
Proof.
  assert (S : forall f1 a events, grown (fun e => sevent_ClusterID e = cluster) (fleet_systemEvents f1) events ->
    scoped now cluster f1 (with_system f1 (<[cluster := a]> (fleet_assignments f1)) events)).
  { intros f1 a events Hg. split; try done. apply elsewhere_insert. }
  assert (R : forall rows f1, RetargetLocalDeliverySystemAssignment f cluster (clock_db clocks) = Ok (rows, f1) ->
    scoped now cluster f f1 /\ fleet_db f1 = fleet_db f).
  { unfold RetargetLocalDeliverySystemAssignment. intros rows f1 E. repeat case_match; simplify_eq; try done.
    apply res_bind_Ok in E as (? & _ & [= <- <-]). split; [by apply S | done]. }
  assert (O : forall o f1 found f2, ObserveDeliverySystemAssignment f1 cluster o (clock_db clocks) = (found, f2) ->
    scoped now cluster f1 f2 /\ fleet_db f2 = fleet_db f1).
  { unfold ObserveDeliverySystemAssignment. intros o f1 found f2 E.
    repeat case_match; simplify_eq; (split; [by apply S || done | done]). }
  unfold observe_system. intros E. apply res_bind_Ok in E as ([n f1] & (S1 & D1)%R & E).
  destruct (changed || (0 <? n)); [|by injection E as <-].
  destruct (ObserveDeliverySystemAssignment f1 _ _ _) as [found f2] eqn:Hob. apply O in Hob as [S2 D2].
  assert (S12 : scoped now cluster f f2 /\ fleet_db f2 = fleet_db f) by (split; [by etrans | congruence]).
  destruct found as [[from a]|]; [|by injection E as <-]. destruct (_ != _); [|by injection E as <-].
  apply res_bind_Ok in E as (digest & _ & [= <-]). split; [|cbn; congruence].
  etrans; [apply S12|]. split; try done. cbn. by apply grown_snoc.
Qed.

Section report.
Context (clocks : Clocks) (cluster : uuid) (session : string) (sequence : Z) (modern : bool).
#[local] Abbreviation now := (clock_db clocks).

(** A write of the logs or the tasks leaves the deployments to be found as they
    were. *)
Lemma advance_scoped n id at_ updated f db' :
  advance clocks sequence n id at_ updated (fleet_db f) = Ok db' ->
  (forall key d, deployment_by_id (fleet_db f) id = Some (key, d) -> key.2 = cluster) ->
  scoped now cluster f (with_db f db').
Proof.
  unfold advance. intros E Hkey. apply res_bind_Ok in E as (found & Ha & E).
  destruct found as [[[from c'] db1]|]; [|injection E as <-; by destruct f].
  apply Advance_Some in Ha as (cid & c & -> & -> & Ha). apply res_bind_Ok in E as (digest & _ & [= <-]).
  pose proof (advanced_once_scoped _ _ _ _ _ _ _ _ _ Ha Hkey) as S1. etrans; [exact S1|].
  destruct (advanced_row _ _ _ _ _ _ _ _ Ha) as (key & d & r & row & Hd & _ & Hc & _).
  apply rollout_cluster_Some in Hc as (_ & _ & Hc).
  refine (scoped_logs now cluster (with_db f db1) _ _ _ _). apply grown_snoc. cbn. by rewrite Hc, (Hkey _ _ Hd).
Qed.

Lemma record_transition_scoped id at_ d current updated f :
  scoped now cluster f (with_db f (record_transition id at_ d current updated (fleet_db f))).
Proof.
  unfold record_transition. destruct (_ || _); [|by destruct f].
  exact (scoped_logs now cluster f (db_events (fleet_db f)) _ (db_tasks (fleet_db f)) (reflexivity _)).
Qed.

Lemma record_transition_deployments id at_ d current updated db :
  db_deployments (record_transition id at_ d current updated db) = db_deployments db.
Proof. unfold record_transition. by destruct (_ || _). Qed.

Lemma ingest_report_scoped n (p : Progress (Outbox := Outbox)) d p' :
  unique_ids (fleet_db (progress_fleet p)) ->
  ingest_report clocks cluster session sequence modern n p d = Ok p' ->
  scoped now cluster (progress_fleet p) (progress_fleet p').
Proof.
  unfold ingest_report. set (id := default uuid_Nil _). intros Hu E.
  destruct (GetClusterDeploymentForDeliveryStatus _ id cluster) as [[key current]|] eqn:Hget; [|by injection E as <-].
  apply GetClusterDeployment_Some in Hget as [Hfind Hkey]. destruct (_ || _); [by injection E as <-|].
  apply res_bind_Ok in E as (written & Hw & E). destruct written as [[[key' updated] db1]|]; [|by injection E as <-].
  apply UpdateObserved_Some in Hw as (d0 & -> & Ho). rewrite (once_row _ _ _ _ _ _ _ Ho) in Hfind.
  injection Hfind as -> ->. pose proof (once_row _ _ _ _ _ _ _ Ho) as Hkeyd. apply res_bind_Ok in E as (f2 & Hf & E). apply res_bind_Ok in E as (db3 & Ha & [= <-]).
  cbn [progress_fleet]. set (f1 := with_db (progress_fleet p) _) in Hf.
  assert (S1 : scoped now cluster (progress_fleet p) f1).
  { etrans; [by eapply observed_once_scoped|]. exact (record_transition_scoped _ _ _ _ _ (with_db (progress_fleet p) db1)). }
  assert (S2 : scoped now cluster f1 f2 /\ fleet_db f2 = fleet_db f1).
  { destruct (_ == _); [by eapply Finalize_scoped | by injection Hf as <-]. }
  etrans; [exact S1|]. etrans; [apply S2|]. eapply advance_scoped; [exact Ha|].
  intros k dk Hk. rewrite (proj2 S2) in Hk. apply (found_again _ _ _ _ _ _ _ _ _ Hu S1 Hkeyd) in Hk as [-> _]. done.
Qed.
Lemma ingest_reports_scoped l : forall n (p p' : Progress (Outbox := Outbox)),
  unique_ids (fleet_db (progress_fleet p)) ->
  ingest_reports clocks cluster session sequence modern n p l = Ok p' ->
  scoped now cluster (progress_fleet p) (progress_fleet p').
Proof.
  induction l as [|d l IH]; cbn; intros n p p' Hu E; [by injection E as <-|].
  apply res_bind_Ok in E as (p1 & E1 & E2). pose proof (ingest_report_scoped _ _ _ _ Hu E1) as S1.
  etrans; [exact S1|]. eapply IH; [by eapply scoped_unique | exact E2].
Qed.

Lemma refresh_report_scoped f d db' :
  refresh_report clocks cluster session sequence (fleet_db f) d = Ok db' -> scoped now cluster f (with_db f db').
Proof.
  unfold refresh_report. set (id := default uuid_Nil _). intros E.
  destruct (GetClusterDeploymentForDeliveryStatus _ id cluster) as [[key current]|] eqn:Hget; [|injection E as <-; by destruct f].
  apply GetClusterDeployment_Some in Hget as [Hfind Hkey].
  destruct (_ || _ || _ || _); [injection E as <-; by destruct f|].
  destruct (same_source_time _ _); [injection E as <-; by destruct f|].
  destruct (deployment_Inventory current) as [stored|]; [|done]. apply res_bind_Ok in E as (written & Hw & [= <-]).
  destruct written as [[[key' updated] db1]|]; [|by destruct f].
  apply UpdateObserved_Some in Hw as (d0 & -> & Ho). eapply observed_once_scoped; [exact Ho|].
  pose proof (once_row _ _ _ _ _ _ _ Ho) as Hrow. congruence.
Qed.

Lemma refresh_scoped l : forall f db',
  refreshDeploymentSourceTimes clocks cluster session sequence modern l (fleet_db f) = Ok db' ->
  scoped now cluster f (with_db f db').
Proof.
  unfold refreshDeploymentSourceTimes. destruct modern; [|intros f db' [= <-]; by destruct f].
  induction l as [|d l IH]; cbn; intros f db' E; [injection E as <-; by destruct f|].
  apply res_bind_Ok in E as (db1 & E1 & E2). etrans; [by eapply refresh_report_scoped|].
  exact (IH (with_db f db1) _ E2).
Qed.
End report.

Lemma ingest_accepted_scoped clocks cluster session changed payload f p :
  unique_ids (fleet_db f) -> ingest_accepted clocks cluster session changed payload f = Ok p ->
  scoped (clock_db clocks) cluster f (progress_fleet p).
Proof.
  intros Hu E. unfold ingest_accepted in E. apply res_bind_Ok in E as (f1 & E1 & E).
  destruct (observe_system_scoped _ (clock_db clocks) _ _ _ _ _ E1) as [S1 D1]. etrans; [exact S1|]. destruct changed.
  - apply res_bind_Ok in E as (p1 & E2 & E). apply ingest_reports_scoped in E2; [|cbn; by rewrite D1].
    destruct (0 <? status_SnapshotGeneration payload); [|by injection E as <-].
    apply res_bind_Ok in E as (f2 & E3 & [= <-]). etrans; [exact E2 | by eapply Acknowledge_scoped].
  - apply res_bind_Ok in E as (db & E2 & [= <-]). by eapply refresh_scoped.
Qed.

Lemma Accept_Some inventory cluster new inventory' changed :
  AcceptDeliveryStatusInventory inventory cluster new = Ok (Some (inventory', changed)) ->
  inventory' = <[cluster := accepted_row new (inventory !! cluster)]> inventory /\
  changed = (stock_SemanticSequence (accepted_row new (inventory !! cluster)) =? stock_Sequence new).
Proof.
  unfold AcceptDeliveryStatusInventory. intros E. apply res_bind_Ok in E as (u & _ & E).
  destruct (inventory !! cluster) as [old|]; [destruct (_ || _)|]; by simplify_eq.
Qed.

Lemma ingest_tx_scoped clocks cluster connection session payload f p :
  unique_ids (fleet_db f) -> ingest_tx clocks cluster connection session payload f = Ok p ->
  scoped (clock_db clocks) cluster f (progress_fleet p).
Proof.
  intros Hu E. unfold ingest_tx in E. apply res_bind_Ok in E as (u & _ & E). apply res_bind_Ok in E as (found & Ha & E).
  destruct found as [[inventory changed]|]; [|by injection E as <-].
  apply Accept_Some in Ha as [-> _]. apply ingest_accepted_scoped in E; [|done]. etrans; [|exact E].
  split; try done. cbn. apply elsewhere_insert.
Qed.

(** How a report ends: refused, failed or committed. *)
Lemma Ingest_cases clocks fault ready cluster connection session payload f (out := Ingest clocks fault ready cluster connection session payload f) :
  (ingested_fleet out = f /\ ingested_err out <> None) \/
  exists p, ingest_tx clocks cluster connection session payload f = Ok p /\ ingested_fleet out = progress_fleet p /\
    is_ok (status_Validate (clock_validate clocks) payload) = true /\ status_ClusterID payload = uuid_String cluster /\
    (ingested_err out = None /\ fault = Works \/ exists e, fault = ReplyLost e).
Proof.
  subst out. unfold Ingest. destruct (_ || _ || _); [by left|].
  destruct (status_Validate _ payload) as [u|e]; [|by left]. destruct (_ != _) eqn:Ec; [by left|]. bool_props.
  destruct fault as [|e|e], (ingest_tx _ _ _ _ _ _) as [p|e'] eqn:Et; try (by left); right; exists p;
    (split_and!; try done); [by left | by right; exists e].
Qed.

End effects.

(** ** Reports move clusters along the state machine *)

Lemma advances_inv phase state c :
  advances phase state c = true ->
  cluster_AssignmentAction c ∈ ["apply"; "rollback"] /\
  (phase = "ready" /\ cluster_State c ∈ ["released"; "acknowledged"; "reconciling"; "rolling_back"] \/
   phase ∈ ["failed"; "degraded"] /\
     cluster_State c ∈ ["released"; "acknowledged"; "reconciling"; "ready"; "rolling_back"; "ready_previous"] \/
   phase = "applying" /\ cluster_State c ∈ ["released"; "acknowledged"; "ready"; "ready_previous"] \/
   (phase ∉ ["ready"; "failed"; "degraded"; "applying"]) /\ cluster_State c = "released").
Proof.
  unfold advances. rewrite !andb_true_iff, !orb_true_iff, !andb_true_iff, negb_true_iff, <- not_true_iff_false.
  rewrite !bool_decide_eq_true, !contains_elem_of. intros [Ha Hs]. split; [|tauto]. set_solver.
Qed.

Lemma advanced_state_cases phase action :
  (phase = "ready" -> advanced_state phase action = if action == "rollback" then "ready_previous" else "ready") /\
  (phase ∈ ["failed"; "degraded"] -> advanced_state phase action = "failed") /\
  (phase = "applying" -> advanced_state phase action = if action == "rollback" then "rolling_back" else "reconciling") /\
  ((phase ∉ ["ready"; "failed"; "degraded"; "applying"]) -> advanced_state phase action = "acknowledged").
Proof.
  unfold advanced_state. split_and!.
  - by intros ->.
  - intros E. by repeat (apply elem_of_cons in E as [->|E]); [..|by apply not_elem_of_nil in E].
  - by intros ->.
  - intros E. rewrite !not_elem_of_cons in E. rewrite !bool_decide_false by naive_solver.
    destruct (contains _ _) eqn:Ec; [|done]. rewrite contains_elem_of in Ec. set_solver.
Qed.

(** One goal per element of the list a state is in. *)
Ltac each_state H :=
  repeat match type of H with
  | _ ∈ _ :: _ => apply elem_of_cons in H as [H|H]
  | _ ∈ [] => by apply not_elem_of_nil in H
  end.

Lemma advanced_edge cluster c c' :
  advanced cluster c c' -> well_assigned c -> edge c c' /\ well_assigned c'.
Proof.
  intros (_ & phase & state & code & now & Ha & ->) [Wa Wr]. unfold edge, well_assigned. cbn.
  apply advances_inv in Ha as [Hact Hs].
  destruct (advanced_state_cases phase (cluster_AssignmentAction c)) as (A1 & A2 & A3 & A4).
  assert (Hact' : cluster_AssignmentAction c = "apply" \/ cluster_AssignmentAction c = "rollback") by set_solver.
  destruct Hs as [[Hp Hs]|[[Hp Hs]|[[Hp Hs]|[Hp Hs]]]];
    [rewrite (A1 Hp) | rewrite (A2 Hp) | rewrite (A3 Hp) | rewrite (A4 Hp)]; clear A1 A2 A3 A4 Hp;
    destruct Hact' as [E|E]; rewrite E in *; each_state Hs; rewrite Hs in *;
    first [exfalso; apply (Wa eq_refl); decide_now | exfalso; apply (Wr eq_refl); decide_now
          | split_and!; [decide_now | done | done | done | ..]; intros E'; first [discriminate E' | decide_now]].
Qed.

Lemma advanced_edges cluster c c' :
  rtc (advanced cluster) c c' -> well_assigned c ->
  rtc edge c c' /\ well_assigned c' /\ (c' <> c -> cluster_ClusterID c = cluster).
Proof.
  induction 1 as [c|c c1 c2 Ha _ IH]; intros Hw; [by split_and!|].
  destruct (advanced_edge _ _ _ Ha Hw) as [He Hw1]. destruct (IH Hw1) as (Hr & Hw2 & _).
  split_and!; [by eapply rtc_l | done | intros _; apply Ha].
Qed.

(** ** Reports count once *)

Section once.
Context `{External} {Outbox : Type}.
Context (versionFile : string) (provenance : option (list ProvenanceEntry)) (semver_Parse : string -> option (Z * Z)).
#[local] Abbreviation DB := (DB Outbox).
#[local] Abbreviation Fleet := (Fleet (Outbox := Outbox)).
#[local] Abbreviation Ingest := (Ingest versionFile provenance semver_Parse).
#[local] Abbreviation ingest_tx := (ingest_tx versionFile provenance semver_Parse).
#[local] Abbreviation ingest_accepted := (ingest_accepted versionFile provenance semver_Parse).
#[local] Abbreviation observe_system := (observe_system versionFile provenance semver_Parse).
Implicit Types (db : DB) (f : Fleet).

(** C20: a report keeps the rows of rollouts well formed.  A cluster row whose
    action and state agree is, after any report of any agent and any fault, still
    there, reached from where it was along edges of the transition table with its
    action and state in agreement, and only rows of the reporting cluster have
    moved. *)
Theorem Ingest_follows clocks fault ready cluster connection session payload f cid c :
  unique_ids (fleet_db f) -> db_clusters (fleet_db f) !! cid = Some c -> well_assigned c ->
  exists c', db_clusters (fleet_db (ingested_fleet (Ingest clocks fault ready cluster connection session payload f))) !! cid = Some c' /\
    rtc edge c c' /\ well_assigned c' /\ (c' <> c -> cluster_ClusterID c = cluster).
Proof.
  intros Hu Hc Hw.
  destruct (Ingest_cases versionFile provenance semver_Parse clocks fault ready cluster connection session payload f)
    as [[-> _]|(p & Et & -> & _)]; [by exists c; split_and!|].
  apply ingest_tx_scoped in Et; [|done]. pose proof (scoped_clusters _ _ _ _ Et cid) as Hr. rewrite Hc in Hr.
  inversion Hr as [? c' Hr' |]; subst. exists c'. split; [done | by eapply advanced_edges].
Qed.

(** The inventory is written by the acceptance only. *)
Lemma ingest_report_inventory clocks cluster session sequence modern n (p p' : Progress (Outbox := Outbox)) d :
  ingest_report clocks cluster session sequence modern n p d = Ok p' ->
  fleet_inventory (progress_fleet p') = fleet_inventory (progress_fleet p) /\
  fleet_receipts (progress_fleet p') = fleet_receipts (progress_fleet p).
Proof.
  unfold ingest_report. intros E. destruct (GetClusterDeploymentForDeliveryStatus _ _ _) as [[key current]|];
    [|by injection E as <-]. destruct (_ || _); [by injection E as <-|].
  apply res_bind_Ok in E as (written & _ & E). destruct written as [[[key' updated] db1]|]; [|by injection E as <-].
  apply res_bind_Ok in E as (f2 & Hf & E). apply res_bind_Ok in E as (db3 & _ & [= <-]). cbn.
  destruct (_ == _); [|by injection Hf as <-]. unfold FinalizeDeliveryTargetDeletionIfComplete in Hf.
  cbn in Hf. destruct (fleet_targets _ !! _); [|by injection Hf as <-]. destruct (_ && _); [|by injection Hf as <-].
  by apply res_bind_Ok in Hf as (? & _ & [= <-]).
Qed.

Lemma observe_system_inventory clocks cluster changed payload f f' :
  observe_system clocks cluster changed payload f = Ok f' ->
  fleet_inventory f' = fleet_inventory f /\ fleet_receipts f' = fleet_receipts f /\ fleet_targets f' = fleet_targets f.
Proof.
  unfold observe_system, RetargetLocalDeliverySystemAssignment, ObserveDeliverySystemAssignment.
  intros E. apply res_bind_Ok in E as ([n f1] & E1 & E).
  assert (fleet_inventory f1 = fleet_inventory f /\ fleet_receipts f1 = fleet_receipts f /\ fleet_targets f1 = fleet_targets f)
    as (<- & <- & <-).
  { clear E. repeat case_match; simplify_eq; try done. by apply res_bind_Ok in E1 as (? & _ & [= <- <-]). }
  clear E1. repeat case_match; simplify_eq; try done; by apply res_bind_Ok in E as (? & _ & [= <-]).
Qed.

Lemma ingest_accepted_inventory clocks cluster session changed payload f p :
  ingest_accepted clocks cluster session changed payload f = Ok p ->
  fleet_inventory (progress_fleet p) = fleet_inventory f.
Proof.
  unfold ingest_accepted. intros E. apply res_bind_Ok in E as (f1 & [<- _]%observe_system_inventory & E).
  destruct changed; [|by apply res_bind_Ok in E as (db & _ & [= <-])].
  apply res_bind_Ok in E as (p1 & E1 & E).
  assert (fleet_inventory (progress_fleet p1) = fleet_inventory f1) as <-.
  { revert E1. change (fleet_inventory f1) with (fleet_inventory (progress_fleet (begun f1))).
    generalize (begun f1) as p0, 0%nat as n. induction (status_Deployments payload) as [|d l IH]; cbn; intros p0 n E1;
      [by injection E1 as <-|]. apply res_bind_Ok in E1 as (p2 & [<- _]%ingest_report_inventory & E2). by eapply IH. }
  destruct (0 <? _); [|by injection E as <-]. apply res_bind_Ok in E as (f2 & E2 & [= <-]).
  unfold AcknowledgeDeliveryAssignmentSnapshot in E2. repeat case_match; by simplify_eq.
Qed.

(** The cluster has reported this sequence or a later one of the session. *)
Definition has_reported (session : string) (sequence : Z) (row : option InventoryRow) : Prop :=
  exists r, row = Some r /\ stock_SessionID r = session /\ sequence <= stock_Sequence r.

Lemma ingest_tx_reported clocks cluster connection session payload f p :
  ingest_tx clocks cluster connection session payload f = Ok p ->
  has_reported session (status_SessionSequence payload) (fleet_inventory (progress_fleet p) !! cluster).
Proof.
  unfold ingest_tx. intros E. apply res_bind_Ok in E as (u & _ & E). apply res_bind_Ok in E as (found & Ha & E).
  destruct found as [[inventory changed]|].
  - apply Accept_Some in Ha as [-> _]. apply ingest_accepted_inventory in E. rewrite E. cbn.
    rewrite lookup_insert_eq. eexists. split; [done|]. cbn. split; [done | lia].
  - injection E as <-. cbn. unfold AcceptDeliveryStatusInventory in Ha. apply res_bind_Ok in Ha as (? & _ & Ha).
    destruct (fleet_inventory f !! cluster) as [r|]; [|done]. destruct (_ || _) eqn:Eo; [done|]. bool_props.
    exists r. cbn in *. split_and!; [done | done | lia].
Qed.

Lemma replay_ignored clocks cluster connection session payload f :
  has_reported session (status_SessionSequence payload) (fleet_inventory f !! cluster) ->
  match ingest_tx clocks cluster connection session payload f with
  | Ok p => p = ended (begun f) "replay_rejected"
  | Err _ => True
  end.
Proof.
  intros (r & Hr & Hs & Hle). unfold ingest_tx. destruct (negb (FenceDeliveryAgentSession _ _ _ _)); [done|]. cbn.
  unfold AcceptDeliveryStatusInventory. destruct (negb _); [done|]. cbn. rewrite Hr. cbn.
  rewrite Hs, bool_decide_true, (proj2 (Z.ltb_ge _ _)) by done. done.
Qed.

(** C17: a report counts once.  After a transaction of a session has gone through,
    no report of that session with the same or an earlier sequence number, whatever
    it holds and however often and with whatever faults it is delivered again, from
    tables that still hold the cluster's inventory row, changes a table; if it is
    answered without an error, the answer is that of a replay. *)
Theorem Ingest_once clocks cluster connection session payload f p :
  ingest_tx clocks cluster connection session payload f = Ok p ->
  forall clocks' fault' ready' connection' payload' (g : Fleet),
    status_SessionSequence payload' <= status_SessionSequence payload ->
    fleet_inventory g !! cluster = fleet_inventory (progress_fleet p) !! cluster ->
    let out := Ingest clocks' fault' ready' cluster connection' session payload' g in
    ingested_fleet out = g /\ (ingested_err out = None -> ingested_results out = ["replay_rejected"]).
Proof.
  intros E clocks' fault' ready' connection' payload' g Hle Hg. cbv zeta.
  assert (Hr : has_reported session (status_SessionSequence payload') (fleet_inventory g !! cluster)).
  { rewrite Hg. destruct (ingest_tx_reported _ _ _ _ _ _ _ E) as (r & Hr & Hs & Hl). exists r. split_and!; [done..|lia]. }
  pose proof (replay_ignored clocks' cluster connection' session payload' g Hr) as Hp.
  unfold StatusIngest.Ingest. destruct (_ || _ || _); [done|]. destruct (status_Validate _ _); [|done]. destruct (_ != _); [done|].
  destruct fault', (ingest_tx clocks' _ _ _ _ _); subst; done.
Qed.
(** ** A report without news *)

(** All a deployment says but when its source was seen and by which report. *)
Definition semantic_columns (d : DeploymentRow) :=
  (desired_columns d, (deployment_ObservedGeneration d, deployment_ObservedSpecDigest d, deployment_ObservedRevision d),
   (deployment_Phase d, deployment_Conditions d, stored_Inventory <$> deployment_Inventory d),
   (deployment_SourceKind d, deployment_SourceName d, deployment_ReconcilerKind d, deployment_ReconcilerName d),
   deployment_LastErrorCode d, deployment_LastMessage d).

Definition same_semantics (d d' : DeploymentRow) : Prop := semantic_columns d' = semantic_columns d.

#[local] Instance same_semantics_preorder : PreOrder same_semantics.
Proof. split; [done|]. intros d1 d2 d3 H1 H2. unfold same_semantics in *. congruence. Qed.

(** The tables in which a change of state leaves a trace. *)
Definition quiet_tables f :=
  (db_clusters (fleet_db f), db_events (fleet_db f), db_deploymentEvents (fleet_db f), db_tasks (fleet_db f),
   fleet_receipts f, fleet_targets f).

Record quiet f f' : Prop := {
  quiet_same : quiet_tables f' = quiet_tables f;
  quiet_deployments : rows (fun _ => same_semantics) (db_deployments (fleet_db f)) (db_deployments (fleet_db f'));
}.

#[local] Instance quiet_preorder : PreOrder quiet.
Proof.
  split; [by intros f; split|]. intros f1 f2 f3 [E1 D1] [E2 D2]. split; [congruence | by etrans].
Qed.

Lemma refresh_report_quiet clocks cluster session sequence f d db' :
  refresh_report clocks cluster session sequence (fleet_db f) d = Ok db' -> quiet f (with_db f db').
Proof.
  unfold refresh_report. set (id := default uuid_Nil _). intros E.
  destruct (GetClusterDeploymentForDeliveryStatus _ id cluster) as [[key current]|] eqn:Hget; [|injection E as <-; by destruct f].
  apply GetClusterDeployment_Some in Hget as [Hfind Hkey].
  destruct (_ || _ || _ || _) eqn:Eg; [injection E as <-; by destruct f|]. bool_props.
  destruct (same_source_time _ _); [injection E as <-; by destruct f|].
  destruct (deployment_Inventory current) as [stored|] eqn:Hi; [|done]. apply res_bind_Ok in E as (written & Hw & [= <-]).
  destruct written as [[[key' updated] db1]|]; [|by destruct f].
  apply UpdateObserved_Some in Hw as (d0 & -> & [Hrow Hg Hs Hdb Hb Hk]). rewrite Hfind in Hrow. injection Hrow as <- <-.
  split; [rewrite Hdb; done|]. cbn. rewrite Hdb. cbn. apply deployment_by_id_Some in Hfind as [Hfind _].
  eapply rows_insert; [intros _; apply _ | done|].
  unfold same_semantics, semantic_columns, desired_columns. cbn. rewrite Hi. cbn. congruence.
Qed.

Lemma refresh_quiet clocks cluster session sequence modern l : forall f db',
  refreshDeploymentSourceTimes clocks cluster session sequence modern l (fleet_db f) = Ok db' -> quiet f (with_db f db').
Proof.
  unfold refreshDeploymentSourceTimes. destruct modern; [|intros f db' [= <-]; by destruct f].
  induction l as [|d l IH]; cbn; intros f db' E; [injection E as <-; by destruct f|].
  apply res_bind_Ok in E as (db1 & E1 & E2). etrans; [by eapply refresh_report_quiet|]. exact (IH (with_db f db1) _ E2).
Qed.

End once.
End StatusIngestFacts.
