(* ===== verification/StatusRecords.v ===== *)
(** * A report with news is recorded

    Enough room in the counters and columns, a report that is new is accepted: it
    never fails, each deployment it names at the generation it should run holds
    what was reported, the cluster of its rollout advances, and the reconciler is
    called. *)

From Stdlib Require Import ZArith Lia.
From S2P Require Import Prelude Enums State SafeConv GoSort GoStrings External Validation Model Types.
From S2P Require Import Overrides RolloutTypes Planner AsyncOp DeliveryProtocol DeliveryProtocolFacts Compatibility Redaction.
From S2P Require Import DeliveryStore StatusIngest StatusIngestFacts.
From stdpp Require Import base gmap strings list relations.
Import SafeConv Model DeliveryStore DeliveryProtocol Compatibility Redaction StatusIngest StatusIngestFacts.

Open Scope Z_scope.

Module StatusRecords.

Section records.
Context `{External} {Outbox : Type}.
#[local] Abbreviation DB := (DB Outbox).
#[local] Abbreviation Fleet := (Fleet (Outbox := Outbox)).
#[local] Abbreviation Progress := (Progress (Outbox := Outbox)).
Implicit Types (db : DB) (f : Fleet) (p : Progress).

(** ** Coherent tables

    Deployments have a primary key, a deployment belongs to a rollout of its
    target, and a rollout has one row per cluster. *)
Record coherent db : Prop := {
  coherent_ids : unique_ids db;
  coherent_targets : forall key d r, db_deployments db !! key = Some d -> deployment_CurrentRolloutID d = Some r ->
    exists row, db_rollouts db !! r = Some row /\ row_TargetID row = key.1;
  coherent_clusters : forall cid cid' c c', db_clusters db !! cid = Some c -> db_clusters db !! cid' = Some c' ->
    cluster_RolloutID c = cluster_RolloutID c' -> cluster_ClusterID c = cluster_ClusterID c' -> cid = cid';
}.

Lemma advanced_identity cluster c c' :
  rtc (advanced cluster) c c' -> cluster_RolloutID c' = cluster_RolloutID c /\ cluster_ClusterID c' = cluster_ClusterID c /\
    cluster_Attempt c' = cluster_Attempt c.
Proof. induction 1 as [|c c1 c2 (_ & ? & ? & ? & ? & _ & ->) _ IH]; [done | exact IH]. Qed.

Lemma scoped_cluster now cluster f f' cid c' :
  scoped now cluster f f' -> db_clusters (fleet_db f') !! cid = Some c' ->
  exists c, db_clusters (fleet_db f) !! cid = Some c /\ rtc (advanced cluster) c c'.
Proof.
  intros S Hc. pose proof (scoped_clusters _ _ _ _ S cid) as Hr. rewrite Hc in Hr. inversion Hr; subst. eauto.
Qed.

Lemma scoped_coherent now cluster f f' : scoped now cluster f f' -> coherent (fleet_db f) -> coherent (fleet_db f').
Proof.
  intros S [Hi Ht Hc]. split; [by eapply scoped_unique|..].
  - intros key d r Hd Hr. eapply scoped_row_inv in Hd as (e & He & Re%reported_desired); [|done].
    assert (deployment_CurrentRolloutID e = Some r) as Her by (unfold desired_columns in Re; congruence).
    destruct (Ht _ _ _ He Her) as (row & Hrow & Htar). destruct (scoped_rollouts _ _ _ _ S r) as (n & Hn & Hb).
    rewrite Hrow in Hb. eexists. split; [exact Hb|].
    destruct (bumped_columns now n row Hn) as (Hf & _). unfold frozen_columns in Hf. congruence.
  - intros cid cid' c c' H1 H2 Hr Hcl.
    eapply scoped_cluster in H1 as (e & He & (R1 & C1 & _)%advanced_identity); [|done].
    eapply scoped_cluster in H2 as (e' & He' & (R2 & C2 & _)%advanced_identity); [|done].
    eapply Hc; [done | done | congruence..].
Qed.

(** ** Room for the counters *)

Record room (n : Z) db : Prop := {
  room_rollouts : forall id row, db_rollouts db !! id = Some row -> row_RuntimeGeneration row + n <= MaxInt64;
  room_clusters : forall cid c, db_clusters db !! cid = Some c -> cluster_Fence c + n <= MaxInt64 /\ cluster_Attempt c <= MaxInt32;
}.

Lemma write_deployment_fits now key row db :
  room 1 db -> exists db', write_deployment now key row db = Ok db' /\
    forall n, room (n + 1) db -> room n db'.
Proof.
  intros [Hr Hc]. unfold write_deployment. set (ids := deployment_rollouts _ _).
  assert (Ht : forall id, times id ids <= 1).
  { intros id. unfold ids, deployment_rollouts. repeat case_match; bool_props; rewrite ?times_cons; unfold times; cbn;
      repeat case_bool_decide; simplify_eq; lia || done. }
  destruct (bump_all_fits now ids (with_deployments db (<[key := row]> (db_deployments db)))) as [db' E].
  { intros id r Hid. specialize (Ht id). specialize (Hr id r Hid). lia. }
  exists db'. split; [done|]. apply bump_all_Ok in E as [Hdb Hrows]. intros n [Gr Gc]. split.
  - intros id r. rewrite Hrows. cbn. destruct (db_rollouts db !! id) as [r0|] eqn:E0; [|done]. cbn. intros [= <-].
    destruct (bumped_columns now _ r0 (times_nonneg id ids)) as (_ & _ & -> & _). specialize (Gr _ _ E0). specialize (Ht id). lia.
  - rewrite Hdb. cbn. intros cid c Hcid. specialize (Gc _ _ Hcid). lia.
Qed.

Lemma update_one_fits now db cid c g :
  room 1 db -> db_clusters db !! cid = Some c -> cluster_Fence (g c) = cluster_Fence c + 1 ->
  cluster_Attempt (g c) = cluster_Attempt c -> cluster_RolloutID (g c) = cluster_RolloutID c ->
  exists db', update_clusters (fun cid' _ => cid' == cid) g now db = Ok db' /\ forall n, room (n + 1) db -> room n db'.
Proof.
  intros [Hr Hc] Hcid Hf Ha Hroll. destruct (Hc _ _ Hcid) as [Hc1 Hc2].
  destruct (bump_all_fits now [cluster_RolloutID c]
    (with_clusters db (map_imap (fun id c0 => Some (if id == cid then g c0 else c0)) (db_clusters db)))) as [db' E].
  { intros id r Hid. specialize (Hr id r Hid). rewrite times_cons. unfold times, len. cbn. case_bool_decide; lia. }
  exists db'. assert (Eu : update_clusters (fun cid' _ => cid' == cid) g now db = Ok db').
  { unfold update_clusters. rewrite (matching_one _ _ _ Hcid). cbn. unfold cluster_fits. rewrite Hf, Ha.
    rewrite (proj2 (Z.leb_le (cluster_Fence c + 1) MaxInt64)), (proj2 (Z.leb_le (cluster_Attempt c) MaxInt32)) by lia. exact E. }
  split; [done|]. destruct (update_one_Ok _ _ _ _ _ _ Hcid Eu) as [Hdb Hrows]. intros n [Gr Gc]. split.
  - intros id r. rewrite Hrows. destruct (db_rollouts db !! id) as [r0|] eqn:E0; [|done]. cbn. intros [= <-].
    specialize (Gr _ _ E0). assert (Hn : 0 <= (if cluster_RolloutID c == id then 1 else 0)) by (by destruct (_ == id)).
    destruct (bumped_columns now _ r0 Hn) as (_ & _ & -> & _). destruct (_ == id); lia.
  - rewrite Hdb. cbn. intros cid' c'. destruct (decide (cid = cid')) as [<-|Hne].
    + rewrite lookup_insert_eq. intros [= <-]. specialize (Gc _ _ Hcid). lia.
    + rewrite lookup_insert_ne by done. intros Hcid'. specialize (Gc _ _ Hcid'). lia.
Qed.

(** ** One report *)

Section report.
Context (clocks : Clocks) (cluster : uuid) (session : string) (sequence : Z) (modern : bool).
#[local] Abbreviation now := (clock_db clocks).
#[local] Abbreviation columns := (observed_columns session sequence modern).

Definition id_of (d : DeliveryDeploymentStatusV2) : uuid := default uuid_Nil (uuid_Parse (report_DeploymentID d)).

(** The report is news for this deployment: it is the cluster's, at the generation
    and configuration reported, and took no such sequence before. *)
Record due db (d : DeliveryDeploymentStatusV2) (key : uuid * uuid) (row : DeploymentRow) : Prop := {
  due_row : db_deployments db !! key = Some row;
  due_id : deployment_ID row = id_of d;
  due_cluster : key.2 = cluster;
  due_generation : deployment_DesiredGeneration row = report_Generation d;
  due_spec : deployment_DesiredSpecDigest row = report_SpecDigest d;
  due_sequence : deployment_AgentSessionID row <> session \/ deployment_AgentSequence row < sequence;
}.

(** The cluster row its phase advances. *)
Record advancing db (d : DeliveryDeploymentStatusV2) (row : DeploymentRow) (cid : uuid) (c : ClusterRow) : Prop := {
  advancing_rollout : deployment_CurrentRolloutID row = Some (cluster_RolloutID c);
  advancing_cluster : cluster_ClusterID c = cluster;
  advancing_row : db_clusters db !! cid = Some c;
  advancing_state : exists r, db_rollouts db !! cluster_RolloutID c = Some r /\ advances (report_Phase d) (row_State r) c = true;
}.

(** What the columns, digests and versions must take. *)
Definition writable f (d : DeliveryDeploymentStatusV2) : Prop :=
  observed_fits (columns d) = true /\
  forall target t, fleet_targets f !! target = Some t -> deletion_State t = "deleting" -> deletion_ResourceVersion t < MaxInt64.

Lemma found_due db d key row :
  coherent db -> due db d key row -> GetClusterDeploymentForDeliveryStatus db (id_of d) cluster = Some (key, row) /\
    deployment_by_id db (id_of d) = Some (key, row).
Proof.
  intros [Hu _ _] [Hr Hid Hc _ _ _]. unfold GetClusterDeploymentForDeliveryStatus.
  rewrite <- Hid, (deployment_by_id_intro _ _ _ Hu Hr). cbn. by rewrite bool_decide_true.
Qed.

Lemma rollout_cluster_intro db cid c :
  coherent db -> db_clusters db !! cid = Some c ->
  rollout_cluster db (cluster_RolloutID c) (cluster_ClusterID c) = Some (cid, c).
Proof.
  intros [_ _ Hu] Hc. destruct (rollout_cluster db _ _) as [[cid' c']|] eqn:E.
  - apply rollout_cluster_Some in E as (Hc' & Hr & Hcl). rewrite (Hu _ _ _ _ Hc' Hc Hr Hcl) in Hc' |- *. congruence.
  - exfalso. apply elem_of_map_to_list, list_elem_of_In in Hc. unfold rollout_cluster in E.
    eapply List.find_none in E; [|exact Hc]. cbn in E. by rewrite !bool_decide_true in E.
Qed.

Lemma Advance_fits db id phase code generation spec :
  room 1 db -> exists found, AdvanceDeliveryRolloutClusterFromStatus db id phase code generation spec now = Ok found /\
    forall n, 0 <= n -> room (n + 1) db -> match found with Some (_, _, db') => room n db' | None => room n db end.
Proof.
  intros Hroom. unfold AdvanceDeliveryRolloutClusterFromStatus.
  assert (Hn : forall n, 0 <= n -> room (n + 1) db -> room n db).
  { intros n Hn [A B]. split; [intros i r Hi; specialize (A i r Hi); lia | intros i r Hi; specialize (B i r Hi); lia]. }
  destruct (deployment_by_id db id) as [[[t cl] d]|]; [|by eexists].
  destruct (deployment_CurrentRolloutID d) as [r|]; [|by eexists].
  destruct (rollout_cluster db r cl) as [[cid c]|] eqn:Hc; [|by eexists].
  destruct (db_rollouts db !! r); [|by eexists]. destruct (_ && _); [|by eexists].
  apply rollout_cluster_Some in Hc as (Hc & _ & _).
  destruct (update_one_fits now db cid c (advanced_cluster phase code now)) as (db' & -> & Hroom'); try done.
  cbn. eexists. split; [done|]. cbn. intros n _. apply Hroom'.
Qed.
(** The documents of its digests can be encoded. *)
Context (encodable : forall rollout c id row, jcs_Marshal (advance_document sequence rollout c id row) <> None).

Lemma advance_digest rollout c id row : exists digest, CanonicalDigest (advance_document sequence rollout c id row) = Ok digest.
Proof using encodable.
  unfold CanonicalDigest, CanonicalJSON. cbn. destruct (jcs_Marshal _) eqn:E; [by eexists | by apply encodable in E].
Qed.

Lemma advance_fits n id at_ updated db :
  room 1 db -> exists db', advance clocks sequence n id at_ updated db = Ok db' /\
    forall m, 0 <= m -> room (m + 1) db -> room m db'.
Proof using encodable.
  intros Hroom. unfold advance. destruct (Advance_fits db id (deployment_Phase updated) (deployment_LastErrorCode updated)
    (deployment_ObservedGeneration updated) (deployment_ObservedSpecDigest updated) Hroom) as (found & -> & Hr).
  cbn [mbind res_bind]. destruct found as [[[from c] db1]|]; [|by eexists].
  destruct (advance_digest (cluster_RolloutID c) (cluster_ClusterID c) id updated) as [digest ->]. cbn. eexists.
  split; [done|]. intros m Hm Hroom'. destruct (Hr m Hm Hroom') as [A B]. by split.
Qed.

Lemma Finalize_fits f target :
  (forall t t', fleet_targets f !! t = Some t' -> deletion_State t' = "deleting" -> deletion_ResourceVersion t' < MaxInt64) ->
  exists f', FinalizeDeliveryTargetDeletionIfComplete f target = Ok f' /\
    forall t t', fleet_targets f' !! t = Some t' -> deletion_State t' = "deleting" -> deletion_ResourceVersion t' < MaxInt64.
Proof.
  intros Ht. unfold FinalizeDeliveryTargetDeletionIfComplete. destruct (fleet_targets f !! target) as [t|] eqn:E; [|by eexists].
  destruct (_ && _) eqn:Ec; [|by eexists]. bool_props. specialize (Ht _ _ E) as Hlt.
  rewrite (proj2 (Z.leb_gt _ _)) by auto. cbn. eexists. split; [done|]. cbn. intros k t'.
  destruct (decide (target = k)) as [<-|]; [rewrite lookup_insert_eq; by intros [= <-] | rewrite lookup_insert_ne by done; apply Ht].
Qed.

Lemma ingest_report_fits n p d :
  room 2 (fleet_db (progress_fleet p)) -> writable (progress_fleet p) d ->
  exists p', ingest_report clocks cluster session sequence modern n p d = Ok p' /\
    (forall m, 0 <= m -> room (m + 2) (fleet_db (progress_fleet p)) -> room m (fleet_db (progress_fleet p'))) /\
    (forall d', writable (progress_fleet p) d' -> writable (progress_fleet p') d').
Proof using encodable.
  intros Hroom [Hfits Ht]. set (db := fleet_db (progress_fleet p)) in *.
  assert (Hless : forall m, 0 <= m -> room (m + 2) db -> room m db).
  { intros m Hm [A B]. split; [intros i r Hi; specialize (A i r Hi); lia | intros i r Hi; specialize (B i r Hi); lia]. }
  assert (Hroom1 : room 1 db).
  { destruct Hroom as [A B]. split; [intros i r Hi; specialize (A i r Hi); lia | intros i r Hi; specialize (B i r Hi); lia]. }
  unfold ingest_report. fold db. destruct (GetClusterDeploymentForDeliveryStatus db _ cluster) as [[key current]|]; [|by eexists].
  destruct (_ || _); [by eexists|]. unfold UpdateClusterDeploymentObservedCAS.
  destruct (deployment_by_id db _) as [[k row]|]; [|by eexists]. destruct (_ && _); [|by eexists].
  rewrite Hfits. cbn [negb fail_if mbind res_bind]. destruct (write_deployment_fits now k (observed_row (columns d) row) db Hroom1)
    as (db1 & -> & Hw). cbn [mbind res_bind]. set (f1 := with_db _ _).
  assert (Hf : exists f2, (if deployment_Phase (observed_row (columns d) row) == "removed"
      then FinalizeDeliveryTargetDeletionIfComplete f1 k.1 else Ok f1) = Ok f2 /\ fleet_db f2 = fleet_db f1 /\
      forall t t', fleet_targets f2 !! t = Some t' -> deletion_State t' = "deleting" -> deletion_ResourceVersion t' < MaxInt64).
  { destruct (_ == _); [|by exists f1]. destruct (Finalize_fits f1 k.1 Ht) as (f2 & E2 & Ht2). exists f2. split_and!; try done.
    by apply (Finalize_scoped now cluster) in E2 as [_ E2]. }
  destruct Hf as (f2 & -> & Hf2 & Ht2). cbn [mbind res_bind].
  assert (Hr1 : forall m, room (m + 1) db -> room m (fleet_db f2)).
  { intros m Hm. rewrite Hf2. cbn. unfold record_transition. destruct (_ || _); by apply Hw in Hm as [? ?]. }
  destruct (advance_fits n (id_of d) (deploymentEventTime d modern (clock_report clocks n)) (observed_row (columns d) row) (fleet_db f2))
    as (db3 & E3 & Hr3); [by apply Hr1|]. unfold id_of in E3. rewrite E3. cbn. eexists. split; [done|]. cbn. split.
  - intros m Hm Hroom'. apply Hr3; [done|]. apply Hr1. by rewrite <- Z.add_assoc.
  - intros d' [Hfits' _]. by split.
Qed.
(** *** What one report leaves behind *)

Definition wake_key (digest : string) : string := "delivery-rollout-status:" +:+ digest.

(** The trace of a cluster that advanced: the event and the task that wakes the
    reconciler. *)
Record traced db (d : DeliveryDeploymentStatusV2) (row : DeploymentRow) (c : ClusterRow) : Prop := {
  traced_event : exists e, e ∈ db_events db /\ event_RolloutID e = cluster_RolloutID c /\ event_ClusterID e = Some cluster /\
    event_FromState e = cluster_State c /\ event_ToState e = advanced_state (report_Phase d) (cluster_AssignmentAction c) /\
    event_Fence e = cluster_Fence c + 1;
  traced_task : exists digest,
    CanonicalDigest (advance_document sequence (cluster_RolloutID c) cluster (id_of d) (observed_row (columns d) row)) = Ok digest /\
    is_Some (db_tasks db !! wake_key digest);
}.

(** Events and tasks stay. *)
Definition remembers db db' : Prop :=
  (forall e, e ∈ db_events db -> e ∈ db_events db') /\ (forall k, is_Some (db_tasks db !! k) -> is_Some (db_tasks db' !! k)).

Lemma traced_remembers db db' d row c : remembers db db' -> traced db d row c -> traced db' d row c.
Proof.
  intros [He Ht] [(e & Hin & E) (digest & Hd & Hk)]. split; [exists e; split; [by apply He | done] | exists digest; split; [done | by apply Ht]].
Qed.

Record effect (d : DeliveryDeploymentStatusV2) db db' : Prop := {
  effect_row : forall key row, due db d key row -> db_deployments db' !! key = Some (observed_row (columns d) row);
  effect_other_rows : forall key row, db_deployments db !! key = Some row -> deployment_ID row <> id_of d ->
    db_deployments db' !! key = Some row;
  effect_cluster : forall key row cid c, due db d key row -> advancing db d row cid c ->
    db_clusters db' !! cid = Some (advanced_cluster (report_Phase d) (report_code d) now c) /\ traced db' d row c;
  effect_other_clusters : forall cid c, db_clusters db !! cid = Some c ->
    (forall key row, due db d key row -> deployment_CurrentRolloutID row <> Some (cluster_RolloutID c)) ->
    db_clusters db' !! cid = Some c;
  effect_remembers : remembers db db';
}.

(** Nothing is due: nothing happens. *)
Lemma effect_none d db : (forall key row, ~ due db d key row) -> effect d db db.
Proof. intros Hn. split; [by intros ? ? ?%Hn | done | by intros ? ? ? ? ?%Hn | done | done]. Qed.

Lemma due_unique db d key row key' row' : coherent db -> due db d key row -> due db d key' row' -> key' = key /\ row' = row.
Proof. intros Hc D1%found_due D2%found_due; [|done..]. destruct D1 as [_ E1], D2 as [_ E2]. rewrite E1 in E2. by injection E2. Qed.

Lemma UpsertTaskOutbox_tasks db k r t (db' := UpsertTaskOutbox db k r t) :
  is_Some (db_tasks db' !! k) /\ forall j, is_Some (db_tasks db !! j) -> is_Some (db_tasks db' !! j).
Proof.
  subst db'. unfold UpsertTaskOutbox. cbn. split; [rewrite lookup_insert_eq; by eexists|]. intros j Hj.
  destruct (decide (k = j)) as [<-|]; [rewrite lookup_insert_eq; by eexists | by rewrite lookup_insert_ne].
Qed.

(** The end of a report, on the tables its observation left. *)
Lemma advance_cases n id at_ db db' d key row :
  coherent db -> deployment_by_id db id = Some (key, observed_row (columns d) row) -> key.2 = cluster ->
  deployment_DesiredGeneration row = report_Generation d -> deployment_DesiredSpecDigest row = report_SpecDigest d ->
  id = id_of d -> advance clocks sequence n id at_ (observed_row (columns d) row) db = Ok db' ->
  (db' = db /\ forall cid c, ~ advancing db d row cid c) \/
  exists cid c, advancing db d row cid c /\ db_deployments db' = db_deployments db /\
    db_clusters db' = <[cid := advanced_cluster (report_Phase d) (report_code d) now c]> (db_clusters db) /\
    remembers db db' /\ traced db' d row c.
Proof.
  intros Hco Hfind Hkey Hg Hs -> E. unfold advance in E. apply res_bind_Ok in E as (found & Ha & E).
  destruct found as [[[from c'] db1]|].
  - right. apply Advance_Some in Ha as (cid & c & -> & -> & [(k & u & r & rr & Hk & Hr & Hc & Hrr & Hadv) Hdb _ _]).
    rewrite Hfind in Hk. injection Hk as <- <-. apply rollout_cluster_Some in Hc as (Hc & Hcr & Hcc). cbn in Hr.
    apply res_bind_Ok in E as (digest & Hd & [= <-]). exists cid, c. split_and!.
    + split; [by rewrite Hr, Hcr | congruence | done | exists rr; by rewrite Hcr].
    + rewrite Hdb. done.
    + rewrite Hdb. done.
    + rewrite Hdb. split; [intros e He; apply elem_of_app; by left | intros j Hj; by apply UpsertTaskOutbox_tasks].
    + split.
      * eexists. rewrite Hdb. cbn. split; [apply elem_of_app; right; by left|]. cbn. rewrite Hcc, Hkey. by split_and!.
      * exists digest. cbn in Hd. rewrite Hcc, Hkey in Hd. split; [done | exact (proj1 (UpsertTaskOutbox_tasks _ _ _ _))].
  - left. injection E as <-. split; [done|]. intros cid c [Hr Hcl Hc (rr & Hrr & Hadv)].
    unfold AdvanceDeliveryRolloutClusterFromStatus in Ha. rewrite Hfind in Ha. destruct key as [t k]. cbn in Ha, Hkey.
    rewrite Hr in Ha. rewrite <- Hkey in Hcl. rewrite <- Hcl, (rollout_cluster_intro _ _ _ Hco Hc), Hrr, Hadv, Hg, Hs in Ha.
    rewrite Z.eqb_refl, bool_decide_true in Ha by done. cbn in Ha. by apply res_bind_Ok in Ha as (? & _ & ?).
Qed.

Lemma advancing_bumped db db' d row cid c :
  only_bumped now db db' -> db_clusters db' = db_clusters db -> advancing db d row cid c <-> advancing db' d row cid c.
Proof.
  intros Hb Hc. assert (Hst : forall r phase, (exists rr, db_rollouts db !! r = Some rr /\ advances phase (row_State rr) c = true) <->
    exists rr, db_rollouts db' !! r = Some rr /\ advances phase (row_State rr) c = true).
  { intros r phase. destruct (Hb r) as (n & Hn & ->). destruct (db_rollouts db !! r) as [rr|]; [|naive_solver]. cbn.
    destruct (bumped_columns now n rr Hn) as (_ & _ & _ & Es & _).
    split; intros (x & [= <-] & Hx); eexists; (split; [done|]); congruence. }
  split; intros [A B C D]; split; try done; rewrite ?Hc in *; try done; by apply Hst.
Qed.

(** Observation and advance together. *)
Lemma due_effect n d key row db db1 db2 db3 :
  coherent db -> due db d key row -> observed_once db (id_of d) (columns d) now key row db1 -> coherent db2 ->
  db_deployments db2 = db_deployments db1 -> db_clusters db2 = db_clusters db1 -> db_rollouts db2 = db_rollouts db1 ->
  db_tasks db2 = db_tasks db1 -> db_events db2 = db_events db1 ->
  advance clocks sequence n (id_of d) (deploymentEventTime d modern (clock_report clocks n)) (observed_row (columns d) row) db2 = Ok db3 ->
  effect d db db3.
Proof.
  intros Hco Hdue [_ _ _ Hdb1 Hb _] Hco2 Ed Ec Er Et Ee E.
  assert (Hdeps : db_deployments db2 = <[key := observed_row (columns d) row]> (db_deployments db)) by (rewrite Ed, Hdb1; done).
  assert (Hcls : db_clusters db2 = db_clusters db) by (rewrite Ec, Hdb1; done).
  assert (Hrem : remembers db db2) by (unfold remembers; rewrite Et, Ee, Hdb1; done).
  assert (Hb2 : only_bumped now db db2) by (intros r; rewrite Er; apply Hb).
  assert (Hfind : deployment_by_id db2 (id_of d) = Some (key, observed_row (columns d) row)).
  { rewrite <- (due_id _ _ _ _ Hdue).
    refine (deployment_by_id_intro _ _ (observed_row (columns d) row) (coherent_ids _ Hco2) _).
    rewrite Hdeps. apply lookup_insert_eq. }
  assert (Hsame : db_deployments db3 = db_deployments db2 /\ remembers db2 db3 /\
    forall cid c, db_clusters db2 !! cid = Some c -> (forall c', ~ advancing db2 d row cid c') -> db_clusters db3 !! cid = Some c).
  { destruct (advance_cases _ _ _ _ _ _ _ _ Hco2 Hfind (due_cluster _ _ _ _ Hdue) (due_generation _ _ _ _ Hdue)
      (due_spec _ _ _ _ Hdue) eq_refl E) as [[-> _]|(cid & c & Ha & Hd3 & Hc3 & Hr3 & _)]; [done|].
    split; [done|]. split; [done|]. intros cid' c' Hc' Hno. rewrite Hc3.
    rewrite lookup_insert_ne; [done|]. intros ->. by apply (Hno c). }
  destruct Hsame as (Hd3 & Hr3 & Hframe). split.
  - intros k r D. destruct (due_unique _ _ _ _ _ _ Hco Hdue D) as [-> ->]. rewrite Hd3, Hdeps. apply lookup_insert_eq.
  - intros k r Hk Hne. rewrite Hd3, Hdeps, lookup_insert_ne; [done|]. intros <-.
    rewrite (due_row _ _ _ _ Hdue) in Hk. injection Hk as <-. by apply Hne, (due_id _ _ _ _ Hdue).
  - intros k r cid c D Ha. destruct (due_unique _ _ _ _ _ _ Hco Hdue D) as [-> ->].
    apply (advancing_bumped _ _ _ _ _ _ Hb2 Hcls) in Ha as Ha2.
    destruct (advance_cases _ _ _ _ _ _ _ _ Hco2 Hfind (due_cluster _ _ _ _ Hdue) (due_generation _ _ _ _ Hdue)
      (due_spec _ _ _ _ Hdue) eq_refl E) as [[_ Hno]|(cid' & c' & Ha' & _ & Hc3 & _ & Htr)]; [by apply Hno in Ha2|].
    destruct Ha2 as [R1 C1 L1 _], Ha' as [R2 C2 L2 _].
    assert (cid = cid') as <- by (eapply (coherent_clusters _ Hco2); [exact L1 | exact L2 | congruence..]).
    rewrite L1 in L2. injection L2 as <-. split; [|done]. rewrite Hc3. apply lookup_insert_eq.
  - intros cid c Hc Hno. apply Hframe; [by rewrite Hcls|]. intros c' [R _ L _]. rewrite Hcls in L.
    rewrite Hc in L. injection L as <-. by apply (Hno key row Hdue).
  - destruct Hrem as [A B], Hr3 as [A' B']. split; auto.
Qed.

Lemma ingest_report_effect n p d p' :
  coherent (fleet_db (progress_fleet p)) -> ingest_report clocks cluster session sequence modern n p d = Ok p' ->
  effect d (fleet_db (progress_fleet p)) (fleet_db (progress_fleet p')).
Proof.
  intros Hco E. pose proof (coherent_ids _ Hco) as Hu. unfold ingest_report in E. fold (id_of d) in E.
  destruct (GetClusterDeploymentForDeliveryStatus _ (id_of d) cluster) as [[key row]|] eqn:Hget; cycle 1.
  { injection E as <-. cbn [progress_fleet ended]. apply effect_none. intros key row D. apply found_due in D as [D _]; [|done]. congruence. }
  apply GetClusterDeployment_Some in Hget as [Hfind Hkey].
  assert (Huniq : forall k r, due (fleet_db (progress_fleet p)) d k r -> k = key /\ r = row).
  { intros k r D. apply found_due in D as [_ D]; [|done]. rewrite Hfind in D. by injection D. }
  destruct (_ || _) eqn:Eg.
  { injection E as <-. cbn [progress_fleet ended]. apply effect_none. intros k r D. pose proof (Huniq _ _ D) as [-> ->]. destruct D as [_ _ _ Dg Ds _].
    by rewrite Dg, Ds, !bool_decide_true in Eg. }
  bool_props. apply res_bind_Ok in E as (written & Hw & E).
  destruct written as [[[k updated] db1]|]; cycle 1.
  { injection E as <-. cbn [progress_fleet ended]. apply effect_none. intros k r D. pose proof (Huniq _ _ D) as [-> ->]. destruct D as [_ _ _ Dg Ds Dq].
    unfold UpdateClusterDeploymentObservedCAS in Hw. rewrite Hfind in Hw. cbn in Hw.
    rewrite Dg, Ds, Z.eqb_refl, bool_decide_true in Hw by done. cbn in Hw.
    destruct (_ || _) eqn:Eo; [by apply res_bind_Ok in Hw as (? & _ & (? & _ & ?)%res_bind_Ok)|]. bool_props. destruct Dq; [done | lia]. }
  assert (D : due (fleet_db (progress_fleet p)) d key row).
  { destruct (deployment_by_id_Some _ _ _ _ Hfind) as [Hrow Hid]. split; try done.
    unfold UpdateClusterDeploymentObservedCAS in Hw. rewrite Hfind in Hw. cbn in Hw.
    destruct (_ && _) eqn:Ec; [|done]. bool_props. apply orb_true_iff in H3 as [H3|H3]; bool_props; auto. }
  apply UpdateObserved_Some in Hw as (row' & -> & Ho). pose proof (once_row _ _ _ _ _ _ _ Ho) as Hk. rewrite Hfind in Hk.
  injection Hk as <- <-. apply res_bind_Ok in E as (f2 & Hf & E). apply res_bind_Ok in E as (db3 & Ha & [= <-]). cbn.
  set (f1 := with_db (progress_fleet p) _) in Hf.
  assert (S1 : scoped now cluster (progress_fleet p) f1).
  { etrans; [by eapply observed_once_scoped|]. exact (record_transition_scoped _ _ _ _ _ _ _ (with_db (progress_fleet p) db1)). }
  assert (Hf2 : fleet_db f2 = fleet_db f1).
  { destruct (_ == _); [by apply (Finalize_scoped now cluster) in Hf as [_ Hf] | by injection Hf as <-]. }
  eapply (due_effect n d key row _ db1 (fleet_db f2)); try done; rewrite Hf2;
    [by eapply scoped_coherent | unfold f1; cbn; unfold record_transition; by destruct (_ || _)..].
Qed.
(** *** All of them *)

(** Deployments of one cluster belong to different rollouts. *)
Lemma due_rollouts db d key row key' row' r :
  coherent db -> due db d key row -> db_deployments db !! key' = Some row' -> key'.2 = cluster -> deployment_ID row' <> id_of d ->
  deployment_CurrentRolloutID row = Some r -> deployment_CurrentRolloutID row' <> Some r.
Proof.
  intros Hco D Hrow' Hc' Hne Hr Hr'.
  destruct (coherent_targets _ Hco _ _ _ (due_row _ _ _ _ D) Hr) as (x & Hx & Ht).
  destruct (coherent_targets _ Hco _ _ _ Hrow' Hr') as (x' & Hx' & Ht').
  assert (key' = key) as ->. { rewrite Hx in Hx'. injection Hx' as <-. destruct key, key', D. cbn in *. congruence. }
  destruct D as [D Di _ _ _ _]. rewrite D in Hrow'. injection Hrow' as <-. done.
Qed.

Section after.
Context (n : nat) (p p1 : Progress) (d : DeliveryDeploymentStatusV2).
Context (Hco : coherent (fleet_db (progress_fleet p))) (E : ingest_report clocks cluster session sequence modern n p d = Ok p1).
#[local] Abbreviation db := (fleet_db (progress_fleet p)).
#[local] Abbreviation db1 := (fleet_db (progress_fleet p1)).

Lemma after_scoped : scoped now cluster (progress_fleet p) (progress_fleet p1).
Proof using Hco E. eapply ingest_report_scoped; [apply Hco | exact E]. Qed.

Lemma after_coherent : coherent db1.
Proof using Hco E. eapply scoped_coherent; [apply after_scoped | done]. Qed.

(** What is due of another report stays due. *)
Lemma after_due d' key row : id_of d' <> id_of d -> due db d' key row <-> due db1 d' key row.
Proof using Hco E.
  intros Hne. destruct (ingest_report_effect _ _ _ _ Hco E) as [_ Hother _ _ _]. split; intros [A B C D G F]; split; try done.
  - apply Hother; congruence.
  - destruct (scoped_row_inv _ _ _ _ _ _ after_scoped A) as (e & He & Hid%reported_id).
    rewrite (Hother _ _ He) in A by congruence. by injection A as <-.
Qed.

Lemma after_advancing d' key row cid c :
  id_of d' <> id_of d -> due db d' key row -> advancing db d' row cid c -> advancing db1 d' row cid c.
Proof using Hco E.
  intros Hne D [R C L (r & Hr & Ha)]. destruct (ingest_report_effect _ _ _ _ Hco E) as [_ _ _ Hother _]. split; try done.
  - apply Hother; [done|]. intros k u Du Hu. destruct Du as [Du1 Du2 Du3 _ _ _].
    refine (due_rollouts _ d' _ _ _ _ _ Hco D Du1 Du3 _ R Hu). congruence.
  - destruct (scoped_rollouts _ _ _ _ after_scoped (cluster_RolloutID c)) as (m & Hm & Hb). rewrite Hr in Hb.
    eexists. split; [exact Hb|]. by destruct (bumped_columns now m r Hm) as (_ & _ & _ & -> & _).
Qed.
End after.

Record recorded (l : list DeliveryDeploymentStatusV2) db db' : Prop := {
  recorded_row : forall d key row, d ∈ l -> due db d key row -> db_deployments db' !! key = Some (observed_row (columns d) row);
  recorded_cluster : forall d key row cid c, d ∈ l -> due db d key row -> advancing db d row cid c ->
    db_clusters db' !! cid = Some (advanced_cluster (report_Phase d) (report_code d) now c) /\ traced db' d row c;
  recorded_other_rows : forall key row, db_deployments db !! key = Some row -> deployment_ID row ∉ map id_of l ->
    db_deployments db' !! key = Some row;
  recorded_other_clusters : forall cid c, db_clusters db !! cid = Some c ->
    (forall d key row, d ∈ l -> due db d key row -> deployment_CurrentRolloutID row <> Some (cluster_RolloutID c)) ->
    db_clusters db' !! cid = Some c;
  recorded_remembers : remembers db db';
}.

Lemma recorded_cons n p d l p1 db2 :
  coherent (fleet_db (progress_fleet p)) -> id_of d ∉ map id_of l ->
  ingest_report clocks cluster session sequence modern n p d = Ok p1 ->
  recorded l (fleet_db (progress_fleet p1)) db2 -> recorded (d :: l) (fleet_db (progress_fleet p)) db2.
Proof.
  intros Hco Hnd E [R1 R2 R3 R4 R5]. pose proof (ingest_report_effect _ _ _ _ Hco E) as [F1 F2 F3 F4 F5].
  pose proof (after_coherent _ _ _ _ Hco E) as Hco1.
  assert (Hne : forall d', d' ∈ l -> id_of d' <> id_of d).
  { intros d' Hd' Heq. apply Hnd. rewrite <- Heq. by apply list_elem_of_fmap_2. }
  split.
  - intros d' key row [->|Hd']%elem_of_cons D.
    + apply R3; [by apply F1 | cbn; by rewrite (due_id _ _ _ _ D)].
    + apply (R1 d'); [done|]. by apply (after_due _ _ _ _ Hco E _ _ _ (Hne _ Hd')).
  - intros d' key row cid c [->|Hd']%elem_of_cons D A.
    + destruct (F3 _ _ _ _ D A) as [Hc Ht]. split; [|by eapply traced_remembers]. apply R4; [done|]. cbn.
      intros d' k u Hd' Du Hu. apply (after_due _ _ _ _ Hco E _ _ _ (Hne _ Hd')) in Du as [Du1 Du2 Du3 _ _ _].
      refine (due_rollouts _ d _ _ _ _ _ Hco D Du1 Du3 _ (advancing_rollout _ _ _ _ _ A) Hu). rewrite Du2. by apply Hne.
    + apply (R2 d' key row); [done | by apply (after_due _ _ _ _ Hco E _ _ _ (Hne _ Hd'))|].
      by apply (after_advancing _ _ _ _ Hco E _ _ _ _ _ (Hne _ Hd') D).
  - intros key row Hrow Hno. cbn in Hno. apply not_elem_of_cons in Hno as [Hno1 Hno2]. apply R3; [by apply F2 | done].
  - intros cid c Hc Hno. apply R4.
    + apply F4; [done|]. intros key row D. apply (Hno d key row); [by left | done].
    + intros d' key row Hd' D. apply (Hno d' key row); [by right|]. by apply (after_due _ _ _ _ Hco E _ _ _ (Hne _ Hd')).
  - destruct F5 as [A B], R5 as [A' B']. split; auto.
Qed.

Lemma ingest_reports_recorded l : forall n p,
  coherent (fleet_db (progress_fleet p)) -> room (2 * len l) (fleet_db (progress_fleet p)) ->
  Forall (writable (progress_fleet p)) l -> NoDup (map id_of l) ->
  exists p', ingest_reports clocks cluster session sequence modern n p l = Ok p' /\
    recorded l (fleet_db (progress_fleet p)) (fleet_db (progress_fleet p')).
Proof using encodable.
  induction l as [|d l IH]; intros n p Hco Hroom Hw Hnd; cbn [ingest_reports].
  { exists p. split; [done|]. split; try done; by intros ? ? ? ?%not_elem_of_nil || by intros ? ? ? ? ? ?%not_elem_of_nil. }
  apply Forall_cons in Hw as [Hw Hws]. apply NoDup_cons in Hnd as [Hd Hnd].
  replace (2 * len (d :: l)) with (2 * len l + 2) in Hroom by (unfold len; cbn [length]; lia).
  pose proof (len_nonneg l) as Hl.
  destruct (ingest_report_fits n p d) as (p1 & E & Hr1 & Hw1); [|done|].
  { destruct Hroom as [A B]. split; [intros i r Hi; specialize (A i r Hi); lia | intros i r Hi; specialize (B i r Hi); lia]. }
  rewrite E. cbn [mbind res_bind].
  destruct (IH (S n) p1) as (p2 & E2 & R); [by eapply after_coherent | apply Hr1; [lia | done] | |done|].
  { eapply Forall_impl; [exact Hws | apply Hw1]. }
  exists p2. split; [done | by eapply recorded_cons].
Qed.
End report.

(** ** The whole report *)

Section ingester.
Context (versionFile : string) (provenance : option (list ProvenanceEntry)) (semver_Parse : string -> option (Z * Z)).
#[local] Abbreviation Ingest := (Ingest versionFile provenance semver_Parse).
#[local] Abbreviation inventory_row := (inventory_row versionFile provenance semver_Parse).

(** A valid report with news of the connected session, and tables and columns
    with room for it. *)
Record receivable (clocks : Clocks) (cluster connection : uuid) (session : string) (payload : DeliveryStatusV2) f : Prop := {
  receivable_identity : cluster <> uuid_Nil /\ connection <> uuid_Nil /\ TrimSpace session <> "";
  receivable_valid : status_Validate (clock_validate clocks) payload = Ok tt;
  receivable_cluster : status_ClusterID payload = uuid_String cluster;
  receivable_session : FenceDeliveryAgentSession (fleet_db f) connection cluster session = true;
  receivable_news : forall row, fleet_inventory f !! cluster = Some row -> stock_SessionID row <> session \/
    stock_Sequence row < status_SessionSequence payload /\ stock_StatusDigest row <> status_StatusDigest payload;
  receivable_snapshot : 0 < status_SnapshotGeneration payload -> exists r, fleet_receipts f !! cluster = Some r /\
    snapshot_DesiredGeneration r = status_SnapshotGeneration payload /\ snapshot_DesiredETag r = status_SnapshotETag payload /\
    (snapshot_SessionID r <> session \/ snapshot_Sequence r < status_SessionSequence payload);
  receivable_coherent : coherent (fleet_db f);
  receivable_room : room (2 * len (status_Deployments payload)) (fleet_db f);
  receivable_system : forall a, fleet_assignments f !! cluster = Some a -> system_Generation a < MaxInt64 /\ system_Fence a < MaxInt64;
  receivable_stock : stock_fits (inventory_row clocks session payload) = true;
  receivable_columns : Forall (writable session (status_SessionSequence payload) (is_modern payload) f) (status_Deployments payload);
}.

Lemma observe_system_fits clocks cluster changed payload f :
  (forall a, fleet_assignments f !! cluster = Some a -> system_Generation a < MaxInt64 /\ system_Fence a < MaxInt64) ->
  (forall a from, jcs_Marshal (system_document cluster a from (clock_system clocks)) <> None) ->
  exists f', observe_system versionFile provenance semver_Parse clocks cluster changed payload f = Ok f'.
Proof.
  intros Ha He. unfold observe_system.
  assert (exists r, RetargetLocalDeliverySystemAssignment f cluster (clock_db clocks) = Ok r) as [[n f1] ->].
  { unfold RetargetLocalDeliverySystemAssignment. destruct (fleet_assignments f !! cluster) as [a|]; [|by eexists].
    destruct (released_release f) as [[release ?]|]; [|by eexists]. destruct (_ && _); [|by eexists].
    destruct (Ha a eq_refl). rewrite !(proj2 (Z.leb_gt _ _)) by done. cbn. by eexists. }
  cbn [mbind res_bind]. destruct (_ || _); [|by eexists]. destruct (ObserveDeliverySystemAssignment _ _ _ _) as [[[from a]|] f2];
    [|by eexists]. destruct (_ != _); [|by eexists]. unfold CanonicalDigest, CanonicalJSON. cbn.
  destruct (jcs_Marshal _) eqn:E; [by eexists | by apply He in E].
Qed.

(** A report with news is accepted. *)
Lemma Accept_news f cluster session new :
  stock_fits new = true -> stock_SessionID new = session ->
  (forall row, fleet_inventory f !! cluster = Some row -> stock_SessionID row <> session \/
    stock_Sequence row < stock_Sequence new /\ stock_StatusDigest row <> stock_StatusDigest new) ->
  AcceptDeliveryStatusInventory (fleet_inventory f) cluster new =
    Ok (Some (<[cluster := accepted_row new (fleet_inventory f !! cluster)]> (fleet_inventory f), true)).
Proof.
  intros Hfit Hs Hnews. unfold AcceptDeliveryStatusInventory. rewrite Hfit. cbn [negb fail_if mbind res_bind].
  destruct (fleet_inventory f !! cluster) as [row|] eqn:Hrow; [|cbn; by rewrite Z.eqb_refl].
  specialize (Hnews row eq_refl). rewrite Hs. unfold accepted_row. cbn. rewrite Hs. destruct Hnews as [Hne|[Hlt Hne]].
  - rewrite (bool_decide_false (stock_SessionID row = session)) by done. cbn. by rewrite orb_true_r, Z.eqb_refl.
  - rewrite (proj2 (Z.ltb_lt _ _) Hlt), orb_true_r, (bool_decide_false (stock_StatusDigest row = _)) by done. cbn.
    by rewrite Z.eqb_refl.
Qed.

Lemma ingest_reports_tables clocks cluster session sequence modern l : forall n p p',
  ingest_reports clocks cluster session sequence modern n p l = Ok p' ->
  fleet_inventory (progress_fleet p') = fleet_inventory (progress_fleet p) /\
  fleet_receipts (progress_fleet p') = fleet_receipts (progress_fleet p).
Proof.
  induction l as [|d l IH]; cbn; intros n p p' E; [by injection E as <-|].
  apply res_bind_Ok in E as (p1 & [<- <-]%ingest_report_inventory & E). by eapply IH.
Qed.

(** The acknowledgment of the snapshot that is desired. *)
Lemma Acknowledge_fits f cluster generation etag session sequence code now r :
  fleet_receipts f !! cluster = Some r -> snapshot_DesiredGeneration r = generation -> snapshot_DesiredETag r = etag ->
  (snapshot_SessionID r <> session \/ snapshot_Sequence r < sequence) ->
  exists f', AcknowledgeDeliveryAssignmentSnapshot f cluster generation etag session sequence code now = Ok f' /\
    fleet_db f' = fleet_db f /\ fleet_inventory f' = fleet_inventory f /\
    exists r', fleet_receipts f' !! cluster = Some r' /\ snapshot_AckedGeneration r' = generation /\ snapshot_AckedETag r' = etag.
Proof.
  intros Hr Hg He Hs. unfold AcknowledgeDeliveryAssignmentSnapshot. rewrite Hr, Hg, He, Z.eqb_refl, bool_decide_true by done.
  replace (_ || _) with true; cycle 1.
  { symmetry. apply orb_true_iff. destruct Hs; [left; by rewrite bool_decide_false | right; by apply Z.ltb_lt]. }
  cbn. eexists. split_and!; try done. cbn. rewrite lookup_insert_eq. by eexists.
Qed.

(** What github.com/google/uuid does with a text in canonical form. *)
Definition canonical_parse : Prop := forall s, validUUID s = true -> exists u, uuid_Parse s = Some u /\ uuid_String u = s.

Lemma valid_ids clock payload :
  canonical_parse -> status_Validate clock payload = Ok tt -> NoDup (map id_of (status_Deployments payload)).
Proof.
  intros Hp E. unfold status_Validate in E. repeat (apply res_bind_Ok in E as (? & _ & E)).
  apply DeliveryProtocolFacts.validate_reports_Ok in E as (Hnd & _ & Hall).
  assert (Hid : forall d, d ∈ status_Deployments payload -> uuid_String (id_of d) = report_DeploymentID d).
  { intros d [i Hi]%list_elem_of_lookup_1. destruct (Hall i d Hi) as (_ & Hu & _). destruct (Hp _ Hu) as (u & Hu1 & Hu2).
    unfold id_of. by rewrite Hu1. }
  clear Hall. induction (status_Deployments payload) as [|d l IH]; [constructor|]. cbn in *. apply NoDup_cons in Hnd as [Hd Hnd].
  constructor; [|apply IH; [done | intros d' Hd'; apply Hid; by right]]. intros (d' & Heq & Hd')%list_elem_of_fmap.
  apply Hd, list_elem_of_fmap. exists d'. split; [|done]. rewrite <- (Hid d) by (by left).
  rewrite <- (Hid d') by (by right). congruence.
Qed.

End ingester.
End records.
End StatusRecords.
