(* ===== verification/StatusExamples.v ===== *)
(** * Examples of status ingestion

    A cluster with one deployment in a rollout under way, the reports of its
    agent, and what becomes of them.  Each theorem on ingestion is applied here to
    tables and reports that satisfy its hypotheses. *)

From Stdlib Require Import ZArith Lia Ascii.
From S2P Require Import Prelude Enums State SafeConv GoSort GoStrings External Validation Model Types.
From S2P Require Import Overrides RolloutTypes Planner AsyncOp DeliveryProtocol DeliveryProtocolFacts Compatibility Redaction.
From S2P Require Import DeliveryStore StatusIngest StatusIngestFacts StatusRecords.
From stdpp Require Import base gmap strings list relations.
Import SafeConv Model DeliveryStore DeliveryProtocol Compatibility Redaction StatusIngest StatusIngestFacts StatusRecords.
Import DeliveryProtocolFacts.

Open Scope Z_scope.

Module StatusExamples.

(** Identifiers are their canonical texts; the rest is that of [Concrete]. *)
Definition wire : External := {|
  uuid_String := uuid_bytes; uuid_Parse s := Some (UUID s);
  sha256_Sum256 := @sha256_Sum256 Concrete.external; jcs_Marshal := @jcs_Marshal Concrete.external;
  IsQualifiedName := @IsQualifiedName Concrete.external; IsValidLabelValue := @IsValidLabelValue Concrete.external;
  IsDNS1123Subdomain := @IsDNS1123Subdomain Concrete.external; url_Parse := @url_Parse Concrete.external;
  semver_NewVersion := @semver_NewVersion Concrete.external; semver_NewConstraint := @semver_NewConstraint Concrete.external;
  semver_Check := @semver_Check Concrete.external; json_Valid := @json_Valid Concrete.external;
  json_Marshal := @json_Marshal Concrete.external; json_Decode := @json_Decode Concrete.external;
  yaml_Unmarshal := @yaml_Unmarshal Concrete.external; unicode_ToLower := @unicode_ToLower Concrete.external |}.

Definition the_cluster : uuid := UUID (example_uuid "c"%char).
Definition the_connection : uuid := UUID "connection".
Definition the_target : uuid := UUID "target".
Definition the_rollout : uuid := UUID "rollout".

Definition example_rollout (state : string) : RolloutRow := {|
  row_ID := the_rollout; row_TargetID := the_target; row_TargetGeneration := 3; row_ToBundleVersionID := UUID "version";
  row_PlacementDigest := ""; row_StrategyDigest := ""; row_PlanDigest := ""; row_RequestDigest := "";
  row_IdempotencyKey := ""; row_FrozenPlan := ""; row_OnFailure := "pause"; row_State := state; row_FencingGeneration := 4;
  row_RuntimeGeneration := 1; row_LeaseOwner := ""; row_LeaseExpiresAt := None; row_LastDecisionDigest := "";
  row_Counters := {| counter_Total := 1; counter_Ready := 0; counter_Failed := 0; counter_Blocked := 0; counter_Released := 1 |};
  row_StartedAt := Some 100; row_CompletedAt := None; row_LastErrorCode := ""; row_UpdatedAt := 100 |}.

Definition example_released : ClusterRow := {|
  cluster_RolloutID := the_rollout; cluster_ClusterID := the_cluster; cluster_ReleaseOrder := 0; cluster_State := "released";
  cluster_AssignmentAction := "apply"; cluster_Attempt := 1; cluster_Fence := 1; cluster_ReleasedAt := Some 100;
  cluster_AcknowledgedAt := None; cluster_ReadyAt := None; cluster_CompletedAt := None; cluster_Deadline := Some 100000;
  cluster_LastErrorCode := ""; cluster_UpdatedAt := 100 |}.

Definition example_deployment : DeploymentRow := upserted (UUID (example_uuid "a"%char)) {|
  desired_RolloutID := the_rollout; desired_BundleVersionID := UUID "version"; desired_PreviousBundleVersionID := None;
  desired_Generation := 3; desired_SpecDigest := "sha256:" +:+ zeros 64; desired_Overrides := "{}"; desired_Revision := "main";
  desired_RendererSpec := None; desired_ConfigurationDigest := None; desired_Action := "apply"; desired_Phase := "pending" |} None.

Definition example_db (state : string) (tasks : gmap string TaskRow) : DB unit := {|
  db_rollouts := {[the_rollout := example_rollout state]}; db_targets := {[the_target := UUID "project"]};
  db_clusters := {[UUID "row" := example_released]}; db_events := []; db_approvals := []; db_tasks := tasks; db_audit := tt;
  db_keys := ∅; db_deployments := {[(the_target, the_cluster) := example_deployment]}; db_deploymentEvents := [];
  db_connections := {[the_connection := {| connection_ClusterID := the_cluster; connection_SessionID := "session";
                                           connection_Status := "connected"; connection_DisconnectedAt := None |}]};
  db_labels := ∅ |}.

Definition example_tables (state : string) (tasks : gmap string TaskRow) (releases : gmap uuid SystemRelease) :
    Fleet (Outbox := unit) := {|
  fleet_db := example_db state tasks; fleet_inventory := ∅; fleet_receipts := ∅; fleet_targets := ∅;
  fleet_releases := releases; fleet_assignments := ∅; fleet_systemEvents := []; fleet_locals := ∅ |}.

Definition example_clocks (now : time) : Clocks := {|
  clock_validate _ := now; clock_evaluate := now; clock_accepted := now; clock_system := now; clock_report _ := now;
  clock_wake _ := now; clock_ready := now; clock_db := now; clock_eventID n := UUID "event" |}.

Definition example_payload (sequence : Z) (reports : list DeliveryDeploymentStatusV2) (at_ : time) : DeliveryStatusV2 :=
  example_status sequence (@SemanticDigest wire (example_status sequence "" reports at_)) reports at_.

Definition example_ingest (now : time) (session : string) (payload : DeliveryStatusV2) (f : Fleet (Outbox := unit)) : Ingested :=
  @Ingest wire unit "v2.9.6" None (fun _ => Some (1, 34)) (example_clocks now) Works true the_cluster the_connection
    session payload f.

(** The states a reader sees. *)
Definition cluster_state (f : Fleet (Outbox := unit)) : string :=
  from_option cluster_State "" (db_clusters (fleet_db f) !! UUID "row").
Definition deployment_phase (f : Fleet (Outbox := unit)) : string :=
  from_option deployment_Phase "" (db_deployments (fleet_db f) !! (the_target, the_cluster)).

Definition first_report : DeliveryStatusV2 := example_payload 1 (example_reports 1000) 1000.
Definition same_report : DeliveryStatusV2 := example_payload 2 (example_shuffled 2000) 2000.

Lemma example_runs :
  let out := example_ingest 1500 "session" first_report (example_tables "progressing" ∅ ∅) in
  ingested_err out = None /\ ingested_results out = ["dropped"] /\ ingested_phases out = ["ready"] /\
  cluster_state (ingested_fleet out) = "ready" /\ deployment_phase (ingested_fleet out) = "ready".
Proof. vm_compute. done. Qed.

(** ** Reports that are lost *)

(** The rollout with another state, as when it is resumed. *)
Definition in_state (state : string) (f : Fleet (Outbox := unit)) : Fleet (Outbox := unit) :=
  with_db f (with_rollouts (fleet_db f)
    ((fun row => set_live row state (row_FencingGeneration row) "" None "" (row_StartedAt row) None "" 0) <$> db_rollouts (fleet_db f))).

(** A report that comes while the rollout is paused is stored with its deployment,
    but the cluster does not advance; after the rollout is resumed, further reports
    of the same state are coalesced, and the cluster stays released. *)
Lemma paused_report_lost :
  let paused := ingested_fleet (example_ingest 1500 "session" first_report (example_tables "paused" ∅ ∅)) in
  let resumed := ingested_fleet (example_ingest 2500 "session" same_report (in_state "progressing" paused)) in
  deployment_phase paused = "ready" /\ cluster_state paused = "released" /\
  deployment_phase resumed = "ready" /\ cluster_state resumed = "released".
Proof. vm_compute. done. Qed.

(** A system release and the agent that runs it. *)
Definition example_release : SystemRelease := {|
  release_Sequence := 1; release_State := "released"; release_DistributionDigest := ""; release_AgentVersion := "v1.2.3" |}.

Definition system_phase (f : Fleet (Outbox := unit)) : string :=
  from_option system_Phase "" (fleet_assignments f !! the_cluster).

(** The statement that seeds the assignment of a cluster does not observe it, and an
    unchanged report is not observed again: the assignment stays released though
    its release runs. *)
Lemma seeded_assignment_waits :
  let seeded := ingested_fleet (example_ingest 1500 "session" first_report
                  (example_tables "progressing" ∅ {[UUID "release" := example_release]})) in
  let again := ingested_fleet (example_ingest 2500 "session" same_report seeded) in
  system_phase seeded = "released" /\ system_phase again = "released" /\
  observed_phase {| sobs_DistributionDigest := ""; sobs_AgentVersion := "v1.2.3"; sobs_ObservedAt := Some 1000; sobs_Ready := true;
                    sobs_CompatibilityStatus := "upgrade_required"; sobs_ErrorCode := "" |} example_release "released" = "ready".
Proof. vm_compute. done. Qed.

(** The key of a wake names the sequence of the report but not its session, and an
    agent that restarts counts from one again.  A cluster that applies and becomes
    ready once more under the same generation advances, but the wakes of the first
    time were delivered and are not delivered again. *)
Definition delivered (f : Fleet (Outbox := unit)) : Fleet (Outbox := unit) :=
  let db := fleet_db f in
  with_db f (with_request db
    ((fun t => {| task_Rollout := task_Rollout t; task_Delivered := true; task_NextAttemptAt := task_NextAttemptAt t |}) <$> db_tasks db)
    (db_audit db) (db_keys db)).

Definition reconnected (session : string) (f : Fleet (Outbox := unit)) : Fleet (Outbox := unit) :=
  let db := fleet_db f in
  with_db f (with_fleet db (db_deployments db)
    {[the_connection := {| connection_ClusterID := the_cluster; connection_SessionID := session;
                           connection_Status := "connected"; connection_DisconnectedAt := None |}]} (db_labels db)).

Definition phase_report (sequence : Z) (phase : string) (at_ : time) : DeliveryStatusV2 :=
  example_payload sequence [example_report "a"%char phase [] at_ (example_items 1 0 0)] at_.

Definition pending_wakes (f : Fleet (Outbox := unit)) : nat :=
  length (List.filter (fun t => negb (task_Delivered t)) (map_to_list (db_tasks (fleet_db f))).*2).

Definition reports (session : string) (f : Fleet (Outbox := unit)) : list (string * nat) * Fleet (Outbox := unit) :=
  let applied := ingested_fleet (example_ingest 1500 session (phase_report 1 "applying" 1000) (reconnected session f)) in
  let ready := ingested_fleet (example_ingest 1500 session (phase_report 2 "ready" 1000) (delivered applied)) in
  ([(cluster_state applied, pending_wakes applied); (cluster_state ready, pending_wakes ready)], delivered ready).

Lemma wake_not_renewed :
  let first := reports "session" (example_tables "progressing" ∅ ∅) in
  let second := reports "another" first.2 in
  first.1 = [("reconciling", 1%nat); ("ready", 1%nat)] /\ second.1 = [("reconciling", 0%nat); ("ready", 0%nat)].
Proof. vm_compute. done. Qed.

(** A revision may be longer than its column; the report is refused as a whole. *)
Definition with_revision (n : nat) (d : DeliveryDeploymentStatusV2) : DeliveryDeploymentStatusV2 := {|
  report_Observation := report_Observation d; report_DeploymentID := report_DeploymentID d;
  report_Generation := report_Generation d; report_SpecDigest := report_SpecDigest d; report_Phase := report_Phase d;
  report_ObservedRevision := zeros n; report_ObservedDigest := report_ObservedDigest d;
  report_SourceKind := report_SourceKind d; report_SourceName := report_SourceName d;
  report_ReconcilerKind := report_ReconcilerKind d; report_ReconcilerName := report_ReconcilerName d;
  report_ErrorCode := report_ErrorCode d; report_WarningCodes := report_WarningCodes d; report_Message := report_Message d;
  report_Conditions := report_Conditions d; report_Inventory := report_Inventory d; report_ObservedAt := report_ObservedAt d |}.

Lemma long_revision_refused :
  let payload n := example_payload 1 (map (with_revision n) (example_reports 1000)) 1000 in
  let err n := ingested_err (example_ingest 1500 "session" (payload n) (example_tables "progressing" ∅ ∅)) in
  @status_Validate wire (fun _ => 1500) (payload 257%nat) = Ok tt /\ err 256%nat = None /\ err 257%nat = Some value_refused.
Proof. vm_compute. done. Qed.

(** ** The theorems on these tables *)

Definition example_start : Fleet (Outbox := unit) := example_tables "progressing" ∅ ∅.

Lemma only_deployment key d :
  db_deployments (fleet_db example_start) !! key = Some d -> key = (the_target, the_cluster) /\ d = example_deployment.
Proof. intros E. cbn in E. by apply lookup_singleton_Some in E as [<- <-]. Qed.

Lemma only_rollout id row :
  db_rollouts (fleet_db example_start) !! id = Some row -> id = the_rollout /\ row = example_rollout "progressing".
Proof. intros E. cbn in E. by apply lookup_singleton_Some in E as [<- <-]. Qed.

Lemma only_cluster cid c :
  db_clusters (fleet_db example_start) !! cid = Some c -> cid = UUID "row" /\ c = example_released.
Proof. intros E. cbn in E. by apply lookup_singleton_Some in E as [<- <-]. Qed.

Lemma example_unique : unique_ids (fleet_db example_start).
Proof. intros k k' d d' [-> _]%only_deployment [-> _]%only_deployment _. done. Qed.

Lemma example_coherent : coherent (fleet_db example_start).
Proof.
  split; [exact example_unique|..].
  - intros key d r [-> ->]%only_deployment [= <-]. by exists (example_rollout "progressing").
  - intros cid cid' c c' [-> _]%only_cluster [-> _]%only_cluster _ _. done.
Qed.

Definition example_out : Ingested := example_ingest 1500 "session" first_report example_start.


Lemma Ingest_follows_witness :
  well_assigned example_released /\
  exists c', db_clusters (fleet_db (ingested_fleet example_out)) !! UUID "row" = Some c' /\ rtc edge example_released c'.
Proof.
  assert (W : well_assigned example_released) by (split; [intros _; decide_now | done]). split; [exact W|].
  destruct (@Ingest_follows wire unit "v2.9.6" None (fun _ => Some (1, 34)) (example_clocks 1500) Works true the_cluster
    the_connection "session" first_report example_start (UUID "row") example_released example_unique eq_refl W) as (c' & E & Hr & _).
  exists c'. split; [exact E | exact Hr].
Defined.

Definition example_progress : res (Progress (Outbox := unit)) :=
  @ingest_tx wire unit "v2.9.6" None (fun _ => Some (1, 34)) (example_clocks 1500) the_cluster the_connection "session"
    first_report example_start.

Lemma Ingest_once_witness :
  exists p, example_progress = Ok p /\
    ingested_fleet (example_ingest 2500 "session" first_report (progress_fleet p)) = progress_fleet p.
Proof.
  assert (E : is_ok example_progress = true) by (vm_compute; reflexivity).
  destruct example_progress as [p|] eqn:Ep; [|discriminate E]. exists p. split; [reflexivity|].
  exact (proj1 (@Ingest_once wire unit "v2.9.6" None (fun _ => Some (1, 34)) (example_clocks 1500) the_cluster the_connection
    "session" first_report example_start p Ep (example_clocks 2500) Works true the_connection first_report
    (progress_fleet p) (Z.le_refl _) eq_refl)).
Defined.

Definition example_stock (f : Fleet (Outbox := unit)) (test : InventoryRow -> bool) : bool :=
  match fleet_inventory f !! the_cluster with Some row => test row | None => false end.

Lemma example_stock_row f test :
  example_stock f test = true -> exists row, fleet_inventory f !! the_cluster = Some row /\ test row = true.
Proof. unfold example_stock. destruct (fleet_inventory f !! the_cluster) as [row|]; [by exists row | done]. Qed.

Definition example_again : Ingested :=
  @Ingest wire unit "v2.9.6" None (fun _ => Some (1, 34)) (example_clocks 2500) Works true the_cluster the_connection
    "session" same_report (ingested_fleet example_out).


Lemma example_receivable :
  @receivable wire unit "v2.9.6" None (fun _ => Some (1, 34)) (example_clocks 1500) the_cluster the_connection "session"
    first_report example_start.
Proof.
  split.
  - split_and!; decide_now.
  - vm_compute. reflexivity.
  - reflexivity.
  - vm_compute. reflexivity.
  - intros row E. discriminate E.
  - intros E. discriminate E.
  - exact example_coherent.
  - split; [intros id row [-> ->]%only_rollout; decide_now | intros cid c [-> ->]%only_cluster; split; decide_now].
  - intros a E. discriminate E.
  - vm_compute. reflexivity.
  - repeat apply Forall_cons_2; [..|apply Forall_nil_2]; (split; [vm_compute; reflexivity | intros t t' E; discriminate E]).
Qed.

End StatusExamples.
