(* ===== verification/DeploymentControl.v ===== *)
(** * User control of a deployment (internal/delivery/deployment/control.go)

    [Act] reconciles, suspends or resumes the deployment of a target on one
    cluster: in one serializable transaction it claims the idempotency key, raises
    the desired generation the caller saw, and records the event, the audit intent
    and the receipt.  [RequestTargetDeletion] (target_delete.go) marks a target and
    its deployments for deletion, and [delete_tx] is the transaction the handler of
    targets runs around it (internal/handler/delivery/target.go).  It reads in
    READ COMMITTED mode: other transactions show up between its statements. *)

From Stdlib Require Import ZArith Lia.
From S2P Require Import Prelude Enums State SafeConv GoSort GoStrings Utf8 External Validation Model Types.
From S2P Require Import Overrides RolloutTypes Planner AsyncOp DeliveryProtocol Compatibility Redaction DeliveryStore.
From S2P Require Import Control StatusIngest StatusIngestFacts.
From stdpp Require Import base gmap strings list relations.
Import SafeConv Overrides Model RolloutTypes Planner AsyncOp DeliveryProtocol DeliveryStore StatusIngest StatusIngestFacts.
Import Control(Draws, draw_now, draw_dbnow, draw_eventID, draw_approvalID, ErrOutboxUnavailable, Fault, Works, Fails, ReplyLost).

Open Scope Z_scope.

Module DeploymentControl.

Definition ActionReconcile : string := "reconcile".
Definition ActionSuspend : string := "suspend".
Definition ActionResume : string := "resume".

(** [deploy_ActorID] is [None] for a [pgtype.UUID] that is not valid. *)
Record Request := {
  deploy_ProjectID : uuid;
  deploy_DeploymentID : uuid;
  deploy_ExpectedGeneration : Z;
  deploy_Action : string;
  deploy_ActorID : option uuid;
  deploy_IdempotencyKey : string;
  deploy_ReasonCode : string;
  deploy_Audit : Intent;
}.

Record Result := {
  deployed_Key : uuid * uuid;
  deployed_Row : DeploymentRow;
  deployed_Event : DeploymentEventRow;
  deployed_Receipt : Receipt;
}.

Definition ErrStaleGeneration : error := EText "deployment desired generation changed".

(** The action an assignment gets, and the type of the event. *)
Definition resolveAction (action : string) : option (string * string) :=
  if action == ActionReconcile then Some ("apply", "deployment_reconcile_requested")
  else if action == ActionSuspend then Some ("suspend", "deployment_suspend_requested")
  else if action == ActionResume then Some ("apply", "deployment_resume_requested")
  else None.

Definition deploy_reason (request : Request) : string :=
  if deploy_ReasonCode request == "" then deploy_Action request +:+ "_requested" else deploy_ReasonCode request.

(** The row after an action: what the agent said of the former generation no longer
    counts. *)
Definition transitioned_deployment (action : string) (d : DeploymentRow) : DeploymentRow := {|
  deployment_ID := deployment_ID d; deployment_CurrentRolloutID := deployment_CurrentRolloutID d;
  deployment_DesiredBundleVersionID := deployment_DesiredBundleVersionID d;
  deployment_PreviousBundleVersionID := deployment_PreviousBundleVersionID d;
  deployment_DesiredGeneration := deployment_DesiredGeneration d + 1;
  deployment_ObservedGeneration := deployment_ObservedGeneration d;
  deployment_DesiredSpecDigest := deployment_DesiredSpecDigest d;
  deployment_ObservedSpecDigest := deployment_ObservedSpecDigest d;
  deployment_DesiredRevision := deployment_DesiredRevision d; deployment_ObservedRevision := deployment_ObservedRevision d;
  deployment_DesiredOverrides := deployment_DesiredOverrides d;
  deployment_PreviousOverrides := deployment_PreviousOverrides d;
  deployment_DesiredRendererSpec := deployment_DesiredRendererSpec d;
  deployment_DesiredConfigurationDigest := deployment_DesiredConfigurationDigest d;
  deployment_Action := action; deployment_Phase := "pending"; deployment_Conditions := deployment_Conditions d;
  deployment_SourceKind := deployment_SourceKind d; deployment_SourceName := deployment_SourceName d;
  deployment_ReconcilerKind := deployment_ReconcilerKind d; deployment_ReconcilerName := deployment_ReconcilerName d;
  deployment_Inventory := deployment_Inventory d; deployment_AgentSessionID := ""; deployment_AgentSequence := 0;
  deployment_LastErrorCode := ""; deployment_LastMessage := "";
  deployment_LastObservedAt := deployment_LastObservedAt d |}.

Section control.
Context `{External} {Outbox : Type}.
(** [audit.RecordIntent] *)
Context (RecordIntent : Outbox -> Intent -> res Outbox).

#[local] Abbreviation DB := (DB Outbox).
#[local] Abbreviation Fleet := (Fleet (Outbox := Outbox)).

(** The intent with the details of the deployment. *)
Definition audited_deployment (intent : Intent) (key : uuid * uuid) (updated : DeploymentRow) : Intent := {|
  intent_Action := intent_Action intent; intent_ResourceID := intent_ResourceID intent;
  intent_Detail := <["desired_generation" := JNumber (deployment_DesiredGeneration updated)]>
                  (<["phase" := JString (deployment_Phase updated)]>
                  (<["target_id" := JString (uuid_String key.1)]>
                  (<["cluster_id" := JString (uuid_String key.2)]> (intent_Detail intent))));
  intent_DedupeKey := intent_DedupeKey intent |}.

Definition deploymentURL (deploymentID projectID : uuid) : string :=
  "/api/v1/delivery/deployments/" +:+ uuid_String deploymentID +:+ "/?project_id=" +:+ uuid_String projectID.

(** ** Statements *)

Definition GetClusterDeploymentForAction (db : DB) (id project : uuid) : res ((uuid * uuid) * DeploymentRow) :=
  match deployment_by_id db id with
  | Some (key, d) => if bool_decide (db_targets db !! key.1 = Some project) then Ok (key, d) else Err no_rows
  | None => Err no_rows
  end.

(** [None] is [pgx.ErrNoRows]. *)
Definition TransitionClusterDeploymentCAS (db : DB) (action : string) (id : uuid) (expectedGeneration : Z) (now : time) :
    res (option ((uuid * uuid) * DeploymentRow * DB)) :=
  match deployment_by_id db id with
  | Some (key, d) =>
      if deployment_DesiredGeneration d =? expectedGeneration then
        fail_if (MaxInt64 <=? deployment_DesiredGeneration d) out_of_range;;
        db' ← write_deployment now key (transitioned_deployment action d) db;
        Ok (Some (key, transitioned_deployment action d, db'))
      else Ok None
  | None => Ok None
  end.

(** ** The request *)

Definition deploy_document (request : Request) : json :=
  JObject (field "project_id" (deploy_ProjectID request) ++ field "deployment_id" (deploy_DeploymentID request) ++
    field "generation" (deploy_ExpectedGeneration request) ++ field "action" (deploy_Action request) ++
    field "reason_code" (deploy_reason request)).

(** What [Act] checks and computes before its transaction: the action of the
    assignment, the type of the event and the claim. *)
Definition prepare_deploy (request : Request) : res (string * string * ClaimRequest) :=
  fail_if (Intent_IsZero (deploy_Audit request)) ErrOutboxUnavailable;;
  fail_if ((deploy_ProjectID request == uuid_Nil) || (deploy_DeploymentID request == uuid_Nil) ||
           (deploy_ExpectedGeneration request <? 0))
    (EText "project, deployment, and non-negative If-Match generation are required");;
  match resolveAction (deploy_Action request) with
  | None => Err (EText "unsupported deployment action")
  | Some (action, eventType) =>
      match deploy_ActorID request with
      | None => Err (EText "authenticated actor is required")
      | Some actorID =>
          fail_if (actorID == uuid_Nil) (EText "authenticated actor is required");;
          ValidateKey (deploy_IdempotencyKey request);;
          requestDigest ← operation_digest (deploy_document request);
          Ok (action, eventType, {|
            request_ActorID := actorID; request_ProjectID := deploy_ProjectID request;
            request_Operation := "deployment." +:+ deploy_Action request; request_Resource := "cluster_deployment";
            request_TargetID := deploy_DeploymentID request;
            request_IdempotencyKey := deploy_IdempotencyKey request; request_RequestDigest := requestDigest;
            request_OperationTable := "cluster_deployment_events" |})
      end
  end.

(** A transaction that returns no error either found the receipt of an earlier
    one, and is rolled back, or goes on to commit. *)
Inductive TxResult :=
  | Replayed (receipt : Receipt)
  | Commits (result : Result) (db : DB).

Definition deploy_tx (draws : Draws) (request : Request) (db : DB) : res TxResult :=
  prepared ← prepare_deploy request;
  let '(action, eventType, claimRequest) := prepared in
  claimed ← ClaimKey (db_keys db) claimRequest;
  let '(claim, keys) := claimed in
  match claim_Receipt claim with
  | Some receipt => Ok (Replayed receipt)
  | None =>
      let db1 := with_keys db keys in
      found ← GetClusterDeploymentForAction db1 (deploy_DeploymentID request) (deploy_ProjectID request);
      let '(_, current) := found in
      fail_if (negb (deployment_DesiredGeneration current =? deploy_ExpectedGeneration request)) ErrStaleGeneration;;
      cas ← TransitionClusterDeploymentCAS db1 action (deploy_DeploymentID request)
              (deploy_ExpectedGeneration request) (draw_dbnow draws);
      match cas with
      | None => Err ErrStaleGeneration
      | Some (key, updated, db2) =>
          fail_if (negb (varchar 96 (deploy_reason request))) value_refused;;
          let event := {|
            devent_DeploymentID := deployment_ID updated; devent_RolloutID := None; devent_EventType := eventType;
            devent_FromPhase := deployment_Phase current; devent_ToPhase := deployment_Phase updated;
            devent_Generation := deployment_DesiredGeneration updated;
            devent_SpecDigest := deployment_DesiredSpecDigest updated; devent_ReasonCode := deploy_reason request;
            devent_Message := ""; devent_ObservedAt := microseconds (draw_now draws 0) |} in
          let db3 := CreateClusterDeploymentEvent db2 event in
          outbox ← RecordIntent (db_audit db3) (audited_deployment (deploy_Audit request) key updated);
          let receipt := NewReceipt (draw_eventID draws) ("deployment." +:+ deploy_Action request) "cluster_deployment"
                           (deploy_DeploymentID request) (deploy_ProjectID request)
                           (deploymentURL (deploy_DeploymentID request) (deploy_ProjectID request)) (draw_now draws 1) in
          keys' ← Attach keys claim receipt;
          Ok (Commits {| deployed_Key := key; deployed_Row := updated; deployed_Event := event; deployed_Receipt := receipt |}
                (with_keys (with_audit db3 outbox) keys'))
      end
  end.

(** A request against the database; a replay and an error before the commit leave
    it as it was, and the answer to a commit may be lost. *)
Inductive Answer :=
  | AnswerReplay (receipt : Receipt)
  | AnswerDone (result : Result)
  | AnswerError (e : error).

Definition Act (draws : Draws) (fault : Fault) (request : Request) (db : DB) : Answer * DB :=
  match fault, deploy_tx draws request db with
  | Fails e, _ => (AnswerError e, db)
  | _, Err e => (AnswerError e, db)
  | ReplyLost e, Ok (Replayed _) => (AnswerError e, db)
  | Works, Ok (Replayed receipt) => (AnswerReplay receipt, db)
  | ReplyLost e, Ok (Commits _ db') => (AnswerError e, db')
  | Works, Ok (Commits result db') => (AnswerDone result, db')
  end.
End control.

(** ** Deletion of a target *)

#[export] Instance TargetDeletion_eq_dec : EqDecision TargetDeletion.
Proof. solve_decision. Defined.

Record DeletionParams := {
  params_ID : uuid;
  params_ProjectID : uuid;
  params_ExpectedVersion : Z;
}.

(** The row of the target, and how many deployments were marked. *)
Record DeletionRow := {
  deleting_Target : TargetDeletion;
  deleting_DeploymentCount : Z;
}.

(** The deployment with another action, phase, generation and error. *)
Definition marked_deployment (action phase : string) (generation : Z) (code : string) (d : DeploymentRow) :
    DeploymentRow := {|
  deployment_ID := deployment_ID d; deployment_CurrentRolloutID := deployment_CurrentRolloutID d;
  deployment_DesiredBundleVersionID := deployment_DesiredBundleVersionID d;
  deployment_PreviousBundleVersionID := deployment_PreviousBundleVersionID d;
  deployment_DesiredGeneration := generation; deployment_ObservedGeneration := deployment_ObservedGeneration d;
  deployment_DesiredSpecDigest := deployment_DesiredSpecDigest d;
  deployment_ObservedSpecDigest := deployment_ObservedSpecDigest d;
  deployment_DesiredRevision := deployment_DesiredRevision d; deployment_ObservedRevision := deployment_ObservedRevision d;
  deployment_DesiredOverrides := deployment_DesiredOverrides d;
  deployment_PreviousOverrides := deployment_PreviousOverrides d;
  deployment_DesiredRendererSpec := deployment_DesiredRendererSpec d;
  deployment_DesiredConfigurationDigest := deployment_DesiredConfigurationDigest d;
  deployment_Action := action; deployment_Phase := phase; deployment_Conditions := deployment_Conditions d;
  deployment_SourceKind := deployment_SourceKind d; deployment_SourceName := deployment_SourceName d;
  deployment_ReconcilerKind := deployment_ReconcilerKind d; deployment_ReconcilerName := deployment_ReconcilerName d;
  deployment_Inventory := deployment_Inventory d; deployment_AgentSessionID := deployment_AgentSessionID d;
  deployment_AgentSequence := deployment_AgentSequence d; deployment_LastErrorCode := code; deployment_LastMessage := "";
  deployment_LastObservedAt := deployment_LastObservedAt d |}.

Definition deleting_deployment (d : DeploymentRow) : DeploymentRow :=
  marked_deployment "delete" "pending" (deployment_DesiredGeneration d + 1) "" d.

Definition orphaned_deployment (d : DeploymentRow) : DeploymentRow :=
  marked_deployment (deployment_Action d) "removed" (deployment_DesiredGeneration d) "orphaned_by_operator" d.

Section deletion.
Context `{External} {Outbox : Type}.
Context (RecordIntent : Outbox -> Intent -> res Outbox).

#[local] Abbreviation DB := (DB Outbox).
#[local] Abbreviation Fleet := (Fleet (Outbox := Outbox)).

(** The deployments of a target that are not removed. *)
Definition live_deployments (target : uuid) (db : DB) : list ((uuid * uuid) * DeploymentRow) :=
  List.filter (fun p => (p.1.1 == target) && (deployment_Phase p.2 != "removed")) (map_to_list (db_deployments db)).

(** One update of many deployments; the trigger runs once a row. *)
Definition update_deployments (g : DeploymentRow -> DeploymentRow) (now : time) (l : list ((uuid * uuid) * DeploymentRow))
    (db : DB) : res DB :=
  res_foldl (fun db p => write_deployment now p.1 (g p.2) db) db l.

(** The target at the expected version in this state, and the row after an update. *)
Definition target_cas (f : Fleet) (params : DeletionParams) (state : string) : res TargetDeletion :=
  match fleet_targets f !! params_ID params with
  | Some t =>
      if bool_decide (db_targets (fleet_db f) !! params_ID params = Some (params_ProjectID params)) &&
         (deletion_ResourceVersion t =? params_ExpectedVersion params) && (deletion_State t == state)
      then fail_if (MaxInt64 <=? deletion_ResourceVersion t) out_of_range;; Ok t
      else Err no_rows
  | None => Err no_rows
  end.

Definition with_target (f : Fleet) (target : uuid) (t : TargetDeletion) : Fleet :=
  with_inventory f (fleet_inventory f) (fleet_receipts f) (<[target := t]> (fleet_targets f)).

Definition RequestDeliveryTargetDeletionCAS (f : Fleet) (params : DeletionParams) (now : time) : res (DeletionRow * Fleet) :=
  t ← target_cas f params "active";
  fail_if (MaxInt64 <=? deletion_Generation t) out_of_range;;
  let live := live_deployments (params_ID params) (fleet_db f) in
  fail_if (existsb (fun p => MaxInt64 <=? deployment_DesiredGeneration p.2) live) out_of_range;;
  db ← update_deployments deleting_deployment now live (fleet_db f);
  let t' := {| deletion_State := "deleting"; deletion_Generation := deletion_Generation t + 1;
               deletion_ResourceVersion := deletion_ResourceVersion t + 1 |} in
  Ok ({| deleting_Target := t'; deleting_DeploymentCount := len live |}, with_target (with_db f db) (params_ID params) t').

Definition MarkDeliveryTargetOrphaned (f : Fleet) (params : DeletionParams) (now : time) : res (TargetDeletion * Fleet) :=
  t ← target_cas f params "deleting";
  db ← update_deployments orphaned_deployment now (live_deployments (params_ID params) (fleet_db f)) (fleet_db f);
  let t' := {| deletion_State := "deleted"; deletion_Generation := deletion_Generation t;
               deletion_ResourceVersion := deletion_ResourceVersion t + 1 |} in
  Ok (t', with_target (with_db f db) (params_ID params) t').

(** The rollouts of a target, in whatever state. *)
Definition CountDeliveryRollouts (db : DB) (project target : uuid) : Z :=
  if bool_decide (db_targets db !! target = Some project)
  then len (List.filter (fun p => row_TargetID p.2 == target) (map_to_list (db_rollouts db))) else 0.

(** [others n] is what other transactions commit before the statement after the
    [n]th. *)
Definition RequestTargetDeletion (others : nat -> Fleet -> Fleet) (params : DeletionParams) (now : time) (f : Fleet) :
    res (DeletionRow * Fleet) :=
  requested ← RequestDeliveryTargetDeletionCAS f params now;
  let '(row, f1) := requested in
  if deleting_DeploymentCount row != 0 then Ok (row, f1)
  else
    let f2 := others 0%nat f1 in
    if CountDeliveryRollouts (fleet_db f2) (params_ProjectID params) (params_ID params) != 0 then Ok (row, f2)
    else
      let f3 := others 1%nat f2 in
      f4 ← FinalizeDeliveryTargetDeletionIfComplete f3 (params_ID params);
      Ok (match fleet_targets f4 !! params_ID params with
          | Some t => if bool_decide (fleet_targets f3 !! params_ID params = Some t) then row
                      else {| deleting_Target := {| deletion_State := deletion_State t;
                                                    deletion_Generation := deletion_Generation (deleting_Target row);
                                                    deletion_ResourceVersion := deletion_ResourceVersion t |};
                              deleting_DeploymentCount := deleting_DeploymentCount row |}
          | None => row
          end, f4).

(** The transaction of the handler, from the authenticated actor on. *)
Record DeleteRequest := {
  delete_Params : DeletionParams;
  delete_ActorID : option uuid;
  delete_IdempotencyKey : string;
  delete_Audit : Intent;
}.

Definition delete_document (params : DeletionParams) : json :=
  JObject (field "project_id" (params_ProjectID params) ++ field "target_id" (params_ID params) ++
    field "resource_version" (params_ExpectedVersion params)).

Definition targetURL (targetID projectID : uuid) : string :=
  "/api/v1/delivery/targets/" +:+ uuid_String targetID +:+ "/?project_id=" +:+ uuid_String projectID.

Definition audited_deletion (intent : Intent) (params : DeletionParams) (row : DeletionRow) : Intent := {|
  intent_Action := intent_Action intent; intent_ResourceID := uuid_String (params_ID params);
  intent_Detail := <["resource_version" := JNumber (deletion_ResourceVersion (deleting_Target row))]>
                  (<["deletion_state" := JString (deletion_State (deleting_Target row))]>
                  (<["deployment_count" := JNumber (deleting_DeploymentCount row)]>
                  (<["project_id" := JString (uuid_String (params_ProjectID params))]> (intent_Detail intent))));
  intent_DedupeKey := intent_DedupeKey intent |}.

Definition claim_delete (request : DeleteRequest) : res ClaimRequest :=
  match delete_ActorID request with
  | None => Err (EText "authenticated actor is required")
  | Some actor =>
      fail_if (actor == uuid_Nil) (EText "authenticated actor is required");;
      digest ← operation_digest (delete_document (delete_Params request));
      Ok {| request_ActorID := actor; request_ProjectID := params_ProjectID (delete_Params request);
            request_Operation := "target.delete"; request_Resource := "delivery_target";
            request_TargetID := params_ID (delete_Params request);
            request_IdempotencyKey := delete_IdempotencyKey request; request_RequestDigest := digest;
            request_OperationTable := "delivery_targets" |}
  end.

(** [None] is a replay. *)
Definition delete_tx (others : nat -> Fleet -> Fleet) (at_ now : time) (request : DeleteRequest) (f : Fleet) :
    res (Receipt * option (DeletionRow * Fleet)) :=
  claimRequest ← claim_delete request;
  claimed ← ClaimKey (db_keys (fleet_db f)) claimRequest;
  let '(claim, keys) := claimed in
  match claim_Receipt claim with
  | Some receipt => Ok (receipt, None)
  | None =>
      let params := delete_Params request in
      deleted ← RequestTargetDeletion others params now (with_db f (with_keys (fleet_db f) keys));
      let '(row, f1) := deleted in
      let receipt := NewReceipt (params_ID params) "target.delete" "delivery_target" (params_ID params)
                       (params_ProjectID params) (targetURL (params_ID params) (params_ProjectID params)) at_ in
      keys' ← Attach (db_keys (fleet_db f1)) claim receipt;
      let intent := audited_deletion (delete_Audit request) params row in
      fail_if (Intent_IsZero intent) ErrOutboxUnavailable;;
      outbox ← wrap_err (fun _ => ErrOutboxUnavailable) (RecordIntent (db_audit (fleet_db f1)) intent);
      Ok (receipt, Some (row, with_db f1 (with_keys (with_audit (fleet_db f1) outbox) keys')))
  end.
End deletion.
End DeploymentControl.
