(* ===== verification/DeploymentControlFacts.v ===== *)
(** * Correctness of deployment control

    An action on a deployment takes effect once and at the generation the caller
    saw, and what agents still report of that generation no longer counts; a
    request to delete a target marks every live deployment and finishes at once
    only where nothing was ever rolled out. *)

From Stdlib Require Import ZArith Lia.
From S2P Require Import Prelude Enums State SafeConv GoSort GoStrings Utf8 External Validation Model Types.
From S2P Require Import Overrides RolloutTypes Planner AsyncOp DeliveryProtocol Compatibility Redaction DeliveryStore.
From S2P Require Import Control StatusIngest StatusIngestFacts DeploymentControl.
From stdpp Require Import base gmap strings list relations.
Import SafeConv Overrides Model RolloutTypes Planner AsyncOp DeliveryProtocol DeliveryStore StatusIngest StatusIngestFacts.
Import Control(Draws, draw_now, draw_dbnow, draw_eventID, draw_approvalID, ErrOutboxUnavailable, Fault, Works, Fails, ReplyLost).
Import DeploymentControl.

Open Scope Z_scope.

Module DeploymentControlFacts.

Section facts.
Context `{External} {Outbox : Type}.
Context (RecordIntent : Outbox -> Intent -> res Outbox).

#[local] Abbreviation DB := (DB Outbox).
#[local] Abbreviation Fleet := (Fleet (Outbox := Outbox)).
#[local] Abbreviation deploy_tx := (deploy_tx RecordIntent).
#[local] Abbreviation Act := (Act RecordIntent).
Implicit Types (db : DB) (f : Fleet).

(** ** Statements *)

(** A change of a deployment counts once for the rollout it stays in. *)
Lemma deployment_rollouts_same d d' id :
  deployment_CurrentRolloutID d' = deployment_CurrentRolloutID d ->
  times id (deployment_rollouts (Some d) (Some d')) = if bool_decide (deployment_CurrentRolloutID d = Some id) then 1 else 0.
Proof.
  intros Hr. unfold deployment_rollouts. cbn. rewrite Hr. destruct (deployment_CurrentRolloutID d) as [r|]; [|done].
  rewrite bool_decide_true by done. rewrite times_cons. unfold times. cbn.
  rewrite (bool_decide_ext (r = id) (Some r = Some id)) by (split; congruence). by destruct (bool_decide _).
Qed.

(** A write of a deployment that keeps its rollout counts for that rollout. *)
Lemma write_deployment_Ok now key d d' db db' :
  db_deployments db !! key = Some d -> deployment_CurrentRolloutID d' = deployment_CurrentRolloutID d ->
  write_deployment now key d' db = Ok db' ->
  db' = with_rollouts (with_deployments db (<[key := d']> (db_deployments db))) (db_rollouts db') /\
  forall id, db_rollouts db' !! id =
    bumped now (if bool_decide (deployment_CurrentRolloutID d = Some id) then 1 else 0) <$> db_rollouts db !! id.
Proof.
  intros Hd Hr E. unfold write_deployment in E. apply bump_all_Ok in E as [E Hb]. split; [exact E|].
  intros id. rewrite Hb, Hd, deployment_rollouts_same by done. done.
Qed.

Lemma GetForAction_Ok db id project key d :
  GetClusterDeploymentForAction db id project = Ok (key, d) <->
  deployment_by_id db id = Some (key, d) /\ db_targets db !! key.1 = Some project.
Proof.
  unfold GetClusterDeploymentForAction. destruct (deployment_by_id db id) as [[k e]|]; [|naive_solver].
  case_bool_decide; naive_solver.
Qed.

Lemma TransitionCAS_Some db action id generation now key d' db' :
  TransitionClusterDeploymentCAS db action id generation now = Ok (Some (key, d', db')) ->
  exists d, deployment_by_id db id = Some (key, d) /\ deployment_DesiredGeneration d = generation /\
    generation < MaxInt64 /\ d' = transitioned_deployment action d /\ write_deployment now key d' db = Ok db'.
Proof.
  unfold TransitionClusterDeploymentCAS. destruct (deployment_by_id db id) as [[k d]|]; [|done].
  destruct (_ =? _) eqn:Eg; [|done]. intros E. res_inv. bool_props. simplify_eq. eexists. split_and!; done.
Qed.

(** ** A committed action *)

(** What the action found and left: exactly this deployment moved to the next
    generation of its action, one event says so, its rollout is told, and nothing
    else changed but the audit and the key. *)
Record deployed (draws : Draws) (request : Request) db (result : Result) db' (d : DeploymentRow) (action eventType : string) :
    Prop := {
  deployed_before : db_deployments db !! deployed_Key result = Some d;
  deployed_id : deployment_ID d = deploy_DeploymentID request;
  deployed_project : db_targets db !! (deployed_Key result).1 = Some (deploy_ProjectID request);
  deployed_generation : deployment_DesiredGeneration d = deploy_ExpectedGeneration request;
  deployed_bounded : 0 <= deploy_ExpectedGeneration request < MaxInt64;
  deployed_actor : exists actor, deploy_ActorID request = Some actor /\ actor <> uuid_Nil;
  deployed_action : resolveAction (deploy_Action request) = Some (action, eventType);
  deployed_row : deployed_Row result = transitioned_deployment action d;
  deployed_deployments : db_deployments db' = <[deployed_Key result := deployed_Row result]> (db_deployments db);
  deployed_events : db_deploymentEvents db' = db_deploymentEvents db ++ [deployed_Event result];
  deployed_event : devent_DeploymentID (deployed_Event result) = deploy_DeploymentID request /\
    devent_EventType (deployed_Event result) = eventType /\
    devent_FromPhase (deployed_Event result) = deployment_Phase d /\ devent_ToPhase (deployed_Event result) = "pending" /\
    devent_Generation (deployed_Event result) = deploy_ExpectedGeneration request + 1;
  deployed_rollouts : forall id, db_rollouts db' !! id =
    bumped (draw_dbnow draws) (if bool_decide (deployment_CurrentRolloutID d = Some id) then 1 else 0) <$> db_rollouts db !! id;
  deployed_rest : (db_targets db', db_clusters db', db_events db', db_approvals db', db_tasks db',
                   (db_connections db', db_labels db')) =
                  (db_targets db, db_clusters db, db_events db, db_approvals db, db_tasks db,
                   (db_connections db, db_labels db));
}.

Lemma deployed_bumped draws request db result db' d action eventType :
  deployed draws request db result db' d action eventType -> only_bumped (draw_dbnow draws) db db'.
Proof.
  intros Hd id. eexists. split; [|apply (deployed_rollouts _ _ _ _ _ _ _ _ Hd)]. by destruct (bool_decide _).
Qed.

Lemma prepare_deploy_Ok request action eventType claim :
  prepare_deploy request = Ok (action, eventType, claim) ->
  resolveAction (deploy_Action request) = Some (action, eventType) /\
  (exists actor, deploy_ActorID request = Some actor /\ actor <> uuid_Nil) /\
  0 <= deploy_ExpectedGeneration request /\
  ValidateKey (request_IdempotencyKey claim) = Ok tt /\ request_ProjectID claim = deploy_ProjectID request /\
  request_Operation claim = "deployment." +:+ deploy_Action request /\
  request_Resource claim = "cluster_deployment" /\ request_TargetID claim = deploy_DeploymentID request.
Proof.
  unfold prepare_deploy. intros E. res_inv. destruct (resolveAction _) as [[a e]|]; [|done].
  destruct (deploy_ActorID request) as [actor|]; [|done]. res_inv. simplify_eq. bool_props.
  repeat match goal with u : unit |- _ => destruct u end. split_and!; try done; by eexists.
Qed.

Lemma deploy_commits draws request db result db' :
  deploy_tx draws request db = Ok (Commits result db') ->
  exists d action eventType claim,
    deployed draws request db result db' d action eventType /\
    prepare_deploy request = Ok (action, eventType, claim) /\ incomplete claim = false /\
    keeps_receipts (db_keys db) (db_keys db') /\
    settled (db_keys db') claim (deployed_Receipt result) /\ receipt_for claim (deployed_Receipt result).
Proof.
  unfold DeploymentControl.deploy_tx. intros E. apply res_bind_Ok in E as ([[action eventType] claimRequest] & Ep & E).
  apply res_bind_Ok in E as ([claim keys] & Ek & E). destruct (claim_Receipt claim) as [receipt|] eqn:Ec; [done|].
  apply res_bind_Ok in E as ([k current] & Hget & E). apply res_bind_Ok in E as (u & Hgen & E).
  apply res_bind_Ok in E as (cas & Hcas & E). destruct cas as [[[key updated] db2]|]; [|done].
  apply res_bind_Ok in E as (u' & Hfit & E). apply res_bind_Ok in E as (outbox & Haudit & E).
  apply res_bind_Ok in E as (keys' & Hattach & [= <- <-]).
  apply GetForAction_Ok in Hget as [Hget Htarget]. apply TransitionCAS_Some in Hcas as (d & Hd & Hg & Hb & -> & Hw).
  rewrite Hget in Hd. injection Hd as -> ->. apply deployment_by_id_Some in Hget as [Hrow Hid].
  apply (write_deployment_Ok _ _ d) in Hw as [Hdb2 Hroll]; [|done..].
  destruct (prepare_deploy_Ok _ _ _ _ Ep) as (Hact & Hactor & Hpos & Hkey & P1 & P2 & P3 & P4).
  exists d, action, eventType, claimRequest. cbn in Hrow, Htarget, Hdb2, Hroll, Hattach.
  generalize dependent (db_rollouts db2). intros rollouts -> Hroll.
  destruct (Attach_settles _ _ _ _ _ _ Ek Ec Hattach) as (Hkeep & Hset & _).
  destruct (Attach_receipt _ _ _ _ Hattach) as [Hid' Hurl].
  split_and!; [| done | by eapply ClaimKey_complete | done | done | unfold receipt_for; by rewrite P1, P2, P3, P4].
  split; cbn; try done; by rewrite Hid, Hg.
Qed.
(** ** Reports of another generation *)

(** No report of the list is about the generation the deployment is meant to be. *)
Definition stale (d : DeploymentRow) (l : list DeliveryDeploymentStatusV2) : Prop :=
  forall r, r ∈ l -> default uuid_Nil (uuid_Parse (report_DeploymentID r)) = deployment_ID d ->
    report_Generation r <> deployment_DesiredGeneration d.

Lemma observed_elsewhere db id o now key' d' db' key d :
  observed_once db id o now key' d' db' -> db_deployments db !! key = Some d ->
  (id = deployment_ID d -> observed_Generation o <> deployment_DesiredGeneration d) ->
  db_deployments db' !! key = Some d.
Proof.
  intros [Hd Hg _ Hdb _ _] Hkey Hs. apply deployment_by_id_Some in Hd as [Hd Hid]. rewrite Hdb. cbn.
  destruct (decide (key' = key)) as [->|Hne]; [|by rewrite lookup_insert_ne].
  rewrite Hkey in Hd. injection Hd as <-. by destruct (Hs (eq_sym Hid)).
Qed.

Section reports.
Context (clocks : Clocks) (cluster : uuid) (session : string) (sequence : Z) (modern : bool).

Lemma advance_deployments n id at_ updated db db' :
  advance clocks sequence n id at_ updated db = Ok db' -> db_deployments db' = db_deployments db.
Proof.
  unfold advance. intros E. apply res_bind_Ok in E as (found & Ha & E). destruct found as [[[from c'] db1]|]; [|by injection E as <-].
  apply Advance_Some in Ha as (cid & c & _ & _ & Ha). apply res_bind_Ok in E as (digest & _ & [= <-]). cbn.
  by rewrite (advanced_db _ _ _ _ _ _ _ _ Ha).
Qed.

Lemma ingest_report_stale n (p p' : Progress (Outbox := Outbox)) r key d :
  ingest_report clocks cluster session sequence modern n p r = Ok p' -> stale d [r] ->
  db_deployments (fleet_db (progress_fleet p)) !! key = Some d ->
  db_deployments (fleet_db (progress_fleet p')) !! key = Some d.
Proof.
  unfold ingest_report. set (id := default uuid_Nil _). intros E Hs Hd.
  destruct (GetClusterDeploymentForDeliveryStatus _ id cluster) as [[k current]|]; [|by injection E as <-].
  destruct (_ || _); [by injection E as <-|]. apply res_bind_Ok in E as (written & Hw & E).
  destruct written as [[[key' updated] db1]|]; [|by injection E as <-].
  apply UpdateObserved_Some in Hw as (d0 & -> & Ho). apply res_bind_Ok in E as (f2 & Hf & E).
  apply res_bind_Ok in E as (db3 & Ha & [= <-]). cbn [progress_fleet with_db fleet_db].
  rewrite (advance_deployments _ _ _ _ _ _ Ha).
  assert (Hf2 : db_deployments (fleet_db f2) = db_deployments db1).
  { destruct (_ == _); [apply (Finalize_scoped 0 cluster) in Hf as [_ ->] | injection Hf as <-]; cbn;
      by rewrite record_transition_deployments. }
  rewrite Hf2. eapply observed_elsewhere; [exact Ho | done|]. intros Hid. cbn. apply Hs; [by left | done].
Qed.

Lemma ingest_reports_stale key d l : forall n (p p' : Progress (Outbox := Outbox)),
  ingest_reports clocks cluster session sequence modern n p l = Ok p' -> stale d l ->
  db_deployments (fleet_db (progress_fleet p)) !! key = Some d ->
  db_deployments (fleet_db (progress_fleet p')) !! key = Some d.
Proof.
  induction l as [|r l IH]; cbn; intros n p p' E Hs Hd; [by injection E as <-|].
  apply res_bind_Ok in E as (p1 & E1 & E2). eapply IH; [exact E2 | intros r' Hr'; apply Hs; by right|].
  eapply ingest_report_stale; [exact E1 | | done]. intros r' ->%list_elem_of_singleton. apply Hs. by left.
Qed.

Lemma refresh_report_stale db r db' key d :
  refresh_report clocks cluster session sequence db r = Ok db' -> stale d [r] ->
  db_deployments db !! key = Some d -> db_deployments db' !! key = Some d.
Proof.
  unfold refresh_report. set (id := default uuid_Nil _). intros E Hs Hd.
  destruct (GetClusterDeploymentForDeliveryStatus _ id cluster) as [[k current]|]; [|by injection E as <-].
  destruct (_ || _ || _ || _); [by injection E as <-|]. destruct (same_source_time _ _); [by injection E as <-|].
  destruct (deployment_Inventory current) as [stored|]; [|done]. apply res_bind_Ok in E as (written & Hw & [= <-]).
  destruct written as [[[key' updated] db1]|]; [|done]. apply UpdateObserved_Some in Hw as (d0 & -> & Ho).
  eapply observed_elsewhere; [exact Ho | done|]. intros Hid. cbn. apply Hs; [by left | done].
Qed.

Lemma refresh_stale key d l : forall db db',
  refreshDeploymentSourceTimes clocks cluster session sequence modern l db = Ok db' -> stale d l ->
  db_deployments db !! key = Some d -> db_deployments db' !! key = Some d.
Proof.
  unfold refreshDeploymentSourceTimes. destruct modern; [|by intros db db' [= <-]].
  induction l as [|r l IH]; cbn; intros db db' E Hs Hd; [by injection E as <-|].
  apply res_bind_Ok in E as (db1 & E1 & E2). eapply IH; [exact E2 | intros r' Hr'; apply Hs; by right|].
  eapply refresh_report_stale; [exact E1 | | done]. intros r' ->%list_elem_of_singleton. apply Hs. by left.
Qed.
End reports.

(** A report about other generations leaves the deployment as it is. *)
Lemma stale_report_ignored versionFile provenance semver_Parse clocks fault ready cluster connection session payload f key d :
  db_deployments (fleet_db f) !! key = Some d -> stale d (status_Deployments payload) ->
  db_deployments (fleet_db (ingested_fleet (Ingest versionFile provenance semver_Parse clocks fault ready cluster
    connection session payload f))) !! key = Some d.
Proof.
  intros Hd Hs.
  destruct (Ingest_cases versionFile provenance semver_Parse clocks fault ready cluster connection session payload f)
    as [[-> _]|(p & Et & -> & _)]; [done|].
  unfold ingest_tx in Et. apply res_bind_Ok in Et as (u & _ & Et). apply res_bind_Ok in Et as (found & _ & Et).
  destruct found as [[inventory changed]|]; [|by injection Et as <-].
  unfold ingest_accepted in Et. apply res_bind_Ok in Et as (f1 & E1 & Et).
  apply (observe_system_scoped _ _ _ _ 0) in E1 as [_ D1]. cbn in D1. rewrite <- D1 in Hd. destruct changed.
  - apply res_bind_Ok in Et as (p1 & E2 & Et). eapply ingest_reports_stale in E2; [|done..].
    destruct (0 <? _); [|by injection Et as <-]. apply res_bind_Ok in Et as (f2 & E3 & [= <-]). cbn.
    unfold AcknowledgeDeliveryAssignmentSnapshot in E3. repeat case_match; by simplify_eq.
  - apply res_bind_Ok in Et as (db & E2 & [= <-]). cbn. by eapply refresh_stale.
Qed.
(** ** What other writers do to a deployment *)

(** The deployment with this identifier is at its key, no younger than [g]. *)
Definition beyond (id : uuid) (key : uuid * uuid) (g : Z) db : Prop :=
  unique_ids db /\ exists d, db_deployments db !! key = Some d /\ deployment_ID d = id /\ g <= deployment_DesiredGeneration d.

(** Every row is still there with its identifier, at no older generation. *)
Definition raised (d d' : DeploymentRow) : Prop :=
  deployment_ID d' = deployment_ID d /\ deployment_DesiredGeneration d <= deployment_DesiredGeneration d'.

Definition ages db db' : Prop := rows (fun _ => raised) (db_deployments db) (db_deployments db').

#[local] Instance raised_preorder : PreOrder raised.
Proof. split; [done|]. intros a b c [E1 G1] [E2 G2]. split; [congruence | lia]. Qed.

Lemma ages_back db db' key d' :
  ages db db' -> db_deployments db' !! key = Some d' -> exists d, db_deployments db !! key = Some d /\ raised d d'.
Proof. intros Ha Hd. specialize (Ha key). rewrite Hd in Ha. inversion Ha as [d ? Hr E|]; subst. by exists d. Qed.

Lemma ages_beyond id key g db db' : ages db db' -> beyond id key g db -> beyond id key g db'.
Proof.
  intros Ha [Hu (d & Hd & Hid & Hg)]. split.
  - intros k k' e e' (e0 & He & Re & _)%(ages_back _ _ _ _ Ha) (e0' & He' & Re' & _)%(ages_back _ _ _ _ Ha) Heq.
    eapply Hu; [done..|congruence].
  - pose proof (Ha key) as Hk. rewrite Hd in Hk. inversion Hk as [? d' [Rid Rg] E E'|]; subst.
    exists d'. split_and!; [done | done | lia].
Qed.

Lemma ages_write now key d d' db db' :
  db_deployments db !! key = Some d -> raised d d' -> write_deployment now key d' db = Ok db' -> ages db db'.
Proof.
  intros Hd Hr E. unfold write_deployment in E. apply bump_all_Ok in E as [-> _]. cbn. by eapply rows_insert; [apply _|..].
Qed.

(** A new row has an identifier of its own. *)
Lemma insert_beyond now k e db db' id key g :
  db_deployments db !! k = None -> (forall k' e', db_deployments db !! k' = Some e' -> deployment_ID e' <> deployment_ID e) ->
  write_deployment now k e db = Ok db' -> beyond id key g db -> beyond id key g db'.
Proof.
  intros Hk Hfresh E [Hu (d & Hd & Hid & Hg)]. unfold write_deployment in E. apply bump_all_Ok in E as [-> _]. cbn. split.
  - intros k1 k2 e1 e2. cbn. intros [[<- <-]|[_ L1]]%lookup_insert_Some [[<- <-]|[_ L2]]%lookup_insert_Some Heq; [done|..].
    + by destruct (Hfresh _ _ L2).
    + by destruct (Hfresh _ _ L1).
    + by eapply Hu.
  - exists d. split; [|done]. cbn. rewrite lookup_insert_ne by congruence. done.
Qed.

(** One update of many deployments. *)
Lemma update_deployments_Ok g now l : (forall d, deployment_CurrentRolloutID (g d) = deployment_CurrentRolloutID d) ->
  forall db db', NoDup l.*1 -> (forall k d, (k, d) ∈ l -> db_deployments db !! k = Some d) ->
  update_deployments g now l db = Ok db' ->
  (forall k, db_deployments db' !! k = (if bool_decide (k ∈ l.*1) then g else id) <$> db_deployments db !! k) /\
  only_bumped now db db' /\ db' = with_rollouts (with_deployments db (db_deployments db')) (db_rollouts db').
Proof.
  intros Hg. unfold update_deployments. induction l as [|[k d] l IH]; cbn; intros db db' Hnd Hl E.
  { injection E as <-. split_and!; [|done | by destruct db]. intros k. rewrite option_fmap_id. done. }
  apply res_bind_Ok in E as (db1 & E1 & E2). apply NoDup_cons in Hnd as [Hk Hnd].
  pose proof (Hl k d ltac:(by left)) as Hd. apply (write_deployment_Ok _ _ d) in E1 as [Hdb1 Hb1]; [|done..].
  assert (Hdep : db_deployments db1 = <[k := g d]> (db_deployments db)) by (by rewrite Hdb1).
  destruct (IH db1 db' Hnd) as (Hrows & Hb & Hdb); [|done|].
  { intros k' d' Hin. rewrite Hdep, lookup_insert_ne; [apply Hl; by right|].
    intros <-. apply Hk. apply list_elem_of_fmap. by exists (k, d'). }
  split_and!.
  - intros k'. rewrite Hrows, Hdep. destruct (decide (k = k')) as [<-|Hne].
    + rewrite lookup_insert_eq, Hd, bool_decide_false, bool_decide_true by (done || by left). done.
    + rewrite lookup_insert_ne by done.
      by rewrite (bool_decide_ext (k' ∈ k :: l.*1) (k' ∈ l.*1)) by (rewrite elem_of_cons; naive_solver).
  - etrans; [|exact Hb]. intros id. eexists. split; [|apply Hb1]. by destruct (bool_decide _).
  - rewrite Hdb. cbn. rewrite Hdb1. done.
Qed.

Lemma live_elem target db k d :
  (k, d) ∈ live_deployments target db <-> db_deployments db !! k = Some d /\ k.1 = target /\ deployment_Phase d <> "removed".
Proof.
  unfold live_deployments. rewrite list_elem_of_In, List.filter_In, <- list_elem_of_In, elem_of_map_to_list. cbn.
  rewrite andb_true_iff, negb_true_iff, bool_decide_eq_true, bool_decide_eq_false. done.
Qed.

Lemma live_NoDup target db : NoDup (live_deployments target db).*1.
Proof.
  unfold live_deployments. pose proof (NoDup_fst_map_to_list (db_deployments db)) as Hn.
  induction (map_to_list (db_deployments db)) as [|[k d] l IH]; cbn in *; [constructor|].
  apply NoDup_cons in Hn as [Hk Hn]. destruct (_ && _); [|by apply IH]. cbn. apply NoDup_cons. split; [|by apply IH].
  intros (p & -> & Hp)%list_elem_of_fmap. apply Hk, list_elem_of_fmap. exists p. split; [done|].
  apply list_elem_of_In, List.filter_In in Hp as [Hp _]. by apply list_elem_of_In.
Qed.

(** The deployments of a target that are not removed change, the others stay. *)
Lemma update_live_Ok g now target db db' :
  (forall d, deployment_CurrentRolloutID (g d) = deployment_CurrentRolloutID d) ->
  update_deployments g now (live_deployments target db) db = Ok db' ->
  (forall k, db_deployments db' !! k =
     (fun d => if (k.1 == target) && (deployment_Phase d != "removed") then g d else d) <$> db_deployments db !! k) /\
  only_bumped now db db' /\ db' = with_rollouts (with_deployments db (db_deployments db')) (db_rollouts db').
Proof.
  intros Hg E. apply update_deployments_Ok in E as (Hr & Hrest); [|done | apply live_NoDup | by intros k d [? _]%live_elem].
  split; [|exact Hrest]. intros k. rewrite Hr. destruct (db_deployments db !! k) as [d|] eqn:Hd; [|done]. cbn. f_equal.
  destruct (_ && _) eqn:Ec.
  - bool_props. rewrite bool_decide_true; [done|]. apply list_elem_of_fmap. exists (k, d). split; [done|].
    apply live_elem. split_and!; done.
  - rewrite bool_decide_false; [done|]. intros ([k' d'] & -> & (Hd' & Ht & Hp)%live_elem)%list_elem_of_fmap. cbn in *.
    rewrite Hd in Hd'. injection Hd' as <-. rewrite bool_decide_true, bool_decide_false in Ec by done. done.
Qed.

Lemma update_live_ages g now target db db' :
  (forall d, deployment_CurrentRolloutID (g d) = deployment_CurrentRolloutID d /\ raised d (g d)) ->
  update_deployments g now (live_deployments target db) db = Ok db' -> ages db db'.
Proof.
  intros Hg E. apply update_live_Ok in E as [Hr _]; [|apply Hg]. intros k. rewrite Hr.
  destruct (db_deployments db !! k); constructor. destruct (_ && _); [apply Hg | done].
Qed.

(** ** The system around a deployment

    Users act on deployments, delete targets and give them up, agents report,
    releases set what is desired, and other writers leave the deployments alone. *)

Inductive writes (f : Fleet) : Fleet -> Prop :=
  | writes_act draws fault request : writes f (with_db f (Act draws fault request (fleet_db f)).2)
  | writes_report versionFile provenance semver_Parse clocks fault ready cluster connection session payload :
      writes f (ingested_fleet (Ingest versionFile provenance semver_Parse clocks fault ready cluster connection session payload f))
  | writes_release target cluster d fresh now row db' :
      UpsertClusterDeploymentDesired (fleet_db f) target cluster d fresh now = Ok (row, db') ->
      (forall k e, db_deployments (fleet_db f) !! k = Some e -> deployment_ID e <> fresh) -> writes f (with_db f db')
  | writes_deletion params now row f' : RequestDeliveryTargetDeletionCAS f params now = Ok (row, f') -> writes f f'
  | writes_orphan params now t f' : MarkDeliveryTargetOrphaned f params now = Ok (t, f') -> writes f f'
  | writes_other f' : db_deployments (fleet_db f') = db_deployments (fleet_db f) ->
      keeps_receipts (db_keys (fleet_db f)) (db_keys (fleet_db f')) -> writes f f'.

Definition remembered (id : uuid) (key : uuid * uuid) (g : Z) f f' : Prop :=
  keeps_receipts (db_keys (fleet_db f)) (db_keys (fleet_db f')) /\ beyond id key g (fleet_db f').

Lemma remembered_ages id key g f f' :
  beyond id key g (fleet_db f) -> ages (fleet_db f) (fleet_db f') ->
  keeps_receipts (db_keys (fleet_db f)) (db_keys (fleet_db f')) -> remembered id key g f f'.
Proof. intros Hb Ha Hk. split; [done | by eapply ages_beyond]. Qed.

Lemma write_deployment_keys now key d db db' : write_deployment now key d db = Ok db' -> db_keys db' = db_keys db.
Proof. unfold write_deployment. by intros [-> _]%bump_all_Ok. Qed.

Lemma deployed_ages draws request db result db' d action eventType :
  deployed draws request db result db' d action eventType -> ages db db'.
Proof.
  intros Hd. unfold ages. rewrite (deployed_deployments _ _ _ _ _ _ _ _ Hd). eapply rows_insert; [apply _ | apply Hd|].
  rewrite (deployed_row _ _ _ _ _ _ _ _ Hd). split; [done | cbn; lia].
Qed.

Lemma release_remembered id key g f target cluster d fresh now row db' :
  beyond id key g (fleet_db f) -> UpsertClusterDeploymentDesired (fleet_db f) target cluster d fresh now = Ok (row, db') ->
  (forall k e, db_deployments (fleet_db f) !! k = Some e -> deployment_ID e <> fresh) ->
  remembered id key g f (with_db f db').
Proof.
  intros Hb E Hfresh. unfold UpsertClusterDeploymentDesired in E. apply res_bind_Ok in E as (u & Hg & E).
  apply res_bind_Ok in E as (db1 & Hw & [= <- <-]). split; [cbn; rewrite (write_deployment_keys _ _ _ _ _ Hw); apply keeps_receipts_refl|].
  cbn. destruct (db_deployments (fleet_db f) !! (target, cluster)) as [e|] eqn:He.
  - eapply ages_beyond; [|exact Hb]. eapply ages_write; [exact He| |exact Hw]. res_inv. bool_props. split; [done | cbn; lia].
  - exact (insert_beyond _ _ (upserted fresh d None) _ _ _ _ _ He Hfresh Hw Hb).
Qed.

Lemma target_update_remembered id key g f h now target db' t :
  (forall d, deployment_CurrentRolloutID (h d) = deployment_CurrentRolloutID d /\ raised d (h d)) ->
  beyond id key g (fleet_db f) -> update_deployments h now (live_deployments target (fleet_db f)) (fleet_db f) = Ok db' ->
  remembered id key g f (with_target (with_db f db') target t).
Proof.
  intros Hh Hb E. apply remembered_ages; [done | cbn; by eapply update_live_ages|]. cbn.
  apply update_live_Ok in E as (_ & _ & ->); [apply keeps_receipts_refl | apply Hh].
Qed.

Lemma writes_remembered id key g f f' : beyond id key g (fleet_db f) -> writes f f' -> remembered id key g f f'.
Proof.
  intros Hb [draws fault request|vf pr sp clocks fault ready cluster connection session payload
            |target cluster d fresh now row db' E Hfresh|params now row f1 E|params now t f1 E|f1 Hd Hk].
  - assert (Hcommit : forall result db', deploy_tx draws request (fleet_db f) = Ok (Commits result db') ->
      remembered id key g f (with_db f db')).
    { intros result db' (d & a & e & c & Hdep & _ & _ & Hk & _)%deploy_commits.
      apply remembered_ages; [done | by eapply deployed_ages | done]. }
    assert (Hsame : remembered id key g f (with_db f (fleet_db f))) by (split; [apply keeps_receipts_refl | done]).
    unfold DeploymentControl.Act. destruct fault, (deploy_tx draws request (fleet_db f)) as [[r|result db']|] eqn:E; cbn;
      first [exact Hsame | by eapply Hcommit].
  - destruct (Ingest_cases vf pr sp clocks fault ready cluster connection session payload f) as [[-> _]|(p & Et & -> & _)];
      [split; [apply keeps_receipts_refl | done]|].
    apply ingest_tx_scoped in Et as S; [|exact (proj1 Hb)]. apply remembered_ages; [done| |].
    + intros k. destruct (scoped_deployments _ _ _ _ S k) as [e e' Hr|]; constructor.
      split; [by eapply reported_id|]. apply reported_desired in Hr. unfold desired_columns in Hr. simplify_eq. lia.
    + exact (keeps_keys _ _ (scoped_keeps _ _ _ _ S)).
  - by eapply release_remembered.
  - unfold RequestDeliveryTargetDeletionCAS in E. apply res_bind_Ok in E as (t & _ & E). apply res_bind_Ok in E as (u1 & _ & E).
    apply res_bind_Ok in E as (u2 & _ & E). apply res_bind_Ok in E as (db' & Hu & [= _ <-]).
    eapply target_update_remembered; [|done..]. intros d. split; [done|]. split; [done | cbn; lia].
  - unfold MarkDeliveryTargetOrphaned in E. apply res_bind_Ok in E as (t0 & _ & E). apply res_bind_Ok in E as (db' & Hu & [= _ <-]).
    eapply target_update_remembered; [|done..]. intros d. split; [done|]. split; [done | cbn; lia].
  - apply remembered_ages; [done| |done]. intros k. rewrite Hd. by destruct (db_deployments _ !! k); constructor.
Qed.

Lemma run_remembered id key g f f' : beyond id key g (fleet_db f) -> rtc writes f f' -> remembered id key g f f'.
Proof.
  intros Hb Hr. induction Hr as [f|f1 f2 f3 Hw _ IH]; [split; [apply keeps_receipts_refl | done]|].
  destruct (writes_remembered _ _ _ _ _ Hb Hw) as [Hk Hb2]. destruct (IH Hb2) as [Hk3 Hb3].
  split; [by eapply keeps_receipts_trans | done].
Qed.

(** ** When an action commits *)

Record ready (draws : Draws) (request : Request) db (key : uuid * uuid) (d : DeploymentRow) (action eventType : string)
    (claim : ClaimRequest) : Prop := {
  ready_input : prepare_deploy request = Ok (action, eventType, claim);
  ready_claim : incomplete claim = false;
  ready_key : db_keys db !! (claim_scope claim, request_IdempotencyKey claim) ≫= key_OperationID = None;
  ready_row : deployment_by_id db (deploy_DeploymentID request) = Some (key, d);
  ready_project : db_targets db !! key.1 = Some (deploy_ProjectID request);
  ready_generation : deployment_DesiredGeneration d = deploy_ExpectedGeneration request;
  ready_bounded : deploy_ExpectedGeneration request < MaxInt64;
  ready_reason : varchar 96 (deploy_reason request) = true;
  ready_rollout : forall id row, db_rollouts db !! id = Some row ->
    row_RuntimeGeneration row + (if bool_decide (deployment_CurrentRolloutID d = Some id) then 1 else 0) <= MaxInt64;
  ready_audit : is_ok (RecordIntent (db_audit db) (audited_deployment (deploy_Audit request) key
    (transitioned_deployment action d))) = true;
  ready_event : draw_eventID draws <> uuid_Nil;
}.

Lemma Transition_ready db action id key d generation now :
  deployment_by_id db id = Some (key, d) -> deployment_DesiredGeneration d = generation -> generation < MaxInt64 ->
  (forall r row, db_rollouts db !! r = Some row ->
    row_RuntimeGeneration row + (if bool_decide (deployment_CurrentRolloutID d = Some r) then 1 else 0) <= MaxInt64) ->
  exists db', TransitionClusterDeploymentCAS db action id generation now = Ok (Some (key, transitioned_deployment action d, db')) /\
    db' = with_rollouts (with_deployments db (<[key := transitioned_deployment action d]> (db_deployments db))) (db_rollouts db').
Proof.
  intros Hd Hg Hb Hfit. pose proof Hd as [Hrow _]%deployment_by_id_Some.
  destruct (bump_all_fits now (deployment_rollouts (db_deployments db !! key) (Some (transitioned_deployment action d)))
    (with_deployments db (<[key := transitioned_deployment action d]> (db_deployments db)))) as [db' Hw].
  { intros r row Hr. rewrite Hrow, deployment_rollouts_same by done. by apply Hfit. }
  exists db'. split; [|by apply bump_all_Ok in Hw as [? _]].
  unfold TransitionClusterDeploymentCAS. rewrite Hd, Hg, Z.eqb_refl, (proj2 (Z.leb_gt _ _)) by lia. cbn [fail_if mbind res_bind].
  unfold write_deployment. rewrite Hw. done.
Qed.

Lemma deploymentURL_nonempty a b : deploymentURL a b <> "".
Proof. done. Qed.

Lemma ready_deploys draws request db key d action eventType claim :
  ready draws request db key d action eventType claim ->
  exists result db', deploy_tx draws request db = Ok (Commits result db').
Proof.
  intros Hr. pose proof (ready_input _ _ _ _ _ _ _ _ Hr) as Hp.
  destruct (prepare_deploy_Ok _ _ _ _ Hp) as (_ & _ & _ & Hv & _).
  set (receipt := NewReceipt (draw_eventID draws) ("deployment." +:+ deploy_Action request) "cluster_deployment"
    (deploy_DeploymentID request) (deploy_ProjectID request)
    (deploymentURL (deploy_DeploymentID request) (deploy_ProjectID request)) (draw_now draws 1)).
  destruct (ClaimKey_free (db_keys db) claim receipt) as (c & keys1 & keys2 & Hk & Hc & Ha);
    [by apply Hr | done | by apply Hr | by apply Hr | apply deploymentURL_nonempty |].
  destruct (is_ok_Ok _ (ready_audit _ _ _ _ _ _ _ _ Hr)) as [outbox Ho].
  destruct (Transition_ready (with_keys db keys1) action (deploy_DeploymentID request) key d
    (deploy_ExpectedGeneration request) (draw_dbnow draws)) as (db2 & Ht & Hdb2); [apply Hr..|].
  unfold DeploymentControl.deploy_tx. rewrite Hp. cbn [mbind res_bind]. rewrite Hk. cbn [mbind res_bind]. rewrite Hc.
  rewrite (proj2 (GetForAction_Ok (with_keys db keys1) _ _ key d)) by (split; apply Hr). cbn [mbind res_bind].
  rewrite (ready_generation _ _ _ _ _ _ _ _ Hr), Z.eqb_refl. cbn [negb fail_if mbind res_bind].
  rewrite Ht. cbn [mbind res_bind]. rewrite (ready_reason _ _ _ _ _ _ _ _ Hr). cbn [negb fail_if mbind res_bind].
  assert (Hb : forall e, db_audit (CreateClusterDeploymentEvent db2 e) = db_audit db) by (intros e; cbn; by rewrite Hdb2).
  rewrite Hb, Ho. cbn [mbind res_bind]. fold receipt. rewrite Ha. cbn. by eexists _, _.
Qed.

Lemma deploy_replays draws request db action eventType claim receipt :
  prepare_deploy request = Ok (action, eventType, claim) -> incomplete claim = false ->
  settled (db_keys db) claim receipt -> receipt_for claim receipt ->
  deploy_tx draws request db = Ok (Replayed receipt).
Proof.
  intros Hp Hi Hs Hr. unfold DeploymentControl.deploy_tx. rewrite Hp. cbn [mbind res_bind].
  destruct (prepare_deploy_Ok _ _ _ _ Hp) as (_ & _ & _ & Hv & _).
  destruct (ClaimKey_replay _ _ _ Hi Hv Hs Hr) as (c & -> & Hc). cbn [mbind res_bind]. by rewrite Hc.
Qed.

Lemma deploy_replayed draws request db receipt :
  deploy_tx draws request db = Ok (Replayed receipt) ->
  exists action eventType claim row, prepare_deploy request = Ok (action, eventType, claim) /\
    db_keys db !! (claim_scope claim, request_IdempotencyKey claim) = Some row /\
    key_OperationID row <> None /\ receipt_for claim receipt /\
    key_Response row = Some {| persisted_RequestDigest := request_RequestDigest claim; persisted_Receipt := receipt |}.
Proof.
  unfold DeploymentControl.deploy_tx. intros E. apply res_bind_Ok in E as ([[action eventType] claim] & Hp & E).
  apply res_bind_Ok in E as ([c keys] & Hk & E). destruct (claim_Receipt c) as [r|] eqn:Hc.
  - injection E as ->. destruct (ClaimKey_replayed _ _ _ _ _ Hk Hc) as (row & Hrow). by exists action, eventType, claim, row.
  - apply res_bind_Ok in E as ([k d] & _ & E). apply res_bind_Ok in E as (u & _ & E).
    apply res_bind_Ok in E as ([[[key updated] db2]|] & _ & E); [|done]. apply res_bind_Ok in E as (u' & _ & E).
    apply res_bind_Ok in E as (outbox & _ & E). by apply res_bind_Ok in E as (keys' & _ & E).
Qed.

(** The answer to a retry of a committed action. *)
Definition retried_answer (fault : Fault) (receipt : Receipt) : Answer :=
  match fault with Works => AnswerReplay receipt | Fails e | ReplyLost e => AnswerError e end.

(** A deployment past a generation takes no action at it. *)
Lemma generation_passed id key g db draws request :
  beyond id key g db -> deploy_DeploymentID request = id -> deploy_ExpectedGeneration request < g ->
  forall result db', deploy_tx draws request db <> Ok (Commits result db').
Proof.
  intros [Hu (d & Hd & Hid & Hg)] Hreq Hlt result db' (e & a & t & c & He & _)%deploy_commits.
  assert (deployed_Key result = key) as Hk.
  { eapply Hu; [apply He | exact Hd|]. rewrite (deployed_id _ _ _ _ _ _ _ _ He). congruence. }
  pose proof (deployed_before _ _ _ _ _ _ _ _ He) as Hb. rewrite Hk, Hd in Hb. injection Hb as <-.
  pose proof (deployed_generation _ _ _ _ _ _ _ _ He). lia.
Qed.

Lemma deployed_beyond draws request db result db' d action eventType :
  unique_ids db -> deployed draws request db result db' d action eventType ->
  beyond (deploy_DeploymentID request) (deployed_Key result) (deploy_ExpectedGeneration request + 1) db'.
Proof.
  intros Hu Hd. pose proof (deployed_before _ _ _ _ _ _ _ _ Hd) as Hrow. pose proof (deployed_id _ _ _ _ _ _ _ _ Hd) as Hid.
  pose proof (deployed_generation _ _ _ _ _ _ _ _ Hd) as Hg. split.
  - apply (ages_beyond (deployment_ID d) (deployed_Key result) (deployment_DesiredGeneration d) db);
      [by eapply deployed_ages | split; [done | by exists d]].
  - exists (deployed_Row result). rewrite (deployed_deployments _ _ _ _ _ _ _ _ Hd), lookup_insert_eq.
    rewrite (deployed_row _ _ _ _ _ _ _ _ Hd). cbn. split_and!; [done | done | lia].
Qed.

(** C15: user control of a deployment is exactly-once, fenced by its generation, and
    outdates what was reported.  An action that commits found the deployment in the
    caller's project and at the generation the caller saw; it moves exactly that
    deployment to the next generation with the action asked for, pending and without
    a trace of earlier reports, appends one event and tells the rollout it belongs
    to; nothing else changes but audit and key.  Whatever actions, reports, releases,
    deletions and other writers follow, repeating the request changes nothing and
    returns the receipt of the commit, no action made against this or an older
    generation commits any more, and a report that says of the deployment only what
    it knows of such generations leaves its row as it is.  A replay returns the receipt
    its key holds for this very request.  An error means that some condition of
    committing did not hold. *)
Theorem deployment_action_once draws request f :
  unique_ids (fleet_db f) ->
  match deploy_tx draws request (fleet_db f) with
  | Ok (Commits result db1) =>
      (exists d action eventType, deployed draws request (fleet_db f) result db1 d action eventType) /\
      forall f2, rtc writes (with_db f db1) f2 ->
        (forall draws' fault, Act draws' fault request (fleet_db f2) =
           (retried_answer fault (deployed_Receipt result), fleet_db f2)) /\
        (forall draws' request' result' db', deploy_DeploymentID request' = deploy_DeploymentID request ->
           deploy_ExpectedGeneration request' <= deploy_ExpectedGeneration request ->
           deploy_tx draws' request' (fleet_db f2) <> Ok (Commits result' db')) /\
        (forall versionFile provenance semver_Parse clocks fault ready cluster connection session payload,
           (forall r, r ∈ status_Deployments payload ->
              default uuid_Nil (uuid_Parse (report_DeploymentID r)) = deploy_DeploymentID request ->
              report_Generation r <= deploy_ExpectedGeneration request) ->
           db_deployments (fleet_db (ingested_fleet (Ingest versionFile provenance semver_Parse clocks fault ready
             cluster connection session payload f2))) !! deployed_Key result =
           db_deployments (fleet_db f2) !! deployed_Key result)
  | Ok (Replayed receipt) =>
      exists action eventType claim row, prepare_deploy request = Ok (action, eventType, claim) /\
        db_keys (fleet_db f) !! (claim_scope claim, request_IdempotencyKey claim) = Some row /\
        key_OperationID row <> None /\ receipt_for claim receipt /\
        key_Response row = Some {| persisted_RequestDigest := request_RequestDigest claim; persisted_Receipt := receipt |}
  | Err _ => forall key d action eventType claim, ~ ready draws request (fleet_db f) key d action eventType claim
  end.
Proof.
  intros Hu. destruct (deploy_tx draws request (fleet_db f)) as [[receipt|result db1]|e] eqn:Hact.
  - by eapply deploy_replayed.
  - destruct (deploy_commits _ _ _ _ _ Hact) as (d & action & eventType & claim & Hd & Hp & Hi & _ & Hs & Hr).
    split; [by exists d, action, eventType|]. intros f2 Hrun.
    pose proof (deployed_beyond _ _ _ _ _ _ _ _ Hu Hd) as Hb.
    destruct (run_remembered _ _ _ (with_db f db1) f2 Hb Hrun) as [Hk Hb2]. split_and!.
    + intros draws' fault. unfold DeploymentControl.Act. erewrite deploy_replays; [by destruct fault | done | done | | done].
      by eapply settled_kept.
    + intros draws' request' result' db' Hid Hle. eapply generation_passed; [exact Hb2 | done | lia].
    + intros vf pr sp clocks fault ready cluster connection session payload Hold.
      destruct Hb2 as [_ (d2 & Hd2 & Hid2 & Hg2)]. rewrite Hd2. apply stale_report_ignored; [done|].
      intros r Hr' Hid. rewrite Hid2 in Hid. specialize (Hold r Hr' Hid). lia.
  - intros key d action eventType claim Hr. destruct (ready_deploys _ _ _ _ _ _ _ _ Hr) as (r & db' & E). congruence.
Qed.

(** ** Deletion of a target *)

(** What the first statement found and left: an active target at the version the
    caller saw; every live deployment of it is to be deleted, at its next
    generation, and nothing else changed but what their rollouts are told. *)
Record marked (params : DeletionParams) (now : time) f (row : DeletionRow) f1 (t : TargetDeletion) : Prop := {
  marked_target : fleet_targets f !! params_ID params = Some t;
  marked_project : db_targets (fleet_db f) !! params_ID params = Some (params_ProjectID params);
  marked_active : deletion_State t = "active";
  marked_version : deletion_ResourceVersion t = params_ExpectedVersion params;
  marked_row : deleting_Target row = {| deletion_State := "deleting"; deletion_Generation := deletion_Generation t + 1;
                                        deletion_ResourceVersion := params_ExpectedVersion params + 1 |};
  marked_count : deleting_DeploymentCount row = len (live_deployments (params_ID params) (fleet_db f));
  marked_targets : fleet_targets f1 = <[params_ID params := deleting_Target row]> (fleet_targets f);
  marked_deployments : forall k, db_deployments (fleet_db f1) !! k =
    (fun d => if (k.1 == params_ID params) && (deployment_Phase d != "removed") then deleting_deployment d else d)
      <$> db_deployments (fleet_db f) !! k;
  marked_rollouts : only_bumped now (fleet_db f) (fleet_db f1);
  marked_rest : f1 = with_target (with_db f (with_rollouts (with_deployments (fleet_db f) (db_deployments (fleet_db f1)))
    (db_rollouts (fleet_db f1)))) (params_ID params) (deleting_Target row);
}.

Lemma target_cas_Ok f params state t :
  target_cas f params state = Ok t ->
  fleet_targets f !! params_ID params = Some t /\ db_targets (fleet_db f) !! params_ID params = Some (params_ProjectID params) /\
  deletion_ResourceVersion t = params_ExpectedVersion params /\ deletion_State t = state.
Proof.
  unfold target_cas. destruct (fleet_targets f !! params_ID params) as [t'|]; [|done].
  destruct (_ && _) eqn:Ec; [|done]. intros E. res_inv. simplify_eq. bool_props. done.
Qed.

Lemma RequestDeletionCAS_Ok f params now row f1 :
  RequestDeliveryTargetDeletionCAS f params now = Ok (row, f1) -> exists t, marked params now f row f1 t.
Proof.
  unfold RequestDeliveryTargetDeletionCAS. intros E. apply res_bind_Ok in E as (t & Ht & E).
  apply res_bind_Ok in E as (u1 & _ & E). apply res_bind_Ok in E as (u2 & _ & E). apply res_bind_Ok in E as (db & Hu & [= <- <-]).
  apply target_cas_Ok in Ht as (Ht & Hp & Hv & Hs). apply update_live_Ok in Hu as (Hd & Hb & Hdb); [|done].
  exists t. split; cbn; try done; [by rewrite Hv | by rewrite <- Hdb, Hv].
Qed.

(** Nothing of the target is deployed any more. *)
Definition all_removed (target : uuid) db : Prop :=
  forall k d, db_deployments db !! k = Some d -> k.1 = target -> deployment_Phase d = "removed".

Lemma Finalize_cases f target f' t :
  FinalizeDeliveryTargetDeletionIfComplete f target = Ok f' ->
  fleet_targets f !! target = Some t -> deletion_State t = "deleting" ->
  all_removed target (fleet_db f) /\
    f' = with_target f target {| deletion_State := "deleted"; deletion_Generation := deletion_Generation t;
                                 deletion_ResourceVersion := deletion_ResourceVersion t + 1 |} \/
  ~ all_removed target (fleet_db f) /\ f' = f.
Proof.
  unfold FinalizeDeliveryTargetDeletionIfComplete. intros E Ht Hs. rewrite Ht, Hs, bool_decide_true in E by done. cbn [andb] in E.
  destruct (forallb _ _) eqn:Ea.
  - left. apply res_bind_Ok in E as (u & _ & [= <-]). split; [|done]. intros k d Hd Hk.
    rewrite forallb_forall in Ea. specialize (Ea (k, d)). cbn in Ea. rewrite <- list_elem_of_In, elem_of_map_to_list in Ea.
    specialize (Ea Hd). rewrite bool_decide_true in Ea by done. cbn in Ea. by bool_props.
  - right. injection E as <-. split; [|done]. intros Hall. apply not_true_iff_false in Ea. apply Ea, forallb_forall.
    intros [k d] Hin. cbn. rewrite <- list_elem_of_In, elem_of_map_to_list in Hin.
    destruct (bool_decide (k.1 = target)) eqn:Ek; [|done]. bool_props. cbn. apply bool_decide_eq_true. by eapply Hall.
Qed.

Definition no_rollouts (target : uuid) db : Prop := forall id row, db_rollouts db !! id = Some row -> row_TargetID row <> target.

Lemma CountDeliveryRollouts_zero db project target :
  db_targets db !! target = Some project -> CountDeliveryRollouts db project target = 0 <-> no_rollouts target db.
Proof.
  intros Ht. unfold CountDeliveryRollouts. rewrite bool_decide_true by done. unfold len. split.
  - intros Hz id row Hrow Heq. assert (Hin : (id, row) ∈ List.filter (fun p => row_TargetID p.2 == target) (map_to_list (db_rollouts db))).
    { apply list_elem_of_In, List.filter_In. rewrite <- list_elem_of_In, elem_of_map_to_list. cbn. by rewrite bool_decide_true. }
    destruct (List.filter _ _); [by apply not_elem_of_nil in Hin | cbn in Hz; lia].
  - intros Hno. destruct (List.filter _ _) as [|[id row] l] eqn:Ef; [done|].
    assert (Hin : (id, row) ∈ List.filter (fun p => row_TargetID p.2 == target) (map_to_list (db_rollouts db))) by (rewrite Ef; by left).
    apply list_elem_of_In, List.filter_In in Hin as [Hin Heq]. cbn in Heq. bool_props.
    by destruct (Hno id row ltac:(by apply elem_of_map_to_list, list_elem_of_In)).
Qed.

(** The row of the target is locked by the first statement: no other transaction
    changes it before this one ends. *)
Record locks (target : uuid) (others : nat -> Fleet -> Fleet) : Prop := {
  locks_target : forall n g, fleet_targets (others n g) !! target = fleet_targets g !! target;
  locks_project : forall n g, db_targets (fleet_db (others n g)) !! target = db_targets (fleet_db g) !! target;
}.

(** How a request ends after its first statement: at once only when nothing was live,
    no rollout of the target exists and nothing has been deployed since. *)
Definition finished (others : nat -> Fleet -> Fleet) (params : DeletionParams) (f f1 f' : Fleet) (row : DeletionRow)
    (t : TargetDeletion) : Prop :=
  let f2 := others 0%nat f1 in
  let f3 := others 1%nat f2 in
  let at_once := live_deployments (params_ID params) (fleet_db f) = [] /\ no_rollouts (params_ID params) (fleet_db f2) /\
                 all_removed (params_ID params) (fleet_db f3) in
  fleet_targets f' !! params_ID params = Some (deleting_Target row) /\
  deletion_Generation (deleting_Target row) = deletion_Generation t + 1 /\
  (f' = f1 \/ f' = f2 \/ f' = f3 \/ f' = with_target f3 (params_ID params) (deleting_Target row)) /\
  (at_once -> deletion_State (deleting_Target row) = "deleted" /\
     deletion_ResourceVersion (deleting_Target row) = params_ExpectedVersion params + 2) /\
  (~ at_once -> deletion_State (deleting_Target row) = "deleting" /\
     deletion_ResourceVersion (deleting_Target row) = params_ExpectedVersion params + 1).

Lemma RequestTargetDeletion_Ok others params now f row f' :
  locks (params_ID params) others -> RequestTargetDeletion others params now f = Ok (row, f') ->
  exists f1 row1 t, marked params now f row1 f1 t /\ finished others params f f1 f' row t.
Proof.
  intros [L1 L2] E. unfold RequestTargetDeletion in E. apply res_bind_Ok in E as ([row1 f1] & H1 & E).
  apply RequestDeletionCAS_Ok in H1 as [t Hm]. exists f1, row1, t. split; [done|]. unfold finished.
  pose proof (marked_row _ _ _ _ _ _ Hm) as Hrow. pose proof (marked_count _ _ _ _ _ _ Hm) as Hcount.
  assert (Ht1 : fleet_targets f1 !! params_ID params = Some (deleting_Target row1)).
  { rewrite (marked_targets _ _ _ _ _ _ Hm). apply lookup_insert_eq. }
  assert (Hp1 : db_targets (fleet_db f1) !! params_ID params = Some (params_ProjectID params)).
  { rewrite (marked_rest _ _ _ _ _ _ Hm). cbn. apply Hm. }
  destruct (deleting_DeploymentCount row1 != 0) eqn:Ec; bool_props.
  { injection E as <- <-. rewrite Hrow. cbn. split_and!; [by rewrite <- Hrow | done | by left | | done].
    intros (Hl & _). rewrite Hcount, Hl in Ec. by destruct Ec. }
  rewrite Ec in Hcount. symmetry in Hcount. apply len_nil_iff in Hcount.
  pose proof (CountDeliveryRollouts_zero (fleet_db (others 0%nat f1)) (params_ProjectID params) (params_ID params)
    ltac:(by rewrite L2)) as Hz.
  destruct (CountDeliveryRollouts _ _ _ != 0) eqn:Er; bool_props.
  { injection E as <- <-. rewrite L1, Hrow. cbn. split_and!; [by rewrite Ht1, Hrow | done | by right; left | | done].
    intros (_ & Hno & _). by apply Hz in Hno. }
  apply Hz in Er. apply res_bind_Ok in E as (f4 & Hf & [= <- <-]).
  assert (Ht3 : fleet_targets (others 1%nat (others 0%nat f1)) !! params_ID params = Some (deleting_Target row1)) by (by rewrite !L1).
  destruct (Finalize_cases _ _ _ _ Hf Ht3 ltac:(by rewrite Hrow)) as [[Hall ->]|[Hnot ->]]; cbn.
  - rewrite lookup_insert_eq, Ht3, bool_decide_false; cycle 1.
    { intros [= Hx]. apply (f_equal deletion_State) in Hx. rewrite Hrow in Hx. done. }
    rewrite Hrow. cbn. split_and!; [done | done | by do 3 right | intros _; split; [done | lia] |]. intros Hno. by destruct Hno.
  - rewrite Ht3, bool_decide_true by done. rewrite Hrow. cbn. split_and!; [done | done | by do 2 right; left | | done].
    by intros (_ & _ & ?).
Qed.

Lemma claim_delete_Ok request claim :
  claim_delete request = Ok claim ->
  request_ProjectID claim = params_ProjectID (delete_Params request) /\ request_Operation claim = "target.delete" /\
  request_Resource claim = "delivery_target" /\ request_TargetID claim = params_ID (delete_Params request).
Proof. unfold claim_delete. intros E. destruct (delete_ActorID request); [|done]. res_inv. by simplify_eq. Qed.

(** A receipt attached to a fresh claim settles it, whatever the table went through
    in between. *)
Lemma Attach_settled keys request claim keys1 keys2 receipt keys3 :
  ClaimKey keys request = Ok (claim, keys1) -> claim_Receipt claim = None ->
  Attach keys2 claim receipt = Ok keys3 -> settled keys3 request receipt.
Proof.
  intros Hc Hn Ha. destruct (ClaimKey_fresh _ _ _ _ Hc Hn) as (_ & -> & _).
  unfold Attach, AttachOperationIdempotencyKey in Ha. apply res_bind_Ok in Ha as (u & _ & Ha). cbn in Ha.
  destruct (keys2 !! _); [|done]. destruct (bool_decide _); [|done]. injection Ha as <-. unfold settled. apply lookup_insert_eq.
Qed.

Lemma ClaimKey_valid keys request claim keys' :
  ClaimKey keys request = Ok (claim, keys') -> ValidateKey (request_IdempotencyKey request) = Ok tt.
Proof.
  unfold ClaimKey. intros E. apply res_bind_Ok in E as (u & _ & E). apply res_bind_Ok in E as ([] & Hv & _). done.
Qed.

Lemma delete_replays others at_ now request f claim receipt :
  claim_delete request = Ok claim -> incomplete claim = false -> ValidateKey (request_IdempotencyKey claim) = Ok tt ->
  settled (db_keys (fleet_db f)) claim receipt -> receipt_for claim receipt ->
  delete_tx RecordIntent others at_ now request f = Ok (receipt, None).
Proof.
  intros Hp Hi Hv Hs Hr. unfold delete_tx. rewrite Hp. cbn [mbind res_bind].
  destruct (ClaimKey_replay _ _ _ Hi Hv Hs Hr) as (c & -> & Hc). cbn [mbind res_bind]. by rewrite Hc.
Qed.

End facts.
End DeploymentControlFacts.
