(* ===== verification/DeliveryLoop.v ===== *)
(** * The delivery loop

    Users, reconcilers and the writers of runtime state work on the same tables.
    This file interleaves them: claims and decisions of any number of
    reconcilers, committed user actions and approvals, actions on deployments and
    deletions of targets, reports of agents, and changes of connections, labels and
    deployments.  The fence orders them. *)

From Stdlib Require Import ZArith Lia.
From S2P Require Import Prelude Enums State SafeConv GoSort GoStrings External Validation Model Types.
From S2P Require Import Overrides RolloutTypes Planner PlannerFacts Scheduler SchedulerFacts SchedulerCorrect.
From S2P Require Import Maintenance AsyncOp DeliveryStore Control ControlFacts Reconciler ReconcilerFacts.
From S2P Require Import StatusIngest StatusIngestFacts DeploymentControl DeploymentControlFacts.
From stdpp Require Import base gmap strings list.
Import Model RolloutTypes Planner Scheduler AsyncOp DeliveryStore Control Reconciler ReconcilerFacts.

Open Scope Z_scope.

Module DeliveryLoop.

(** ** Leases under interleaving *)

(** From one table to the next the fence of a rollout goes up, or it stays and
    the lease stays or is given up. *)
Definition ebbs (row row' : RolloutRow) : Prop :=
  row_FencingGeneration row < row_FencingGeneration row' \/
  row_FencingGeneration row = row_FencingGeneration row' /\
  (row_LeaseExpiresAt row' = row_LeaseExpiresAt row \/ row_LeaseExpiresAt row' = None).

Definition tide {Outbox} (db db' : DB Outbox) : Prop :=
  forall id row, db_rollouts db !! id = Some row ->
    exists row', db_rollouts db' !! id = Some row' /\ ebbs row row'.

#[export] Instance tide_preorder {Outbox} : PreOrder (@tide Outbox).
Proof.
  split.
  - intros db id row Hrow. exists row. split; [done|]. right. by split; [|left].
  - intros db1 db2 db3 T1 T2 id row (row2 & (row3 & H3 & E3)%T2 & E2)%T1. exists row3. split; [done|].
    unfold ebbs in *. destruct E2 as [?|[? [?|?]]], E3 as [?|[? [?|?]]]; try (left; lia); right; split;
      try lia; (left; congruence) || (right; congruence).
Qed.

Lemma tide_same {Outbox} (db db' : DB Outbox) : db_rollouts db' = db_rollouts db -> tide db db'.
Proof. intros E id row Hrow. exists row. rewrite E. split; [done|]. right. by split; [|left]. Qed.

Lemma tide_bumped {Outbox} now (db db' : DB Outbox) :
  (forall id, exists n, 0 <= n /\ db_rollouts db' !! id = bumped now n <$> db_rollouts db !! id) -> tide db db'.
Proof.
  intros E id row Hrow. destruct (E id) as (n & Hn & Hr). rewrite Hrow in Hr. eexists. split; [exact Hr|].
  destruct (bumped_columns now n row Hn) as (_ & Bf & _ & _ & _ & Be). right. rewrite Bf, Be. by split; [|left].
Qed.

Lemma tide_insert {Outbox} (db db' : DB Outbox) id row row' :
  db_rollouts db !! id = Some row -> db_rollouts db' = <[id := row']> (db_rollouts db) -> ebbs row row' ->
  tide db db'.
Proof.
  intros Hrow E Hebb id' r Hr. rewrite E. destruct (decide (id = id')) as [<-|Hne].
  - rewrite lookup_insert_eq. exists row'. split; [done|]. congruence.
  - rewrite lookup_insert_ne by done. exists r. split; [done|]. right. by split; [|left].
Qed.

Lemma bump_all_tide {Outbox} now ids (db db1 db' : DB Outbox) :
  db_rollouts db1 = db_rollouts db -> bump_all now ids db1 = Ok db' -> tide db db'.
Proof.
  intros Hr [_ E]%bump_all_Ok. apply (tide_bumped now). intros id. exists (times id ids).
  split; [apply times_nonneg|]. by rewrite E, Hr.
Qed.

Section loop.
Context `{External} {Outbox : Type}.
Context (decodeStrict : string -> option FrozenRollout) (RecordIntent : Outbox -> Intent -> res Outbox).
#[local] Abbreviation DB := (DB Outbox).

(** What happened to the tables. *)
Inductive event :=
  | Claimed (row : RolloutRow)
  | Decided (claimed : RolloutRow)
  | Acted (request : ActionRequest)
  | Approved (request : ApprovalRequest)
  | Reported (cluster : uuid)
  | Observed.

Inductive step (db : DB) : event -> DB -> Prop :=
  | step_claim owner lease id now row db' :
      ClaimDeliveryRollout db owner lease id now = Ok (Some (row, db')) -> row_ID row = id ->
      step db (Claimed row) db'
  | step_decide draws owner claimed plan rows d now generation db' :
      applyDecision draws owner claimed plan rows d now generation db = Ok db' ->
      step db (Decided claimed) db'
  | step_act draws request result db' :
      act_tx decodeStrict RecordIntent draws request db = Ok (Commits result db') ->
      step db (Acted request) db'
  | step_approve draws request result db' :
      approve_tx decodeStrict RecordIntent draws request db = Ok (Commits result db') ->
      step db (Approved request) db'
  | step_report versionFile provenance semver_Parse clocks fault ready cluster connection session payload (f : StatusIngest.Fleet) :
      StatusIngest.fleet_db f = db -> StatusIngestFacts.unique_ids db ->
      step db (Reported cluster) (StatusIngest.fleet_db (StatusIngest.ingested_fleet
        (StatusIngest.Ingest versionFile provenance semver_Parse clocks fault ready cluster connection session payload f)))
  | step_connection now id row db' : write_connection now id row db = Ok db' -> step db Observed db'
  | step_labels now cluster labels db' : write_labels now cluster labels db = Ok db' -> step db Observed db'
  | step_deployment now key row db' : write_deployment now key row db = Ok db' -> step db Observed db'
  | step_deploy draws request result db' :
      DeploymentControl.deploy_tx RecordIntent draws request db = Ok (DeploymentControl.Commits result db') ->
      step db Observed db'
  | step_delete (f : StatusIngest.Fleet) params now row f' :
      StatusIngest.fleet_db f = db -> DeploymentControl.RequestDeliveryTargetDeletionCAS f params now = Ok (row, f') ->
      step db Observed (StatusIngest.fleet_db f').

Inductive run : DB -> list event -> DB -> Prop :=
  | run_nil db : run db [] db
  | run_cons db e db1 trace db2 : step db e db1 -> run db1 trace db2 -> run db (e :: trace) db2.

(** The events that take a rollout away from the holder of a claim. *)
Definition takes (id : uuid) (e : event) : Prop :=
  match e with
  | Claimed row => row_ID row = id
  | Decided claimed => row_ID claimed = id
  | Acted request => action_RolloutID request = id
  | Approved request => approve_RolloutID request = id /\ approve_Cohort request = -1
  | Reported _ | Observed => False
  end.

(** The claim at a fence is over. *)
Definition over (id : uuid) (fence : Z) (db : DB) : Prop :=
  exists row, db_rollouts db !! id = Some row /\
    (fence < row_FencingGeneration row \/
     row_FencingGeneration row = fence /\ row_LeaseExpiresAt row = None).

Lemma over_tide id fence db db' : tide db db' -> over id fence db -> over id fence db'.
Proof.
  intros T (row & (row' & Hrow' & Hebb)%T & Ho). exists row'. split; [done|]. unfold ebbs in Hebb.
  destruct Ho as [?|[? ?]], Hebb as [?|[? [?|?]]]; try (left; lia); right; (split; [lia | congruence]).
Qed.

(** A decision needs the claim it was made under. *)
Lemma applyDecision_over draws owner claimed plan rows d now generation (db db' : DB) :
  applyDecision draws owner claimed plan rows d now generation db = Ok db' ->
  ~ over (row_ID claimed) (row_FencingGeneration claimed) db.
Proof.
  unfold applyDecision, GetClaimedDeliveryRolloutForUpdate. intros E (row & Hrow & Ho). rewrite Hrow in E.
  unfold leased in E. destruct (_ && _) eqn:Eg; [|done]. bool_props.
  destruct Ho as [?|[_ Hnone]]; [lia|]. by rewrite Hnone in *.
Qed.

(** A decision gives the claim up and leaves the leases of the others. *)
Lemma applyDecision_tide draws owner claimed plan rows d now generation (db db' : DB) :
  applyDecision draws owner claimed plan rows d now generation db = Ok db' ->
  tide db db' /\ exists row', db_rollouts db' !! row_ID claimed = Some row' /\
    row_FencingGeneration row' = row_FencingGeneration claimed /\ row_LeaseExpiresAt row' = None.
Proof.
  unfold applyDecision. intros E. apply res_bind_Ok in E as (row & Hget & E).
  apply res_bind_Ok in E as (u & _ & E). apply res_bind_Ok in E as (db1 & E1 & E).
  apply res_bind_Ok in E as (db2 & E2 & E). apply res_bind_Ok in E as (db3 & E3 & E).
  apply res_bind_Ok in E as (db4 & E4 & [= <-]).
  unfold GetClaimedDeliveryRolloutForUpdate in Hget.
  destruct (db_rollouts db !! row_ID claimed) as [row'|] eqn:Hrow; [|done].
  destruct (leased row' owner (row_FencingGeneration claimed) _ && _) eqn:Eg; [|done]. injection Hget as ->.
  unfold leased in Eg. bool_props.
  assert (C : calm (draw_dbnow draws) db db2).
  { transitivity db1; (eapply res_foldl_calm; [|eassumption]);
      [by intros ? ? ? (? & _)%apply_transition_Ok | by intros ? ? ? (? & _)%apply_release_Ok]. }
  destruct (calm_row _ _ _ _ _ C Hrow) as (n & Hn & Hrow2).
  destruct (bumped_columns (draw_dbnow draws) n row Hn) as (_ & Bf & _).
  destruct (finish_Ok _ _ _ _ _ _ _ _ _ Hrow2 E3 E4) as (row4 & Hr4 & _ & _ & _ & Hf & _ & _ & Hexp & _).
  assert (T : tide db db4).
  { transitivity db2; [apply (tide_bumped _ _ _ (calm_rollouts _ _ _ C))|].
    eapply tide_insert; [exact Hrow2 | exact Hr4|]. right. split; [congruence | by right]. }
  split; [destruct (shouldWakeAgain _ _); [by apply (transitivity T), tide_same | done]|].
  exists row4. split; [|split; [congruence | done]].
  destruct (shouldWakeAgain _ _); cbn; by rewrite Hr4, lookup_insert_eq.
Qed.

(** The rollout is at that fence or past it. *)
Definition seen (id : uuid) (fence : Z) (db : DB) : Prop :=
  exists row, db_rollouts db !! id = Some row /\ fence <= row_FencingGeneration row.

Lemma seen_tide id fence db db' : tide db db' -> seen id fence db -> seen id fence db'.
Proof.
  intros T (row & (row' & Hrow' & Hebb)%T & Hle). exists row'. split; [done|].
  destruct Hebb as [?|[? _]]; lia.
Qed.

Lemma raised db db' id row row' fence :
  db_rollouts db !! id = Some row -> db_rollouts db' = <[id := row']> (db_rollouts db) ->
  row_FencingGeneration row' = row_FencingGeneration row + 1 ->
  tide db db' /\ (seen id fence db -> over id fence db').
Proof.
  intros Hrow E Hf. split; [eapply tide_insert; [done..|left; lia]|].
  intros (r & Hr & Hle). exists row'. rewrite E, lookup_insert_eq. split; [done|]. left.
  rewrite Hrow in Hr. injection Hr as <-. lia.
Qed.

(** Every step keeps the tide; one that takes a rollout ends the claims on it. *)
Lemma step_tide db e db' id fence :
  step db e db' -> tide db db' /\ (takes id e -> seen id fence db -> over id fence db').
Proof.
  intros [owner lease id' now row d Hc Hid|draws owner claimed plan rows d now generation d' Hd
         |draws request result d Ha|draws request result d Ha|v pr sv clocks fault ready c conn session payload f Hdb Hu
         |now id' row d Hw|now c l d Hw|now key row d Hw|draws request result d Hd|f params now row f' Hdb Hd].
  - apply ClaimDeliveryRollout_Some in Hc as (row0 & Hrow & _ & _ & -> & ->).
    destruct (raised db (with_rollouts db (<[id' := claimed_row owner lease now row0]> (db_rollouts db)))
      id' row0 (claimed_row owner lease now row0) fence Hrow eq_refl eq_refl) as [T O].
    split; [done|]. cbn [takes]. intros <-. by rewrite Hid.
  - destruct (applyDecision_tide _ _ _ _ _ _ _ _ _ _ Hd) as (T & r & Hr & Hf & Hn). split; [done|].
    cbn. intros <- Hs. destruct (seen_tide _ _ _ _ T Hs) as (r' & Hr' & Hle). rewrite Hr in Hr'.
    injection Hr' as <-. exists r. split; [done|].
    destruct (decide (row_FencingGeneration r = fence)); [by right | left; lia].
  - apply act_tx_commits in Ha as (row & allowed & next & claim & Ha & _).
    destruct (raised db d (action_RolloutID request) row (result_Rollout result) fence) as [T O];
      [by eapply acted_row | by eapply acted_rollouts| |by split; [|intros <-]].
    rewrite (acted_result _ _ _ _ _ _ _ _ _ Ha). cbn.
    by destruct (bumped_columns (Control.draw_dbnow draws) _ row (resets_nonneg request db)) as (_ & -> & _).
  - apply approve_tx_commits in Ha as (row & plan & claim & Ha & _).
    destruct (decide (approve_Cohort request = -1)) as [Hi|Hi].
    + destruct (approved_initial _ _ _ _ _ _ _ _ Ha Hi) as (_ & Hres & Hr).
      destruct (raised db d (approve_RolloutID request) row (result_Rollout result) fence) as [T O];
        [by eapply approved_row | done | by rewrite Hres |]. split; [done|]. by intros [<- _].
    + destruct (approved_later _ _ _ _ _ _ _ _ Ha Hi) as (_ & Hr). split; [by apply tide_same | by intros []].
  - split; [|done]. destruct (StatusIngestFacts.Ingest_cases v pr sv clocks fault ready c conn session payload f)
      as [[-> _]|(p & Et & -> & _)]; [by rewrite Hdb|]. rewrite <- Hdb in Hu |- *.
    apply StatusIngestFacts.ingest_tx_scoped in Et; [|done]. exact (tide_bumped _ _ _ (StatusIngestFacts.scoped_rollouts _ _ _ _ Et)).
  - split; [|done]. eapply bump_all_tide; [|exact Hw]. done.
  - split; [|done]. unfold write_labels in Hw. destruct (db_labels db !! c); [|by injection Hw as ->].
    destruct (_ == _); [injection Hw as <-; by apply tide_same | by eapply bump_all_tide; [|exact Hw]].
  - split; [|done]. by eapply bump_all_tide; [|exact Hw].
  - split; [|done]. apply DeploymentControlFacts.deploy_commits in Hd as (e' & a & t & c & Hd & _).
    exact (tide_bumped _ _ _ (DeploymentControlFacts.deployed_bumped _ _ _ _ _ _ _ _ Hd)).
  - split; [|done]. apply DeploymentControlFacts.RequestDeletionCAS_Ok in Hd as [t Hm]. subst db.
    exact (tide_bumped _ _ _ (DeploymentControlFacts.marked_rollouts _ _ _ _ _ _ Hm)).
Qed.

Lemma run_tide db trace db' : run db trace db' -> tide db db'.
Proof.
  induction 1 as [db|db e db1 trace db2 Hs _ IH]; [done|]. transitivity db1; [|done].
  by apply (step_tide _ _ _ uuid_Nil 0 Hs).
Qed.

Lemma run_app db trace1 trace2 db' :
  run db (trace1 ++ trace2) db' <-> exists db1, run db trace1 db1 /\ run db1 trace2 db'.
Proof.
  revert db. induction trace1 as [|e trace1 IH]; intros db; cbn.
  - split; [by exists db; split; [constructor|] | intros (db1 & H1 & H2); by inversion H1; subst].
  - split.
    + inversion 1 as [|? ? db1 ? ? Hs Hr]; subst. apply IH in Hr as (db2 & H1 & H2).
      exists db2. split; [by econstructor | done].
    + intros (db2 & H1 & H2). inversion H1 as [|? ? db1 ? ? Hs Hr]; subst. econstructor; [done|].
      apply IH. by exists db2.
Qed.

(** A run without an event that takes the rollout. *)
Lemma run_untaken db trace db' id fence :
  run db trace db' -> seen id fence db -> ~ over id fence db' -> Forall (fun e => ~ takes id e) trace.
Proof.
  induction 1 as [db|db e db1 trace db2 Hs Hr IH]; intros Hseen Hover; [constructor|].
  destruct (step_tide _ _ _ id fence Hs) as [T O]. constructor.
  - intros Ht. apply Hover. eapply over_tide; [by eapply run_tide | by apply O].
  - apply IH; [by eapply seen_tide | done].
Qed.

(** C13: decisions and user control exclude each other.  In any interleaving of
    any number of reconcilers, users and writers of runtime state, a decision
    that commits is made under the last claim of its rollout: between that claim
    and the commit no reconciler claimed the rollout or committed another decision on it,
    and no user action or initial approval of it committed. *)
Theorem decisions_exclusive (db db' : DB) before claimed trace :
  run db (before ++ Claimed claimed :: trace ++ [Decided claimed]) db' ->
  Forall (fun e => ~ takes (row_ID claimed) e) trace.
Proof.
  intros (db1 & _ & Hrun)%run_app. inversion Hrun as [|? ? db2 ? ? Hclaim Hrun2]; subst.
  apply run_app in Hrun2 as (db3 & Hrun3 & Hrun4). inversion Hrun4 as [|? ? db4 ? ? Hdec _]; subst.
  eapply (run_untaken db2 trace db3 _ (row_FencingGeneration claimed) Hrun3).
  - inversion Hclaim as [? ? ? ? ? ? Hc Hid| | | | | | | | |]; subst.
    apply ClaimDeliveryRollout_Some in Hc as (row & _ & _ & _ & -> & ->).
    exists (claimed_row owner lease now row). cbn. rewrite lookup_insert_eq. done.
  - inversion Hdec as [|? ? ? ? ? ? ? ? ? Hd| | | | | | | |]; subst. by eapply applyDecision_over.
Qed.
(** ** Clusters under interleaving *)

(** A step whose decisions are the scheduler's, made from the cluster rows as they
    were read at the runtime generation the transaction checks. *)
Inductive sound_step (db : DB) : DB -> Prop :=
  | sound_decide draws owner claimed plan rows snapshot m input d now generation db' :
      runtimeFromRows plan claimed rows = Ok (snapshot, m) -> input_Snapshot input = snapshot ->
      Evaluate input = Ok d -> loaded (row_ID claimed) rows generation db ->
      applyDecision draws owner claimed plan m d now generation db = Ok db' -> sound_step db db'
  | sound_other e db' : step db e db' -> (forall claimed, e <> Decided claimed) -> sound_step db db'.

Definition all_assigned (db : DB) : Prop := forall cid c, db_clusters db !! cid = Some c -> well_assigned c.

(** The cluster rows are the same ones, each reached along edges of the table. *)
Definition followed (c c' : ClusterRow) : Prop := rtc edge c c' /\ well_assigned c'.

Definition follows (db db' : DB) : Prop := StatusIngestFacts.rows (fun _ => followed) (db_clusters db) (db_clusters db').

Lemma follows_same db db' : all_assigned db -> db_clusters db' = db_clusters db -> follows db db'.
Proof.
  intros Hw E cid. rewrite E. destruct (db_clusters db !! cid) as [c|] eqn:Hc; constructor. split; [done | by eapply Hw].
Qed.

Lemma follows_fmap db db' g :
  all_assigned db -> db_clusters db' = g <$> db_clusters db ->
  (forall cid c, db_clusters db !! cid = Some c -> well_assigned c -> followed c (g c)) -> follows db db'.
Proof.
  intros Hw E Hg cid. rewrite E, lookup_fmap. destruct (db_clusters db !! cid) as [c|] eqn:Hc; constructor.
  apply (Hg cid c Hc). by eapply Hw.
Qed.
Lemma reset_edge rolloutID now c :
  retryable rolloutID c = true -> edge c (reset_cluster now c) /\ well_assigned (reset_cluster now c).
Proof.
  unfold retryable. intros E. bool_props. rewrite contains_elem_of in *. split; [|by split; intros E; first [discriminate E | decide_now]].
  split; [|done]. cbn [reset_cluster set_cluster cluster_State].
  repeat match goal with Hs : cluster_State c ∈ _ :: _ |- _ => apply elem_of_cons in Hs as [->|Hs]; [decide_now|] end.
  by match goal with Hs : _ ∈ [] |- _ => apply not_elem_of_nil in Hs end.
Qed.

Lemma step_follows db e db' :
  all_assigned db -> step db e db' -> (forall claimed, e <> Decided claimed) -> follows db db'.
Proof.
  intros Hw [owner lease id' now row d Hc Hid|draws owner claimed plan rows d now generation d' Hd
         |draws request result d Ha|draws request result d Ha|v pr sv clocks fault ready c conn session payload f Hdb Hu
         |now id' row d Hx|now c l d Hx|now key row d Hx|draws request result d Hx|f params now row f' Hdb Hx] Hne.
  - apply ClaimDeliveryRollout_Some in Hc as (row0 & _ & _ & _ & _ & ->). by apply follows_same.
  - by destruct (Hne claimed).
  - apply act_tx_commits in Ha as (row & allowed & next & claim & Ha & _). pose proof (acted_clusters _ _ _ _ _ _ _ _ _ Ha) as Hcl.
    destruct (_ == _); [|by apply follows_same]. eapply follows_fmap; [done | exact Hcl|]. intros cid c Hc Hwc. cbn.
    destruct (retryable _ c) eqn:Er; [|done]. destruct (reset_edge _ (Control.draw_dbnow draws) _ Er).
    split; [by apply rtc_once | done].
  - apply approve_tx_commits in Ha as (row & plan & claim & Ha & _). apply follows_same; [done | by eapply approved_clusters].
  - destruct (StatusIngestFacts.Ingest_cases v pr sv clocks fault ready c conn session payload f)
      as [[-> _]|(p & Et & -> & _)]; [rewrite Hdb; by apply follows_same|]. rewrite <- Hdb in Hu, Hw |- *.
    apply StatusIngestFacts.ingest_tx_scoped in Et; [|done]. intros cid.
    pose proof (StatusIngestFacts.scoped_clusters _ _ _ _ Et cid) as Hf.
    destruct (db_clusters _ !! cid) as [r|] eqn:Hr; inversion Hf as [? r' Hrr|]; subst; constructor.
    destruct (StatusIngestFacts.advanced_edges _ _ _ Hrr (Hw _ _ Hr)) as (? & ? & _). by split.
  - apply bump_all_Ok in Hx as [-> _]. by apply follows_same.
  - unfold write_labels in Hx. destruct (db_labels db !! c); [|injection Hx as <-; by apply follows_same].
    destruct (_ == _); [injection Hx as <-; by apply follows_same|]. apply bump_all_Ok in Hx as [-> _]. by apply follows_same.
  - apply bump_all_Ok in Hx as [-> _]. by apply follows_same.
  - apply DeploymentControlFacts.deploy_commits in Hx as (e' & a & t & c & Hx & _). apply follows_same; [done|].
    pose proof (DeploymentControlFacts.deployed_rest _ _ _ _ _ _ _ _ Hx) as Hrest. congruence.
  - apply DeploymentControlFacts.RequestDeletionCAS_Ok in Hx as [t Hm]. subst db. apply follows_same; [done|].
    by rewrite (DeploymentControlFacts.marked_rest _ _ _ _ _ _ Hm).
Qed.

Lemma sound_step_follows `{!ExternalLaws} db db' : all_assigned db -> sound_step db db' -> follows db db'.
Proof.
  intros Hw [draws owner claimed plan rows snapshot m input d now generation d' Hrows Hsnap He Hl Happ|e d' Hs Hne];
    [|by eapply step_follows].
  destruct (applyDecision_commits _ _ _ _ _ _ _ _ _ _ _ _ _ Hrows Hsnap He Hl Happ) as (row & row' & Hc).
  eapply follows_fmap; [done | by eapply com_clusters|]. intros cid c Hcid Hwc. split.
  - destruct (com_edges _ _ _ _ _ _ _ _ _ _ _ Hc cid c Hcid) as [->|[_ E]]; [done | by apply rtc_once].
  - eapply decided_cluster_assigned; [by eapply SchedulerCorrect.Evaluate_legal | done].
Qed.

Lemma follows_assigned db db' : follows db db' -> all_assigned db'.
Proof. intros Hf cid c Hc. specialize (Hf cid). rewrite Hc in Hf. by inversion Hf as [? ? [_ ?]|]; subst. Qed.

(** C6: the life of a cluster row in the whole loop.  Start from tables in which
    every cluster row agrees with its action, and let reconcilers decide and commit
    from the rows they read, users pause, resume, abort, retry and approve, suspend
    and reconcile deployments and delete targets, agents report and connections,
    labels and deployments change, in any order and any number.  Every cluster row is
    then still there, was moved only along edges of the transition table of the state
    package, and still agrees with its action: no interleaving of the components
    produces a state that the table does not allow. *)
Theorem clusters_follow `{!ExternalLaws} (db db' : DB) cid c :
  all_assigned db -> rtc sound_step db db' -> db_clusters db !! cid = Some c ->
  exists c', db_clusters db' !! cid = Some c' /\ rtc edge c c' /\ well_assigned c'.
Proof.
  intros Hw Hr. revert c Hw. induction Hr as [db|db db1 db2 Hs _ IH]; intros c Hw Hc.
  { exists c. split_and!; [done | done | by eapply Hw]. }
  pose proof (sound_step_follows _ _ Hw Hs) as Hf. pose proof (Hf cid) as Hcid. rewrite Hc in Hcid.
  destruct (db_clusters db1 !! cid) as [c1|] eqn:Hc1; inversion Hcid as [? ? [He1 _]|]; subst.
  destruct (IH c1) as (c2 & Hc2 & He2 & Hw2); [by eapply follows_assigned | done|].
  exists c2. split_and!; [done | by etrans | done].
Qed.
End loop.

(** ** Examples

    The plan the planner froze, in progress: the canary cluster is ready since
    long, the other one waits for the approval of its cohort, and both agents are
    connected. *)

Definition example_cluster (plan : FrozenRollout) (name state : string) (order : Z) (ready : option time) : ClusterRow := {|
  cluster_RolloutID := plan_ID plan; cluster_ClusterID := UUID name; cluster_ReleaseOrder := order;
  cluster_State := state; cluster_AssignmentAction := "apply"; cluster_Attempt := 0; cluster_Fence := 0;
  cluster_ReleasedAt := ready; cluster_AcknowledgedAt := ready; cluster_ReadyAt := ready;
  cluster_CompletedAt := ready; cluster_Deadline := None; cluster_LastErrorCode := ""; cluster_UpdatedAt := 110 |}.

Definition example_connection (name status : string) : ConnectionRow := {|
  connection_ClusterID := UUID name; connection_SessionID := "session"; connection_Status := status;
  connection_DisconnectedAt := if status == "connected" then None else Some 400 |}.

Definition example_fleet (plan : FrozenRollout) (approvals : list ApprovalRow) : DB (list Intent) := {|
  db_rollouts := {[plan_ID plan := set_live (ControlFacts.plan_row plan) "progressing" 1 "" None "" (Some 100) None "" 100]};
  db_targets := {[plan_TargetID plan := UUID "project"]};
  db_clusters := {[UUID "row-a" := example_cluster plan "a" "ready" 0 (Some 120);
                   UUID "row-b" := example_cluster plan "b" "pending" 1 None]};
  db_events := []; db_approvals := approvals; db_tasks := ∅; db_audit := []; db_keys := ∅;
  db_deployments := ∅; db_deploymentEvents := [];
  db_connections := {[UUID "conn-a" := example_connection "a" "connected";
                      UUID "conn-b" := example_connection "b" "connected"]};
  db_labels := {[UUID "a" := "{}"; UUID "b" := "{}"]} |}.

Definition example_turn (now : time) : Turn (Outbox := list Intent) := {|
  turn_beforeLoad db := db; turn_beforeApprovals db := db; turn_beforeApply db := db;
  turn_loadFault := None; turn_approvalFault := None; turn_fault := Works; turn_cacheNow := now; turn_now := now;
  turn_windows _ := Ok []; turn_order := map_to_list;
  turn_draws := {| draw_dbnow := now; draw_eventID _ := UUID "event"; draw_deploymentID c := c |} |}.

Definition example_reconciler : Reconciler := {| rec_owner := "worker"; rec_lease := 1000; rec_cache := ∅ |}.

Definition example_reconcile (plan : FrozenRollout) (now : time) (r : Reconciler) (db : DB (list Intent)) : Outcome :=
  @ReconcileOne Concrete.external Maintenance.Hourly.cron _ (fun _ => Some plan) (fun _ => Some ∅)
    (example_turn now) r (plan_ID plan) now db.

Definition example_act (plan : FrozenRollout) (action key : string) (fence : Z) (db : DB (list Intent)) : DB (list Intent) :=
  (@Act Concrete.external _ (fun _ => Some plan) ControlFacts.example_record (ControlFacts.example_draws key "")
     Control.Works (ControlFacts.example_action action key fence) db).2.

Definition example_gate (plan : FrozenRollout) (fence : Z) : ApprovalRequest := {|
  approve_ProjectID := UUID "project"; approve_RolloutID := plan_ID plan; approve_ExpectedFence := fence;
  approve_Cohort := 1; approve_BindingDigest := from_option cohort_ApprovalDigest "" (plan_Cohorts plan !! 1%nat);
  approve_Decision := "approved"; approve_ActorID := Some (UUID "actor"); approve_ExpiresAt := 100000;
  approve_IdempotencyKey := "gate"; approve_Audit := ControlFacts.example_intent |}.

Definition example_approves (plan : FrozenRollout) (fence : Z) (db : DB (list Intent)) : res (TxResult (Outbox := list Intent)) :=
  @approve_tx Concrete.external _ (fun _ => Some plan) ControlFacts.example_record
    (ControlFacts.example_draws "event" "approval") (example_gate plan fence) db.

Definition committed_db (tx : res (TxResult (Outbox := list Intent))) (db : DB (list Intent)) : DB (list Intent) :=
  match tx with Ok (Commits _ db') => db' | _ => db end.

(** The plan of the example, and what a test on it says. *)
Definition on_plan (test : FrozenRollout -> bool) : bool :=
  match PlannerFacts.example_planned with Ok (plan, _) => test plan | Err _ => false end.

Lemma on_plan_exists test : on_plan test = true -> exists plan, test plan = true.
Proof. unfold on_plan. destruct PlannerFacts.example_planned as [[plan ds]|]; [by exists plan | done]. Qed.

Definition cluster_b (db : DB (list Intent)) : string := from_option cluster_State "" (db_clusters db !! UUID "row-b").

(** A claim, another agent that connects, the approval of the cohort and the
    decision that releases it. *)
Definition example_race (plan : FrozenRollout) : res (RolloutRow * DB (list Intent)) :=
  claim ← ClaimDeliveryRollout (example_fleet plan []) "worker" 1000 (plan_ID plan) 300;
  match claim with
  | None => Err EPanic
  | Some (row, db1) =>
      db2 ← write_connection 310 (UUID "conn-z") (Some (example_connection "z" "connected")) db1;
      tx ← example_approves plan 2 db2;
      match tx with
      | Replayed _ => Err EPanic
      | Commits _ db3 =>
          input ← @evaluate_input Maintenance.Hourly.cron _ (fun _ => Some ∅) (example_turn 320)
                    "worker" plan row (ListDeliveryRolloutRuntime db3 (row_ID row) 10)
                    (Ok (ListDeliveryRolloutApprovals db3 (row_ID row)));
          d ← @Evaluate Concrete.external input.1;
          db4 ← @applyDecision Concrete.external _ (turn_draws (example_turn 320)) "worker" row plan input.2 d
                  320 (row_RuntimeGeneration row) db3;
          fail_if (cluster_b db4 != "released") EPanic;;
          fail_if (row_ID row != plan_ID plan) EPanic;;
          Ok (row, db4)
      end
  end.

Lemma decisions_exclusive_witness :
  exists plan row db', let trace := [Observed; Approved (example_gate plan 2)] in
    @run Concrete.external _ (fun _ => Some plan) ControlFacts.example_record (example_fleet plan [])
      ([] ++ Claimed row :: trace ++ [Decided row]) db' /\
    cluster_b db' = "released" /\ Forall (fun e => ~ takes (row_ID row) e) trace.
Proof.
  destruct (on_plan_exists (fun plan => is_ok (example_race plan))) as [plan E]; [vm_compute; reflexivity|].
  exists plan. apply is_ok_Ok in E as [[row db'] E]. unfold example_race in E.
  apply res_bind_Ok in E as ([[row0 db1]|] & Hclaim & E); [|done].
  apply res_bind_Ok in E as (db2 & Hconn & E). apply res_bind_Ok in E as ([?|result db3] & Happ & E); [done|].
  apply res_bind_Ok in E as (input & _ & E). apply res_bind_Ok in E as (d & _ & E).
  apply res_bind_Ok in E as (db4 & Hd & E). apply res_bind_Ok in E as (u & Hb & E).
  apply res_bind_Ok in E as (u' & Hid & [= -> ->]). exists row, db'. cbn zeta.
  assert (R : @run Concrete.external _ (fun _ => Some plan) ControlFacts.example_record (example_fleet plan [])
      ([] ++ Claimed row :: [Observed; Approved (example_gate plan 2)] ++ [Decided row]) db').
  { econstructor; [by eapply step_claim; [exact Hclaim | apply fail_if_Ok in Hid; bool_props]|].
    econstructor; [eapply step_connection; exact Hconn|].
    econstructor; [eapply step_approve; exact Happ|].
    econstructor; [eapply step_decide; exact Hd | constructor]. }
  split; [exact R|]. split; [by apply fail_if_Ok in Hb; bool_props|].
  exact (@decisions_exclusive Concrete.external _ _ _ _ _ _ _ _ R).
Defined.

Definition example_approved (plan : FrozenRollout) : ApprovalRow := {|
  approval_ID := UUID "approval"; approval_RolloutID := plan_ID plan; approval_Cohort := 1;
  approval_BindingDigest := from_option cohort_ApprovalDigest "" (plan_Cohorts plan !! 1%nat);
  approval_Decision := "approved"; approval_DecidedBy := Some (UUID "actor"); approval_DecidedAt := 200;
  approval_ExpiresAt := 100000 |}.

(** A claim and the decision of the scheduler that releases the waiting cluster. *)
Definition example_release (plan : FrozenRollout) : res (DB (list Intent)) :=
  let db := example_fleet plan [example_approved plan] in
  claim ← ClaimDeliveryRollout db "worker" 1000 (plan_ID plan) 300;
  match claim with
  | None => Err EPanic
  | Some (row, db1) =>
      let rows := ListDeliveryRolloutRuntime db1 (plan_ID plan) (MaxRolloutClusters + 1) in
      input ← @evaluate_input Maintenance.Hourly.cron _ (fun _ => Some ∅) (example_turn 320) "worker" plan row rows
                (Ok (ListDeliveryRolloutApprovals db1 (plan_ID plan)));
      d ← @Evaluate Concrete.external input.1;
      db2 ← @applyDecision Concrete.external _ (turn_draws (example_turn 320)) "worker" row plan input.2 d
              320 (row_RuntimeGeneration row) db1;
      fail_if ((cluster_b db2 != "released") || (row_ID row != plan_ID plan) || (MaxRolloutClusters <? len rows)) EPanic;;
      Ok db2
  end.

Lemma example_rows plan approvals cid c :
  db_clusters (example_fleet plan approvals) !! cid = Some c ->
  c = example_cluster plan "a" "ready" 0 (Some 120) \/ c = example_cluster plan "b" "pending" 1 None.
Proof.
  cbn. rewrite lookup_insert_Some. intros [[_ <-]|[_ Hc]]; [by left|]. rewrite lookup_singleton_Some in Hc.
  destruct Hc as [_ <-]. by right.
Qed.

Lemma example_references plan : references (example_fleet plan [example_approved plan]).
Proof. intros cid c [->| ->]%example_rows; by eexists. Qed.

Lemma example_assigned plan : all_assigned (example_fleet plan [example_approved plan]).
Proof. intros cid c [->| ->]%example_rows; (split; intros E; first [discriminate E | decide_now]). Qed.

Lemma clusters_follow_witness :
  exists plan db', rtc (@sound_step Concrete.external _ (fun _ => Some plan) ControlFacts.example_record)
      (example_fleet plan [example_approved plan]) db' /\ cluster_b db' = "released" /\
    exists c', db_clusters db' !! UUID "row-b" = Some c' /\ rtc edge (example_cluster plan "b" "pending" 1 None) c'.
Proof.
  destruct (on_plan_exists (fun plan => is_ok (example_release plan))) as [plan E]; [vm_compute; reflexivity|].
  exists plan. apply is_ok_Ok in E as [db' E]. exists db'. unfold example_release in E. cbv zeta in E.
  set (db := example_fleet plan [example_approved plan]) in *.
  apply res_bind_Ok in E as ([[row db1]|] & Hclaim & E); [|done]. apply res_bind_Ok in E as (input & Hin & E).
  apply res_bind_Ok in E as (d & Hd & E). apply res_bind_Ok in E as (db2 & Happ & E).
  apply res_bind_Ok in E as (u & Hb%fail_if_Ok & [= ->]). bool_props.
  assert (R : rtc (@sound_step Concrete.external _ (fun _ => Some plan) ControlFacts.example_record) db db').
  { eapply rtc_l; [eapply sound_other; [eapply step_claim; [exact Hclaim | assumption] | intros ? E; discriminate E]|]. apply rtc_once.
    unfold evaluate_input in Hin. apply res_bind_Ok in Hin as ([snapshot m] & Hrows & Hin). apply res_bind_Ok in Hin as (? & _ & Hin).
    apply res_bind_Ok in Hin as (? & _ & [= <-]). eapply sound_decide; [exact Hrows | | exact Hd | | exact Happ]; [reflexivity|].
    apply ClaimDeliveryRollout_Some in Hclaim as (row0 & _ & _ & _ & _ & Hdb1).
    assert (Hrow : db_rollouts db1 !! plan_ID plan = Some row) by (rewrite Hdb1; apply lookup_insert_eq).
    assert (Hrow' : row_ID row = plan_ID plan) by assumption. rewrite Hrow'. exists row. split_and!; [exact Hrow | lia|]. intros _.
    eapply (ListDeliveryRolloutRuntime_loaded db1); [|exact Hrow | reflexivity | assumption].
    rewrite Hdb1. exact (example_references plan). }
  split; [exact R|]. split; [done|].
  destruct (@clusters_follow Concrete.external _ (fun _ => Some plan) ControlFacts.example_record Concrete.external_laws db db' (UUID "row-b") (example_cluster plan "b" "pending" 1 None))
    as (c' & Hc' & Hr & _).
  - exact (example_assigned plan).
  - exact R.
  - reflexivity.
  - exists c'. split; [exact Hc' | exact Hr].
Defined.


(** A disconnect that the runtime generation does not count: the rollout waits
    for an approval and its rows are cached; it is paused, the agent of the
    waiting cluster disconnects, the rollout is resumed and the cohort approved.
    The reconciler that cached the rows releases the cluster; one with an empty
    cache, on the same tables, finds it disconnected and blocks it. *)
Definition example_stale (plan : FrozenRollout) : bool :=
  let out1 := example_reconcile plan 300 example_reconciler (example_fleet plan []) in
  let paused := example_act plan "pause" "k1" 2 (out_db out1) in
  let offline := write_connection 400 (UUID "conn-b") (Some (example_connection "b" "disconnected")) paused in
  let resumed := example_act plan "resume" "k2" 3 (match offline with Ok db => db | Err _ => paused end) in
  let approved := committed_db (example_approves plan 4 resumed) resumed in
  let out2 := example_reconcile plan 600 (out_rec out1) approved in
  let cached := example_reconcile plan 700 (out_rec out2) (out_db out2) in
  let fresh := example_reconcile plan 700 example_reconciler (out_db out2) in
  (connected (out_db out2) (UUID "b") == false) &&
  (out_err cached == None) && (cluster_b (out_db cached) == "released") &&
  (out_err fresh == None) && (cluster_b (out_db fresh) == "blocked").

Lemma stale_connection_released : exists plan, example_stale plan = true.
Proof. apply on_plan_exists. vm_compute. reflexivity. Qed.
End DeliveryLoop.
