(* ===== verification/DeploymentExamples.v ===== *)
(** * Examples of deployment control

    The theorems on deployment actions and target deletion at concrete tables, and
    three ways in which the deletion of a target does not end. *)

From Stdlib Require Import ZArith Lia Ascii.
From S2P Require Import Prelude Enums State SafeConv GoSort GoStrings External Validation Model Types.
From S2P Require Import Overrides RolloutTypes Planner PlannerFacts AsyncOp DeliveryProtocol DeliveryProtocolFacts DeliveryStore.
From S2P Require Import Control ControlFacts Reconciler StatusIngest StatusIngestFacts StatusRecords StatusExamples DeliveryLoop.
From S2P Require Import DeploymentControl DeploymentControlFacts.
From stdpp Require Import base gmap strings list relations.
Import RolloutTypes Planner AsyncOp DeliveryStore Reconciler DeliveryProtocol DeliveryProtocolFacts StatusIngest StatusIngestFacts StatusExamples.
Import Control(Draws, draw_now, draw_dbnow, draw_eventID, draw_approvalID, Works).
Import DeploymentControl DeploymentControlFacts.

Open Scope Z_scope.

Module DeploymentExamples.

(** The tables of the ingestion examples with an active target. *)
Definition active_target : TargetDeletion := {| deletion_State := "active"; deletion_Generation := 3; deletion_ResourceVersion := 7 |}.
Definition the_deployment : uuid := UUID (example_uuid "a"%char).
Definition live_tables : Fleet (Outbox := unit) := with_target example_start the_target active_target.

Definition an_intent : Intent := {| intent_Action := "audited"; intent_ResourceID := ""; intent_Detail := ∅; intent_DedupeKey := "dedupe" |}.
Definition record (outbox : unit) (intent : Intent) : res unit := Ok outbox.

Definition some_draws : Draws := {|
  draw_now n := 2000 + Z.of_nat n; draw_dbnow := 2000; draw_eventID := UUID "event"; draw_approvalID := uuid_Nil |}.

Definition action_request (action key : string) (generation : Z) : Request := {|
  deploy_ProjectID := UUID "project"; deploy_DeploymentID := the_deployment; deploy_ExpectedGeneration := generation;
  deploy_Action := action; deploy_ActorID := Some (UUID "actor"); deploy_IdempotencyKey := key; deploy_ReasonCode := "";
  deploy_Audit := an_intent |}.

Definition act (action key : string) (generation : Z) (f : Fleet (Outbox := unit)) : Fleet (Outbox := unit) :=
  with_db f (@Act wire unit record some_draws Works (action_request action key generation) (fleet_db f)).2.

Definition delete_request (key : string) (version : Z) : DeleteRequest := {|
  delete_Params := {| params_ID := the_target; params_ProjectID := UUID "project"; params_ExpectedVersion := version |};
  delete_ActorID := Some (UUID "actor"); delete_IdempotencyKey := key; delete_Audit := an_intent |}.

Definition alone {Outbox} (n : nat) (f : Fleet (Outbox := Outbox)) : Fleet (Outbox := Outbox) := f.

#[local] Abbreviation request_deletion key version f := (@delete_tx wire unit record alone 3000 3000 (delete_request key version) f).

Definition deleted_tables {Outbox} (r : res (Receipt * option (DeletionRow * Fleet (Outbox := Outbox)))) :
    option (DeletionRow * Fleet (Outbox := Outbox)) :=
  match r with Ok (_, found) => found | Err _ => None end.

Definition assigned (f : Fleet (Outbox := unit)) : string * string * Z :=
  from_option (fun d => (deployment_Action d, deployment_Phase d, deployment_DesiredGeneration d)) ("", "", 0)
    (db_deployments (fleet_db f) !! (the_target, the_cluster)).
Definition target_state {Outbox} (target : uuid) (f : Fleet (Outbox := Outbox)) : string :=
  from_option deletion_State "" (fleet_targets f !! target).

Lemma live_unique : unique_ids (fleet_db live_tables).
Proof. exact example_unique. Qed.

#[local] Abbreviation suspended := (@deploy_tx wire unit record some_draws (action_request "suspend" "key" 3) (fleet_db live_tables)).

(** A suspension, and the report of the agent that did not know of it. *)
Lemma deployment_action_once_witness :
  exists result db1, suspended = Ok (Commits result db1) /\
    deployment_Action (deployed_Row result) = "suspend" /\ deployment_DesiredGeneration (deployed_Row result) = 4 /\
    db_deployments (fleet_db (ingested_fleet (example_ingest 1500 "session" first_report (with_db live_tables db1))))
      !! deployed_Key result = db_deployments db1 !! deployed_Key result.
Proof.
  assert (E : match suspended with
              | Ok (Commits result _) => (deployment_Action (deployed_Row result) == "suspend") &&
                  (deployment_DesiredGeneration (deployed_Row result) =? 4)
              | _ => false
              end = true) by (vm_compute; reflexivity).
  pose proof (@deployment_action_once wire unit record some_draws (action_request "suspend" "key" 3) live_tables live_unique) as T.
  destruct suspended as [[receipt|result db1]|]; [discriminate E| |discriminate E].
  exists result, db1. bool_props. split_and!; [reflexivity | done | done|].
  destruct T as [_ T]. destruct (T (with_db live_tables db1) (rtc_refl _ _)) as (_ & _ & Hold).
  apply (Hold "v2.9.6" None (fun _ => Some (1, 34)) (example_clocks 1500) StatusIngest.Works true the_cluster the_connection
    "session" first_report).
  assert (Hall : forallb (fun r => report_Generation r <=? 3) (status_Deployments first_report) = true) by (vm_compute; reflexivity).
  intros r Hr _. apply Z.leb_le. exact (proj1 (forallb_forall _ _) Hall r (proj1 (list_elem_of_In _ _) Hr)).
Defined.

Lemma alone_locks {Outbox} target : locks target (@alone Outbox).
Proof. by split. Qed.


(** ** Deletions that do not end *)

(** A user who reconciles a deployment that is to be deleted makes it one to be
    applied again; its agent reports it ready, the target stays deleting, and a
    second request to delete it is refused. *)
Lemma reconcile_undoes_deletion :
  match deleted_tables (request_deletion "key" 7 live_tables) with
  | Some (_, f1) =>
      let f2 := act "reconcile" "other" 4 f1 in
      assigned f1 = ("delete", "pending", 4) /\ assigned f2 = ("apply", "pending", 5) /\
      target_state the_target f2 = "deleting" /\ request_deletion "again" 8 f2 = Err no_rows
  | None => False
  end.
Proof. vm_compute. done. Qed.

(** The fleet of a rollout under way, with its target. *)
Definition rollout_tables (plan : FrozenRollout) (state : string) : Fleet (Outbox := list Intent) :=
  let db := DeliveryLoop.example_fleet plan [DeliveryLoop.example_approved plan] in {|
  fleet_db := with_rollouts db ((fun row => set_live row state (row_FencingGeneration row) "" None "" (Some 100) None "" 100)
                                  <$> db_rollouts db);
  fleet_inventory := ∅; fleet_receipts := ∅; fleet_targets := {[plan_TargetID plan := active_target]};
  fleet_releases := ∅; fleet_assignments := ∅; fleet_systemEvents := []; fleet_locals := ∅ |}.

Definition delete_target (plan : FrozenRollout) (f : Fleet (Outbox := list Intent)) :=
  deleted_tables (@delete_tx Concrete.external _ ControlFacts.example_record alone 250 250 {|
    delete_Params := {| params_ID := plan_TargetID plan; params_ProjectID := UUID "project"; params_ExpectedVersion := 7 |};
    delete_ActorID := Some (UUID "actor"); delete_IdempotencyKey := "delete"; delete_Audit := an_intent |} f).

(** A rollout does not look at its target: after the request to delete it, the
    reconciler releases the next cluster, to be applied. *)
Lemma rollout_undoes_deletion :
  DeliveryLoop.on_plan (fun plan =>
    match delete_target plan (rollout_tables plan "progressing") with
    | Some (row, f1) =>
        let out := DeliveryLoop.example_reconcile plan 300 DeliveryLoop.example_reconciler (fleet_db f1) in
        (target_state (plan_TargetID plan) f1 == "deleting") && (DeliveryLoop.cluster_b (out_db out) == "released") &&
        match db_deployments (out_db out) !! (plan_TargetID plan, UUID "b") with
        | Some d => deployment_Action d == "apply"
        | None => false
        end
    | None => false
    end) = true.
Proof. vm_compute. reflexivity. Qed.

(** A target whose only rollout was aborted before it released anything has no
    deployment that could be reported removed, and is not deleted at once either. *)
Lemma aborted_rollout_blocks_deletion :
  DeliveryLoop.on_plan (fun plan =>
    match delete_target plan (rollout_tables plan "aborted") with
    | Some (row, f1) =>
        (deleting_DeploymentCount row =? 0) && (target_state (plan_TargetID plan) f1 == "deleting") &&
        bool_decide (map_to_list (db_deployments (fleet_db f1)) = [])
    | None => false
    end) = true.
Proof. vm_compute. reflexivity. Qed.
End DeploymentExamples.
