(* ===== verification/ConfigMerge.v ===== *)
(** * Layered configuration (internal/delivery/configuration/merge.go)

    [Merge] applies layers of values to a base document in the order of their
    scope, precedence and identity, and refuses two layers of one scope and
    precedence that assign different values to the same leaf.  A Go map is an
    association list with one entry per key; decoding a text is the decoder of
    [External] and, for the second call of [Decode], an argument of the section. *)

From Stdlib Require Import ZArith Lia.
From S2P Require Import Prelude GoSort GoStrings External Validation Overrides.
From stdpp Require Import base gmap strings list sorting.
Import Overrides.

Open Scope Z_scope.

Module ConfigMerge.

Definition MaxDocumentBytes : Z := 256 * 1024.

Definition Scope := string.

Definition scopeRank (s : Scope) : option Z :=
  if s == "organization" then Some 0 else if s == "project" then Some 1
  else if s == "environment" then Some 2 else if s == "group" then Some 3
  else if s == "cluster" then Some 4 else if s == "rollout" then Some 5 else None.

(** [scopeRank[s]], zero for a scope that is not in the map. *)
Definition rank (s : Scope) : Z := default 0 (scopeRank s).

Record Layer := {
  layer_ID : uuid;
  layer_Name : string;
  layer_Scope : Scope;
  layer_ScopeID : uuid;
  layer_Precedence : Z;
  layer_Values : string;
  layer_Patches : list string;
}.

Record Conflict := {
  conflict_Path : string;
  conflict_Scope : Scope;
  conflict_Precedence : Z;
  conflict_LayerIDs : list uuid;
}.

Record Result := {
  result_Values : string;
  result_Patches : list string;
  result_AppliedLayers : list uuid;
  result_Digest : string;
}.

(** A result, a [ConflictError] or another error. *)
Inductive Outcome :=
  | Merged (r : Result)
  | Conflicted (conflicts : list Conflict)
  | Failed (e : error).

(** ** Objects *)

Abbreviation object := (list (string * json)).

(** [delete(target, key)] *)
Fixpoint obj_delete (k : string) (fields : object) : object :=
  match fields with
  | [] => []
  | (k', v) :: l => if k == k' then obj_delete k l else (k', v) :: obj_delete k l
  end.

(** One iteration of the loop of [mergeObject]. *)
Fixpoint merge_field (target : object) (key : string) (value : json) : object :=
  match value with
  | JNull => obj_delete key target
  | JObject child =>
      match obj_get key target with
      | Some (JObject existing) =>
          obj_set key (JObject
            ((fix each (current : object) (l : object) :=
                match l with
                | [] => current
                | (k, v) :: l' => each (merge_field current k v) l'
                end) existing child)) target
      | _ => obj_set key value target
      end
  | _ => obj_set key value target
  end.

Definition mergeObject (target overlay : object) : object :=
  foldl (fun t kv => merge_field t kv.1 kv.2) target overlay.

(** ** Leaves *)

(** [strings.ReplaceAll] of one byte *)
Fixpoint ReplaceByte (s : string) (old : Ascii.ascii) (new : string) : string :=
  match s with
  | EmptyString => EmptyString
  | String c r => if c == old then new +:+ ReplaceByte r old new else String c (ReplaceByte r old new)
  end.

Definition escape (key : string) : string :=
  ReplaceByte (ReplaceByte key (byte 126) "~0") (byte 47) "~1".

(** The calls of [visit] for a value under a path, in order: the keys of an
    object are visited in sorted order, an empty object not at all. *)
Fixpoint flatten_value (value : json) (path : string) : list (string * json) :=
  match value with
  | JObject fields =>
      flat_map snd (sort_slice (by_key fst str_lt)
        ((fix each (l : object) : list (string * list (string * json)) :=
            match l with
            | [] => []
            | (k, v) :: l' => (k, flatten_value v (path +:+ "/" +:+ escape k)) :: each l'
            end) fields))
  | _ => [(path, value)]
  end.

Definition flatten (value : object) (prefix : string) : list (string * json) :=
  flatten_value (JObject value) prefix.

Section merge.
Context `{External}.
(** A second [Decode] of the text, into an empty struct, succeeds. *)
Context (decodes_again : string -> bool).

Definition equalJSON (left right : json) : bool :=
  default "" (json_Marshal left) == default "" (json_Marshal right).

Definition decodeObject (raw : string) : res object :=
  let raw := if TrimSpace raw == "" then "{}" else raw in
  fail_if (MaxDocumentBytes <? slen raw) (EText "document exceeds 256 KiB");;
  match json_Decode raw with
  | Some (JObject fields) =>
      fail_if (decodes_again raw) (EText "must be exactly one JSON object");;
      Ok fields
  | _ => Err (EText "must be exactly one JSON object")
  end.

(** ** Conflicts *)

Record leafAssignment := {
  assignment_value : json;
  assignment_ids : list uuid;
}.

Definition Seen := (gmap string leafAssignment * gmap string Conflict)%type.

(** The callback of [findConflicts] for the document of one layer. *)
Definition visit (layer : Layer) (st : Seen) (leaf : string * json) : Seen :=
  let '(path, value) := leaf in
  match st.1 !! path with
  | None => (<[path := {| assignment_value := value; assignment_ids := [layer_ID layer] |}]> st.1, st.2)
  | Some assignment =>
      if equalJSON (assignment_value assignment) value then
        (<[path := {| assignment_value := assignment_value assignment;
                      assignment_ids := assignment_ids assignment ++ [layer_ID layer] |}]> st.1, st.2)
      else
        (st.1, <[path := {| conflict_Path := path; conflict_Scope := layer_Scope layer;
                            conflict_Precedence := layer_Precedence layer;
                            conflict_LayerIDs := assignment_ids assignment ++ [layer_ID layer] |}]> st.2)
  end.

Definition visit_document (st : Seen) (document : Layer * object) : Seen :=
  foldl (visit document.1) st (flatten document.2 "").

(** [findConflicts] of the layers of a group with their values *)
Definition findConflicts (group : list (Layer * object)) : list Conflict :=
  let st := foldl visit_document (∅, ∅) group in
  omap (fun path => st.2 !! path) (sort_slice str_lt (map_to_list st.2).*1).

(** ** Merging *)

Definition check_layer (layer : Layer) : res unit :=
  fail_if (bool_decide (scopeRank (layer_Scope layer) = None)) (EText "layer %q has unsupported scope %q");;
  fail_if (layer_ID layer == uuid_Nil) (EText "layer %q has no identity");;
  fail_if (64 <? len (layer_Patches layer)) (EText "layer %q has too many patches").

Definition layer_less (left right : Layer) : bool :=
  if negb (rank (layer_Scope left) =? rank (layer_Scope right))
  then rank (layer_Scope left) <? rank (layer_Scope right)
  else if negb (layer_Precedence left =? layer_Precedence right)
  then layer_Precedence left <? layer_Precedence right
  else str_lt (uuid_String (layer_ID left)) (uuid_String (layer_ID right)).

Definition same_group (a b : Layer) : bool :=
  (layer_Scope a == layer_Scope b) && (layer_Precedence a =? layer_Precedence b).

(** The maximal runs of layers of one scope and precedence. *)
Fixpoint groups (ordered : list Layer) : list (list Layer) :=
  match ordered with
  | [] => []
  | layer :: rest =>
      match groups rest with
      | (first :: g) :: gs => if same_group first layer then (layer :: first :: g) :: gs
                              else [layer] :: (first :: g) :: gs
      | gs => [layer] :: gs
      end
  end.

Fixpoint decode_group (group : list Layer) : res (list (Layer * object)) :=
  match group with
  | [] => Ok []
  | layer :: rest =>
      values ← wrap_err (fun _ => EText "layer %q values: %w") (decodeObject (layer_Values layer));
      decoded ← decode_group rest;
      Ok ((layer, values) :: decoded)
  end.

(** The loop over the groups: the root after them, or why it stopped. *)
Fixpoint merge_groups (root : object) (gs : list (list Layer)) : object + (error + list Conflict) :=
  match gs with
  | [] => inl root
  | group :: rest =>
      match decode_group group with
      | Err e => inr (inl e)
      | Ok decoded =>
          match findConflicts decoded with
          | [] => merge_groups (foldl (fun r lv => mergeObject r lv.2) root decoded) rest
          | conflicts => inr (inr conflicts)
          end
      end
  end.

Definition finish (root : object) (ordered : list Layer) : Outcome :=
  match json_Marshal (JObject root) with
  | None => Failed (EText "effective values exceed the configured limit")
  | Some canonical =>
      if MaxDocumentBytes <? slen canonical
      then Failed (EText "effective values exceed the configured limit")
      else
        let patches := flat_map layer_Patches ordered in
        let digestInput := default "" (json_Marshal (JObject
          [("values", JRaw canonical); ("patches", JArray (map JString patches))])) in
        Merged {| result_Values := canonical; result_Patches := patches;
                  result_AppliedLayers := map layer_ID ordered; result_Digest := DigestBytes digestInput |}
  end.

Definition Merge (base : string) (layers : list Layer) : Outcome :=
  match wrap_err (fun _ => EText "base values: %w") (decodeObject base) with
  | Err e => Failed e
  | Ok root =>
      match res_iter check_layer layers with
      | Err e => Failed e
      | Ok _ =>
          let ordered := sort_slice layer_less layers in
          match merge_groups root (groups ordered) with
          | inr (inl e) => Failed e
          | inr (inr conflicts) => Conflicted conflicts
          | inl root' => finish root' ordered
          end
      end
  end.
End merge.
End ConfigMerge.
