(* ===== verification/ConfigMergeFacts.v ===== *)
(** * Correctness of layered configuration

    What the merged document holds under a path, that paths and their texts
    correspond, that the conflict check finds exactly the disagreements of a
    group, and that the groups are the layers of one scope and precedence. *)

From Stdlib Require Import ZArith Lia.
From S2P Require Import Prelude GoSort GoStrings External Validation Overrides ConfigMerge.
From stdpp Require Import base gmap strings list sorting.
Import Overrides ConfigMerge.

Open Scope Z_scope.

Module ConfigMergeFacts.

(** ** What a merge leaves under a key *)

Definition merged_field (target : object) (k : string) (value : json) : option json :=
  match value with
  | JNull => None
  | JObject child =>
      match obj_get k target with
      | Some (JObject existing) => Some (JObject (mergeObject existing child))
      | _ => Some value
      end
  | _ => Some value
  end.

Lemma obj_get_delete k k' fields :
  obj_get k' (obj_delete k fields) = if k' == k then None else obj_get k' fields.
Proof.
  induction fields as [|[k0 v0] l IH]; cbn; [by destruct (k' == k)|].
  destruct (decide (k = k0)) as [->|Hne].
  - rewrite bool_decide_true, IH by done. by destruct (k' == k0).
  - rewrite (bool_decide_false (k = k0)) by done. cbn. rewrite IH.
    destruct (decide (k' = k0)) as [->|].
    + rewrite bool_decide_true by done. by rewrite bool_decide_false by done.
    + by rewrite (bool_decide_false (k' = k0)) by done.
Qed.

Lemma merge_field_object target k child :
  merge_field target k (JObject child) =
  obj_set k (match obj_get k target with
             | Some (JObject existing) => JObject (mergeObject existing child)
             | _ => JObject child
             end) target.
Proof.
  cbn [merge_field]. destruct (obj_get k target) as [[| | | | | | | |existing]|]; try done.
  do 2 f_equal. unfold mergeObject. revert existing.
  induction child as [|[k0 v0] l IH]; intros existing; cbn; [done|]. apply IH.
Qed.

Lemma merge_field_get target k value k' :
  obj_get k' (merge_field target k value) =
  if k' == k then merged_field target k value else obj_get k' target.
Proof.
  destruct value as [| | | | | | | |child]; [cbn; apply obj_get_delete|..|];
    try (cbn [merge_field merged_field]; apply obj_get_set).
  rewrite merge_field_object, obj_get_set. cbn. by destruct (obj_get k target) as [[]|].
Qed.

Lemma merged_field_other target k value k' v' :
  k <> k' -> merged_field (merge_field target k' v') k value = merged_field target k value.
Proof.
  intros Hne. destruct value; try done. cbn. by rewrite merge_field_get, bool_decide_false.
Qed.

Lemma mergeObject_get k target overlay :
  NoDup overlay.*1 ->
  obj_get k (mergeObject target overlay) =
  match obj_get k overlay with
  | Some value => merged_field target k value
  | None => obj_get k target
  end.
Proof.
  unfold mergeObject. revert target.
  induction overlay as [|[k0 v0] l IH]; intros target Hnd; cbn; [done|].
  apply NoDup_cons in Hnd as [Hk0 Hnd]. cbn [fst] in Hk0. rewrite IH by done.
  destruct (decide (k = k0)) as [->|Hne].
  - rewrite bool_decide_true by done. apply obj_get_None in Hk0 as ->.
    by rewrite merge_field_get, bool_decide_true.
  - rewrite (bool_decide_false (k = k0)) by done.
    destruct (obj_get k l); [by apply merged_field_other|]. by rewrite merge_field_get, bool_decide_false.
Qed.

(** ** What a merge leaves under a path *)

Lemma untouched_None path fields : untouched path fields -> get_path path fields = None.
Proof.
  revert fields. induction path as [|k rest IH]; intros fields; [done|]. cbn.
  destruct (obj_get k fields) as [[]|]; try done. apply IH.
Qed.

(** A leaf of the overlay is in the result, unless it is null, which removes;
    paths the overlay does not touch keep their value. *)
Lemma mergeObject_path path target overlay :
  wf_json (JObject overlay) ->
  (forall v, get_path path overlay = Some v -> is_leaf v ->
     get_path path (mergeObject target overlay) = Some v \/
     v = JNull /\ get_path path (mergeObject target overlay) = None) /\
  (untouched path overlay ->
     get_path path (mergeObject target overlay) = get_path path target).
Proof.
  revert target overlay. induction path as [|k rest IH]; intros target overlay Hwf.
  { cbn. split; [|done]. by intros v [= <-]. }
  pose proof Hwf as [Hnd _]. cbn [get_path untouched]. rewrite (mergeObject_get k _ _ Hnd).
  destruct (obj_get k overlay) as [value|] eqn:Ek; [|done].
  pose proof (wf_get k overlay value Hwf Ek) as Hv.
  destruct value as [| | | | | | | |nested];
    try (split; [destruct rest; [intros v [= <-] _; cbn; auto | done] | done]).
  cbn [merged_field].
  destruct (obj_get k target) as [[| | | | | | | |existing]|] eqn:Et;
    try (split; [by left|]; intros Hu; rewrite (untouched_None _ _ Hu); by destruct rest).
  destruct (IH existing nested Hv) as [Hleaf Hun]. by split.
Qed.

Lemma layers_untouched path root docs :
  Forall (fun d => wf_json (JObject d)) docs -> Forall (untouched path) docs ->
  get_path path (foldl mergeObject root docs) = get_path path root.
Proof.
  revert root. induction docs as [|d docs IH]; intros root Hwf Hu; [done|]. cbn.
  apply Forall_cons_iff in Hwf as [Hd Hwf]. apply Forall_cons_iff in Hu as [Hud Hu].
  rewrite IH by done. by apply mergeObject_path.
Qed.

(** The last layer that speaks about a path decides. *)
Lemma layers_decide path root before d after v :
  Forall (fun d => wf_json (JObject d)) (before ++ d :: after) ->
  get_path path d = Some v -> is_leaf v -> Forall (untouched path) after ->
  get_path path (foldl mergeObject root (before ++ d :: after)) = Some v \/
  v = JNull /\ get_path path (foldl mergeObject root (before ++ d :: after)) = None.
Proof.
  intros Hwf Hv Hleaf Hu. apply Forall_app in Hwf as [_ Hwf]. apply Forall_cons_iff in Hwf as [Hd Hwf].
  rewrite foldl_app. cbn. rewrite layers_untouched by done. by apply mergeObject_path.
Qed.

(** ** Paths and their texts *)

Definition path_text (prefix : string) (path : list string) : string :=
  foldl (fun s k => s +:+ "/" +:+ escape k) prefix path.

Definition slash : Ascii.ascii := byte 47.
Definition tilde : Ascii.ascii := byte 126.

(** [escape], one byte at a time. *)
Definition escape_byte (c : Ascii.ascii) : string :=
  if c == tilde then "~0" else if c == slash then "~1" else String c "".

Lemma ReplaceByte_app a b old new : ReplaceByte (a +:+ b) old new = ReplaceByte a old new +:+ ReplaceByte b old new.
Proof.
  induction a as [|c a IH]; [done|]. rewrite app_cons_str. cbn [ReplaceByte]. rewrite IH.
  destruct (c == old); [by rewrite app_assoc_str | by rewrite app_cons_str].
Qed.

Lemma escape_cons c s : escape (String c s) = escape_byte c +:+ escape s.
Proof.
  unfold escape, escape_byte, tilde, slash. cbn [ReplaceByte].
  destruct (c == byte 126) eqn:Et; [by rewrite ReplaceByte_app|].
  cbn [ReplaceByte]. by destruct (c == byte 47).
Qed.

Definition no_slash (s : string) : bool := string_forallb (fun c => negb (c == slash)) s.

Lemma escape_no_slash s : no_slash (escape s) = true.
Proof.
  induction s as [|c s IH]; [done|]. rewrite escape_cons. unfold no_slash. rewrite string_forallb_app.
  fold (no_slash (escape s)). rewrite IH, andb_true_r. unfold escape_byte.
  destruct (c == tilde); [done|]. destruct (c == slash) eqn:Es; [done|]. cbn. by rewrite Es.
Qed.

Lemma escape_byte_inj c d a b :
  escape_byte c +:+ a = escape_byte d +:+ b -> c = d /\ a = b.
Proof.
  unfold escape_byte. repeat case_bool_decide; subst; rewrite ?app_cons_str; intros E;
    injection E; intros; subst; try done; try (by unfold tilde in *).
Qed.

Lemma escape_inj a b : escape a = escape b -> a = b.
Proof.
  revert b. induction a as [|c a IH]; intros [|d b]; rewrite ?escape_cons; [done|..].
  - unfold escape_byte. by repeat case_bool_decide.
  - unfold escape_byte. by repeat case_bool_decide.
  - intros [-> E]%escape_byte_inj. f_equal. by apply IH.
Qed.

(** A text ends where the next key begins. *)
Definition key_start (s : string) : Prop := s = "" \/ exists r, s = String slash r.

Lemma cut_at_slash a b x y :
  no_slash a = true -> no_slash b = true -> key_start x -> key_start y ->
  a +:+ x = b +:+ y -> a = b /\ x = y.
Proof.
  intros Ha Hb Hx Hy. revert b Hb. induction a as [|c a IH]; intros [|d b] Hb; rewrite ?app_cons_str; cbn in *.
  - intros E. split; [done | exact E].
  - intros E. apply andb_true_iff in Hb as [Hd _]. destruct Hx as [->|[r ->]]; [done|].
    injection E as <- _. by rewrite bool_decide_true in Hd.
  - intros E. apply andb_true_iff in Ha as [Hc _]. destruct Hy as [->|[r ->]]; [done|].
    injection E as -> _. by rewrite bool_decide_true in Hc.
  - intros [= -> E]. apply andb_true_iff in Ha as [_ Ha]. apply andb_true_iff in Hb as [_ Hb].
    destruct (IH Ha b Hb E) as [-> ->]. done.
Qed.

Lemma path_text_prefix prefix path : path_text prefix path = prefix +:+ path_text "" path.
Proof.
  unfold path_text. revert prefix. induction path as [|k path IH]; intros prefix; cbn [foldl].
  - by rewrite app_nil_str.
  - rewrite IH. symmetry. rewrite IH. by rewrite !app_assoc_str.
Qed.

Lemma path_text_cons k path :
  path_text "" (k :: path) = String slash (escape k +:+ path_text "" path).
Proof. change (path_text ("" +:+ "/" +:+ escape k) path = String slash (escape k +:+ path_text "" path)).
  by rewrite path_text_prefix.
Qed.

Lemma path_text_inj path path' : path_text "" path = path_text "" path' -> path = path'.
Proof.
  assert (Hstart : forall p, key_start (path_text "" p)).
  { intros [|k p]; [by left|]. right. rewrite path_text_cons. eauto. }
  revert path'. induction path as [|k path IH]; intros [|k' path']; rewrite ?path_text_cons; try done.
  intros [= E]. apply cut_at_slash in E as [E1%escape_inj E2%IH]; auto using escape_no_slash. congruence.
Qed.

(** ** The leaves a document is flattened to *)

Lemma json_object_ind (P : json -> Prop) :
  (forall j, is_leaf j -> P j) ->
  (forall fields, Forall (fun kv => P kv.2) fields -> P (JObject fields)) -> forall j, P j.
Proof.
  intros Hleaf Hobj. fix IH 1. intros [| | | | | | | |fields]; try (by apply Hleaf).
  apply Hobj. induction fields as [|[k v] l IHl]; constructor; [apply IH | exact IHl].
Qed.

Fixpoint value_at (j : json) (path : list string) : option json :=
  match path with
  | [] => Some j
  | k :: rest =>
      match j with
      | JObject fields => match obj_get k fields with Some v => value_at v rest | None => None end
      | _ => None
      end
  end.

Lemma get_path_value_at path fields : get_path path fields = value_at (JObject fields) path.
Proof.
  revert fields. induction path as [|k rest IH]; intros fields; [done|]. cbn.
  destruct (obj_get k fields) as [[]|]; try done; by destruct rest.
Qed.

Lemma flatten_value_object fields path :
  flatten_value (JObject fields) path =
  flat_map snd (sort_slice (by_key fst str_lt)
    (map (fun kv => (kv.1, flatten_value kv.2 (path +:+ "/" +:+ escape kv.1))) fields)).
Proof.
  cbn [flatten_value]. do 2 f_equal. induction fields as [|[k v] l IH]; [done|]. cbn. by rewrite IH.
Qed.

Lemma flatten_value_elem fields path e :
  e ∈ flatten_value (JObject fields) path <->
  exists k v, (k, v) ∈ fields /\ e ∈ flatten_value v (path +:+ "/" +:+ escape k).
Proof.
  rewrite flatten_value_object, list_elem_of_In, in_flat_map. setoid_rewrite <- list_elem_of_In.
  setoid_rewrite sort_slice_elem_of. split.
  - intros (x & (kv & -> & Hkv)%list_elem_of_fmap & He). exists kv.1, kv.2. by destruct kv.
  - intros (k & v & Hkv & He). exists (k, flatten_value v (path +:+ "/" +:+ escape k)).
    split; [|done]. apply list_elem_of_fmap. by exists (k, v).
Qed.

Lemma obj_get_elem k v fields : NoDup fields.*1 -> (k, v) ∈ fields <-> obj_get k fields = Some v.
Proof.
  induction fields as [|[k0 v0] l IH]; cbn; intros Hnd.
  - split; [by intros ?%not_elem_of_nil | done].
  - apply NoDup_cons in Hnd as [Hk0 Hnd]. cbn in Hk0. rewrite elem_of_cons, IH by done.
    destruct (decide (k = k0)) as [->|Hne].
    + rewrite bool_decide_true by done. apply obj_get_None in Hk0. split; [|by intros [= ->]; left].
      intros [[= ->]|Hl]; [done | congruence].
    + rewrite bool_decide_false by done. split; [by intros [[= -> _]|] | by right].
Qed.

Lemma flatten_value_spec j prefix s v :
  wf_json j ->
  (s, v) ∈ flatten_value j prefix <->
  exists path, s = path_text prefix path /\ value_at j path = Some v /\ is_leaf v.
Proof.
  revert prefix. induction j as [j Hj|fields IH] using json_object_ind; intros prefix Hwf.
  - destruct j; try done; cbn [flatten_value]; rewrite list_elem_of_singleton;
      (split; [intros [= -> ->]; by exists [] | intros ([|k path] & -> & E & _); [by injection E as <- | done]]).
  - pose proof Hwf as [Hnd _]. rewrite Forall_forall in IH. rewrite flatten_value_elem. split.
    + intros (k & w & Hkw & He). rewrite (IH (k, w) Hkw) in He.
      2:{ apply (wf_get k fields); [done | by apply obj_get_elem]. }
      destruct He as (path & -> & Hat & Hleaf). exists (k :: path). split_and!; [done| |done].
      apply obj_get_elem in Hkw; [|done]. cbn. by rewrite Hkw.
    + intros ([|k path] & -> & Hat & Hleaf); [cbn in Hat; by injection Hat as <-|].
      cbn in Hat. destruct (obj_get k fields) as [w|] eqn:Ek; [|done]. exists k, w.
      pose proof (proj2 (obj_get_elem _ _ _ Hnd) Ek) as Hkw. split; [done|].
      apply (IH (k, w) Hkw); [by apply (wf_get k fields)|]. by exists path.
Qed.

(** A document assigns a value to the text of a path exactly when it holds the
    leaf there. *)
Lemma flatten_spec doc s v :
  wf_json (JObject doc) ->
  (s, v) ∈ flatten doc "" <->
  exists path, s = path_text "" path /\ get_path path doc = Some v /\ is_leaf v.
Proof.
  intros Hwf. unfold flatten. rewrite (flatten_value_spec _ _ _ _ Hwf).
  by setoid_rewrite get_path_value_at.
Qed.

(** ** The conflict check *)

Section conflicts.
Context `{External}.

Lemma equalJSON_spec a b :
  equalJSON a b = true <-> default "" (json_Marshal a) = default "" (json_Marshal b).
Proof. apply bool_decide_eq_true. Qed.

(** The leaves of a group, with their layers, in the order they are visited. *)
Definition visits (group : list (Layer * object)) : list (Layer * (string * json)) :=
  flat_map (fun d => map (pair d.1) (flatten d.2 "")) group.

Definition visit_entry (st : Seen) (e : Layer * (string * json)) : Seen := visit e.1 st e.2.

Lemma visit_leaves st layer leaves :
  foldl (visit layer) st leaves = foldl visit_entry st (map (pair layer) leaves).
Proof. revert st. induction leaves as [|e l IH]; intros st; [done|]. apply IH. Qed.

Lemma visit_documents st group : foldl visit_document st group = foldl visit_entry st (visits group).
Proof.
  revert st. induction group as [|d group IH]; intros st; [done|].
  cbn [foldl]. unfold visits. cbn [flat_map]. rewrite foldl_app, IH. f_equal. apply visit_leaves.
Qed.

Lemma elem_of_visits group l leaf :
  (l, leaf) ∈ visits group <-> exists doc, (l, doc) ∈ group /\ leaf ∈ flatten doc "".
Proof.
  unfold visits. rewrite list_elem_of_In, in_flat_map. setoid_rewrite <- list_elem_of_In. split.
  - intros ([l' doc] & Hd & He).
    apply list_elem_of_fmap in He as (x & [= -> ->] & He). by exists doc.
  - intros (doc & Hd & He). exists (l, doc). split; [done|]. apply list_elem_of_fmap. by exists leaf.
Qed.

(** Two layers disagree about a path, and a conflict reports them. *)
Definition disagreement (L : list (Layer * (string * json))) (path : string) (c : Conflict) : Prop :=
  conflict_Path c = path /\
  exists l1 v1 l2 v2, (l1, (path, v1)) ∈ L /\ (l2, (path, v2)) ∈ L /\ equalJSON v1 v2 = false /\
    layer_ID l1 ∈ conflict_LayerIDs c /\ layer_ID l2 ∈ conflict_LayerIDs c /\
    conflict_Scope c = layer_Scope l2 /\ conflict_Precedence c = layer_Precedence l2.

Record seen_ok (L : list (Layer * (string * json))) (st : Seen) : Prop := {
  seen_ids : forall p a, st.1 !! p = Some a -> assignment_ids a <> [] /\
    forall id, id ∈ assignment_ids a -> exists l v, (l, (p, v)) ∈ L /\ layer_ID l = id /\
      equalJSON (assignment_value a) v = true;
  seen_all : forall l p v, (l, (p, v)) ∈ L -> exists a, st.1 !! p = Some a /\
    (equalJSON (assignment_value a) v = true \/ is_Some (st.2 !! p));
  seen_conflicts : forall p c, st.2 !! p = Some c -> disagreement L p c;
}.

Lemma disagreement_mono L e p c : disagreement L p c -> disagreement (L ++ [e]) p c.
Proof.
  intros (Hp & l1 & v1 & l2 & v2 & H1 & H2 & Hr). split; [done|]. exists l1, v1, l2, v2.
  rewrite !elem_of_app. auto.
Qed.

(** The first layer to assign a path. *)
Lemma visit_first L st l p v :
  seen_ok L st -> st.1 !! p = None -> seen_ok (L ++ [(l, (p, v))]) (visit l st (p, v)).
Proof.
  intros [H1 H2 H3] Ep. cbn. rewrite Ep. split; cbn.
  - intros q a. rewrite lookup_insert_Some. intros [[<- <-]|[Hne Hq]].
    + cbn. split; [done|]. intros id ->%list_elem_of_singleton. exists l, v.
      rewrite elem_of_app, list_elem_of_singleton. split_and!; [by right | done | by apply equalJSON_spec].
    + destruct (H1 q a Hq) as [Hn Hids]. split; [done|]. intros id (l' & v' & Hin & Hr)%Hids.
      exists l', v'. rewrite elem_of_app. auto.
  - intros l' q v'. rewrite elem_of_app, list_elem_of_singleton. intros [Hin|[= -> -> ->]].
    + destruct (H2 _ _ _ Hin) as (a & Ha & Hr). exists a. rewrite lookup_insert_ne by congruence. done.
    + eexists. rewrite lookup_insert_eq. split; [done|]. left. by apply equalJSON_spec.
  - intros q c Hc. by apply disagreement_mono, H3.
Qed.

(** A layer that repeats the value of the first. *)
Lemma visit_equal L st l p v a :
  seen_ok L st -> st.1 !! p = Some a -> equalJSON (assignment_value a) v = true ->
  seen_ok (L ++ [(l, (p, v))]) (visit l st (p, v)).
Proof.
  intros [H1 H2 H3] Ep Eq. cbn. rewrite Ep, Eq. destruct (H1 p a Ep) as [Hn Hids]. split; cbn.
  - intros q b. rewrite lookup_insert_Some. intros [[<- <-]|[Hne Hq]].
    + cbn. split; [by destruct (assignment_ids a)|]. intros id. rewrite elem_of_app, list_elem_of_singleton.
      setoid_rewrite elem_of_app. intros [(l' & v' & Hin & Hr)%Hids| ->]; [by exists l', v'; auto|].
      exists l, v. rewrite list_elem_of_singleton. auto.
    + destruct (H1 q b Hq) as [Hnb Hidsb]. split; [done|]. intros id (l' & v' & Hin & Hr)%Hidsb.
      exists l', v'. rewrite elem_of_app. auto.
  - intros l' q v'. rewrite elem_of_app, list_elem_of_singleton.
    destruct (decide (q = p)) as [->|Hne]; [|rewrite lookup_insert_ne by done].
    + intros Hin. eexists. rewrite lookup_insert_eq. split; [done|]. cbn.
      destruct Hin as [Hin|[= -> ->]]; [|by left]. by destruct (H2 _ _ _ Hin) as (b & Hb & Hr); simplify_eq.
    + intros [Hin|[= -> -> ->]]; [by apply H2 in Hin | done].
  - intros q c Hc. by apply disagreement_mono, H3.
Qed.

(** A layer that disagrees. *)
Lemma visit_conflict L st l p v a :
  seen_ok L st -> st.1 !! p = Some a -> equalJSON (assignment_value a) v = false ->
  seen_ok (L ++ [(l, (p, v))]) (visit l st (p, v)).
Proof.
  intros [H1 H2 H3] Ep Eq. cbn. rewrite Ep, Eq. split; cbn.
  - intros q b Hq. destruct (H1 q b Hq) as [Hnb Hidsb]. split; [done|].
    intros id (l' & v' & Hin & Hr)%Hidsb. exists l', v'. rewrite elem_of_app. auto.
  - intros l' q v'. rewrite elem_of_app, list_elem_of_singleton. intros [Hin|[= -> -> ->]].
    + destruct (H2 _ _ _ Hin) as (b & Hb & Hr). exists b. split; [done|].
      destruct Hr as [Hr|Hr]; [by left|right].
      destruct (decide (p = q)) as [->|]; [by rewrite lookup_insert_eq | by rewrite lookup_insert_ne].
    + exists a. split; [done|]. right. by rewrite lookup_insert_eq.
  - intros q c. rewrite lookup_insert_Some. intros [[<- <-]|[Hne Hc]]; [|by apply disagreement_mono, H3].
    split; [done|]. destruct (H1 p a Ep) as [Hn Hids].
    destruct (assignment_ids a) as [|id ids] eqn:Ei; [done|].
    destruct (Hids id ltac:(left)) as (l1 & v1 & Hin & <- & Hv1).
    exists l1, v1, l, v. cbn [conflict_LayerIDs]. rewrite !elem_of_app, !list_elem_of_singleton, elem_of_cons.
    split_and!; auto.
    apply not_true_iff_false. rewrite equalJSON_spec. apply equalJSON_spec in Hv1.
    apply not_true_iff_false in Eq. rewrite equalJSON_spec in Eq. congruence.
Qed.

Lemma visit_all_ok L : seen_ok L (foldl visit_entry (∅, ∅) L).
Proof.
  induction L as [|[l [p v]] L IH] using rev_ind.
  - split; cbn; [intros p a; by rewrite lookup_empty | by intros l p v ?%not_elem_of_nil
                | intros p c; by rewrite lookup_empty].
  - rewrite foldl_app. cbn [foldl]. unfold visit_entry at 1. cbn [fst snd].
    destruct ((foldl visit_entry (∅, ∅) L).1 !! p) as [a|] eqn:Ep; [|by apply visit_first].
    destruct (equalJSON (assignment_value a) v) eqn:Eq;
      [by eapply visit_equal | by eapply visit_conflict].
Qed.

Lemma elem_of_findConflicts group c :
  c ∈ findConflicts group <-> exists p, (foldl visit_document (∅, ∅) group).2 !! p = Some c.
Proof.
  unfold findConflicts. rewrite list_elem_of_omap. setoid_rewrite sort_slice_elem_of. split.
  - intros (p & _ & Hp). by exists p.
  - intros [p Hp]. exists p. split; [|done]. apply list_elem_of_fmap. exists (p, c). split; [done|].
    by apply elem_of_map_to_list.
Qed.

(** No conflict: all layers of the group that assign a path agree. *)
Lemma findConflicts_agree group l1 l2 p v1 v2 :
  findConflicts group = [] -> (l1, (p, v1)) ∈ visits group -> (l2, (p, v2)) ∈ visits group ->
  equalJSON v1 v2 = true.
Proof.
  intros Hn H1 H2. destruct (visit_all_ok (visits group)) as [_ Hall _].
  rewrite <- visit_documents in Hall.
  assert (Hnone : forall q, ~ is_Some ((foldl visit_document (∅, ∅) group).2 !! q)).
  { intros q [c Hc]. assert (Hin : c ∈ findConflicts group) by (apply elem_of_findConflicts; by exists q).
    rewrite Hn in Hin. by apply not_elem_of_nil in Hin. }
  destruct (Hall _ _ _ H1) as (a & Ha & [E1|E1]); [|by apply Hnone in E1].
  destruct (Hall _ _ _ H2) as (b & Hb & [E2|E2]); [|by apply Hnone in E2].
  rewrite Ha in Hb. injection Hb as <-. rewrite equalJSON_spec in *. congruence.
Qed.

Lemma findConflicts_sound group c :
  c ∈ findConflicts group -> disagreement (visits group) (conflict_Path c) c.
Proof.
  rewrite elem_of_findConflicts. intros [p Hp]. rewrite visit_documents in Hp.
  destruct (visit_all_ok (visits group)) as [_ _ Hc]. destruct (Hc _ _ Hp) as [<- Hr]. by split.
Qed.
End conflicts.

(** ** Groups of layers *)

Definition layer_key `{External} (l : Layer) : Z * (Z * string) :=
  (rank (layer_Scope l), (layer_Precedence l, uuid_String (layer_ID l))).

Definition layer_lt : Z * (Z * string) -> Z * (Z * string) -> bool := lex_lt Z.ltb (lex_lt Z.ltb str_lt).

#[local] Instance layer_lt_strict : StrictTotal layer_lt.
Proof. unfold layer_lt. apply _. Qed.

Lemma layer_less_key `{External} a b : layer_less a b = by_key layer_key layer_lt a b.
Proof.
  unfold layer_less, layer_lt, lex_lt. cbn.
  destruct (Z.eqb_spec (rank (layer_Scope a)) (rank (layer_Scope b))) as [->|Hr].
  2:{ by rewrite bool_decide_false. }
  rewrite bool_decide_true by done. cbn.
  destruct (Z.eqb_spec (layer_Precedence a) (layer_Precedence b)) as [->|Hp].
  - by rewrite bool_decide_true.
  - by rewrite bool_decide_false.
Qed.

Definition supported (l : Layer) : Prop := scopeRank (layer_Scope l) <> None.

Lemma scopeRank_inj s t : scopeRank s <> None -> scopeRank t <> None -> rank s = rank t -> s = t.
Proof.
  unfold rank, scopeRank. repeat case_bool_decide; subst; done.
Qed.

Lemma same_group_spec a b :
  same_group a b = true <-> layer_Scope a = layer_Scope b /\ layer_Precedence a = layer_Precedence b.
Proof. unfold same_group. rewrite andb_true_iff, bool_decide_eq_true, Z.eqb_eq. done. Qed.

(** The order of the layers, on scope and precedence. *)
Lemma layer_le_spec `{External} a b :
  key_le layer_key layer_lt a b ->
  rank (layer_Scope a) < rank (layer_Scope b) \/
  rank (layer_Scope a) = rank (layer_Scope b) /\ layer_Precedence a <= layer_Precedence b.
Proof.
  unfold key_le, layer_lt, lex_lt. cbn. repeat case_bool_decide; cbn; rewrite ?Z.ltb_ge; lia.
Qed.

Lemma groups_concat l : concat (groups l) = l.
Proof.
  induction l as [|x l IH]; [done|]. cbn. rewrite <- IH at 2.
  destruct (groups l) as [|[|y g] gs]; [done|done|]. by destruct (same_group y x).
Qed.

(** In sorted layers the first run holds every layer of its group. *)
Lemma groups_head `{External} x rest :
  StronglySorted (key_le layer_key layer_lt) (x :: rest) -> Forall supported (x :: rest) ->
  exists g gs, groups (x :: rest) = (x :: g) :: gs /\ forall y, y ∈ rest -> same_group x y = true -> y ∈ g.
Proof.
  revert x. induction rest as [|y0 rest IH]; intros x Hs Hsup.
  { exists [], []. split; [done|]. by intros y ?%not_elem_of_nil. }
  apply StronglySorted_inv in Hs as [Hs Hall]. apply Forall_cons_iff in Hsup as [Hx Hsup].
  destruct (IH y0 Hs Hsup) as (g & gs & Hg & Hin). cbn [groups] in *. rewrite Hg.
  destruct (same_group y0 x) eqn:Esame.
  - exists (y0 :: g), gs. split; [done|]. intros y [->|Hy]%elem_of_cons Hxy; [left|right].
    apply Hin; [done|]. rewrite same_group_spec in *. intuition congruence.
  - exists [], ((y0 :: g) :: gs). split; [done|]. intros y Hy Hxy. exfalso.
    apply not_true_iff_false in Esame. apply Esame. clear Esame Hin Hg IH.
    rewrite same_group_spec in *. destruct Hxy as [Hsc Hpr].
    apply Forall_cons_iff in Hall as [Hx0 _]. apply layer_le_spec in Hx0.
    apply Forall_cons_iff in Hsup as [Hy0 _].
    assert (Hle : rank (layer_Scope y0) < rank (layer_Scope y) \/
      rank (layer_Scope y0) = rank (layer_Scope y) /\ layer_Precedence y0 <= layer_Precedence y).
    { apply elem_of_cons in Hy as [->|Hy]; [right; lia|].
      apply StronglySorted_inv in Hs as [_ Hs]. rewrite Forall_forall in Hs.
      by apply layer_le_spec, Hs. }
    rewrite <- Hsc, <- Hpr in Hle. split; [apply scopeRank_inj; [done | done | lia] | lia].
Qed.

Lemma groups_same `{External} l x y :
  StronglySorted (key_le layer_key layer_lt) l -> Forall supported l ->
  x ∈ l -> y ∈ l -> same_group x y = true -> exists g, g ∈ groups l /\ x ∈ g /\ y ∈ g.
Proof.
  induction l as [|z l IH]; intros Hs Hsup Hx Hy Hxy; [by apply not_elem_of_nil in Hx|].
  destruct (groups_head z l Hs Hsup) as (g & gs & Hg & Hin).
  assert (Hyx : same_group y x = true) by (rewrite same_group_spec in *; intuition congruence).
  apply elem_of_cons in Hx as [->|Hx]; [|apply elem_of_cons in Hy as [->|Hy]].
  - exists (z :: g). rewrite Hg. split_and!; [left | left |].
    apply elem_of_cons in Hy as [->|Hy]; [left | right; by apply Hin].
  - exists (z :: g). rewrite Hg. split_and!; [left | right; by apply Hin | left].
  - apply StronglySorted_inv in Hs as [Hs _]. apply Forall_cons_iff in Hsup as [_ Hsup].
    destruct (IH Hs Hsup Hx Hy Hxy) as (g' & Hg' & Hxg & Hyg). cbn [groups].
    destruct (groups l) as [|[|f h] hs]; [by apply not_elem_of_nil in Hg'|..].
    + exists g'. split; [by right | done].
    + destruct (same_group f z); [|exists g'; split; [by right | done]].
      apply elem_of_cons in Hg' as [->|Hg'].
      * exists (z :: f :: h). split_and!; [left | by right | by right].
      * exists g'. split; [by right | done].
Qed.

(** Layers of one run agree on scope and precedence. *)
Lemma groups_uniform l g x y : g ∈ groups l -> x ∈ g -> y ∈ g -> same_group x y = true.
Proof.
  revert g x y. induction l as [|z l IH]; cbn; intros g x y; [by intros ?%not_elem_of_nil|].
  assert (Hz : same_group z z = true) by (by apply same_group_spec).
  destruct (groups l) as [|[|f h] hs] eqn:Eg.
  - intros ->%list_elem_of_singleton ->%list_elem_of_singleton ->%list_elem_of_singleton. done.
  - intros [->|Hg]%elem_of_cons; [intros ->%list_elem_of_singleton ->%list_elem_of_singleton; done | by apply IH].
  - destruct (same_group f z) eqn:Ef.
    + intros [->|Hg]%elem_of_cons; [|apply IH; by right]. rewrite !(elem_of_cons (f :: h)).
      assert (Hf : forall w, w ∈ f :: h -> same_group z w = true).
      { intros w Hw. pose proof (IH (f :: h) f w ltac:(left) ltac:(left) Hw) as Hfw.
        rewrite same_group_spec in *. intuition congruence. }
      intros [->|Hx] [->|Hy]; [done | by apply Hf | | by apply (IH (f :: h)); [left|..]].
      apply Hf in Hx. rewrite same_group_spec in *. intuition congruence.
    + intros [->|Hg]%elem_of_cons; [intros ->%list_elem_of_singleton ->%list_elem_of_singleton; done | by apply IH].
Qed.

(** ** The loop over the groups *)

Section loop.
Context `{External} (decodes_again : string -> bool).

Abbreviation decodes d := (decodeObject decodes_again (layer_Values d.1) = Ok d.2).

Lemma decode_group_Ok g decoded :
  decode_group decodes_again g = Ok decoded ->
  decoded.*1 = g /\ Forall (fun d => decodes d) decoded.
Proof.
  revert decoded. induction g as [|l g IH]; cbn; intros decoded E; res_inv; simplify_eq; [done|].
  match goal with Hd : decode_group _ _ = Ok _ |- _ => destruct (IH _ Hd) as [<- Hall] end. by split; [|constructor].
Qed.

Lemma decode_group_Err g e :
  decode_group decodes_again g = Err e ->
  exists l e', l ∈ g /\ decodeObject decodes_again (layer_Values l) = Err e'.
Proof.
  induction g as [|l g IH]; cbn; [done|].
  destruct (decodeObject decodes_again (layer_Values l)) as [values|e'] eqn:El; cbn.
  - destruct (decode_group decodes_again g); cbn; [done|]. intros [= ->].
    destruct IH as (l' & e' & Hl & He); [done|]. exists l', e'. split; [by right | done].
  - intros _. exists l, e'. split; [left | done].
Qed.

Lemma merge_groups_inl root gs root' :
  merge_groups decodes_again root gs = inl root' ->
  exists docs, docs.*1 = concat gs /\ Forall (fun d => decodes d) docs /\ root' = foldl mergeObject root docs.*2 /\
    forall g, g ∈ gs -> exists dg, decode_group decodes_again g = Ok dg /\ findConflicts dg = [].
Proof.
  revert root. induction gs as [|g gs IH]; cbn; intros root E.
  { injection E as <-. exists []. split_and!; try done. by intros g ?%not_elem_of_nil. }
  destruct (decode_group decodes_again g) as [dg|] eqn:Eg; [|done].
  destruct (findConflicts dg) eqn:Ec; [|done].
  destruct (IH _ E) as (docs & Hd & Hall & -> & Hgs). destruct (decode_group_Ok _ _ Eg) as [<- Hdg].
  exists (dg ++ docs). rewrite !fmap_app, Hd, foldl_app. split_and!; [done | by apply Forall_app | |].
  - f_equal. clear. revert root. induction dg as [|d dg IH]; intros root; [done|]. apply IH.
  - intros g' [->|Hg']%elem_of_cons; [by exists dg | by apply Hgs].
Qed.

Lemma merge_groups_stop root gs x :
  merge_groups decodes_again root gs = inr x ->
  exists g, g ∈ gs /\
    match x with
    | inl e => decode_group decodes_again g = Err e
    | inr cs => exists dg, decode_group decodes_again g = Ok dg /\ findConflicts dg = cs /\ cs <> []
    end.
Proof.
  revert root. induction gs as [|g gs IH]; cbn; intros root E; [done|].
  destruct (decode_group decodes_again g) as [dg|e] eqn:Eg.
  - destruct (findConflicts dg) as [|c cs] eqn:Ec.
    + destruct (IH _ E) as (g' & Hg' & Hx). exists g'. split; [by right | done].
    + injection E as <-. exists g. split; [left|]. by exists dg.
  - injection E as <-. exists g. by split; [left|].
Qed.
End loop.

(** ** The theorem *)

(** A decoded object is a Go map: it has every key once. *)
Class DecoderLaws `{External} := {
  decode_wf : forall raw j, json_Decode raw = Some j -> wf_json j;
}.

Section theorem.
Set Default Proof Using "Type*".
Context `{ExternalLaws, !DecoderLaws} (decodes_again : string -> bool).

Abbreviation decode := (decodeObject decodes_again).
Abbreviation decodes d := (decodeObject decodes_again (layer_Values d.1) = Ok d.2).

Lemma decode_object_wf raw fields : decode raw = Ok fields -> wf_json (JObject fields).
Proof.
  unfold decodeObject. intros E. res_inv.
  destruct (json_Decode _) as [[]|] eqn:Ed; try done. res_inv. simplify_eq. by apply decode_wf in Ed.
Qed.

(** The effective values, layer by layer in their order. *)
Record effective (ordered : list Layer) (root : object) (docs : list (Layer * object)) (final : object) : Prop := {
  eff_layers : docs.*1 = ordered;
  eff_decoded : Forall (fun d => decodes d) docs;
  eff_decides : forall path before d after v, docs = before ++ d :: after ->
    get_path path d.2 = Some v -> is_leaf v -> Forall (untouched path) after.*2 ->
    get_path path final = Some v \/ v = JNull /\ get_path path final = None;
  eff_untouched : forall path, Forall (untouched path) docs.*2 -> get_path path final = get_path path root;
  eff_agree : forall d1 d2 path v1 v2, d1 ∈ docs -> d2 ∈ docs -> same_group d1.1 d2.1 = true ->
    get_path path d1.2 = Some v1 -> is_leaf v1 -> get_path path d2.2 = Some v2 -> is_leaf v2 ->
    equalJSON v1 v2 = true;
}.

(** A conflict names a leaf that two layers of one group set differently. *)
Definition explained (layers : list Layer) (c : Conflict) : Prop :=
  exists l1 l2 d1 d2 path v1 v2, l1 ∈ layers /\ l2 ∈ layers /\ same_group l1 l2 = true /\
    decode (layer_Values l1) = Ok d1 /\ decode (layer_Values l2) = Ok d2 /\
    get_path path d1 = Some v1 /\ get_path path d2 = Some v2 /\ equalJSON v1 v2 = false /\
    conflict_Path c = path_text "" path /\ conflict_Scope c = layer_Scope l2 /\
    conflict_Precedence c = layer_Precedence l2 /\
    layer_ID l1 ∈ conflict_LayerIDs c /\ layer_ID l2 ∈ conflict_LayerIDs c.

Lemma ordered_sorted layers : StronglySorted (key_le layer_key layer_lt) (sort_slice layer_less layers).
Proof. rewrite (sort_slice_ext _ _ _ layer_less_key). apply sort_slice_sorted, _. Qed.

Lemma docs_wf docs : Forall (fun d => decodes d) docs -> Forall (fun d => wf_json (JObject d)) docs.*2.
Proof.
  intros Hall. apply Forall_fmap. eapply Forall_impl; [exact Hall|]. intros d Hd.
  exact (decode_object_wf _ _ Hd).
Qed.

(** A leaf of a decoded group is visited. *)
Lemma leaf_visited dg l doc path v :
  Forall (fun d => decodes d) dg -> (l, doc) ∈ dg -> get_path path doc = Some v -> is_leaf v ->
  (l, (path_text "" path, v)) ∈ visits dg.
Proof.
  intros Hall Hin Hv Hleaf. apply elem_of_visits. exists doc. split; [done|].
  rewrite Forall_forall in Hall. pose proof (Hall _ Hin) as Hd. apply flatten_spec; [|by exists path].
  by eapply decode_object_wf.
Qed.

Lemma merged_effective ordered root root' :
  StronglySorted (key_le layer_key layer_lt) ordered -> Forall supported ordered ->
  merge_groups decodes_again root (groups ordered) = inl root' ->
  exists docs, effective ordered root docs root'.
Proof.
  intros Hsort Hsup (docs & Hd & Hall & -> & Hgs)%merge_groups_inl. rewrite groups_concat in Hd.
  exists docs. pose proof (docs_wf _ Hall) as Hwf. split; [done | done | | |].
  - intros path before d after v -> Hv Hleaf Hu. rewrite fmap_app, fmap_cons in *. by apply layers_decide.
  - intros path Hu. by apply layers_untouched.
  - intros [l1 d1] [l2 d2] path v1 v2 Hm1 Hm2 Hsame Hv1 Hleaf1 Hv2 Hleaf2. cbn in *.
    assert (Hin1 : l1 ∈ ordered) by (rewrite <- Hd; apply list_elem_of_fmap; by exists (l1, d1)).
    assert (Hin2 : l2 ∈ ordered) by (rewrite <- Hd; apply list_elem_of_fmap; by exists (l2, d2)).
    destruct (groups_same ordered l1 l2 Hsort Hsup Hin1 Hin2 Hsame) as (g & Hg & Hg1 & Hg2).
    destruct (Hgs g Hg) as (dg & Hdg & Hc). destruct (decode_group_Ok _ _ _ Hdg) as [<- Hdall].
    assert (Hmem : forall l d, (l, d) ∈ docs -> l ∈ dg.*1 -> (l, d) ∈ dg).
    { intros l d Hld ([l' d'] & Heq & Hl')%list_elem_of_fmap. cbn in Heq. subst l'.
      rewrite Forall_forall in Hall, Hdall. pose proof (Hall _ Hld) as E1. pose proof (Hdall _ Hl') as E2.
      cbn in E1, E2. congruence. }
    apply (findConflicts_agree dg l1 l2 (path_text "" path)); [exact Hc|..];
      [apply (leaf_visited dg l1 d1) | apply (leaf_visited dg l2 d2)]; auto.
Qed.

Lemma conflicts_explained ordered root cs :
  merge_groups decodes_again root (groups ordered) = inr (inr cs) ->
  cs <> [] /\ Forall (explained ordered) cs.
Proof.
  intros (g & Hg & dg & Hdg & <- & Hne)%merge_groups_stop. split; [done|]. apply Forall_forall. intros c Hc.
  destruct (decode_group_Ok _ _ _ Hdg) as [Hfst Hall].
  destruct (findConflicts_sound dg c Hc) as (_ & l1 & v1 & l2 & v2 & Hm1 & Hm2 & Hneq & Hid1 & Hid2 & Hs & Hp).
  apply elem_of_visits in Hm1 as (d1 & Hd1 & Hm1). apply elem_of_visits in Hm2 as (d2 & Hd2 & Hm2).
  rewrite Forall_forall in Hall. pose proof (Hall _ Hd1) as E1. pose proof (Hall _ Hd2) as E2. cbn in E1, E2.
  apply flatten_spec in Hm1 as (path & Ht & Hv1 & _); [|by eapply decode_object_wf].
  apply flatten_spec in Hm2 as (path' & Ht' & Hv2 & _); [|by eapply decode_object_wf].
  assert (path' = path) as -> by (apply path_text_inj; congruence).
  assert (Hin : forall l d, (l, d) ∈ dg -> l ∈ ordered).
  { intros l d Hld. rewrite <- (groups_concat ordered). apply list_elem_of_In, in_concat.
    exists g. rewrite <- !list_elem_of_In. split; [done|]. rewrite <- Hfst. apply list_elem_of_fmap. by exists (l, d). }
  exists l1, l2, d1, d2, path, v1, v2. split_and!; try done; [by eapply Hin | by eapply Hin|].
  apply (groups_uniform ordered g); [done|..]; rewrite <- Hfst; apply list_elem_of_fmap;
    [by exists (l1, d1) | by exists (l2, d2)].
Qed.

Lemma checked_supported layers u :
  res_iter check_layer layers = Ok u -> Forall supported (sort_slice layer_less layers).
Proof.
  intros Hall%res_iter_Ok. rewrite sort_slice_Permutation. eapply Forall_impl; [exact Hall|].
  intros l Hl. unfold check_layer in Hl. res_inv. bool_props. done.
Qed.

(** Layers with distinct identities have one order. *)
Lemma ordered_unique layers layers' :
  layers ≡ₚ layers' -> NoDup (layer_ID <$> layers) ->
  sort_slice layer_less layers = sort_slice layer_less layers'.
Proof.
  intros Hp Hnd. rewrite !(sort_slice_ext _ _ _ layer_less_key). apply sort_slice_unique; [apply _| |done].
  intros x y Hx Hy Hk. apply (NoDup_key_inj_on layer_ID layers Hnd x y Hx Hy).
  unfold layer_key in Hk. injection Hk as _ _ Hid. by apply uuid_String_inj.
Qed.

(** C37: layered configuration.  A merged result holds, under every path, what
    the last layer that speaks about it sets (a null removes it), and what the
    base holds where no layer does; the layers are applied in the order of
    scope, precedence and identity, the result lists them and their patches in
    that order and stays within the size limit; layers of one scope and
    precedence agree on every leaf both set.  A conflict error names only real
    disagreements: a leaf that two layers of one scope and precedence set
    differently, by its path and with both layers.  Any other error comes from a
    document or layer that is not acceptable or a result that is too large.  The
    outcome does not depend on the order in which acceptable layers with
    distinct identities are given. *)
Theorem Merge_correct base layers :
  let ordered := sort_slice layer_less layers in
  match Merge decodes_again base layers with
  | Merged r => exists root docs final,
      decode base = Ok root /\ effective ordered root docs final /\
      json_Marshal (JObject final) = Some (result_Values r) /\ slen (result_Values r) <= MaxDocumentBytes /\
      result_AppliedLayers r = map layer_ID ordered /\ result_Patches r = flat_map layer_Patches ordered
  | Conflicted cs => cs <> [] /\ Forall (explained layers) cs
  | Failed _ =>
      (exists e, decode base = Err e) \/
      (exists l e, l ∈ layers /\ (check_layer l = Err e \/ decode (layer_Values l) = Err e)) \/
      exists final, forall values, json_Marshal (JObject final) = Some values -> MaxDocumentBytes < slen values
  end /\
  (forall layers', layers ≡ₚ layers' -> NoDup (layer_ID <$> layers) ->
     Forall (fun l => check_layer l = Ok tt) layers ->
     Merge decodes_again base layers' = Merge decodes_again base layers).
Proof.
  cbn zeta. split; [unfold Merge|].
  - destruct (decode base) as [root|e] eqn:Eb; cbn; [|left; by exists e].
    destruct (res_iter check_layer layers) as [u|e] eqn:Ec.
    2:{ apply res_iter_Err in Ec as (l & Hl & He). right. left. exists l, e. auto. }
    destruct (merge_groups decodes_again root (groups (sort_slice layer_less layers)))
      as [final|[e|cs]] eqn:Em.
    + apply merged_effective in Em as [docs Heff]; [| apply ordered_sorted | by eapply checked_supported].
      unfold finish. destruct (json_Marshal (JObject final)) as [values|] eqn:Ev.
      2:{ right. right. exists final. by rewrite Ev. }
      destruct (MaxDocumentBytes <? slen values) eqn:El; bool_props.
      * right. right. exists final. rewrite Ev. by intros v [= <-].
      * exists root, docs, final. by split_and!.
    + apply merge_groups_stop in Em as (g & Hg & He). apply decode_group_Err in He as (l & e' & Hl & He).
      right. left. exists l, e'. split; [|by right]. rewrite <- (sort_slice_elem_of layer_less).
      rewrite <- (groups_concat (sort_slice _ _)). apply list_elem_of_In, in_concat.
      exists g. by rewrite <- !list_elem_of_In.
    + apply conflicts_explained in Em as [Hne Hall]. split; [done|]. eapply Forall_impl; [exact Hall|].
      intros c (l1 & l2 & Hr). exists l1, l2. by setoid_rewrite sort_slice_elem_of in Hr.
  - intros layers' Hp Hnd Hok. unfold Merge.
    rewrite (proj2 (res_iter_Ok check_layer layers tt) Hok).
    rewrite (proj2 (res_iter_Ok check_layer layers' tt)) by (by rewrite <- Hp).
    by rewrite (ordered_unique layers layers').
Qed.
End theorem.

(** ** Examples *)

#[local] Instance concrete_decoder : @DecoderLaws Concrete.external.
Proof. split. intros raw j [= <-]. cbn. split_and!; try done. apply NoDup_singleton. Qed.

Definition example_layer (id scope : string) (precedence : Z) (values : string) : Layer := {|
  layer_ID := UUID id; layer_Name := id; layer_Scope := scope; layer_ScopeID := uuid_Nil;
  layer_Precedence := precedence; layer_Values := values; layer_Patches := [id] |}.

Definition example_layers : list Layer :=
  [example_layer "c" "cluster" 5 "three"; example_layer "a" "project" 9 "one";
   example_layer "b" "project" 10 "two"].

Lemma Merge_correct_witness :
  @Merge Concrete.external (fun _ => false) "zero" (reverse example_layers) =
    @Merge Concrete.external (fun _ => false) "zero" example_layers /\
  match @Merge Concrete.external (fun _ => false) "zero" example_layers with
  | Merged r => result_AppliedLayers r = [UUID "a"; UUID "b"; UUID "c"] /\ result_Values r = "{raw:'three'}"
  | _ => False
  end.
Proof.
  split; [|vm_compute; done].
  apply (proj2 (@Merge_correct Concrete.external Concrete.external_laws concrete_decoder
    (fun _ => false) "zero" example_layers)).
  - symmetry. apply reverse_Permutation.
  - repeat (apply NoDup_cons; split; [rewrite ?not_elem_of_cons; repeat split; try discriminate;
      apply not_elem_of_nil |]). apply NoDup_nil. done.
  - repeat constructor.
Defined.

(** Two layers of one group that set a leaf differently are refused. *)
Lemma example_conflict :
  @Merge Concrete.external (fun _ => false) ""
    [example_layer "a" "group" 1 "one"; example_layer "b" "group" 1 "two"] =
  Conflicted [{| conflict_Path := "/raw"; conflict_Scope := "group"; conflict_Precedence := 1;
                 conflict_LayerIDs := [UUID "a"; UUID "b"] |}].
Proof. vm_compute. reflexivity. Qed.

(** The check compares leaves only: a leaf against an object under the same key,
    or a null against an addition below it, is no conflict, and then the
    identities of the layers decide. *)
Lemma shape_conflict_missed :
  let a := example_layer "a" "group" 1 "" in
  let b := example_layer "b" "group" 1 "" in
  let leaf := [("x", JRaw "1")] in
  let nested := [("x", JObject [("y", JRaw "2")])] in
  let removal := [("x", JObject [("z", JNull)])] in
  @findConflicts Concrete.external [(a, leaf); (b, nested)] = [] /\
  mergeObject leaf nested = nested /\ mergeObject nested leaf = leaf /\
  @findConflicts Concrete.external [(a, removal); (b, nested)] = [] /\
  mergeObject (mergeObject [] removal) nested = [("x", JObject [("z", JNull); ("y", JRaw "2")])] /\
  mergeObject (mergeObject [] nested) removal = nested.
Proof. vm_compute. split_and!; reflexivity. Qed.
End ConfigMergeFacts.
